(* ===== verification/_CoqProject ===== *)
-Q . S2P
Prelude.v
Mmu.v
Mem.v
PageAlloc.v
Kalloc.v
Vm.v
VmSpace.v
VmGrow.v
VmTheorems.v
Wmap.v
WmapTable.v
WmapCalls.v
Wunmap.v
PageFault.v
Pipe.v
Block.v
Bio.v
Ide.v
Log.v
LogCrash.v
LogTheorems.v
LogOps.v
Fs.v
FsTx.v
FsAlloc.v
FsBmap.v
FsFile.v
FsWrite.v
FsTheorems.v
Dir.v
Dinode.v
Mkfs.v
MkfsImage.v
Mount.v
Kernel.v
Sched.v
File.v
Args.v
SysFile.v
Proc.v
ProcInv.v
Exec.v
Syscall.v
Segments.v
Boot.v
Mp.v
Clock.v
Spinlock.v
Sleeplock.v
Ulib.v
Umalloc.v
Grep.v
Wc.v
Sh.v
ShRun.v
ShMain.v
Console.v
Kbd.v
Devices.v
Start.v
Main.v
