(* ===== verification/Prelude.v ===== *)
(** * Verification of the xv6 kernel with memory mapping (xv6-public)

    A model of the xv6 kernel, its boot loader, the program that makes its file
    system, and some of its user programs, translated from the C sources by hand
    into executable definitions, with theorems about them.  File names below are
    those of src/xv6-public.

    ** How the code is modelled

    Fallible and stateful code is in the monad [M S A] of this file: a function from
    a state to a result, which is a value with the new state, a panic, undefined
    behaviour, [Blocked] (the process has to wait and gives up the processor), or
    [Fuel] (a loop reached the bound that the model gives it).  [wp] is total
    correctness: the code returns, and the result satisfies the postcondition.
    [wpx] is total up to given panics, [wlp] is partial.  Integers are [Z], and every
    operation that can leave 32 bits is wrapped with [u32] or [i32].  What several
    processes or processors do at the same time is a step relation, with a step for
    each part of the code that a lock makes atomic (or, in [Spinlock], for each
    access to the lock itself).  In [ProcInv] a system call up to its next switch is
    one step: what fork and exit do while they do not hold ptable.lock concerns the
    calling process, or a slot that is EMBRYO, where others at most set the mark of
    kill.

    ** Parts and files

    - Memory.  [Mmu]: mmu.h, memlayout.h.  [Mem]: byte memory and string.c.
      [PageAlloc]: what the kernel expects of its page allocator, as a class;
      [Kalloc]: kalloc.c, which provides it.  [Vm], [VmSpace], [VmGrow],
      [VmTheorems]: the page tables of vm.c, against that class.
    - Memory mappings.  [Wmap], [WmapTable], [WmapCalls], [Wunmap]: the table of
      mappings and the calls wmap, wunmap, wremap, getwmapinfo and getpgdirinfo of
      sysfile.c; the table refines a sorted list.  [PageFault]: the page-fault case
      of trap.c.
    - Disk and files.  [Block]: blocks as bytes.  [Bio]: bio.c over memide.c.
      [Ide]: ide.c with its controller.  [Log], [LogCrash], [LogTheorems],
      [LogOps]: log.c, with crashes between any two writes.  [Fs], [FsTx],
      [FsAlloc], [FsBmap], [FsFile], [FsWrite], [FsTheorems], [Dir], [Dinode]: fs.c
      and fs.h.  [Mkfs], [MkfsImage]: mkfs.c.  [Mount]: a kernel on its image.
    - Processes and calls.  [Kernel]: the state (proc.h, file.h).  [Sched], [Proc],
      [ProcInv]: proc.c.  [File]: file.c.  [Pipe]: pipe.c.  [Args], [SysFile],
      [Syscall], [Exec]: syscall.c, sysfile.c, sysproc.c, trap.c, exec.c.
      [Spinlock], [Sleeplock]: spinlock.c, sleeplock.c.
    - Machine and start.  [Segments]: descriptors and gates.  [Boot]: bootmain.c.
      [Mp]: mp.c.  [Clock]: the clock in lapic.c.  [Devices]: uart.c, ioapic.c,
      picirq.c.  [Start]: lapic.c, startothers of main.c, mycpu of proc.c.  [Main]:
      main.c, which calls all of them.  [Console], [Kbd]: console.c, kbd.c, kbd.h.
    - User programs.  [Ulib]: ulib.c, printf.c.  [Umalloc]: umalloc.c.  [Grep], [Wc]:
      grep.c, wc.c, cat.c.  [Sh], [ShRun], [ShMain]: sh.c.

    ** What the theorems show

    - A transaction is on disk completely or not at all, whenever the machine stops,
      and recovery can itself be interrupted; the log has room for what the
      transactions in progress may write, up to the last block.  The buffer cache
      cannot be told from the disk, and the driver's queue refines that disk and
      serves every request in its turn.
    - The block allocator, reads, writes and directories do what their callers
      expect; and a kernel started on an image of mkfs reads by its path exactly the
      bytes that each file had.
    - Page tables: setting up, growing, copying and freeing address spaces neither
      lose nor share a page; mappings do not overlap, a fault at the beginning of a
      page loads it, and unmapping frees the run of pages counted as loaded.
    - Identifiers are unique, a parent's wait is not lost, the scheduler is fair,
      pipes keep the order of their bytes and lose no wake-up, locks exclude.
    - The boot loader loads the kernel; main finds the processors, starts each once,
      and accounts for every page; user code enters the kernel only by its gates.
    - malloc hands out disjoint blocks for requests of less than 2147483600 bytes; the
      shell parses its grammar and wires processes as the command says, while its
      children may read from its input; grep prints the lines that match; the
      keyboard types what is printed on its keys, and the console's buffer refines a
      queue of lines.
    - Some theorems show behaviour that is not meant: a fault at an address that is
      not page aligned maps a page that was not allocated; and with the log of an
      image of mkfs, three calls that use all the blocks begin_op admits panic.

    ** Bounds and fuel

    A loop that is not structural takes a number of rounds as an argument, computed
    where the loop is called from what it runs over: pages of a range, bytes left,
    directory entries, characters of a path or of a line, rounds for which a device
    is busy.  Wherever a theorem says that code returns (an equation with [Ret], or
    [wp]), its proof includes that the bound is enough.  The parser of the shell has
    [parse_fuel], five rounds for each character and five more, and the loop of the
    shell one more than the characters of its input; both are shown to be enough for
    every input.  A device answers within a delay that is a parameter.

    No theorem of this kind is stated for the calls in [SysFile], [File] and [Exec]
    or for fork's copying of mappings in [Proc]: these are executable definitions,
    and the theorems about processes speak of the steps that do complete.

    ** Not modelled

    - Assembly: bootasm.S, entry.S, initcode.S, swtch.S, trapasm.S, usys.S and the
      generated vectors.  Of entryother.S the loads of stack, entry point and page
      table are in [Start].  A context switch ends the run of the current process.
    - mpenter and mpmain, which call initialisers that are modelled and then the
      scheduler.  [Main] ends before the call of userinit, which is in [Proc].
    - The hardware is modelled only as far as the code relies on it: no caches, no
      reordering of memory accesses, no timing but the delays named above.
    - What panic and the prompt of the shell print.  The main functions of grep, wc
      and cat, which open files; strcpy, memset, memmove and stat of ulib.c.
    - usertests.c, stressfs.c, forktest.c and userprogram.c, which are tests; and
      init.c, ls.c, echo.c, kill.c, ln.c, mkdir.c, rm.c and zombie.c, which only make
      system calls and print. *)

From stdpp Require Import base gmap list strings relations.
From Stdlib Require Import ZArith Lia.

#[local] Open Scope Z_scope.

(** ** Machine integers

    The kernel is compiled for i386: [uint] and pointers are 32-bit unsigned,
    [int] is 32-bit two's complement.  A value of type [uint] is kept as a [Z]
    in [0, 2^32), an [int] as a [Z] in [-2^31, 2^31); every conversion or
    arithmetic result that can leave the range is wrapped explicitly. *)

Definition u32 (x : Z) : Z := x mod 4294967296.
Definition i32 (x : Z) : Z := (x + 2147483648) mod 4294967296 - 2147483648.

Definition is_u32 (x : Z) : Prop := 0 <= x < 4294967296.
Definition is_i32 (x : Z) : Prop := -2147483648 <= x < 2147483648.

(** [lia] with division and modulo by literals made visible to it. *)
Ltac dlia := Z.to_euclidean_division_equations; lia.
Ltac mlia := unfold u32, i32, is_u32, is_i32 in *; dlia.

(** Prove the conjuncts that are immediate, from left to right. *)
Ltac splits := repeat (split; [done|]).

Create HintDb xv6.
Create Rewrite HintDb xv6.

Lemma u32_range x : is_u32 (u32 x).
Proof. mlia. Qed.
Lemma i32_range x : is_i32 (i32 x).
Proof. mlia. Qed.
Lemma u32_small x : 0 <= x < 4294967296 -> u32 x = x.
Proof. mlia. Qed.
Lemma i32_small x : -2147483648 <= x < 2147483648 -> i32 x = x.
Proof. mlia. Qed.
Lemma u32_i32 x : u32 (i32 x) = u32 x.
Proof. mlia. Qed.
Lemma i32_u32 x : i32 (u32 x) = i32 x.
Proof. mlia. Qed.
Lemma u32_idemp x : u32 (u32 x) = u32 x.
Proof. mlia. Qed.

#[export] Hint Resolve u32_range i32_range : xv6.
#[export] Hint Rewrite u32_i32 i32_u32 u32_idemp : xv6.

(** C truth values: a test on an [int] is a test against zero. *)
Definition c_true (x : Z) : bool := negb (x =? 0).

(** ** Kernel computations

    A kernel routine is a function of its state.  It returns a value and the
    new state, or stops in [panic] (which spins for ever), or reaches a C
    construct without a meaning ([Undef]: null dereference, index out of an
    array, use of an uninitialised local), or sleeps with nobody left to wake it
    ([Blocked]), or exhausts the iteration bound the
    model gave one of its loops ([Fuel]; the theorems show the bounds are
    enough). *)

Inductive res (S A : Type) : Type :=
| Ret (a : A) (s : S)
| Panic (msg : string)
| Undef (why : string)
| Blocked (on : string)
| Fuel.
Arguments Ret {S A} a s.
Arguments Panic {S A} msg%_string.
Arguments Undef {S A} why%_string.
Arguments Blocked {S A} on%_string.
Arguments Fuel {S A}.

Definition M (S A : Type) : Type := S -> res S A.

#[export] Instance M_ret {S} : MRet (M S) := fun A a s => Ret a s.
#[export] Instance M_bind {S} : MBind (M S) := fun A B k m s =>
  match m s with
  | Ret a s' => k a s'
  | Panic msg => Panic msg
  | Undef why => Undef why
  | Blocked on => Blocked on
  | Fuel => Fuel
  end.

Definition panic {S A} (msg : string) : M S A := fun _ => Panic msg.
Definition undef {S A} (why : string) : M S A := fun _ => Undef why.
Arguments panic {S A} msg%_string.
Arguments undef {S A} why%_string.
Definition blocked {S A} (on : string) : M S A := fun _ => Blocked on.
Arguments blocked {S A} on%_string.
Definition nofuel {S A} : M S A := fun _ => Fuel.
Definition gets {S A} (f : S -> A) : M S A := fun s => Ret (f s) s.
Definition modify {S} (f : S -> S) : M S unit := fun s => Ret tt (f s).
Definition when {S} (b : bool) (m : M S unit) : M S unit :=
  if b then m else mret tt.

(** Run a computation on a part of a larger state. *)
Definition zoom {S T A} (get : S -> T) (put : T -> S -> S) (m : M T A) : M S A :=
  fun s => match m (get s) with
           | Ret a t => Ret a (put t s)
           | Panic msg => Panic msg
           | Undef why => Undef why
           | Blocked on => Blocked on
           | Fuel => Fuel
           end.

(** ** Total correctness

    [wp m Q s]: started in [s], [m] returns (no panic, no undefined behaviour,
    no exhausted bound) and its value and final state satisfy [Q]. *)
Definition wp {S A} (m : M S A) (Q : A -> S -> Prop) (s : S) : Prop :=
  match m s with Ret a s' => Q a s' | _ => False end.

Section Wp.
  Context {S : Type}.
  Implicit Type s : S.

Lemma wp_ret {A} (a : A) Q s : Q a s -> wp (mret a) Q s.
Proof. done. Qed.
Lemma wp_gets {A} (f : S -> A) Q s : Q (f s) s -> wp (gets f) Q s.
Proof. done. Qed.
Lemma wp_modify f Q s : Q tt (f s) -> wp (modify f) Q s.
Proof. done. Qed.
Lemma wp_bind {A B} (m : M S A) (k : A -> M S B) Q s :
  wp m (fun a s' => wp (k a) Q s') s -> wp (m ≫= k) Q s.
Proof. unfold wp, mbind, M_bind. destruct (m s); done. Qed.
Lemma wp_mono {A} (m : M S A) (Q Q' : A -> S -> Prop) s :
  wp m Q s -> (forall a s', Q a s' -> Q' a s') -> wp m Q' s.
Proof. unfold wp. destruct (m s); naive_solver. Qed.
Lemma wp_Ret {A} (m : M S A) Q s :
  wp m Q s <-> exists a s', m s = Ret a s' /\ Q a s'.
Proof. unfold wp. destruct (m s); naive_solver. Qed.
Lemma wp_when b m Q s :
  (b = true -> wp m Q s) -> (b = false -> Q tt s) -> wp (when b m) Q s.
Proof. destruct b; simpl; auto. intros _ H. by apply H. Qed.
End Wp.

Lemma wp_zoom {S T A} (get : S -> T) (put : T -> S -> S) (m : M T A) Q s :
  wp m (fun a t => Q a (put t s)) (get s) -> wp (zoom get put m) Q s.
Proof. unfold wp, zoom. by destruct (m (get s)). Qed.

(** One symbolic-execution step. *)
Ltac wp_step :=
  match goal with
  | |- wp (mbind _ _) _ _ => apply wp_bind
  | |- wp (mret _) _ _ => apply wp_ret
  | |- wp (gets _) _ _ => apply wp_gets
  | |- wp (modify _) _ _ => apply wp_modify
  end; cbv beta.
Ltac wp_steps := repeat wp_step.

(** Chain with a proved specification: [wp_use lem as [pat]]. *)
Tactic Notation "wp_use" uconstr(l) :=
  eapply wp_mono; [eapply l | cbv beta].

#[global] Arguments c_true : simpl never.
Lemma c_true_ne x : x <> 0 -> c_true x = true.
Proof. intros ?%Z.eqb_neq. unfold c_true. by rewrite H. Qed.
Lemma c_true_spec x : c_true x = true <-> x <> 0.
Proof. unfold c_true. rewrite negb_true_iff, Z.eqb_neq. done. Qed.
Lemma c_false_spec x : c_true x = false <-> x = 0.
Proof. unfold c_true. rewrite negb_false_iff, Z.eqb_eq. done. Qed.

(** ** Total correctness up to a panic

    [wpx E m Q s]: [m] returns with [Q], or stops in a panic whose message is in
    [E]. *)
Definition wpx {S A} (E : string -> Prop) (m : M S A) (Q : A -> S -> Prop) (s : S) : Prop :=
  match m s with Ret a s' => Q a s' | Panic msg => E msg | _ => False end.

Section Wpx.
  Context {S : Type} (E : string -> Prop).
  Implicit Type s : S.

Lemma wpx_wp {A} (m : M S A) Q s : wp m Q s -> wpx E m Q s.
Proof. unfold wp, wpx. by destruct (m s). Qed.
Lemma wpx_ret {A} (a : A) Q s : Q a s -> wpx E (mret a) Q s.
Proof. done. Qed.
Lemma wpx_gets {A} (f : S -> A) Q s : Q (f s) s -> wpx E (gets f) Q s.
Proof. done. Qed.
Lemma wpx_modify f Q s : Q tt (f s) -> wpx E (modify f) Q s.
Proof. done. Qed.
Lemma wpx_panic {A} msg (Q : A -> S -> Prop) s : E msg -> wpx E (panic msg) Q s.
Proof. done. Qed.
Lemma wpx_bind {A B} (m : M S A) (k : A -> M S B) Q s :
  wpx E m (fun a s' => wpx E (k a) Q s') s -> wpx E (m ≫= k) Q s.
Proof. unfold wpx, mbind, M_bind. destruct (m s); done. Qed.
Lemma wpx_mono {A} (m : M S A) (Q Q' : A -> S -> Prop) s :
  wpx E m Q s -> (forall a s', Q a s' -> Q' a s') -> wpx E m Q' s.
Proof. unfold wpx. destruct (m s); naive_solver. Qed.
End Wpx.
Lemma wpx_weaken {S A} (E E' : string -> Prop) (m : M S A) Q s :
  wpx E m Q s -> (forall msg, E msg -> E' msg) -> wpx E' m Q s.
Proof. unfold wpx. destruct (m s); naive_solver. Qed.
Lemma wpx_no_panic {S A} (m : M S A) Q s : wpx (fun _ => False) m Q s -> wp m Q s.
Proof. unfold wp, wpx. by destruct (m s). Qed.
Ltac wpx_step :=
  match goal with
  | |- wpx _ (mbind _ _) _ _ => apply wpx_bind
  | |- wpx _ (mret _) _ _ => apply wpx_ret
  | |- wpx _ (gets _) _ _ => apply wpx_gets
  | |- wpx _ (modify _) _ _ => apply wpx_modify
  end; cbv beta.
Ltac wpx_steps := repeat wpx_step.
(** Chain with a specification. *)
Tactic Notation "wpx_use" uconstr(l) := eapply wpx_mono; [eapply l | cbv beta].

(** ** Partial correctness

    [wlp m Q s]: if [m], started in [s], returns, then its value and final state
    satisfy [Q].  It serves invariants of step relations, where a step is a call
    that has returned. *)
Definition wlp {S A} (m : M S A) (Q : A -> S -> Prop) (s : S) : Prop :=
  match m s with Ret a s' => Q a s' | _ => True end.

Lemma wlp_Ret {S A} (m : M S A) Q s a s' : wlp m Q s -> m s = Ret a s' -> Q a s'.
Proof. unfold wlp. intros Hw Hr. by rewrite Hr in Hw. Qed.
Lemma wlp_ret {S A} (a : A) (Q : A -> S -> Prop) s : Q a s -> wlp (mret a) Q s.
Proof. done. Qed.
Lemma wlp_gets {S A} (f : S -> A) (Q : A -> S -> Prop) s : Q (f s) s -> wlp (gets f) Q s.
Proof. done. Qed.
Lemma wlp_modify {S} (f : S -> S) (Q : unit -> S -> Prop) s : Q tt (f s) -> wlp (modify f) Q s.
Proof. done. Qed.
Lemma wlp_bind {S A B} (m : M S A) (k : A -> M S B) Q s :
  wlp m (fun a s' => wlp (k a) Q s') s -> wlp (m ≫= k) Q s.
Proof. unfold wlp, mbind, M_bind. destruct (m s); done. Qed.
Lemma wlp_mono {S A} (m : M S A) (Q Q' : A -> S -> Prop) s :
  wlp m Q s -> (forall a s', Q a s' -> Q' a s') -> wlp m Q' s.
Proof. unfold wlp. destruct (m s); naive_solver. Qed.
Lemma wlp_zoom {S T A} (get : S -> T) (put : T -> S -> S) (m : M T A) Q s :
  (forall a t, m (get s) = Ret a t -> Q a (put t s)) -> wlp (zoom get put m) Q s.
Proof. unfold wlp, zoom. destruct (m (get s)); eauto. Qed.

(** A computation whose every run relates its states by [R]. *)
Definition steps_by {S A} (R : relation S) (m : M S A) : Prop := forall s a s', m s = Ret a s' -> R s s'.

Section StepsBy.
  Context {S : Type} (R : relation S) `{!PreOrder R}.

Lemma steps_ret {A} (a : A) : steps_by R (mret a).
Proof. intros s b s' [= _ <-]. done. Qed.
Lemma steps_gets {A} (f : S -> A) : steps_by R (gets f).
Proof. intros s b s' [= _ <-]. done. Qed.
Lemma steps_panic {A} msg : steps_by (A := A) R (panic msg).
Proof. intros s b s' Hr. done. Qed.
Lemma steps_undef {A} msg : steps_by (A := A) R (undef msg).
Proof. intros s b s' Hr. done. Qed.
Lemma steps_blocked {A} msg : steps_by (A := A) R (blocked msg).
Proof. intros s b s' Hr. done. Qed.
Lemma steps_nofuel {A} : steps_by (A := A) R nofuel.
Proof. intros s b s' Hr. done. Qed.
Lemma steps_modify f : (forall s, R s (f s)) -> steps_by R (modify f).
Proof. intros Hf s b s' [= _ <-]. apply Hf. Qed.
Lemma steps_bind {A B} (m : M S A) (k : A -> M S B) :
  steps_by R m -> (forall a, steps_by R (k a)) -> steps_by R (m ≫= k).
Proof.
  intros Hm Hk s b s'. unfold mbind, M_bind. destruct (m s) as [a s1| | | |] eqn:E; try done.
  intros Hr. etrans; [by eapply Hm|by eapply Hk].
Qed.
Lemma steps_when b m : steps_by R m -> steps_by R (when b m).
Proof. intros Hm. destruct b; [done|]. apply steps_ret. Qed.
Lemma steps_zoom {T A} (get : S -> T) (put : T -> S -> S) (m : M T A) :
  (forall s t, R s (put t s)) -> steps_by R (zoom get put m).
Proof. intros Hp s b s'. unfold zoom. destruct (m (get s)); [|done..]. intros [= _ <-]. apply Hp. Qed.
Lemma wlp_steps {A} (m : M S A) Q s :
  steps_by R m -> (forall a s', R s s' -> Q a s') -> wlp m Q s.
Proof. intros Hm HQ. unfold wlp. destruct (m s) eqn:E; [|done..]. eauto. Qed.
End StepsBy.

(** Follow the text of a computation. *)
Ltac steps_by_text :=
  repeat first
    [ solve [auto with steps]
    | apply steps_ret; apply _ | apply steps_gets; apply _ | apply steps_panic | apply steps_undef
    | apply steps_blocked | apply steps_nofuel
    | apply steps_bind; [apply _| |intros ?]
    | apply steps_when; [apply _|]
    | match goal with |- steps_by _ (match ?x with _ => _ end) => destruct x end
    | progress cbn beta iota zeta ].
Create HintDb steps.

(** One step of a partial-correctness proof. *)
Ltac wlp_step :=
  match goal with
  | |- wlp (mbind _ _) _ _ => apply wlp_bind
  | |- wlp (mret _) _ _ => apply wlp_ret
  | |- wlp (gets _) _ _ => apply wlp_gets
  | |- wlp (modify _) _ _ => apply wlp_modify
  end; cbv beta.
Ltac wlp_steps := repeat wlp_step.

(** ** Step relations

    A property that every step keeps holds in every reachable state. *)
Lemma rtc_preserves {A} (R : relation A) (P : A -> Prop) x y :
  (forall x y, R x y -> P x -> P y) -> rtc R x y -> P x -> P y.
Proof. intros Hstep. induction 1; eauto. Qed.
