(* ===== verification/Mmu.v ===== *)
(** * Address arithmetic of mmu.h and memlayout.h

    The macros that split a virtual address into page-directory index,
    page-table index and offset, round to page boundaries, convert between
    kernel virtual and physical addresses, and take page-table entries apart.
    The lemmas give each bit-level macro its arithmetic meaning. *)

From S2P Require Import Prelude.
From stdpp Require Import base list.
From Stdlib Require Import ZArith Lia.
#[local] Open Scope Z_scope.

Definition PGSIZE : Z := 4096.
Definition NPDENTRIES : Z := 1024.
Definition NPTENTRIES : Z := 1024.
Definition PTXSHIFT : Z := 12.
Definition PDXSHIFT : Z := 22.

Definition PTE_P : Z := 0x001.
Definition PTE_W : Z := 0x002.
Definition PTE_U : Z := 0x004.

Definition EXTMEM : Z := 0x100000.
Definition PHYSTOP : Z := 0xE000000.
Definition DEVSPACE : Z := 0xFE000000.
Definition KERNBASE : Z := 0x80000000.
Definition KERNLINK : Z := KERNBASE + EXTMEM.

Definition V2P (a : Z) : Z := u32 (u32 a - KERNBASE).
Definition P2V (a : Z) : Z := u32 (a + KERNBASE).

Definition PDX (va : Z) : Z := Z.land (Z.shiftr (u32 va) PDXSHIFT) 0x3FF.
Definition PTX (va : Z) : Z := Z.land (Z.shiftr (u32 va) PTXSHIFT) 0x3FF.
Definition PGADDR (d t o : Z) : Z :=
  u32 (Z.lor (Z.lor (Z.shiftl d PDXSHIFT) (Z.shiftl t PTXSHIFT)) o).

(** [PGROUNDUP] on an unsigned operand and, where the source applies it to an
    [int], on a signed one. *)
Definition PGROUNDUP (sz : Z) : Z := u32 (Z.land (u32 (sz + PGSIZE - 1)) (Z.lnot (PGSIZE - 1))).
Definition PGROUNDUP_int (sz : Z) : Z :=
  i32 (Z.land (i32 (sz + PGSIZE - 1)) (Z.lnot (PGSIZE - 1))).
Definition PGROUNDDOWN (a : Z) : Z := u32 (Z.land a (Z.lnot (PGSIZE - 1))).

Definition PTE_ADDR (pte : Z) : Z := Z.land (u32 pte) (u32 (Z.lnot 0xFFF)).
Definition PTE_FLAGS (pte : Z) : Z := Z.land (u32 pte) 0xFFF.

(** ** Arithmetic meaning of the bit operations *)

Ltac mmu_unfold := unfold V2P, P2V, KERNLINK, KERNBASE, PHYSTOP, PGSIZE, EXTMEM, DEVSPACE,
  PTE_P, PTE_W, PTE_U, NPDENTRIES, NPTENTRIES in *.
Ltac mmu_lia := mmu_unfold; mlia.

Lemma land_ones_mod x n : 0 <= n -> Z.land x (Z.ones n) = x mod 2 ^ n.
Proof. apply Z.land_ones. Qed.

Lemma land_lnot_low x n : 0 <= n -> Z.land x (Z.lnot (Z.ones n)) = x - x mod 2 ^ n.
Proof.
  intros Hn. rewrite <- Z.ldiff_land, Z.ldiff_ones_r by lia.
  rewrite Z.shiftl_mul_pow2, Z.shiftr_div_pow2 by lia.
  pose proof (Z.div_mod x (2 ^ n)). lia.
Qed.

Lemma PDX_eq va : PDX va = u32 va / 4194304.
Proof.
  unfold PDX, PDXSHIFT. change 0x3FF with (Z.ones 10).
  rewrite Z.shiftr_div_pow2, land_ones_mod by lia.
  change (2 ^ 22) with 4194304; change (2 ^ 10) with 1024. mlia.
Qed.

Lemma PTX_eq va : PTX va = (u32 va / 4096) mod 1024.
Proof.
  unfold PTX, PTXSHIFT. change 0x3FF with (Z.ones 10).
  rewrite Z.shiftr_div_pow2, land_ones_mod by lia. done.
Qed.

Lemma PGROUNDUP_eq sz : PGROUNDUP sz = u32 (sz + 4095) / 4096 * 4096.
Proof.
  unfold PGROUNDUP, PGSIZE. change (4096 - 1) with (Z.ones 12).
  rewrite land_lnot_low by lia. change (2 ^ 12) with 4096.
  replace (sz + 4096 - 1) with (sz + 4095) by lia. mlia.
Qed.

Lemma PGROUNDUP_int_eq sz : PGROUNDUP_int sz = i32 (sz + 4095) / 4096 * 4096.
Proof.
  unfold PGROUNDUP_int, PGSIZE. change (4096 - 1) with (Z.ones 12).
  rewrite land_lnot_low by lia. change (2 ^ 12) with 4096.
  replace (sz + 4096 - 1) with (sz + 4095) by lia. mlia.
Qed.

Lemma PGROUNDDOWN_eq a : 0 <= a < 4294967296 -> PGROUNDDOWN a = a / 4096 * 4096.
Proof.
  intros. unfold PGROUNDDOWN, PGSIZE. change (4096 - 1) with (Z.ones 12).
  rewrite land_lnot_low by lia. change (2 ^ 12) with 4096. mlia.
Qed.

Lemma PTE_FLAGS_eq pte : PTE_FLAGS pte = pte mod 4096.
Proof.
  unfold PTE_FLAGS. change 0xFFF with (Z.ones 12).
  rewrite land_ones_mod by lia. change (2 ^ 12) with 4096. mlia.
Qed.

Lemma PTE_ADDR_eq pte : PTE_ADDR pte = u32 pte / 4096 * 4096.
Proof.
  unfold PTE_ADDR.
  replace (u32 (Z.lnot 0xFFF)) with (Z.land (Z.ones 32) (Z.lnot (Z.ones 12))) by reflexivity.
  rewrite Z.land_assoc, land_ones_mod, land_lnot_low by lia.
  change (2 ^ 12) with 4096; change (2 ^ 32) with 4294967296. mlia.
Qed.

(** Or-ing together numbers that share no bit is addition. *)
Lemma lor_high_low x y k : 0 <= k -> x mod 2 ^ k = 0 -> 0 <= y < 2 ^ k -> Z.lor x y = x + y.
Proof.
  intros Hk Hx Hy. destruct (Z.eq_dec y 0) as [->|Hy0]; [by rewrite Z.lor_0_r, Z.add_0_r|].
  assert (Z.land x y = 0) as Hxy.
  { apply Z.bits_inj'; intros n Hn. rewrite Z.land_spec, Z.bits_0.
    destruct (Z.lt_ge_cases n k) as [Hlt|Hge].
    - pose proof (Z.div_mod x (2 ^ k)). replace x with (x / 2 ^ k * 2 ^ k) by lia.
      by rewrite Z.mul_pow2_bits_low.
    - rewrite (Z.bits_above_log2 y n), andb_false_r; [done|lia|].
      apply Z.log2_lt_pow2; [lia|].
      assert (2 ^ k <= 2 ^ n) by (apply Z.pow_le_mono_r; lia). lia. }
  by rewrite <- Z.lxor_lor, <- Z.add_nocarry_lxor.
Qed.

Lemma lor_page_flags pa fl : pa mod 4096 = 0 -> 0 <= fl < 4096 -> Z.lor pa fl = pa + fl.
Proof. intros. by apply (lor_high_low _ _ 12). Qed.

Lemma lor_flag_range fl : 0 <= fl < 4096 -> 0 <= Z.lor fl PTE_P < 4096.
Proof.
  intros Hfl. split; [apply Z.lor_nonneg; split; [lia|done]|]. apply (Z.log2_lt_cancel _ (2 ^ 12)).
  change (Z.log2 (2 ^ 12)) with 12. rewrite Z.log2_lor by (lia || done).
  change (Z.log2 PTE_P) with 0. apply Z.max_lub_lt; [|lia].
  destruct (Z.eq_dec fl 0) as [->|]; [done|]. apply Z.log2_lt_pow2; [lia|]. lia.
Qed.

Lemma PTE_ADDR_lor pa fl :
  pa mod 4096 = 0 -> 0 <= pa < 4294967296 -> 0 <= fl < 4096 -> PTE_ADDR (Z.lor pa fl) = pa.
Proof. intros. rewrite lor_page_flags, PTE_ADDR_eq by done. mlia. Qed.

Lemma PTE_FLAGS_lor pa fl :
  pa mod 4096 = 0 -> 0 <= fl < 4096 -> PTE_FLAGS (Z.lor pa fl) = fl.
Proof. intros. rewrite lor_page_flags, PTE_FLAGS_eq by done. dlia. Qed.

Lemma PGADDR_split d t o :
  0 <= d < 1024 -> 0 <= t < 1024 -> 0 <= o < 4096 ->
  PGADDR d t o = d * 4194304 + t * 4096 + o.
Proof.
  intros. unfold PGADDR, PDXSHIFT, PTXSHIFT. rewrite !Z.shiftl_mul_pow2 by lia.
  change (2 ^ 22) with 4194304; change (2 ^ 12) with 4096.
  rewrite <- Z.lor_assoc, (lor_page_flags (t * 4096) o) by dlia.
  rewrite (lor_high_low _ _ 22) by (change (2 ^ 22) with 4194304; dlia). mlia.
Qed.

(** Two virtual addresses name the same page-table entry exactly when they lie
    in the same page. *)
Lemma PDX_PTX_inj va va' :
  is_u32 va -> is_u32 va' ->
  PDX va = PDX va' -> PTX va = PTX va' -> va / 4096 = va' / 4096.
Proof.
  intros H H' Hd Ht. rewrite !PDX_eq in Hd. rewrite !PTX_eq in Ht.
  rewrite !u32_small in Hd, Ht by done. clear H H'. dlia.
Qed.

Lemma PDX_range va : 0 <= PDX va < 1024.
Proof. rewrite PDX_eq. mlia. Qed.
Lemma PTX_range va : 0 <= PTX va < 1024.
Proof. rewrite PTX_eq. mlia. Qed.
#[export] Hint Resolve PDX_range PTX_range : xv6.

(** [PGADDR] undoes the split of an address. *)
Lemma PGADDR_PDX_PTX va :
  is_u32 va -> PGADDR (PDX va) (PTX va) (va mod 4096) = va.
Proof.
  intros. rewrite PGADDR_split; [|auto with xv6..|dlia].
  rewrite PDX_eq, PTX_eq, u32_small by done. dlia.
Qed.
