(* ===== verification/Mem.v ===== *)
(** * Memory and the string routines

    The kernel's view of physical memory: bytes addressed by kernel virtual
    address (the direct map at [KERNBASE]), with 32-bit little-endian words on
    top, and the routines of string.c over it.  Memory that was never written
    reads as an arbitrary but fixed byte of the initial map. *)

From S2P Require Import Prelude Mmu.
From stdpp Require Import base gmap list.
From Stdlib Require Import ZArith Lia.
#[local] Open Scope Z_scope.

Notation mem := (gmap Z Z).

Definition ld8 (m : mem) (a : Z) : Z := default 0 (m !! a) mod 256.
Definition st8 (m : mem) (a v : Z) : mem := <[a := v mod 256]> m.

Definition ld32 (m : mem) (a : Z) : Z :=
  ld8 m a + 256 * ld8 m (a + 1) + 65536 * ld8 m (a + 2) + 16777216 * ld8 m (a + 3).
Definition st32 (m : mem) (a v : Z) : mem :=
  st8 (st8 (st8 (st8 m a v) (a + 1) (v / 256)) (a + 2) (v / 65536)) (a + 3) (v / 16777216).

(** ** string.c *)

(** [rep stosb] and [rep stosl] of x86.h. *)
Fixpoint stosb (m : mem) (addr data : Z) (cnt : nat) : mem :=
  match cnt with
  | O => m
  | S cnt => stosb (st8 m addr data) (addr + 1) data cnt
  end.
Fixpoint stosl (m : mem) (addr data : Z) (cnt : nat) : mem :=
  match cnt with
  | O => m
  | S cnt => stosl (st32 m addr data) (addr + 4) data cnt
  end.

Definition memset (m : mem) (dst c n : Z) : mem :=
  if (Z.rem (i32 dst) 4 =? 0) && (n mod 4 =? 0) then
    let c := Z.land c 0xFF in
    stosl m dst (Z.lor (Z.lor (Z.lor (Z.shiftl c 24) (Z.shiftl c 16)) (Z.shiftl c 8)) c)
      (Z.to_nat (n / 4))
  else stosb m dst c (Z.to_nat n).

Fixpoint memcmp_loop (m : mem) (s1 s2 : Z) (n : nat) : Z :=
  match n with
  | O => 0
  | S n => if ld8 m s1 =? ld8 m s2 then memcmp_loop m (s1 + 1) (s2 + 1) n
           else ld8 m s1 - ld8 m s2
  end.
Definition memcmp (m : mem) (v1 v2 n : Z) : Z := memcmp_loop m v1 v2 (Z.to_nat n).

(** The two copying loops of [memmove]: [*d++ = *s++] and [*--d = *--s]. *)
Fixpoint copy_up (m : mem) (d s : Z) (n : nat) : mem :=
  match n with
  | O => m
  | S n => copy_up (st8 m d (ld8 m s)) (d + 1) (s + 1) n
  end.
Fixpoint copy_down (m : mem) (d s : Z) (n : nat) : mem :=
  match n with
  | O => m
  | S n => copy_down (st8 m (d - 1) (ld8 m (s - 1))) (d - 1) (s - 1) n
  end.

Definition memmove (m : mem) (dst src n : Z) : mem :=
  if (src <? dst) && (dst <? src + n) then copy_down m (dst + n) (src + n) (Z.to_nat n)
  else copy_up m dst src (Z.to_nat n).

Fixpoint strncmp_loop (m : mem) (p q : Z) (n : nat) : Z :=
  match n with
  | O => 0
  | S n => if c_true (ld8 m p) && (ld8 m p =? ld8 m q) then strncmp_loop m (p + 1) (q + 1) n
           else ld8 m p - ld8 m q
  end.
Definition strncmp (m : mem) (p q n : Z) : Z := strncmp_loop m p q (Z.to_nat n).

Fixpoint strncpy_loop (m : mem) (s t : Z) (n : nat) : mem :=
  match n with
  | O => m
  | S n => let c := ld8 m t in
           let m := st8 m s c in
           if c_true c then strncpy_loop m (s + 1) (t + 1) n else stosb m (s + 1) 0 n
  end.
Definition strncpy (m : mem) (s t n : Z) : mem := strncpy_loop m s t (Z.to_nat n).

(** [safestrcpy]: the loop runs [--n > 0] times at most, then stores the NUL. *)
Fixpoint safestrcpy_loop (m : mem) (s t : Z) (n : nat) : mem :=
  match n with
  | O => st8 m s 0
  | S n => let c := ld8 m t in
           let m := st8 m s c in
           if c_true c then safestrcpy_loop m (s + 1) (t + 1) n else st8 m (s + 1) 0
  end.
Definition safestrcpy (m : mem) (s t n : Z) : mem :=
  if n <=? 0 then m else safestrcpy_loop m s t (Z.to_nat (n - 1)).

(** [strlen] scans up to the first NUL; [None] when none is found within the
    bound given. *)
Fixpoint strlen (fuel : nat) (m : mem) (s : Z) : option Z :=
  match fuel with
  | O => None
  | S fuel => if c_true (ld8 m s) then Z.succ <$> strlen fuel m (s + 1) else Some 0
  end.

(** ** Loads and stores *)

Lemma ld8_range m a : 0 <= ld8 m a < 256.
Proof. unfold ld8. dlia. Qed.
#[export] Hint Resolve ld8_range : xv6.

Lemma ld8_st8 m a v b : ld8 (st8 m a v) b = if decide (a = b) then v mod 256 else ld8 m b.
Proof.
  unfold ld8, st8. rewrite lookup_insert. case_decide; [|done]. cbn. dlia.
Qed.
Lemma ld8_st8_eq m a v : ld8 (st8 m a v) a = v mod 256.
Proof. rewrite ld8_st8. by case_decide. Qed.
Lemma ld8_st8_ne m a v b : a <> b -> ld8 (st8 m a v) b = ld8 m b.
Proof. intros. rewrite ld8_st8. by case_decide. Qed.

Lemma ld32_range m a : is_u32 (ld32 m a).
Proof.
  unfold is_u32, ld32.
  pose proof (ld8_range m a); pose proof (ld8_range m (a + 1));
  pose proof (ld8_range m (a + 2)); pose proof (ld8_range m (a + 3)). lia.
Qed.
#[export] Hint Resolve ld32_range : xv6.

(** A word depends only on its four bytes. *)
Lemma ld32_ext m m' a :
  (forall b, a <= b < a + 4 -> ld8 m b = ld8 m' b) -> ld32 m a = ld32 m' a.
Proof. intros H. unfold ld32. rewrite !H by lia. done. Qed.

Lemma ld8_st32 m a v b :
  ld8 (st32 m a v) b =
    if decide (a <= b < a + 4) then (v / 256 ^ (b - a)) mod 256 else ld8 m b.
Proof.
  unfold st32. rewrite !ld8_st8.
  repeat case_decide; try lia; try done; subst.
  - replace (a + 3 - a) with 3 by lia. done.
  - replace (a + 2 - a) with 2 by lia. done.
  - replace (a + 1 - a) with 1 by lia. done.
  - replace (b - b) with 0 by lia. by rewrite Z.div_1_r.
Qed.

Lemma ld32_st32_eq m a v : ld32 (st32 m a v) a = u32 v.
Proof.
  unfold ld32, st32.
  rewrite ld8_st8_eq, !ld8_st8_ne, !ld8_st8_eq, !ld8_st8_ne, !ld8_st8_eq, !ld8_st8_ne, ld8_st8_eq
    by lia.
  mlia.
Qed.
Lemma ld32_st32_ne m a v b : a + 4 <= b \/ b + 4 <= a -> ld32 (st32 m a v) b = ld32 m b.
Proof.
  intros. apply ld32_ext; intros c ?. rewrite ld8_st32. case_decide; [lia|done].
Qed.

(** ** What the string routines do *)

Lemma ld8_stosb m a d n b :
  ld8 (stosb m a d n) b = if decide (a <= b < a + Z.of_nat n) then d mod 256 else ld8 m b.
Proof.
  revert m a. induction n as [|n IH]; intros m a; cbn [stosb].
  - case_decide; [lia|done].
  - rewrite IH, ld8_st8. repeat case_decide; subst; lia || done.
Qed.

Lemma ld8_stosl m a v c n b :
  (forall k, 0 <= k < 4 -> (v / 256 ^ k) mod 256 = c) ->
  ld8 (stosl m a v n) b = if decide (a <= b < a + 4 * Z.of_nat n) then c else ld8 m b.
Proof.
  intros Hv. revert m a. induction n as [|n IH]; intros m a; cbn [stosl].
  - case_decide; [lia|done].
  - rewrite IH, ld8_st32. repeat case_decide; try lia; try done. apply Hv. lia.
Qed.

(** The word [memset] builds from its byte argument repeats that byte. *)
Lemma memset_word c : 0 <= c < 256 ->
  Z.lor (Z.lor (Z.lor (Z.shiftl c 24) (Z.shiftl c 16)) (Z.shiftl c 8)) c = c * 16843009.
Proof.
  intros. rewrite !Z.shiftl_mul_pow2 by lia.
  change (2 ^ 24) with 16777216; change (2 ^ 16) with 65536; change (2 ^ 8) with 256.
  rewrite (lor_high_low (c * 16777216) (c * 65536) 24), (lor_high_low _ (c * 256) 16),
    (lor_high_low _ c 8);
    change (2 ^ 24) with 16777216; change (2 ^ 16) with 65536; change (2 ^ 8) with 256; try dlia.
Qed.

Lemma ld8_memset m dst c n b :
  0 <= n ->
  ld8 (memset m dst c n) b = if decide (dst <= b < dst + n) then c mod 256 else ld8 m b.
Proof.
  intros Hn. unfold memset. destruct (_ && _) eqn:E.
  - apply andb_true_iff in E as [_ E%Z.eqb_eq].
    change 0xFF with (Z.ones 8). rewrite Z.land_ones by lia. change (2 ^ 8) with 256.
    rewrite memset_word by dlia. rewrite (ld8_stosl _ _ _ (c mod 256)).
    + repeat case_decide; done || dlia.
    + intros k Hk. assert (k = 0 \/ k = 1 \/ k = 2 \/ k = 3) as [-> | [-> | [-> | ->]]] by lia;
        [change (256 ^ 0) with 1|change (256 ^ 1) with 256|change (256 ^ 2) with 65536
        |change (256 ^ 3) with 16777216]; dlia.
  - rewrite ld8_stosb, Z2Nat.id by lia. done.
Qed.

Lemma ld32_memset_zero m dst n a :
  0 <= n -> dst <= a -> a + 4 <= dst + n -> ld32 (memset m dst 0 n) a = 0.
Proof.
  intros. unfold ld32. rewrite !ld8_memset by lia. repeat case_decide; lia || done.
Qed.
Lemma ld32_memset_out m dst c n a :
  0 <= n -> a + 4 <= dst \/ dst + n <= a -> ld32 (memset m dst c n) a = ld32 m a.
Proof.
  intros. apply ld32_ext; intros b ?. rewrite ld8_memset by lia. case_decide; [lia|done].
Qed.

Lemma ld8_copy_up m d s n b :
  d <= s \/ s + Z.of_nat n <= d ->
  ld8 (copy_up m d s n) b =
    if decide (d <= b < d + Z.of_nat n) then ld8 m (s + (b - d)) else ld8 m b.
Proof.
  revert m d s. induction n as [|n IH]; intros m d s Hov; cbn [copy_up].
  - case_decide; [lia|done].
  - rewrite IH by lia. rewrite !ld8_st8.
    repeat case_decide; try lia; subst; try (f_equal; lia).
    replace (s + (b - b)) with s by lia. pose proof (ld8_range m s). dlia.
Qed.

Lemma ld8_copy_down m d s n b :
  s <= d ->
  ld8 (copy_down m d s n) b =
    if decide (d - Z.of_nat n <= b < d) then ld8 m (s + (b - d)) else ld8 m b.
Proof.
  revert m d s. induction n as [|n IH]; intros m d s Hov; cbn [copy_down].
  - case_decide; [lia|done].
  - rewrite IH by lia. rewrite !ld8_st8.
    repeat case_decide; try lia; subst; try (f_equal; lia).
    replace (s + (d - 1 - d)) with (s - 1) by lia. pose proof (ld8_range m (s - 1)). dlia.
Qed.

(** [memmove] copies correctly whether or not the two areas overlap. *)
Lemma ld8_memmove m dst src n b :
  0 <= n ->
  ld8 (memmove m dst src n) b =
    if decide (dst <= b < dst + n) then ld8 m (src + (b - dst)) else ld8 m b.
Proof.
  intros Hn. unfold memmove. destruct (_ && _) eqn:E.
  - apply andb_true_iff in E as [?%Z.ltb_lt ?%Z.ltb_lt].
    rewrite ld8_copy_down, Z2Nat.id by lia. repeat case_decide; try lia; try done. f_equal; lia.
  - apply andb_false_iff in E. rewrite ld8_copy_up, Z2Nat.id by lia. done.
Qed.

(** [strncmp] returns 0 exactly when the two strings agree up to the first NUL
    or the bound. *)
Definition str_agree (m : mem) (p q n : Z) : Prop :=
  forall k, 0 <= k < n -> (forall j, 0 <= j < k -> ld8 m (p + j) <> 0) ->
            ld8 m (p + k) = ld8 m (q + k).

Lemma strncmp_loop_zero m p q n :
  strncmp_loop m p q n = 0 <-> str_agree m p q (Z.of_nat n).
Proof.
  revert p q. induction n as [|n IH]; intros p q; cbn [strncmp_loop].
  { split; [intros _ k ?; lia|done]. }
  unfold c_true. destruct (Z.eqb_spec (ld8 m p) 0) as [Hz|Hnz];
    destruct (Z.eqb_spec (ld8 m p) (ld8 m q)) as [He|Hne]; cbn [negb andb].
  - split; [|lia]. intros _ k Hk Hj. destruct (decide (k = 0)) as [->|].
    + by rewrite !Z.add_0_r.
    + exfalso. apply (Hj 0); [lia|]. by rewrite Z.add_0_r.
  - split; [lia|]. intros H. exfalso. apply Hne.
    rewrite <- (Z.add_0_r p), <- (Z.add_0_r q). apply H; lia.
  - rewrite IH. split; intros H k Hk Hj.
    + destruct (decide (k = 0)) as [->|]; [by rewrite !Z.add_0_r|].
      replace (p + k) with (p + 1 + (k - 1)) by lia. replace (q + k) with (q + 1 + (k - 1)) by lia.
      apply H; [lia|]. intros j ?. replace (p + 1 + j) with (p + (j + 1)) by lia. apply Hj. lia.
    + replace (p + 1 + k) with (p + (k + 1)) by lia. replace (q + 1 + k) with (q + (k + 1)) by lia.
      apply H; [lia|]. intros j ?. destruct (decide (j = 0)) as [->|]; [by rewrite Z.add_0_r|].
      replace (p + j) with (p + 1 + (j - 1)) by lia. apply Hj. lia.
  - split; [lia|]. intros H. exfalso. apply Hne.
    rewrite <- (Z.add_0_r p), <- (Z.add_0_r q). apply H; lia.
Qed.

(** [safestrcpy] writes only inside its destination and always leaves a NUL there. *)
Lemma safestrcpy_loop_frame m s t n b :
  b < s \/ s + Z.of_nat n < b -> ld8 (safestrcpy_loop m s t n) b = ld8 m b.
Proof.
  revert m s t. induction n as [|n IH]; intros m s t Hb; cbn [safestrcpy_loop].
  - apply ld8_st8_ne. lia.
  - destruct (c_true _); [rewrite IH by lia|rewrite ld8_st8_ne by lia];
      apply ld8_st8_ne; lia.
Qed.

Lemma safestrcpy_loop_nul m s t n :
  exists k, 0 <= k <= Z.of_nat n /\ ld8 (safestrcpy_loop m s t n) (s + k) = 0 /\
    (forall j, 0 <= j < k -> ld8 (safestrcpy_loop m s t n) (s + j) <> 0).
Proof.
  revert m s t. induction n as [|n IH]; intros m s t; cbn [safestrcpy_loop].
  - exists 0. rewrite Z.add_0_r, ld8_st8_eq. split; [lia|]. split; [done|]. intros; lia.
  - unfold c_true. destruct (Z.eqb_spec (ld8 m t) 0) as [Hz|Hnz]; cbn [negb].
    + exists 0. rewrite Z.add_0_r, ld8_st8_ne, ld8_st8_eq, Hz by lia.
      split; [lia|]. split; [done|]. intros; lia.
    + destruct (IH (st8 m s (ld8 m t)) (s + 1) (t + 1)) as (k & Hk & H0 & Hj).
      exists (k + 1). split; [lia|]. replace (s + (k + 1)) with (s + 1 + k) by lia.
      split; [done|]. intros j ?. destruct (decide (j = 0)) as [->|].
      * rewrite Z.add_0_r, safestrcpy_loop_frame, ld8_st8_eq by lia.
        pose proof (ld8_range m t). dlia.
      * replace (s + j) with (s + 1 + (j - 1)) by lia. apply Hj. lia.
Qed.
