(* ===== verification/PageAlloc.v ===== *)
(** * The page-allocator interface

    What the rest of the kernel relies on when it calls [kalloc] and [kfree]:
    a class of states that hold physical memory and an allocator, and the laws
    the allocator keeps.  vm.c, proc.c, trap.c and sysfile.c are modelled
    against this interface; [Kalloc] shows that kalloc.c provides it. *)

From S2P Require Import Prelude Mmu Mem.
From stdpp Require Import base gmap list strings.
From Stdlib Require Import ZArith Lia.
#[local] Open Scope Z_scope.

(** Symbols that kernel.ld defines: [data], the page-aligned start of the
    kernel's writable data, and [end], the first address after the kernel. *)
Class LinkerSymbols := { sym_data : Z; sym_end : Z }.
Class LinkerLayout `{LinkerSymbols} : Prop := {
  data_aligned : sym_data mod 4096 = 0;
  data_low : KERNLINK < sym_data;
  end_after_data : sym_data <= sym_end;
  end_high : sym_end < KERNBASE + PHYSTOP
}.

(** A page the allocator may hand out, and the addresses it covers. *)
Definition page_ok `{LinkerSymbols} (p : Z) : Prop :=
  p mod 4096 = 0 /\ sym_end <= p /\ p < KERNBASE + PHYSTOP.
Definition in_page (p a : Z) : Prop := p <= a < p + 4096.
(** Memories that agree on a set of addresses. *)
Definition agree_on (P : Z -> Prop) (m m' : mem) : Prop :=
  forall a, P a -> ld8 m' a = ld8 m a.

(** [n] consecutive pages from [p]. *)
Fixpoint page_run (p : Z) (n : nat) : list Z :=
  match n with O => [] | S n => p :: page_run (p + 4096) n end.

Class PageAlloc (S : Type) := {
  pa_mem : S -> mem;
  pa_set_mem : mem -> S -> S;
  pa_kalloc : M S Z;
  pa_kfree : Z -> M S unit;
  (** the pages the allocator holds, in the order it will hand them out *)
  free_pages : S -> list Z -> Prop;
  (** everything outside memory and allocator is the same *)
  same_rest : S -> S -> Prop
}.

Class PageAllocLaws (S : Type) `{LinkerSymbols, PageAlloc S} : Prop := {
  mem_set_mem m s : pa_mem (pa_set_mem m s) = m;
  same_rest_equiv :: Equivalence (@same_rest S _);
  same_rest_set_mem m s : same_rest s (pa_set_mem m s);
  free_pages_wf s l : free_pages s l -> NoDup l /\ Forall page_ok l;
  free_pages_set_mem s l m :
    free_pages s l -> agree_on (fun a => exists p, p ∈ l /\ in_page p a) (pa_mem s) m ->
    free_pages (pa_set_mem m s) l;
  kalloc_ok s l :
    free_pages s l ->
    wp pa_kalloc (fun r s' => r = hd 0 l /\ pa_mem s' = pa_mem s /\
                              free_pages s' (tl l) /\ same_rest s s') s;
  kfree_ok s l p :
    free_pages s l -> page_ok p -> p ∉ l ->
    wp (pa_kfree p) (fun _ s' => free_pages s' (p :: l) /\ same_rest s s' /\
                                 agree_on (fun a => ~ in_page p a) (pa_mem s) (pa_mem s')) s;
  kfree_bad s p : ~ page_ok p -> is_u32 p -> pa_kfree p s = Panic "kfree"
}.

(** Memory accesses of a state that holds memory. *)
Definition rd32 {S} `{PageAlloc S} (a : Z) : M S Z := gets (fun s => ld32 (pa_mem s) a).
Definition upd_mem {S} `{PageAlloc S} (f : mem -> mem) : M S unit :=
  modify (fun s => pa_set_mem (f (pa_mem s)) s).
Definition wr32 {S} `{PageAlloc S} (a v : Z) : M S unit := upd_mem (fun m => st32 m a v).

Lemma elem_of_page_run p n q :
  q ∈ page_run p n <-> exists i, 0 <= i < Z.of_nat n /\ q = p + 4096 * i.
Proof.
  revert p. induction n as [|n IH]; intros p; cbn [page_run].
  - split; [by intros ?%not_elem_of_nil|intros (i & ? & _); lia].
  - rewrite elem_of_cons, IH. split.
    + intros [->|(i & ? & ->)]; [exists 0|exists (i + 1)]; lia.
    + intros (i & Hi & ->). destruct (decide (i = 0)) as [->|]; [left; lia|].
      right. exists (i - 1). lia.
Qed.
Lemma length_page_run p n : length (page_run p n) = n.
Proof. revert p. induction n as [|n IH]; intros p; cbn; [done|]. by rewrite IH. Qed.
Lemma NoDup_page_run p n : NoDup (page_run p n).
Proof.
  revert p. induction n as [|n IH]; intros p; cbn [page_run]; [constructor|].
  apply NoDup_cons. split; [|apply IH]. rewrite elem_of_page_run. intros (i & ? & ?). lia.
Qed.

Section PageFacts.
  Context `{LinkerLayout}.

Lemma page_ok_range p :
  page_ok p -> p mod 4096 = 0 /\ KERNLINK < p /\ p + 4096 <= KERNBASE + PHYSTOP.
Proof.
  intros (Ha & He & Hp). pose proof data_low. pose proof end_after_data.
  repeat split; try lia. mmu_unfold. dlia.
Qed.
Lemma page_ok_nonzero p : page_ok p -> p <> 0.
Proof. intros ?%page_ok_range. mmu_unfold. lia. Qed.
Lemma page_ok_V2P p : page_ok p -> V2P p = p - KERNBASE.
Proof. intros ?%page_ok_range. mmu_lia. Qed.
Lemma page_ok_P2V_V2P p : page_ok p -> P2V (V2P p) = p.
Proof. intros ?%page_ok_range. mmu_lia. Qed.
Lemma page_ok_V2P_page p : page_ok p -> V2P p mod 4096 = 0 /\ is_u32 (V2P p).
Proof. intros Hp. rewrite page_ok_V2P by done. apply page_ok_range in Hp. mmu_lia. Qed.
Lemma page_disjoint p q a :
  p mod 4096 = 0 -> q mod 4096 = 0 -> p <> q -> in_page p a -> ~ in_page q a.
Proof. unfold in_page. intros. dlia. Qed.
End PageFacts.
