(* ===== verification/Kalloc.v ===== *)
(** * The physical page allocator (kalloc.c)

    The free list is threaded through the free pages themselves: the first
    word of a free page holds the address of the next one.  The abstract
    allocator is a list of pages; [free_rep] relates the two. *)

From S2P Require Import Prelude Mmu Mem PageAlloc.
From stdpp Require Import base gmap list strings.
From Stdlib Require Import ZArith Lia.
#[local] Open Scope Z_scope.

(** [struct kmem], with the physical memory its list lives in.  [lock] is the
    lock as the CPU running the code sees it: held by it, or not. *)
Record kmem := mkKmem { lock : bool; use_lock : bool; freelist : Z; kmem_mem : mem }.

Definition set_lock (b : bool) (k : kmem) : kmem :=
  mkKmem b (use_lock k) (freelist k) (kmem_mem k).
Definition set_use_lock (b : bool) (k : kmem) : kmem :=
  mkKmem (lock k) b (freelist k) (kmem_mem k).
Definition set_freelist (r : Z) (k : kmem) : kmem :=
  mkKmem (lock k) (use_lock k) r (kmem_mem k).
Definition set_kmem_mem (m : mem) (k : kmem) : kmem :=
  mkKmem (lock k) (use_lock k) (freelist k) m.

(** [acquire] and [release] of [kmem.lock] (spinlock.c panics when the CPU
    already holds the lock it acquires, or does not hold the one it releases). *)
Definition acquire_kmem : M kmem unit :=
  b ← gets lock; if (b : bool) then panic "acquire" else modify (set_lock true).
Definition release_kmem : M kmem unit :=
  b ← gets lock; if (b : bool) then modify (set_lock false) else panic "release".

Section Kalloc.
  Context `{LinkerSymbols}.

Definition kfree (v : Z) : M kmem unit :=
  if c_true (u32 v mod PGSIZE) || (v <? sym_end) || (V2P v >=? PHYSTOP) then panic "kfree"
  else
    _ ← modify (fun k => set_kmem_mem (memset (kmem_mem k) v 1 PGSIZE) k);
    ul ← gets use_lock;
    _ ← when ul acquire_kmem;
    let r := v in
    _ ← modify (fun k => set_kmem_mem (st32 (kmem_mem k) r (freelist k)) k);
    _ ← modify (set_freelist r);
    when ul release_kmem.

Definition kalloc : M kmem Z :=
  ul ← gets use_lock;
  _ ← when ul acquire_kmem;
  r ← gets freelist;
  _ ← when (c_true r) (modify (fun k => set_freelist (ld32 (kmem_mem k) r) k));
  _ ← when ul release_kmem;
  mret r.

Fixpoint freerange_loop (fuel : nat) (p vend : Z) : M kmem unit :=
  match fuel with
  | O => nofuel
  | S fuel => if p + PGSIZE <=? vend then _ ← kfree p; freerange_loop fuel (p + PGSIZE) vend
              else mret tt
  end.
Definition freerange (vstart vend : Z) : M kmem unit :=
  let p := PGROUNDUP vstart in
  freerange_loop (S (Z.to_nat ((vend - p) / PGSIZE))) p vend.

Definition kinit1 (vstart vend : Z) : M kmem unit :=
  _ ← modify (set_lock false);
  _ ← modify (set_use_lock false);
  freerange vstart vend.
Definition kinit2 (vstart vend : Z) : M kmem unit :=
  _ ← freerange vstart vend;
  modify (set_use_lock true).

(** ** The list a memory represents *)

Fixpoint free_rep (m : mem) (head : Z) (l : list Z) : Prop :=
  match l with
  | [] => head = 0
  | p :: l => head = p /\ free_rep m (ld32 m p) l
  end.

Definition kmem_free (k : kmem) (l : list Z) : Prop :=
  lock k = false /\ free_rep (kmem_mem k) (freelist k) l /\ NoDup l /\ Forall page_ok l.

Lemma free_rep_agree m m' h l :
  agree_on (fun a => exists p, p ∈ l /\ in_page p a) m m' -> free_rep m h l -> free_rep m' h l.
Proof.
  revert h. induction l as [|p l IH]; intros h Hag; cbn [free_rep]; [done|].
  intros [-> Hr]. split; [done|].
  replace (ld32 m' p) with (ld32 m p).
  - apply IH; [|done]. intros a (q & Hq & Hin). apply Hag. exists q. set_solver.
  - apply ld32_ext. intros b Hb. symmetry. apply Hag. exists p. split; [set_solver|].
    unfold in_page. lia.
Qed.

Section Laws.
  Context `{!LinkerLayout}.

Lemma kfree_check v : is_u32 v ->
  c_true (u32 v mod PGSIZE) || (v <? sym_end) || (V2P v >=? PHYSTOP) = false <-> page_ok v.
Proof.
  intros Hv. unfold page_ok, c_true. pose proof data_low. pose proof end_after_data.
  rewrite !orb_false_iff, negb_false_iff, Z.eqb_eq, Z.ltb_ge, Z.geb_leb, Z.leb_gt.
  rewrite u32_small by done. unfold is_u32 in Hv. split.
  - intros [[? ?] ?]. repeat split; [done|lia|]. mmu_lia.
  - intros (? & ? & ?). repeat split; [done|lia|]. mmu_lia.
Qed.

Lemma wp_acquire_when ul Q k :
  lock k = false -> Q tt (set_lock ul k) -> wp (when ul acquire_kmem) Q k.
Proof. destruct k as [lk ? ? ?], ul; cbn; intros -> HQ; exact HQ. Qed.
Lemma wp_release_when ul Q k :
  lock k = ul -> Q tt (set_lock false k) -> wp (when ul release_kmem) Q k.
Proof. destruct k as [lk ? ? ?], ul; cbn; intros -> HQ; exact HQ. Qed.

Lemma kalloc_free k l :
  kmem_free k l ->
  wp kalloc (fun r k' => r = hd 0 l /\ kmem_mem k' = kmem_mem k /\ kmem_free k' (tl l) /\
                         use_lock k' = use_lock k) k.
Proof.
  destruct k as [lk ul fl m]. intros (Hlk & Hrep & Hnd & Hok). cbn in Hlk, Hrep. subst lk.
  unfold kalloc. wp_steps. apply wp_acquire_when; [done|]. wp_steps. apply wp_when; cbn.
  - intros Hfl%c_true_spec. wp_steps. apply wp_release_when; [done|]. wp_steps.
    destruct l as [|p l]; cbn in Hrep; [done|]. destruct Hrep as [-> Hrep].
    apply NoDup_cons in Hnd as [_ Hnd]. apply Forall_cons in Hok as [Hp Hok]. done.
  - intros Hfl%c_false_spec. wp_steps. apply wp_release_when; [done|]. wp_steps.
    subst fl. destruct l as [|p l]; [done|]. cbn in Hrep. destruct Hrep as [<- Hrep].
    apply Forall_cons in Hok as [Hp%page_ok_nonzero Hok]. done.
Qed.

Lemma kfree_free k l p :
  kmem_free k l -> page_ok p -> p ∉ l ->
  wp (kfree p) (fun _ k' => kmem_free k' (p :: l) /\ use_lock k' = use_lock k /\
                  agree_on (fun a => ~ in_page p a) (kmem_mem k) (kmem_mem k')) k.
Proof.
  destruct k as [lk ul fl m]. intros (Hlk & Hrep & Hnd & Hok) Hp Hni. cbn in *. subst lk.
  pose proof (page_ok_range _ Hp) as (Hal & Hlo & Hhi).
  assert (is_u32 p) as Hu by (unfold is_u32; mmu_unfold; lia).
  unfold kfree. rewrite (proj2 (kfree_check p Hu)) by done.
  set (m' := st32 (memset m p 1 PGSIZE) p fl).
  assert (agree_on (fun a => ~ in_page p a) m m') as Hag.
  { intros a Ha. unfold in_page in Ha. unfold m'. rewrite ld8_st32, ld8_memset by done.
    unfold PGSIZE. repeat case_decide; lia || done. }
  assert (is_u32 fl) as Hfl.
  { destruct l as [|q l]; cbn in Hrep; [subst fl; unfold is_u32; lia|].
    destruct Hrep as [-> _]. apply Forall_cons in Hok as [Hq%page_ok_range _].
    unfold is_u32. mmu_unfold. lia. }
  assert (kmem_free (mkKmem false ul p m') (p :: l)) as Hfree.
  { split; [done|]. cbn. split; [split; [done|]|].
    - unfold m'. rewrite ld32_st32_eq, u32_small by done. apply (free_rep_agree m); [|done].
      intros a (q & Hq & Hin). apply Hag. apply (page_disjoint q); [..|done].
      + rewrite Forall_forall in Hok. by apply Hok.
      + done.
      + intros ->. done.
    - rewrite NoDup_cons, Forall_cons. done. }
  wp_steps. apply wp_acquire_when; [done|]. wp_steps. apply wp_release_when; [done|]. done.
Qed.

Lemma kfree_panics k p : ~ page_ok p -> is_u32 p -> kfree p k = Panic "kfree".
Proof.
  intros Hp Hu. unfold kfree. destruct (_ || _) eqn:E; [done|].
  exfalso. apply Hp. by apply (kfree_check p Hu).
Qed.

Lemma freerange_loop_free k l p n vend :
  kmem_free k l -> p + 4096 * Z.of_nat n <= vend < p + 4096 * Z.of_nat n + 4096 ->
  (forall q, q ∈ page_run p n -> page_ok q /\ q ∉ l) ->
  wp (freerange_loop (S n) p vend)
     (fun _ k' => kmem_free k' (rev (page_run p n) ++ l) /\ use_lock k' = use_lock k /\
                  agree_on (fun a => a < p) (kmem_mem k) (kmem_mem k')) k.
Proof.
  revert k l p. induction n as [|n IH]; intros k l p Hk Hv Hq.
  - cbn. replace (p + PGSIZE <=? vend) with false by (unfold PGSIZE; lia). done.
  - cbn [freerange_loop]. replace (p + PGSIZE <=? vend) with true by (unfold PGSIZE; lia).
    wp_step. destruct (Hq p) as [Hok Hni]; [cbn; set_solver|].
    wp_use (kfree_free _ l p); [done..|]. intros _ k' (Hk' & Hul & Hag).
    replace (p + PGSIZE) with (p + 4096) by done.
    wp_use (IH k' (p :: l)); [done|lia| |].
    + intros q Hin. destruct (Hq q) as [? ?]; [cbn; set_solver|]. split; [done|].
      rewrite not_elem_of_cons. split; [|done].
      apply elem_of_page_run in Hin as (i & ? & ->). lia.
    + intros _ k'' (Hk'' & Hul' & Hag'). cbn. rewrite <- app_assoc. cbn. split; [done|]. split; [congruence|].
      intros a Ha. rewrite Hag', Hag; [done| |]; unfold in_page; lia.
Qed.
End Laws.

(** ** Theorems *)
Section Theorems.
  Context `{!LinkerLayout}.

(** [kalloc] takes the first page off the free list, reports exhaustion as
    a null pointer, and changes no byte of memory; it cannot panic, spin on its
    own lock or hand out a page twice. *)
Theorem kalloc_pops k l :
  kmem_free k l ->
  exists k', kalloc k = Ret (hd 0 l) k' /\ kmem_free k' (tl l) /\ kmem_mem k' = kmem_mem k /\
             (hd 0 l = 0 <-> l = []) /\ hd 0 l ∉ tl l.
Proof.
  intros Hk. pose proof Hk as (_ & _ & Hnd & Hok).
  apply kalloc_free, wp_Ret in Hk as (r & k' & -> & -> & Hm & Hk' & _).
  exists k'. split; [done|]. split; [done|]. split; [done|]. destruct l as [|p l].
  - split; [done|]. apply not_elem_of_nil.
  - apply NoDup_cons in Hnd as [? _]. apply Forall_cons in Hok as [?%page_ok_nonzero _]. done.
Qed.

(** freeing a page and allocating again returns that page, with the rest
    of the free list and every byte outside the page as they were. *)
Theorem kfree_kalloc_roundtrip k l p :
  kmem_free k l -> page_ok p -> p ∉ l ->
  exists k1 k2, kfree p k = Ret tt k1 /\ kalloc k1 = Ret p k2 /\ kmem_free k2 l /\
                agree_on (fun a => ~ in_page p a) (kmem_mem k) (kmem_mem k2).
Proof.
  intros Hk Hp Hn.
  apply (kfree_free _ _ p), wp_Ret in Hk as ([] & k1 & H1 & Hk1 & _ & Hag); [|done..].
  apply kalloc_free, wp_Ret in Hk1 as (r & k2 & H2 & -> & Hm & Hk2 & _).
  exists k1, k2. rewrite Hm. done.
Qed.

(** [kinit1] on a fresh allocator puts exactly the whole pages of the
    range it is given on the free list, the highest first. *)
Theorem kinit1_collects k vstart vend :
  freelist k = 0 -> sym_end <= vstart <= vend -> vend <= KERNBASE + PHYSTOP ->
  let p := PGROUNDUP vstart in
  wp (kinit1 vstart vend)
     (fun _ k' => use_lock k' = false /\
        kmem_free k' (rev (page_run p (Z.to_nat ((vend - p) / 4096)))) /\
        agree_on (fun a => a < p) (kmem_mem k) (kmem_mem k')) k.
Proof.
  intros Hfl Hs He p. pose proof data_low. pose proof end_after_data.
  assert (p mod 4096 = 0 /\ vstart <= p < vstart + 4096) as [Hal Hp].
  { subst p. rewrite PGROUNDUP_eq. mmu_lia. }
  unfold kinit1. wp_steps. unfold freerange. fold p. change PGSIZE with 4096.
  destruct (Z.lt_ge_cases vend p) as [Hlt|Hge].
  - replace (Z.to_nat ((vend - p) / 4096)) with 0%nat by dlia.
    cbn. replace (p + PGSIZE <=? vend) with false by (unfold PGSIZE; lia).
    split; [done|]. split; [|done]. repeat split; [done|constructor|constructor].
  - wp_use (freerange_loop_free _ [] p).
    + repeat split; [done|constructor|constructor].
    + rewrite Z2Nat.id by dlia. dlia.
    + intros q Hq. split; [|apply not_elem_of_nil].
      apply elem_of_page_run in Hq as (i & Hi & ->). rewrite Z2Nat.id in Hi by dlia.
      split; [|split]; [dlia|lia|mmu_lia].
    + intros _ k' (Hk' & Hul & Hag). rewrite app_nil_r in Hk'. done.
Qed.
End Theorems.
End Kalloc.

(** kalloc.c provides the page-allocator interface. *)
#[export] Instance kmem_PageAlloc `{LinkerSymbols} : PageAlloc kmem := {
  pa_mem := kmem_mem;
  pa_set_mem := set_kmem_mem;
  pa_kalloc := kalloc;
  pa_kfree := kfree;
  free_pages := kmem_free;
  same_rest k k' := use_lock k' = use_lock k
}.

#[export] Instance kmem_PageAllocLaws `{LinkerLayout} : PageAllocLaws kmem.
Proof.
  split; cbn.
  - done.
  - split; [intros ?; done|intros ???; done|intros ? ? ? -> ->; done].
  - done.
  - intros s l (_ & _ & ? & ?). done.
  - intros s l m (? & Hr & ? & ?) Hag. split; [done|]. split; [|done].
    by apply (free_rep_agree (kmem_mem s)).
  - apply kalloc_free.
  - intros s l p Hl Hp Hn. eapply wp_mono; [by apply kfree_free|]. naive_solver.
  - intros. by apply kfree_panics.
Qed.

(** ** A concrete machine

    Three free pages, and a page directory [demo_dir] with one page table
    [demo_tab] that maps the first user page to [demo_frame]. *)

#[export] Instance demo_symbols : LinkerSymbols := {| sym_data := 0x80108000; sym_end := 0x80116000 |}.
#[export] Instance demo_layout : LinkerLayout.
Proof. split; done. Qed.

Definition demo_free : list Z := [0x80200000; 0x80203000; 0x80201000].
Definition demo_dir : Z := 0x80300000.
Definition demo_tab : Z := 0x80301000.
Definition demo_frame : Z := 0x80302000.
(** One page is mapped, the first one that entry [d] of the directory covers. *)
Definition demo_mem_at (d : Z) : mem :=
  st32 (st32 (st32 (st32 (st32 ∅ 0x80200000 0x80203000) 0x80203000 0x80201000) 0x80201000 0)
    demo_tab (V2P demo_frame + 7)) (demo_dir + 4 * d) (V2P demo_tab + 7).
Definition demo_mem : mem := demo_mem_at 0.
Definition demo : kmem := mkKmem false true 0x80200000 demo_mem.

Lemma demo_kmem_free : kmem_free demo demo_free.
Proof.
  split; [done|]. split; [vm_compute; done|]. split.
  - apply (bool_decide_unpack _). vm_compute. exact I.
  - repeat constructor; done.
Qed.

Lemma kalloc_pops_witness :
  exists k', kalloc demo = Ret 0x80200000 k' /\ kmem_free k' (tl demo_free).
Proof.
  destruct (kalloc_pops demo demo_free demo_kmem_free) as (k' & ? & ? & _). by exists k'.
Defined.

Lemma kfree_kalloc_roundtrip_witness :
  exists k1 k2, kfree 0x80400000 demo = Ret tt k1 /\ kalloc k1 = Ret 0x80400000 k2 /\
                kmem_free k2 demo_free.
Proof.
  destruct (kfree_kalloc_roundtrip demo demo_free 0x80400000) as (k1 & k2 & ? & ? & ? & _).
  - apply demo_kmem_free.
  - done.
  - apply (bool_decide_unpack _). vm_compute. exact I.
  - by exists k1, k2.
Defined.

Lemma kinit1_collects_witness :
  wp (kinit1 0x80116010 0x80119fff)
     (fun _ k' => use_lock k' = false /\ kmem_free k' [0x80118000; 0x80117000])
     (mkKmem false true 0 ∅).
Proof.
  wp_use (kinit1_collects (mkKmem false true 0 ∅) 0x80116010 0x80119fff); [done..|]. intros _ k' (Hu & Hk & _). by split.
Defined.
