(* ===== verification/Vm.v ===== *)
(** * Page tables and user address spaces (vm.c)

    Two-level i386 page tables in physical memory: a page directory of 1024
    words, each present entry pointing to a page table of 1024 words.  The
    operations of vm.c run on any state that provides the page-allocator
    interface of [PageAlloc].  [pt_lookup] is what the MMU finds for an address;
    the lemmas say how each operation changes it. *)

From S2P Require Import Prelude Mmu Mem PageAlloc.
From stdpp Require Import base gmap list strings.
From Stdlib Require Import ZArith Lia.
#[local] Open Scope Z_scope.

(** The first address that wmap serves; [freevm] stops there. *)
Definition MIN_ADDR : Z := 0x60000000.
Definition MAX_ADDR : Z := 0x80000000.

Section VmOps.
  Context {S : Type} `{LinkerSymbols} `{PageAlloc S}.

Definition walkpgdir (pgdir va alloc : Z) : M S Z :=
  let pde := pgdir + 4 * PDX va in
  e ← rd32 pde;
  if c_true (Z.land e PTE_P) then
    let pgtab := P2V (PTE_ADDR e) in mret (pgtab + 4 * PTX va)
  else if negb (c_true alloc) then mret 0
  else
    pgtab ← pa_kalloc;
    if pgtab =? 0 then mret 0
    else
      _ ← upd_mem (fun m => memset m pgtab 0 PGSIZE);
      _ ← wr32 pde (Z.lor (Z.lor (Z.lor (V2P pgtab) PTE_P) PTE_W) PTE_U);
      mret (pgtab + 4 * PTX va).

Fixpoint mappages_loop (fuel : nat) (pgdir a last pa perm : Z) : M S Z :=
  match fuel with
  | O => nofuel
  | Datatypes.S fuel =>
      pte ← walkpgdir pgdir a 1;
      if pte =? 0 then mret (-1)
      else
        e ← rd32 pte;
        if c_true (Z.land e PTE_P) then panic "remap"
        else
          _ ← wr32 pte (Z.lor (Z.lor pa perm) PTE_P);
          if a =? last then mret 0
          else mappages_loop fuel pgdir (u32 (a + PGSIZE)) last (u32 (pa + PGSIZE)) perm
  end.
Definition mappages (pgdir va size pa perm : Z) : M S Z :=
  let a := PGROUNDDOWN (u32 va) in
  let last := PGROUNDDOWN (u32 (u32 va + size - 1)) in
  mappages_loop (Datatypes.S (Z.to_nat (u32 (last - a) / PGSIZE))) pgdir a last pa perm.

(** [*pte] for a pointer that may be null. *)
Definition deref (pte : Z) : M S Z :=
  if pte =? 0 then undef "null pte" else rd32 pte.

(** The loop of [deallocuvm]; a missing page table skips to the next
    page-directory entry. *)
Fixpoint deallocuvm_loop (fuel : nat) (pgdir a oldsz : Z) : M S unit :=
  match fuel with
  | O => nofuel
  | Datatypes.S fuel =>
      if a <? oldsz then
        pte ← walkpgdir pgdir a 0;
        if pte =? 0 then
          let a := u32 (PGADDR (PDX a + 1) 0 0 - PGSIZE) in
          deallocuvm_loop fuel pgdir (u32 (a + PGSIZE)) oldsz
        else
          e ← rd32 pte;
          _ ← (if c_true (Z.land e PTE_P) then
                 let pa := PTE_ADDR e in
                 if pa =? 0 then panic "kfree"
                 else
                   let v := P2V pa in
                   _ ← pa_kfree v;
                   wr32 pte 0
               else mret tt);
          deallocuvm_loop fuel pgdir (u32 (a + PGSIZE)) oldsz
      else mret tt
  end.
Definition deallocuvm (pgdir oldsz newsz : Z) : M S Z :=
  if newsz >=? oldsz then mret oldsz
  else
    let a := PGROUNDUP newsz in
    _ ← deallocuvm_loop (Datatypes.S (Z.to_nat ((oldsz - a + PGSIZE - 1) / PGSIZE))) pgdir a oldsz;
    mret newsz.

(** Free the page tables: [for(i = 0; i < NPDENTRIES; i++)]. *)
Fixpoint freevm_tables (n : nat) (pgdir i : Z) : M S unit :=
  match n with
  | O => mret tt
  | Datatypes.S n =>
      e ← rd32 (pgdir + 4 * i);
      _ ← when (c_true (Z.land e PTE_P)) (pa_kfree (P2V (PTE_ADDR e)));
      freevm_tables n pgdir (i + 1)
  end.
Definition freevm (pgdir : Z) : M S unit :=
  if pgdir =? 0 then panic "freevm: no pgdir"
  else
    _ ← deallocuvm pgdir MIN_ADDR 0;
    _ ← freevm_tables (Z.to_nat NPDENTRIES) pgdir 0;
    pa_kfree pgdir.

(** The kernel's mappings: virtual start, physical start and end, permissions. *)
Record kmap_entry := mkKmap { virt : Z; phys_start : Z; phys_end : Z; perm : Z }.
Definition kmap : list kmap_entry :=
  [ mkKmap KERNBASE 0 EXTMEM PTE_W;
    mkKmap KERNLINK (V2P KERNLINK) (V2P sym_data) 0;
    mkKmap sym_data (V2P sym_data) PHYSTOP PTE_W;
    mkKmap DEVSPACE DEVSPACE 0 PTE_W ].

Fixpoint setupkvm_loop (ks : list kmap_entry) (pgdir : Z) : M S Z :=
  match ks with
  | [] => mret pgdir
  | k :: ks =>
      r ← mappages pgdir (virt k) (u32 (phys_end k - phys_start k)) (phys_start k) (perm k);
      if r <? 0 then _ ← freevm pgdir; mret 0 else setupkvm_loop ks pgdir
  end.
Definition setupkvm : M S Z :=
  pgdir ← pa_kalloc;
  if pgdir =? 0 then mret 0
  else
    _ ← upd_mem (fun m => memset m pgdir 0 PGSIZE);
    if P2V PHYSTOP >? DEVSPACE then panic "PHYSTOP too high"
    else setupkvm_loop kmap pgdir.

Definition inituvm (pgdir init sz : Z) : M S unit :=
  if sz >=? PGSIZE then panic "inituvm: more than a page"
  else
    mem ← pa_kalloc;
    _ ← upd_mem (fun m => memset m mem 0 PGSIZE);
    _ ← mappages pgdir 0 PGSIZE (V2P mem) (Z.lor PTE_W PTE_U);
    upd_mem (fun m => memmove m mem init sz).

(** [loaduvm] reads the segment with [readi ip dst off n] of fs.c. *)
Fixpoint loaduvm_loop (readi : Z -> Z -> Z -> Z -> M S Z) (fuel : nat)
    (pgdir addr ip offset sz i : Z) : M S Z :=
  match fuel with
  | O => nofuel
  | Datatypes.S fuel =>
      if i <? sz then
        pte ← walkpgdir pgdir (u32 (addr + i)) 0;
        if pte =? 0 then panic "loaduvm: address should exist"
        else
          e ← rd32 pte;
          let pa := PTE_ADDR e in
          let n := if sz - i <? PGSIZE then sz - i else PGSIZE in
          r ← readi ip (P2V pa) (u32 (offset + i)) n;
          if negb (r =? n) then mret (-1)
          else loaduvm_loop readi fuel pgdir addr ip offset sz (i + PGSIZE)
      else mret 0
  end.
Definition loaduvm (readi : Z -> Z -> Z -> Z -> M S Z) (pgdir addr ip offset sz : Z) : M S Z :=
  if c_true (addr mod PGSIZE) then panic "loaduvm: addr must be page aligned"
  else loaduvm_loop readi (Datatypes.S (Z.to_nat ((sz + PGSIZE - 1) / PGSIZE))) pgdir addr ip offset sz 0.

Fixpoint allocuvm_loop (fuel : nat) (pgdir a oldsz newsz : Z) : M S Z :=
  match fuel with
  | O => nofuel
  | Datatypes.S fuel =>
      if a <? newsz then
        mem ← pa_kalloc;
        if mem =? 0 then _ ← deallocuvm pgdir newsz oldsz; mret 0
        else
          _ ← upd_mem (fun m => memset m mem 0 PGSIZE);
          r ← mappages pgdir a PGSIZE (V2P mem) (Z.lor PTE_W PTE_U);
          if r <? 0 then
            _ ← deallocuvm pgdir newsz oldsz;
            _ ← pa_kfree mem;
            mret 0
          else allocuvm_loop fuel pgdir (u32 (a + PGSIZE)) oldsz newsz
      else mret newsz
  end.
Definition allocuvm (pgdir oldsz newsz : Z) : M S Z :=
  if newsz >=? KERNBASE then mret 0
  else if newsz <? oldsz then mret oldsz
  else
    let a := PGROUNDUP oldsz in
    allocuvm_loop (Datatypes.S (Z.to_nat ((newsz - a + PGSIZE - 1) / PGSIZE))) pgdir a oldsz newsz.

Definition clearpteu (pgdir uva : Z) : M S unit :=
  pte ← walkpgdir pgdir uva 0;
  if pte =? 0 then panic "clearpteu"
  else
    e ← rd32 pte;
    wr32 pte (Z.land e (Z.lnot PTE_U)).

Fixpoint copyuvm_loop (fuel : nat) (pgdir d sz i : Z) : M S Z :=
  match fuel with
  | O => nofuel
  | Datatypes.S fuel =>
      if i <? sz then
        pte ← walkpgdir pgdir i 0;
        if pte =? 0 then panic "copyuvm: pte should exist"
        else
          e ← rd32 pte;
          if negb (c_true (Z.land e PTE_P)) then panic "copyuvm: page not present"
          else
            let pa := PTE_ADDR e in
            let flags := PTE_FLAGS e in
            mem ← pa_kalloc;
            if mem =? 0 then _ ← freevm d; mret 0
            else
              _ ← upd_mem (fun m => memmove m mem (P2V pa) PGSIZE);
              r ← mappages d i PGSIZE (V2P mem) flags;
              if r <? 0 then _ ← pa_kfree mem; _ ← freevm d; mret 0
              else copyuvm_loop fuel pgdir d sz (u32 (i + PGSIZE))
      else mret d
  end.
Definition copyuvm (pgdir sz : Z) : M S Z :=
  d ← setupkvm;
  if d =? 0 then mret 0
  else copyuvm_loop (Datatypes.S (Z.to_nat ((sz + PGSIZE - 1) / PGSIZE))) pgdir d sz 0.

Definition uva2ka (pgdir uva : Z) : M S Z :=
  pte ← walkpgdir pgdir uva 0;
  e ← deref pte;
  if negb (c_true (Z.land e PTE_P)) then mret 0
  else if negb (c_true (Z.land e PTE_U)) then mret 0
  else mret (P2V (PTE_ADDR e)).

Fixpoint copyout_loop (fuel : nat) (pgdir va buf len : Z) : M S Z :=
  match fuel with
  | O => nofuel
  | Datatypes.S fuel =>
      if len >? 0 then
        let va0 := PGROUNDDOWN va in
        pa0 ← uva2ka pgdir va0;
        if pa0 =? 0 then mret (-1)
        else
          let n := PGSIZE - (va - va0) in
          let n := if n >? len then len else n in
          _ ← upd_mem (fun m => memmove m (pa0 + (va - va0)) buf n);
          copyout_loop fuel pgdir (u32 (va0 + PGSIZE)) (buf + n) (len - n)
      else mret 0
  end.
Definition copyout (pgdir va p len : Z) : M S Z :=
  copyout_loop (Z.to_nat (len / PGSIZE) + 3) pgdir va p len.

End VmOps.

(** ** What a page directory says *)

(** The page table that entry [i] of a page directory points to. *)
Definition pt_at (m : mem) (pgdir i : Z) : option Z :=
  let e := ld32 m (pgdir + 4 * i) in
  if c_true (Z.land e PTE_P) then Some (P2V (PTE_ADDR e)) else None.
(** The page-table entry for an address: where it is, and what it holds (0,
    which is not present, when there is no page table). *)
Definition pte_of (m : mem) (pgdir va : Z) : Z :=
  match pt_at m pgdir (PDX va) with Some t => t + 4 * PTX va | None => 0 end.
Definition pt_lookup (m : mem) (pgdir va : Z) : Z :=
  match pt_at m pgdir (PDX va) with Some t => ld32 m (t + 4 * PTX va) | None => 0 end.
Definition present (e : Z) : bool := c_true (Z.land e PTE_P).

Lemma lor_present e : present e = true -> Z.lor (PTE_FLAGS e) PTE_P = PTE_FLAGS e.
Proof.
  unfold present. rewrite c_true_spec. change PTE_P with (Z.ones 1).
  rewrite Z.land_ones, PTE_FLAGS_eq by lia. intros He.
  assert (e mod 4096 = Z.lor (2 * (e mod 4096 / 2)) (Z.ones 1)) as Hx.
  { rewrite (lor_high_low _ _ 1); [|lia|dlia|done]. change (Z.ones 1) with 1. dlia. }
  rewrite Hx at 1. by rewrite <- Z.lor_assoc, Z.lor_diag.
Qed.

(** A page directory whose tables are distinct pages of their own, none of
    them on the free list [l]. *)
Record pgdir_ok `{LinkerSymbols} (m : mem) (pgdir : Z) (l : list Z) : Prop := {
  pgdir_page : page_ok pgdir;
  pgdir_busy : pgdir ∉ l;
  pt_page i t : 0 <= i < 1024 -> pt_at m pgdir i = Some t -> page_ok t /\ t <> pgdir /\ t ∉ l;
  pt_inj i j t : 0 <= i < 1024 -> 0 <= j < 1024 ->
    pt_at m pgdir i = Some t -> pt_at m pgdir j = Some t -> i = j
}.

(** The bytes of the page directory and of its page tables. *)
Definition pt_byte (m : mem) (pgdir a : Z) : Prop :=
  in_page pgdir a \/ exists i t, 0 <= i < 1024 /\ pt_at m pgdir i = Some t /\ in_page t a.
Definition free_byte (l : list Z) (a : Z) : Prop := exists p, p ∈ l /\ in_page p a.

(** The page tables of entries [i .. i+n-1]. *)
Fixpoint tables (m : mem) (pgdir i : Z) (n : nat) : list Z :=
  match n with
  | O => []
  | Datatypes.S n =>
      match pt_at m pgdir i with
      | Some t => t :: tables m pgdir (i + 1) n
      | None => tables m pgdir (i + 1) n
      end
  end.

Lemma elem_of_tables m pgdir i n t :
  t ∈ tables m pgdir i n <-> exists j, i <= j < i + Z.of_nat n /\ pt_at m pgdir j = Some t.
Proof.
  revert i. induction n as [|n IH]; intros i; cbn [tables].
  { split; [by intros ?%not_elem_of_nil|intros (j & ? & _); lia]. }
  destruct (pt_at m pgdir i) as [u|] eqn:E; rewrite ?elem_of_cons, IH.
  - split.
    + intros [->|(j & ? & ?)]; [exists i|exists j]; split; done || lia.
    + intros (j & ? & Hj). destruct (decide (j = i)) as [->|]; [left; congruence|].
      right. exists j. split; [lia|done].
  - split; intros (j & ? & Hj); exists j; (split; [|done]); [lia|].
    destruct (decide (j = i)) as [->|]; [congruence|lia].
Qed.

Lemma tables_ext m m' pgdir i n :
  (forall j, i <= j < i + Z.of_nat n -> pt_at m' pgdir j = pt_at m pgdir j) ->
  tables m' pgdir i n = tables m pgdir i n.
Proof.
  revert i. induction n as [|n IH]; intros i He; [done|]. cbn. rewrite He by lia.
  rewrite IH; [done|]. intros. apply He. lia.
Qed.

Lemma tables_none m pgdir i n :
  (forall j, i <= j < i + Z.of_nat n -> pt_at m pgdir j = None) -> tables m pgdir i n = [].
Proof.
  revert i. induction n as [|n IH]; intros i He; [done|]. cbn. rewrite He by lia.
  apply IH. intros. apply He. lia.
Qed.

Lemma tables_insert m m' pgdir i n k t :
  i <= k < i + Z.of_nat n -> pt_at m pgdir k = None -> pt_at m' pgdir k = Some t ->
  (forall j, i <= j < i + Z.of_nat n -> j <> k -> pt_at m' pgdir j = pt_at m pgdir j) ->
  tables m' pgdir i n ≡ₚ t :: tables m pgdir i n.
Proof.
  revert i. induction n as [|n IH]; intros i Hk Hn Ht He; [lia|]. cbn [tables].
  destruct (decide (i = k)) as [->|Hne].
  - rewrite Hn, Ht. rewrite (tables_ext m m' pgdir (k + 1) n); [done|].
    intros j Hj. apply He; lia.
  - rewrite He by lia.
    assert (tables m' pgdir (i + 1) n ≡ₚ t :: tables m pgdir (i + 1) n) as HP
      by (apply IH; [lia|done|done|intros j Hj; apply He; lia]).
    destruct (pt_at m pgdir i); rewrite HP; [apply Permutation_swap|done].
Qed.

Lemma cons_app_perm {A} (x : A) u v : (x :: u) ++ v ≡ₚ u ++ x :: v.
Proof. apply Permutation_middle. Qed.

#[global] Opaque tables.

(** All page tables of a directory. *)
Definition all_tables (m : mem) (pgdir : Z) : list Z := tables m pgdir 0 (Z.to_nat NPDENTRIES).

Lemma all_tables_eq m pgdir : tables m pgdir 0 (Z.to_nat NPDENTRIES) = all_tables m pgdir.
Proof. unfold all_tables. reflexivity. Qed.

#[global] Opaque all_tables.

Section WalkFacts.
  Context {S : Type} `{LinkerLayout} `{!PageAlloc S} `{!PageAllocLaws S}.
  Implicit Types (s : S) (m : mem).

Lemma walkpgdir_noalloc s pgdir va :
  walkpgdir pgdir va 0 s = Ret (pte_of (pa_mem s) pgdir va) s.
Proof.
  unfold walkpgdir, rd32, gets, mbind, M_bind, pte_of, pt_at. cbv beta.
  destruct (c_true (Z.land _ _)); done.
Qed.

Lemma pt_at_ext m m' pgdir i :
  ld32 m' (pgdir + 4 * i) = ld32 m (pgdir + 4 * i) -> pt_at m' pgdir i = pt_at m pgdir i.
Proof. unfold pt_at. by intros ->. Qed.

Lemma agree_ld32 P m m' a :
  agree_on P m m' -> (forall b, a <= b < a + 4 -> P b) -> ld32 m' a = ld32 m a.
Proof. intros Hag HP. apply ld32_ext. intros b Hb. by apply Hag, HP. Qed.

(** Page directory and tables untouched: nothing the MMU sees changes. *)
Lemma pt_at_agree m m' pgdir l i :
  pgdir_ok m pgdir l -> agree_on (in_page pgdir) m m' -> 0 <= i < 1024 ->
  pt_at m' pgdir i = pt_at m pgdir i.
Proof.
  intros Hok Hag Hi. apply pt_at_ext. eapply agree_ld32; [done|].
  unfold in_page. intros; lia.
Qed.
Lemma pt_lookup_agree m m' pgdir l va :
  pgdir_ok m pgdir l -> agree_on (pt_byte m pgdir) m m' ->
  pt_lookup m' pgdir va = pt_lookup m pgdir va.
Proof.
  intros Hok Hag. pose proof (PDX_range va). pose proof (PTX_range va).
  assert (agree_on (in_page pgdir) m m') as Hag' by (intros a ?; apply Hag; by left).
  unfold pt_lookup. rewrite (pt_at_agree _ m' _ _ _ Hok) by done.
  destruct (pt_at m pgdir (PDX va)) as [t|] eqn:E; [|done].
  eapply agree_ld32; [exact Hag|]. intros b Hb. right. exists (PDX va), t.
  unfold in_page. repeat split; try done; lia.
Qed.
Lemma pgdir_ok_agree m m' pgdir l l' :
  pgdir_ok m pgdir l -> agree_on (in_page pgdir) m m' -> l' ⊆ l -> pgdir_ok m' pgdir l'.
Proof.
  intros Hok Hag Hl. split.
  - apply Hok.
  - intros ?%Hl. by apply (pgdir_busy _ _ _ Hok).
  - intros i t Hi. rewrite (pt_at_agree _ m' _ _ _ Hok) by done.
    intros Ht%(pt_page _ _ _ Hok); [|done]. set_solver.
  - intros i j t Hi Hj. rewrite !(pt_at_agree _ m' _ _ _ Hok) by done.
    by apply (pt_inj _ _ _ Hok).
Qed.

Lemma pt_byte_agree m m' pgdir l a :
  pgdir_ok m pgdir l -> agree_on (in_page pgdir) m m' ->
  pt_byte m' pgdir a <-> pt_byte m pgdir a.
Proof.
  intros Hok Hag. unfold pt_byte.
  split; (intros [?|(i & t & Hi & Ht & Ha)]; [by left|]); right; exists i, t;
    rewrite (pt_at_agree m m' pgdir l i) in *; done.
Qed.

(** The MMU looks at the page of an address only. *)
Lemma pt_lookup_page m pgdir va va' :
  is_u32 va -> is_u32 va' -> va / 4096 = va' / 4096 ->
  pt_lookup m pgdir va = pt_lookup m pgdir va'.
Proof.
  intros Hv Hv' He. unfold pt_lookup. rewrite !PDX_eq, !PTX_eq, !u32_small, He by done.
  replace (va / 4194304) with (va' / 4194304) by (clear -He; dlia). done.
Qed.

(** The word [walkpgdir] stores in the directory for a fresh table. *)
Lemma pde_value p :
  page_ok p -> Z.lor (Z.lor (Z.lor (V2P p) PTE_P) PTE_W) PTE_U = V2P p + 7.
Proof.
  intros Hp. destruct (page_ok_V2P_page p Hp). rewrite <- !Z.lor_assoc.
  change (Z.lor PTE_P (Z.lor PTE_W PTE_U)) with 7. apply lor_page_flags; [done|lia].
Qed.
Lemma land_PTE_P x : Z.land x PTE_P = x mod 2.
Proof. change PTE_P with (Z.ones 1). by rewrite Z.land_ones by lia. Qed.

(** Storing a new, zeroed table [t] in an empty directory slot. *)
Lemma pt_at_new m pgdir t i j :
  page_ok t -> page_ok pgdir -> 0 <= i < 1024 -> 0 <= j < 1024 ->
  pt_at (st32 m (pgdir + 4 * i) (V2P t + 7)) pgdir j =
    if decide (i = j) then Some t else pt_at m pgdir j.
Proof.
  intros Ht Hp Hi Hj. unfold pt_at. case_decide as Hij.
  - subst j. destruct (page_ok_V2P_page t Ht) as [Hal Hu].
    assert (u32 (V2P t + 7) = V2P t + 7) as Hv.
    { apply u32_small. rewrite page_ok_V2P in * by done.
      apply page_ok_range in Ht. mmu_unfold. lia. }
    rewrite ld32_st32_eq, Hv, land_PTE_P, c_true_ne by dlia.
    rewrite PTE_ADDR_eq, Hv. replace ((V2P t + 7) / 4096 * 4096) with (V2P t) by dlia.
    by rewrite page_ok_P2V_V2P.
  - rewrite ld32_st32_ne by lia. done.
Qed.

(** A memory update that leaves the free pages alone. *)
Lemma wp_upd_mem f Q s l :
  free_pages s l -> agree_on (free_byte l) (pa_mem s) (f (pa_mem s)) ->
  (forall s', free_pages s' l -> pa_mem s' = f (pa_mem s) -> same_rest s s' -> Q tt s') ->
  wp (upd_mem f) Q s.
Proof.
  intros Hl Hag HQ. apply wp_modify, HQ.
  - by apply free_pages_set_mem.
  - apply mem_set_mem.
  - apply same_rest_set_mem.
Qed.

(** ** Growing a page table

    The effect on a page directory, apart from what the MMU sees: page tables
    are taken from the free list, and nothing but the page directory, its
    tables and formerly free pages is written. *)
Record vm_step (pgdir : Z) (s : S) (l : list Z) (s' : S) (l' : list Z) : Prop := {
  vs_free : free_pages s' l';
  vs_ok : pgdir_ok (pa_mem s') pgdir l';
  vs_rest : same_rest s s';
  vs_suffix : l' `suffix_of` l;
  vs_tables : all_tables (pa_mem s') pgdir ++ l' ≡ₚ all_tables (pa_mem s) pgdir ++ l;
  vs_bytes a : pt_byte (pa_mem s') pgdir a -> pt_byte (pa_mem s) pgdir a \/ free_byte l a;
  vs_frame : agree_on (fun a => ~ pt_byte (pa_mem s) pgdir a /\ ~ free_byte l a)
               (pa_mem s) (pa_mem s')
}.

Lemma free_byte_suffix l l' a : l' `suffix_of` l -> free_byte l' a -> free_byte l a.
Proof.
  intros [k ->] (p & Hp & Ha). exists p. rewrite elem_of_app. auto.
Qed.

Lemma vm_step_refl pgdir s l :
  free_pages s l -> pgdir_ok (pa_mem s) pgdir l -> vm_step pgdir s l s l.
Proof. intros. split; try done; auto. Qed.

Lemma vm_step_trans pgdir s l s1 l1 s2 l2 :
  vm_step pgdir s l s1 l1 -> vm_step pgdir s1 l1 s2 l2 -> vm_step pgdir s l s2 l2.
Proof.
  intros H1 H2. split.
  - apply H2.
  - apply H2.
  - etrans; [apply H1|apply H2].
  - etrans; [apply H2|apply H1].
  - etrans; [apply H2|apply H1].
  - intros a [Ha|Ha]%(vs_bytes _ _ _ _ _ H2).
    + by apply (vs_bytes _ _ _ _ _ H1).
    + right. eapply free_byte_suffix; [apply H1|done].
  - intros a [Hp Hf]. rewrite (vs_frame _ _ _ _ _ H2); [by apply (vs_frame _ _ _ _ _ H1)|].
    split.
    + intros [?|?]%(vs_bytes _ _ _ _ _ H1); done.
    + intros ?. apply Hf. eapply free_byte_suffix; [apply H1|done].
Qed.

Lemma page_of_free l p a q :
  Forall page_ok l -> p ∈ l -> in_page p a -> page_ok q -> q ∉ l -> ~ in_page q a.
Proof.
  intros Hl Hp Ha Hq Hn. rewrite Forall_forall in Hl.
  apply (page_disjoint p); [apply Hl; done|apply Hq|by intros ->|done].
Qed.

(** A zeroed page becomes the page table of a directory entry that had none. *)
Lemma new_table m m3 pgdir l t va :
  pgdir_ok m pgdir (t :: l) -> page_ok t -> pt_at m pgdir (PDX va) = None ->
  m3 = st32 (memset m t 0 PGSIZE) (pgdir + 4 * PDX va) (V2P t + 7) ->
  (forall j, 0 <= j < 1024 -> pt_at m3 pgdir j = if decide (PDX va = j) then Some t else pt_at m pgdir j) /\
  (forall va', pt_lookup m3 pgdir va' = pt_lookup m pgdir va') /\
  agree_on (fun a => ~ in_page pgdir a /\ ~ in_page t a) m m3.
Proof.
  intros Hok Ht Hnone Hm3. pose proof (PDX_range va) as HD. assert (page_ok pgdir) as Hpg by apply Hok.
  pose proof (pgdir_busy _ _ _ Hok) as [Hpt Hpgl]%not_elem_of_cons.
  set (m2 := memset m t 0 PGSIZE) in *.
  assert (agree_on (fun a => ~ in_page t a) m m2) as Hag2.
  { intros a Ha. unfold m2. rewrite ld8_memset by done. unfold in_page, PGSIZE in *.
    case_decide; [lia|done]. }
  assert (agree_on (in_page pgdir) m m2) as Hagp.
  { intros a Ha. apply Hag2. apply (page_disjoint pgdir); [apply Hpg|apply Ht|done|done]. }
  assert (forall j, 0 <= j < 1024 -> pt_at m3 pgdir j =
            if decide (PDX va = j) then Some t else pt_at m pgdir j) as Hpt3.
  { intros j Hj. rewrite Hm3, pt_at_new by done. case_decide; [done|].
    by apply (pt_at_agree _ _ _ _ _ Hok). }
  split; [exact Hpt3|]. split.
  - intros va'. pose proof (PDX_range va'). pose proof (PTX_range va').
    unfold pt_lookup. rewrite Hpt3 by done. case_decide as Hd.
    + rewrite <- Hd, Hnone, Hm3, ld32_st32_ne.
      * apply ld32_memset_zero; unfold PGSIZE; lia.
      * destruct Ht as [? _], Hpg as [? _]. dlia.
    + destruct (pt_at m pgdir (PDX va')) as [u|] eqn:Hu; [|done].
      apply (pt_page _ _ _ Hok) in Hu as ([Hua _] & Hu2 & Hu3); [|done].
      apply not_elem_of_cons in Hu3 as [Hu3 _]. destruct Ht as [Hta _], Hpg as [Hpa _].
      rewrite Hm3, ld32_st32_ne by dlia. apply (agree_ld32 _ _ _ _ Hag2).
      intros b Hb. unfold in_page. dlia.
  - intros a [Ha Ha']. rewrite Hm3, ld8_st32, decide_False by (unfold in_page in Ha; lia). by apply Hag2.
Qed.
Lemma new_table_step s s3 l pgdir t va :
  free_pages s3 l -> same_rest s s3 -> pgdir_ok (pa_mem s) pgdir (t :: l) -> page_ok t -> t ∉ l -> pt_at (pa_mem s) pgdir (PDX va) = None ->
  (forall j, 0 <= j < 1024 -> pt_at (pa_mem s3) pgdir j = if decide (PDX va = j) then Some t else pt_at (pa_mem s) pgdir j) ->
  agree_on (fun a => ~ in_page pgdir a /\ ~ in_page t a) (pa_mem s) (pa_mem s3) -> vm_step pgdir s (t :: l) s3 l.
Proof.
  intros Hl3 Hr Hok Ht Htl Hnone Hpt3 Hag. pose proof (PDX_range va) as HD. pose proof (pgdir_busy _ _ _ Hok) as [Hpt Hpgl]%not_elem_of_cons.
  split.
  - done.
  - split; [apply Hok|done|..].
    + intros i u Hi. rewrite Hpt3 by done. case_decide; [by intros [= <-]|].
      intros (? & ? & [_ ?]%not_elem_of_cons)%(pt_page _ _ _ Hok); done.
    + intros i j u Hi Hj. rewrite !Hpt3 by done. repeat case_decide; subst; try done.
      * intros [= <-] (? & ? & [? _]%not_elem_of_cons)%(pt_page _ _ _ Hok); done.
      * intros (? & ? & [? _]%not_elem_of_cons)%(pt_page _ _ _ Hok) [= <-]; done.
      * by apply (pt_inj _ _ _ Hok).
  - done.
  - by exists [t].
  - rewrite <- !all_tables_eq. rewrite (tables_insert (pa_mem s) (pa_mem s3) pgdir _ _ (PDX va) t).
    + apply cons_app_perm.
    + rewrite Z2Nat.id by done. exact HD.
    + done.
    + rewrite Hpt3, decide_True by done. done.
    + intros j Hj Hjd. rewrite Z2Nat.id in Hj by done.
      rewrite Hpt3, decide_False; [done|congruence|]. unfold NPDENTRIES in Hj. lia.
  - intros a [Ha|(i & u & Hi & Hu & Ha)]; [left; by left|]. rewrite Hpt3 in Hu by done.
    case_decide; [injection Hu as <-; right; exists t; split; [by left|done]|].
    left. right. by exists i, u.
  - intros a [Ha Hf]. apply Hag. split; [contradict Ha; by left|]. intros Hin. apply Hf. exists t. split; [by left|done].
Qed.
Lemma walkpgdir_alloc s l pgdir va :
  free_pages s l -> pgdir_ok (pa_mem s) pgdir l ->
  wp (walkpgdir pgdir va 1) (fun pte s' => exists l',
    vm_step pgdir s l s' l' /\
    (forall va', pt_lookup (pa_mem s') pgdir va' = pt_lookup (pa_mem s) pgdir va') /\
    (forall j, 0 <= j < 1024 -> j <> PDX va -> pt_at (pa_mem s') pgdir j = pt_at (pa_mem s) pgdir j) /\
    (pte = 0 /\ l' = [] \/ pte = pte_of (pa_mem s') pgdir va /\ pte <> 0)) s.
Proof.
  intros Hl Hok. pose proof (PDX_range va) as HD. pose proof (PTX_range va) as HT.
  pose proof (free_pages_wf _ _ Hl) as [Hnd Hfp].
  unfold walkpgdir, rd32. wp_steps. destruct (c_true (Z.land _ _)) eqn:E.
  { wp_steps. exists l. split; [by apply vm_step_refl|]. split; [done|]. split; [done|]. right.
    assert (pt_at (pa_mem s) pgdir (PDX va)
            = Some (P2V (PTE_ADDR (ld32 (pa_mem s) (pgdir + 4 * PDX va))))) as Hat
      by (unfold pt_at; by rewrite E).
    unfold pte_of. rewrite Hat. split; [done|].
    apply (pt_page _ _ _ Hok) in Hat as [Hp%page_ok_range _]; [|done]. mmu_unfold. lia. }
  change (negb (c_true 1)) with false. cbv iota.
  assert (pt_at (pa_mem s) pgdir (PDX va) = None) as Hnone by (unfold pt_at; by rewrite E).
  wp_step. wp_use kalloc_ok; [done|]. intros t s1 (-> & Hm1 & Hl1 & Hr1).
  destruct l as [|t l]; cbn [hd tl] in *.
  { cbn. exists []. rewrite Hm1. split; [|auto]. split; rewrite ?Hm1; try done; auto. }
  apply NoDup_cons in Hnd as [Htl Hnd]. apply Forall_cons in Hfp as [Ht Hfp].
  pose proof (page_ok_nonzero _ Ht) as Hne. apply Z.eqb_neq in Hne as ->.
  assert (page_ok pgdir) as Hpg by apply Hok. pose proof (pgdir_busy _ _ _ Hok) as Hpgl.
  apply not_elem_of_cons in Hpgl as [Hpt Hpgl].
  wp_step. apply (wp_upd_mem _ _ _ l Hl1).
  { intros a (p & Hp & Ha). rewrite ld8_memset by done. unfold PGSIZE.
    case_decide as Hin; [|done]. by destruct (page_of_free l p a t). }
  intros s2 Hl2 Hm2 Hr2. rewrite Hm1 in Hm2.
  wp_step. apply (wp_upd_mem _ _ _ l Hl2).
  { intros a (p & Hp & Ha). rewrite ld8_st32. case_decide as Hin; [|done].
    destruct (page_of_free l p a pgdir); try done. unfold in_page. lia. }
  intros s3 Hl3 Hm3 Hr3. rewrite Hm2, pde_value in Hm3 by done. wp_step.
  destruct (new_table _ _ pgdir l t va Hok Ht Hnone Hm3) as (Hpt3 & Hlk3 & Hag3).
  exists l. split; [apply (new_table_step _ _ _ _ _ va); try done; by rewrite Hr1, Hr2|]. split; [exact Hlk3|]. split.
  - intros j Hj Hjd. rewrite Hpt3, decide_False; congruence || done.
  - right. unfold pte_of. rewrite Hpt3 by done. rewrite decide_True by done.
    split; [done|]. apply page_ok_range in Ht. mmu_unfold. lia.
Qed.

Lemma pte_of_Some m pgdir l va :
  pgdir_ok m pgdir l -> pte_of m pgdir va <> 0 ->
  exists t, pt_at m pgdir (PDX va) = Some t /\ pte_of m pgdir va = t + 4 * PTX va /\
            page_ok t /\ t <> pgdir /\ t ∉ l.
Proof.
  unfold pte_of. destruct (pt_at m pgdir (PDX va)) as [t|] eqn:E; [|done].
  intros Hok _. exists t. apply (pt_page _ _ _ Hok) in E; [done|]. apply PDX_range.
Qed.

Lemma pt_lookup_pte m pgdir va :
  pte_of m pgdir va <> 0 -> ld32 m (pte_of m pgdir va) = pt_lookup m pgdir va.
Proof. unfold pte_of, pt_lookup. by destruct (pt_at m pgdir (PDX va)). Qed.

(** Writing the page-table entry of [va] changes what the MMU finds in the
    page of [va], and nothing else. *)
Lemma wp_wr_pte s l pgdir va v Q :
  free_pages s l -> pgdir_ok (pa_mem s) pgdir l -> is_u32 va ->
  pte_of (pa_mem s) pgdir va <> 0 ->
  (forall s', vm_step pgdir s l s' l ->
     agree_on (in_page pgdir) (pa_mem s) (pa_mem s') ->
     agree_on (fun a => ~ pt_byte (pa_mem s) pgdir a) (pa_mem s) (pa_mem s') ->
     (forall va', is_u32 va' -> pt_lookup (pa_mem s') pgdir va' =
        if decide (va' / 4096 = va / 4096) then u32 v else pt_lookup (pa_mem s) pgdir va') ->
     Q tt s') ->
  wp (wr32 (pte_of (pa_mem s) pgdir va) v) Q s.
Proof.
  intros Hl Hok Hva Hpte HQ. destruct (free_pages_wf _ _ Hl) as [_ Hfp].
  destruct (pte_of_Some _ _ _ _ Hok Hpte) as (t & Hat & -> & Ht & Htp & Htl).
  pose proof (PDX_range va) as HD. pose proof (PTX_range va) as HT.
  set (m := pa_mem s) in *. set (m' := st32 m (t + 4 * PTX va) v).
  assert (agree_on (fun a => ~ in_page t a) m m') as Hag.
  { intros a Ha. unfold m'. rewrite ld8_st32. case_decide; [|done].
    destruct Ha. unfold in_page. lia. }
  assert (agree_on (in_page pgdir) m m') as Hagp.
  { intros a Ha. apply Hag, (page_disjoint pgdir); [apply Hok|apply Ht|done|done]. }
  apply (wp_upd_mem _ _ _ l Hl).
  { intros a (p & Hp & Ha). apply Hag. by apply (page_of_free l p). }
  fold m m'. intros s' Hl' Hm' Hr.
  assert (agree_on (fun a => ~ pt_byte m pgdir a) m m') as Hagb.
  { intros a Ha. apply Hag. contradict Ha. right. by exists (PDX va), t. }
  apply HQ; [|by rewrite Hm'|by rewrite Hm'|].
  - split; rewrite ?Hm'; try done.
    + by apply (pgdir_ok_agree m m' pgdir l).
    + fold m. rewrite <- !all_tables_eq, (tables_ext m m'); [done|].
      intros j Hj. rewrite Z2Nat.id in Hj by done. apply (pt_at_agree m m' pgdir l); [done|done|].
      unfold NPDENTRIES in Hj. lia.
    + fold m. intros a. rewrite (pt_byte_agree m m' pgdir l); auto.
    + fold m. intros a [Ha _]. by apply Hagb.
  - intros va' Hva'. rewrite Hm'. unfold pt_lookup.
    pose proof (PDX_range va') as HD'. pose proof (PTX_range va') as HT'.
    rewrite (pt_at_agree m m' pgdir l) by done.
    destruct (decide (PDX va' = PDX va)) as [Hd|Hd].
    + rewrite Hd, Hat. unfold m'. destruct (decide (PTX va' = PTX va)) as [Ht'|Ht'].
      * rewrite Ht', ld32_st32_eq, decide_True; [done|]. by apply PDX_PTX_inj.
      * rewrite ld32_st32_ne, decide_False; [done| |lia].
        intros Heq. apply Ht'. rewrite !PTX_eq, !u32_small by done. by rewrite Heq.
    + rewrite decide_False.
      2:{ intros Heq. apply Hd. rewrite !PDX_eq, !u32_small by done.
          clear -Heq. dlia. }
      destruct (pt_at m pgdir (PDX va')) as [u|] eqn:Hu; [|done].
      assert (u <> t) as Hne by (intros ->; by apply Hd, (pt_inj _ _ _ Hok _ _ t)).
      apply (pt_page _ _ _ Hok) in Hu as ([Hua _] & _ & _); [|done]. destruct Ht as [Hta _].
      apply (agree_ld32 _ _ _ _ Hag). intros b Hb. unfold in_page. dlia.
Qed.

(** ** mappages *)

(** What the MMU finds once the [k] pages from [a] map to the pages from [pa]. *)
Definition mapped (old : Z -> Z) (a k pa perm va : Z) : Z :=
  if decide (a <= va < a + 4096 * k)
  then Z.lor (Z.lor (pa + (va / 4096 * 4096 - a)) perm) PTE_P else old va.

Lemma mapped_value pa perm :
  pa mod 4096 = 0 -> 0 <= pa < 4294967296 -> 0 <= perm < 4096 ->
  u32 (Z.lor (Z.lor pa perm) PTE_P) = Z.lor (Z.lor pa perm) PTE_P.
Proof.
  intros Hal Hpa Hperm. rewrite <- Z.lor_assoc.
  pose proof (lor_flag_range perm Hperm).
  rewrite lor_page_flags by done. apply u32_small. dlia.
Qed.

Lemma mappages_loop_S fuel pgdir a last pa perm :
  mappages_loop (Datatypes.S fuel) pgdir a last pa perm =
    (pte ← walkpgdir pgdir a 1;
     if pte =? 0 then mret (-1)
     else
       e ← rd32 pte;
       if c_true (Z.land e PTE_P) then panic "remap"
       else
         _ ← wr32 pte (Z.lor (Z.lor pa perm) PTE_P);
         if a =? last then mret 0
         else mappages_loop fuel pgdir (u32 (a + PGSIZE)) last (u32 (pa + PGSIZE)) perm : M S Z).
Proof. done. Qed.

Lemma mappages_loop_ok n s l pgdir a pa perm :
  free_pages s l -> pgdir_ok (pa_mem s) pgdir l ->
  a mod 4096 = 0 -> 0 <= a -> a + 4096 * Z.of_nat n < 4294967296 ->
  pa mod 4096 = 0 -> 0 <= pa -> pa + 4096 * Z.of_nat n < 4294967296 -> 0 <= perm < 4096 ->
  (forall k, 0 <= k <= Z.of_nat n ->
     present (pt_lookup (pa_mem s) pgdir (a + 4096 * k)) = false) ->
  wp (mappages_loop (Datatypes.S n) pgdir a (a + 4096 * Z.of_nat n) pa perm)
    (fun r s' => exists l' k, vm_step pgdir s l s' l' /\
       (r = 0 /\ k = Z.of_nat n + 1 \/ r = -1 /\ 0 <= k <= Z.of_nat n /\ l' = []) /\
       (forall j, 0 <= j < PDX a -> pt_at (pa_mem s') pgdir j = pt_at (pa_mem s) pgdir j) /\
       forall va, is_u32 va ->
         pt_lookup (pa_mem s') pgdir va = mapped (pt_lookup (pa_mem s) pgdir) a k pa perm va) s.
Proof.
  revert s l a pa. induction n as [|n IH]; intros s l a pa Hl Hok Ha Ha0 Han Hpa Hpa0 Hpan Hperm Hnp.
  all: rewrite mappages_loop_S; wp_step; wp_use walkpgdir_alloc; [done..|].
  all: intros pte s1 (l1 & Hs1 & Hlk1 & Hat1 & Hpte).
  all: pose proof (PDX_range a) as HD.
  all: destruct Hpte as [[-> ->]|[-> Hne]];
    [exists [], 0; split; [done|]; split; [right; split; [done|split; [lia|done]]|]; split; [intros j Hj; apply Hat1; lia|]; intros va Hva;
     rewrite Hlk1; unfold mapped; rewrite decide_False by lia; done|].
  all: pose proof Hne as Hne'; apply Z.eqb_neq in Hne' as ->; wp_step; unfold rd32; wp_step.
  all: assert (is_u32 a) as Hau by (unfold is_u32; lia).
  all: assert (present (pt_lookup (pa_mem s) pgdir a) = false) as Hna
    by (rewrite <- (Z.add_0_r a); replace 0 with (4096 * 0) by lia; apply Hnp; lia).
  all: rewrite (pt_lookup_pte _ _ _ Hne), Hlk1.
  all: change (c_true (Z.land ?x PTE_P)) with (present x); rewrite Hna.
  all: wp_step; apply (wp_wr_pte s1 l1); [apply Hs1|apply Hs1|done|done|]; intros s2 Hs2 Hin2 _ Hlk2.
  all: assert (forall j, 0 <= j < PDX a -> pt_at (pa_mem s2) pgdir j = pt_at (pa_mem s) pgdir j) as Hat2
    by (intros j Hj; rewrite (pt_at_agree (pa_mem s1) (pa_mem s2) pgdir l1), Hat1 by (done || apply Hs1 || lia); done).
  all: pose proof (vm_step_trans _ _ _ _ _ _ _ Hs1 Hs2) as Hs12.
  - rewrite Z.mul_0_r, Z.add_0_r, Z.eqb_refl. wp_step. exists l1, 1.
    split; [done|]. split; [by left|]. split; [done|].
    intros va Hva. rewrite Hlk2, Hlk1 by done. unfold mapped.
    destruct (decide (va / 4096 = a / 4096)) as [E|E].
    + rewrite decide_True by (clear -E Ha; dlia).
      replace (va / 4096 * 4096 - a) with 0 by (clear -E Ha; dlia).
      rewrite Z.add_0_r. apply mapped_value; [done|lia|done].
    + rewrite decide_False; [done|]. clear -E Ha. dlia.
  - rewrite (proj2 (Z.eqb_neq a (a + 4096 * Z.of_nat (Datatypes.S n)))) by lia.
    unfold PGSIZE. rewrite !u32_small by lia.
    replace (a + 4096 * Z.of_nat (Datatypes.S n)) with (a + 4096 + 4096 * Z.of_nat n) by lia.
    assert ((a + 4096) mod 4096 = 0) by (clear -Ha; dlia).
    assert ((pa + 4096) mod 4096 = 0) by (clear -Hpa; dlia).
    wp_use (IH s2 l1 (a + 4096) (pa + 4096)); [apply Hs2|apply Hs2|done|lia|lia|done|lia|lia|done| |].
    + intros k Hk. rewrite Hlk2 by (unfold is_u32; lia).
      rewrite decide_False by (clear -Ha Hk; dlia). rewrite Hlk1.
      replace (a + 4096 + 4096 * k) with (a + 4096 * (k + 1)) by lia. apply Hnp. lia.
    + intros r s3 (l3 & k & Hs3 & Hr & Hat3 & Hlk3). exists l3, (k + 1).
      split; [by eapply vm_step_trans|]. split; [clear -Hr; naive_solver lia|].
      split; [intros j Hj; rewrite Hat3, Hat2; [done|done|]; rewrite PDX_eq, u32_small in Hj |- * by lia; clear -Hj; dlia|].
      intros va Hva. rewrite Hlk3 by done. unfold mapped.
      destruct (decide (a + 4096 <= va < a + 4096 + 4096 * k)) as [E|E].
      * rewrite decide_True by lia. do 2 f_equal. lia.
      * rewrite Hlk2, Hlk1 by done. destruct (decide (va / 4096 = a / 4096)) as [E'|E'].
        -- rewrite decide_True by (clear -E' Ha Hr; dlia).
           replace (va / 4096 * 4096 - a) with 0 by (clear -E' Ha; dlia).
           rewrite Z.add_0_r. apply mapped_value; [done|lia|done].
        -- rewrite decide_False; [done|]. clear -E E' Ha. dlia.
Qed.

(** Number of pages, beyond the first, that [size] bytes from [va] touch. *)
Definition extra_pages (va size : Z) : Z := (va + size - 1) / 4096 - va / 4096.

Lemma mappages_full s l pgdir va size pa perm :
  free_pages s l -> pgdir_ok (pa_mem s) pgdir l ->
  0 <= va -> 1 <= size -> va + size <= 4294967296 ->
  pa mod 4096 = 0 -> 0 <= pa -> pa + 4096 * extra_pages va size < 4294967296 ->
  0 <= perm < 4096 ->
  (forall k, 0 <= k <= extra_pages va size ->
     present (pt_lookup (pa_mem s) pgdir (va / 4096 * 4096 + 4096 * k)) = false) ->
  wp (mappages pgdir va size pa perm)
    (fun r s' => exists l' k, vm_step pgdir s l s' l' /\
       (r = 0 /\ k = extra_pages va size + 1 \/
        r = -1 /\ 0 <= k <= extra_pages va size /\ l' = []) /\
       (forall j, 0 <= j < PDX va -> pt_at (pa_mem s') pgdir j = pt_at (pa_mem s) pgdir j) /\
       forall va', is_u32 va' ->
         pt_lookup (pa_mem s') pgdir va' =
         mapped (pt_lookup (pa_mem s) pgdir) (va / 4096 * 4096) k pa perm va') s.
Proof.
  intros Hl Hok Hva Hsz Hend Hpa Hpa0 Hpan Hperm Hnp. unfold mappages.
  rewrite (u32_small va), (u32_small (va + size - 1)) by lia.
  rewrite (PGROUNDDOWN_eq va), (PGROUNDDOWN_eq (va + size - 1)) by lia.
  set (a := va / 4096 * 4096) in *. unfold extra_pages in *.
  set (n := (va + size - 1) / 4096 - va / 4096) in *.
  assert (0 <= n) by (subst n; clear -Hsz; dlia).
  assert ((va + size - 1) / 4096 * 4096 = a + 4096 * n) as -> by (subst a n; lia).
  assert (a mod 4096 = 0 /\ 0 <= a <= va) as [Ha ?] by (subst a; clear -Hva; dlia).
  assert (a + 4096 * n < 4294967296) by (subst a n; clear -Hend; dlia).
  replace (a + 4096 * n - a) with (4096 * n) by lia.
  rewrite u32_small by lia. unfold PGSIZE. replace (4096 * n / 4096) with n by dlia.
  assert (PDX a = PDX va) as <- by (subst a; rewrite !PDX_eq, !u32_small by (clear -Hva Hsz Hend; dlia); clear; dlia).
  pose proof (mappages_loop_ok (Z.to_nat n) s l pgdir a pa perm) as HM.
  rewrite Z2Nat.id in HM by done. apply HM; done || lia.
Qed.

Lemma mappages_ok s l pgdir va size pa perm :
  free_pages s l -> pgdir_ok (pa_mem s) pgdir l ->
  0 <= va -> 1 <= size -> va + size <= 4294967296 ->
  pa mod 4096 = 0 -> 0 <= pa -> pa + 4096 * extra_pages va size < 4294967296 ->
  0 <= perm < 4096 ->
  (forall k, 0 <= k <= extra_pages va size ->
     present (pt_lookup (pa_mem s) pgdir (va / 4096 * 4096 + 4096 * k)) = false) ->
  wp (mappages pgdir va size pa perm)
    (fun r s' => exists l' k, vm_step pgdir s l s' l' /\
       (r = 0 /\ k = extra_pages va size + 1 \/
        r = -1 /\ 0 <= k <= extra_pages va size /\ l' = []) /\
       forall va', is_u32 va' ->
         pt_lookup (pa_mem s') pgdir va' =
         mapped (pt_lookup (pa_mem s) pgdir) (va / 4096 * 4096) k pa perm va') s.
Proof.
  intros. wp_use mappages_full; [done..|]. intros r s' (l' & k & ? & ? & _ & ?). by exists l', k.
Qed.

(** A page of the range that is already mapped stops the kernel. *)
Lemma mappages_remap s pgdir va size pa perm :
  is_u32 va -> pgdir_ok (pa_mem s) pgdir [] ->
  present (pt_lookup (pa_mem s) pgdir va) = true ->
  mappages pgdir va size pa perm s = Panic "remap".
Proof.
  intros Hva Hok Hp. unfold mappages. rewrite mappages_loop_S. unfold mbind, M_bind.
  assert (PDX (PGROUNDDOWN (u32 va)) = PDX va /\ PTX (PGROUNDDOWN (u32 va)) = PTX va) as [HD HT].
  { rewrite (u32_small va), PGROUNDDOWN_eq by done. rewrite !PDX_eq, !PTX_eq.
    unfold is_u32 in Hva. rewrite !(u32_small) by dlia. clear -Hva. dlia. }
  unfold walkpgdir, rd32, gets, mbind, M_bind. rewrite HD, HT. cbv beta.
  unfold pt_lookup, pt_at in Hp. fold (present (ld32 (pa_mem s) (pgdir + 4 * PDX va))).
  fold (present (ld32 (pa_mem s) (pgdir + 4 * PDX va))) in Hp.
  destruct (present (ld32 _ (pgdir + _))) eqn:E; [|done].
  set (t := P2V _) in *. assert (pt_at (pa_mem s) pgdir (PDX va) = Some t) as Hat
    by (unfold pt_at; fold (present (ld32 (pa_mem s) (pgdir + 4 * PDX va))); by rewrite E).
  apply (pt_page _ _ _ Hok) in Hat as [Ht%page_ok_range _]; [|apply PDX_range].
  unfold mret, M_ret. pose proof (PTX_range va).
  rewrite (proj2 (Z.eqb_neq (t + 4 * PTX va) 0)) by (mmu_unfold; lia).
  cbv beta. fold (present (ld32 (pa_mem s) (t + 4 * PTX va))). by rewrite Hp.
Qed.
End WalkFacts.
