(* ===== verification/VmSpace.v ===== *)
(** * User address spaces

    Growing, shrinking, freeing and copying the user part of a page table
    (allocuvm, deallocuvm, freevm, copyuvm, copyout of vm.c): which frames a
    page directory maps, that no frame is mapped twice or is on the free list,
    and that every operation keeps this. *)

From S2P Require Import Prelude Mmu Mem PageAlloc Vm.
From stdpp Require Import base gmap list strings.
From Stdlib Require Import ZArith Lia.
#[local] Open Scope Z_scope.

(** The frame (as a kernel virtual address) an address is mapped to. *)
Definition frame_of (m : mem) (pgdir va : Z) : option Z :=
  let e := pt_lookup m pgdir va in
  if present e then Some (P2V (PTE_ADDR e)) else None.

(** The frames mapped by the pages of a list, in order. *)
Definition frames (m : mem) (pgdir : Z) (vas : list Z) : list Z :=
  omap (frame_of m pgdir) vas.

(** A page directory whose pages below [lim] map distinct frames, none of them
    free or part of the page table itself. *)
Record space_ok `{LinkerSymbols} (m : mem) (pgdir lim : Z) (l : list Z) : Prop := {
  so_pgdir : pgdir_ok m pgdir l;
  so_frame va f : 0 <= va < lim -> frame_of m pgdir va = Some f ->
    page_ok f /\ f ∉ l /\ forall a, in_page f a -> ~ pt_byte m pgdir a;
  so_inj va va' f : 0 <= va < lim -> 0 <= va' < lim ->
    frame_of m pgdir va = Some f -> frame_of m pgdir va' = Some f -> va / 4096 = va' / 4096
}.

Lemma frame_of_lookup m m' pgdir va :
  pt_lookup m' pgdir va = pt_lookup m pgdir va -> frame_of m' pgdir va = frame_of m pgdir va.
Proof. unfold frame_of. by intros ->. Qed.

Lemma frames_app m pgdir v1 v2 : frames m pgdir (v1 ++ v2) = frames m pgdir v1 ++ frames m pgdir v2.
Proof. apply omap_app. Qed.

Lemma frames_ext m m' pgdir vas :
  (forall va, va ∈ vas -> frame_of m' pgdir va = frame_of m pgdir va) ->
  frames m' pgdir vas = frames m pgdir vas.
Proof.
  intros H. unfold frames. induction vas as [|v vas IH]; [done|]. cbn.
  rewrite H by by left. rewrite IH; [done|]. intros. apply H. by right.
Qed.

Lemma frames_None m pgdir vas :
  (forall va, va ∈ vas -> frame_of m pgdir va = None) -> frames m pgdir vas = [].
Proof.
  intros H. unfold frames. induction vas as [|v vas IH]; [done|]. cbn.
  rewrite H by by left. apply IH. intros. apply H. by right.
Qed.

Lemma page_run_app p n k : page_run p (n + k) = page_run p n ++ page_run (p + 4096 * Z.of_nat n) k.
Proof.
  revert p. induction n as [|n IH]; intros p; cbn [Nat.add page_run app].
  - do 2 f_equal. lia.
  - rewrite IH. do 3 f_equal. lia.
Qed.

Section Dealloc.
  Context {S : Type} `{LinkerLayout} `{!PageAlloc S} `{!PageAllocLaws S}.
  Implicit Types (s : S) (m : mem).

Lemma frame_pte_nonzero m pgdir l va f :
  pgdir_ok m pgdir l -> frame_of m pgdir va = Some f -> pte_of m pgdir va <> 0.
Proof.
  intros Hpd. unfold frame_of, pt_lookup, pte_of. pose proof (PDX_range va). pose proof (PTX_range va).
  destruct (pt_at _ _ _) as [t|] eqn:Hat; [|done]. intros _.
  apply (pt_page _ _ _ Hpd) in Hat as [?%page_ok_range _]; [|done]. mmu_unfold. lia.
Qed.

(** Returning the frame of one page and clearing its entry. *)
Lemma dealloc_page s l pgdir lim va f :
  free_pages s l -> space_ok (pa_mem s) pgdir lim l -> lim <= KERNBASE ->
  0 <= va < lim -> frame_of (pa_mem s) pgdir va = Some f ->
  wp (_ ← pa_kfree f; wr32 (pte_of (pa_mem s) pgdir va) 0)
    (fun _ s' => free_pages s' (f :: l) /\ space_ok (pa_mem s') pgdir lim (f :: l) /\
       same_rest s s' /\
       (forall a, pt_byte (pa_mem s') pgdir a <-> pt_byte (pa_mem s) pgdir a) /\
       agree_on (in_page pgdir) (pa_mem s) (pa_mem s') /\
       agree_on (fun a => ~ pt_byte (pa_mem s) pgdir a /\ ~ in_page f a) (pa_mem s) (pa_mem s') /\
       forall va', is_u32 va' -> pt_lookup (pa_mem s') pgdir va' =
         if decide (va' / 4096 = va / 4096) then 0 else pt_lookup (pa_mem s) pgdir va') s.
Proof.
  intros Hl Hok Hlim Hva Hf.
  destruct (so_frame _ _ _ _ Hok va f) as (Hfp & Hfl & Hfb); [done|done|].
  pose proof (so_pgdir _ _ _ _ Hok) as Hpd.
  pose proof (frame_pte_nonzero _ _ _ _ _ Hpd Hf) as Hpte.
  wp_step. wp_use kfree_ok; [done..|]. intros _ s1 (Hl1 & Hr1 & Hag1).
  set (m := pa_mem s) in *.
  assert (agree_on (pt_byte m pgdir) m (pa_mem s1)) as Hagp.
  { intros a Ha. apply Hag1. intros Hin. by apply (Hfb a). }
  assert (agree_on (in_page pgdir) m (pa_mem s1)) as Hagd by (intros a ?; apply Hagp; by left).
  assert (pgdir_ok (pa_mem s1) pgdir (f :: l)) as Hpd1.
  { assert (pgdir_ok (pa_mem s1) pgdir l) as Hpd1 by by apply (pgdir_ok_agree m _ _ l).
    assert (f <> pgdir) as Hne.
    { intros ->. apply (Hfb pgdir); [|left]; unfold in_page; lia. }
    split; [apply Hpd1|rewrite not_elem_of_cons; split; [done|apply Hpd1]| |apply Hpd1].
    intros i t Hi Ht. destruct (pt_page _ _ _ Hpd1 _ _ Hi Ht) as (? & ? & ?).
    split; [done|]. split; [done|]. rewrite not_elem_of_cons. split; [|done]. intros ->.
    rewrite (pt_at_agree m _ _ l) in Ht by done.
    apply (Hfb f); [|right; exists i, f]; unfold in_page; repeat split; done || lia. }
  assert (pte_of m pgdir va = pte_of (pa_mem s1) pgdir va) as Hpe.
  { unfold pte_of. rewrite <- (pt_at_agree m (pa_mem s1) _ l); [done..|apply PDX_range]. }
  rewrite Hpe in *.
  apply (wp_wr_pte s1 (f :: l)); [done|done| |done|].
  { unfold is_u32. mmu_unfold. lia. }
  intros s2 Hs2 Hagd2 Hagb2 Hlk2.
  assert (forall va', is_u32 va' -> pt_lookup (pa_mem s2) pgdir va' =
         if decide (va' / 4096 = va / 4096) then 0 else pt_lookup m pgdir va') as Hlk.
  { intros va' Hva'. rewrite Hlk2 by done. case_decide; [done|].
    by apply (pt_lookup_agree m _ _ l). }
  assert (forall a, pt_byte (pa_mem s2) pgdir a <-> pt_byte m pgdir a) as Hbytes.
  { intros a. rewrite <- (pt_byte_agree m (pa_mem s1) pgdir l a) by done.
    by apply (pt_byte_agree _ _ _ (f :: l)). }
  split; [apply Hs2|]. split; [split|split; [|split; [|split; [|split]]]].
  - apply Hs2.
  - intros v g Hv Hg. unfold frame_of in Hg. rewrite Hlk in Hg by (unfold is_u32; mmu_unfold; lia).
    case_decide as Hpg; [done|]. fold (frame_of m pgdir v) in Hg.
    destruct (so_frame _ _ _ _ Hok v g) as (? & ? & Hgb); [done|done|].
    split; [done|]. split.
    + rewrite not_elem_of_cons. split; [|done]. intros ->.
      by apply Hpg, (so_inj _ _ _ _ Hok v va f).
    + intros a Ha. rewrite Hbytes. by apply Hgb.
  - intros v v' g Hv Hv'. unfold frame_of.
    rewrite !Hlk by (unfold is_u32; mmu_unfold; lia).
    repeat case_decide; try done. by apply (so_inj _ _ _ _ Hok).
  - by rewrite Hr1, (vs_rest _ _ _ _ _ Hs2).
  - done.
  - intros a Ha. rewrite Hagd2 by done. by apply Hagd.
  - intros a [Ha Hfa]. rewrite Hagb2; [by apply Hag1|].
    by rewrite (pt_byte_agree m (pa_mem s1) pgdir l a).
  - done.
Qed.

(** The pages from [a] up to [b], and what the MMU finds once they are gone. *)
Definition pages_to (a b : Z) : list Z := page_run a (Z.to_nat ((b - a + 4095) / 4096)).
Definition unmapped (old : Z -> Z) (a b va : Z) : Z :=
  if decide (a <= va /\ va / 4096 * 4096 < b) then if present (old va) then 0 else old va
  else old va.

Lemma elem_of_pages_to a b va :
  a mod 4096 = 0 -> va ∈ pages_to a b <-> a <= va < b /\ va mod 4096 = 0.
Proof.
  intros Ha. unfold pages_to. rewrite elem_of_page_run. split.
  - intros (i & Hi & ->). dlia.
  - intros [Hv Hm]. exists ((va - a) / 4096). dlia.
Qed.
Lemma pages_to_nil a b : b <= a -> pages_to a b = [].
Proof. intros. unfold pages_to. by replace (Z.to_nat ((b - a + 4095) / 4096)) with 0%nat by dlia. Qed.
Lemma pages_to_cons a b : a < b -> pages_to a b = a :: pages_to (a + 4096) b.
Proof.
  intros. unfold pages_to.
  replace (Z.to_nat ((b - a + 4095) / 4096))
    with (Datatypes.S (Z.to_nat ((b - (a + 4096) + 4095) / 4096))) by dlia.
  done.
Qed.
Lemma pages_to_split a c b :
  a mod 4096 = 0 -> c mod 4096 = 0 -> a <= c -> c <= b ->
  pages_to a b = pages_to a c ++ pages_to c b.
Proof.
  intros. unfold pages_to.
  replace (Z.to_nat ((b - a + 4095) / 4096))
    with (Z.to_nat ((c - a + 4095) / 4096) + Z.to_nat ((b - c + 4095) / 4096))%nat by dlia.
  rewrite page_run_app. do 2 f_equal. dlia.
Qed.

Lemma frame_of_none m pgdir va :
  present (pt_lookup m pgdir va) = false -> frame_of m pgdir va = None.
Proof. unfold frame_of. by intros ->. Qed.

(** The effect of [deallocuvm] on the pages of [a, b). *)
Record dealloc_post (pgdir lim a b : Z) (s : S) (l : list Z) (s' : S) : Prop := {
  dp_free : free_pages s' (rev (frames (pa_mem s) pgdir (pages_to a b)) ++ l);
  dp_ok : space_ok (pa_mem s') pgdir lim (rev (frames (pa_mem s) pgdir (pages_to a b)) ++ l);
  dp_rest : same_rest s s';
  dp_bytes x : pt_byte (pa_mem s') pgdir x <-> pt_byte (pa_mem s) pgdir x;
  dp_dir : agree_on (in_page pgdir) (pa_mem s) (pa_mem s');
  dp_frame : agree_on (fun x => ~ pt_byte (pa_mem s) pgdir x /\
               ~ free_byte (frames (pa_mem s) pgdir (pages_to a b)) x) (pa_mem s) (pa_mem s');
  dp_lookup va : is_u32 va ->
    pt_lookup (pa_mem s') pgdir va = unmapped (pt_lookup (pa_mem s) pgdir) a b va
}.

Lemma dealloc_post_nil pgdir lim a b s l :
  b <= a -> a mod 4096 = 0 -> free_pages s l -> space_ok (pa_mem s) pgdir lim l ->
  dealloc_post pgdir lim a b s l s.
Proof.
  intros Hab Ha Hl Hok. split; rewrite ?pages_to_nil by done; try done.
  intros va _. unfold unmapped. rewrite decide_False; [done|]. clear -Hab Ha. dlia.
Qed.

(** Pages of [a, c) that map nothing can be left out. *)
Lemma dealloc_post_skip pgdir lim a c b s l s' :
  a mod 4096 = 0 -> c mod 4096 = 0 -> a <= c ->
  (forall va, a <= va < c -> present (pt_lookup (pa_mem s) pgdir va) = false) ->
  dealloc_post pgdir lim c b s l s' -> dealloc_post pgdir lim a b s l s'.
Proof.
  intros Ha Hc Hac Hnp HP.
  assert (frames (pa_mem s) pgdir (pages_to a b) = frames (pa_mem s) pgdir (pages_to c b)) as Hfr.
  { destruct (Z.le_gt_cases c b).
    - rewrite (pages_to_split a c b), frames_app by done.
      rewrite (frames_None _ _ (pages_to a c)); [done|].
      intros va [Hv _]%elem_of_pages_to; [|done]. by apply frame_of_none, Hnp.
    - rewrite (pages_to_nil c b) by lia. apply frames_None.
      intros va [Hv _]%elem_of_pages_to; [|done]. apply frame_of_none, Hnp. lia. }
  destruct HP as [H1 H2 H3 H4 Hdir H5 H6]. split; rewrite ?Hfr; try done.
  intros va Hva. rewrite H6 by done. unfold unmapped.
  destruct (decide (c <= va)) as [Hcv|Hcv].
  - destruct (decide (va / 4096 * 4096 < b)).
    + rewrite !decide_True by lia. done.
    + rewrite !decide_False by lia. done.
  - rewrite (decide_False (P := c <= va /\ _)) by lia. case_decide as Hd; [|done].
    rewrite Hnp by lia. done.
Qed.

Lemma dealloc_post_cons pgdir lim a b f s l s1 s' :
  a mod 4096 = 0 -> a < b -> b <= lim -> lim <= KERNBASE -> 0 <= a ->
  frame_of (pa_mem s) pgdir a = Some f -> same_rest s s1 ->
  (forall x, pt_byte (pa_mem s1) pgdir x <-> pt_byte (pa_mem s) pgdir x) ->
  agree_on (in_page pgdir) (pa_mem s) (pa_mem s1) ->
  agree_on (fun x => ~ pt_byte (pa_mem s) pgdir x /\ ~ in_page f x) (pa_mem s) (pa_mem s1) ->
  (forall va', is_u32 va' -> pt_lookup (pa_mem s1) pgdir va' =
     if decide (va' / 4096 = a / 4096) then 0 else pt_lookup (pa_mem s) pgdir va') ->
  dealloc_post pgdir lim (a + 4096) b s1 (f :: l) s' -> dealloc_post pgdir lim a b s l s'.
Proof.
  intros Ha Hab Hb Hlim Ha0 Hf Hr1 Hb1 Hdir1 Hag1 Hlk1 HP.
  assert (frames (pa_mem s1) pgdir (pages_to (a + 4096) b)
          = frames (pa_mem s) pgdir (pages_to (a + 4096) b)) as Hfr.
  { apply frames_ext. intros va [Hv Hvm]%elem_of_pages_to; [|clear -Ha; dlia].
    apply frame_of_lookup. rewrite Hlk1 by (unfold is_u32; mmu_unfold; lia).
    rewrite decide_False; [done|]. clear -Hv Ha. dlia. }
  assert (frames (pa_mem s) pgdir (pages_to a b)
          = f :: frames (pa_mem s) pgdir (pages_to (a + 4096) b)) as Hfr'.
  { rewrite pages_to_cons by done. unfold frames. cbn. by rewrite Hf. }
  destruct HP as [H1 H2 H3 H4 Hdir H5 H6]. rewrite Hfr in *.
  split; rewrite ?Hfr'; cbn [rev]; rewrite <- ?app_assoc; try done.
  - by rewrite Hr1.
  - intros x. by rewrite H4.
  - intros x Hx. rewrite Hdir by done. by apply Hdir1.
  - intros x [Hx Hx']. rewrite H5; [apply Hag1; split; [done|]|split; [by rewrite Hb1|]].
    + contradict Hx'. exists f. split; [by left|done].
    + contradict Hx'. destruct Hx' as (p & ? & ?). exists p. split; [by right|done].
  - intros va Hva. rewrite H6 by done. unfold unmapped. rewrite Hlk1 by done.
    destruct (decide (va / 4096 = a / 4096)) as [E|E].
    + rewrite decide_False by (clear -E Ha; dlia). rewrite decide_True by (clear -E Ha Hab; dlia).
      replace (present (pt_lookup (pa_mem s) pgdir va)) with true; [done|].
      assert (pt_lookup (pa_mem s) pgdir va = pt_lookup (pa_mem s) pgdir a) as ->.
      { apply pt_lookup_page; unfold is_u32 in *; mmu_unfold; lia. }
      unfold frame_of in Hf. by destruct (present _).
    + destruct (decide (a <= va /\ va / 4096 * 4096 < b)) as [D|D].
      * rewrite decide_True by (clear -E D Ha; dlia). done.
      * rewrite decide_False by (clear -E D Ha; dlia). done.
Qed.

Lemma deallocuvm_loop_ok n s l pgdir lim a b :
  free_pages s l -> space_ok (pa_mem s) pgdir lim l ->
  a mod 4096 = 0 -> 0 <= a -> b <= lim -> lim <= KERNBASE -> b - a <= 4096 * Z.of_nat n ->
  wp (deallocuvm_loop (Datatypes.S n) pgdir a b)
     (fun _ s' => dealloc_post pgdir lim a b s l s') s.
Proof.
  revert s l a. induction n as [|n IH]; intros s l a Hl Hok Ha Ha0 Hb Hlim Hn.
  { cbn. rewrite (proj2 (Z.ltb_ge a b)) by lia. apply wp_ret. apply dealloc_post_nil; done || lia. }
  remember (Datatypes.S n) as k eqn:Hk. cbn [deallocuvm_loop].
  destruct (Z.ltb_spec a b) as [Hab|Hab]; [|apply wp_ret; by apply dealloc_post_nil].
  subst k. assert (a < KERNBASE) as Hak by lia.
  assert (is_u32 a) as Hau by (unfold is_u32; mmu_unfold; lia).
  apply wp_bind. unfold wp at 1. rewrite walkpgdir_noalloc.
  destruct (Z.eqb_spec (pte_of (pa_mem s) pgdir a) 0) as [Hz|Hnz].
  - assert (pt_at (pa_mem s) pgdir (PDX a) = None) as Hnone.
    { destruct (pt_at (pa_mem s) pgdir (PDX a)) as [t|] eqn:E; [|done].
      unfold pte_of in Hz. rewrite E in Hz. pose proof (PTX_range a).
      apply (pt_page _ _ _ (so_pgdir _ _ _ _ Hok)) in E as [?%page_ok_range _]; [|apply PDX_range].
      mmu_unfold. lia. }
    assert (0 <= PDX a < 512) as Hpdx by (rewrite PDX_eq, u32_small by done; mmu_unfold; dlia).
    rewrite PGADDR_split by lia. unfold PGSIZE.
    set (c := (PDX a + 1) * 4194304).
    assert (u32 (u32 (c + 0 * 4096 + 0 - 4096) + 4096) = c) as ->.
    { rewrite (u32_small (c + 0 * 4096 + 0 - 4096)) by (subst c; lia).
      rewrite u32_small; subst c; lia. }
    assert (a < c /\ c mod 4096 = 0 /\ a / 4194304 = PDX a) as (Hac & Hc & Hpa).
    { subst c. rewrite PDX_eq, u32_small by done. clear. dlia. }
    wp_use (IH s l c); [done|done|done|lia|done|done|subst c; clear -Hac Hn Ha Hc; dlia|].
    intros _ s'. apply dealloc_post_skip; [done|done|lia|].
    intros va Hva. unfold pt_lookup.
    replace (PDX va) with (PDX a); [by rewrite Hnone|].
    rewrite (PDX_eq va), u32_small; [|subst c; lia]. rewrite <- Hpa.
    subst c. clear -Hva Hpa. dlia.
  - wp_steps. unfold rd32. wp_steps. rewrite pt_lookup_pte by done.
    fold (present (pt_lookup (pa_mem s) pgdir a)).
    rewrite u32_small by (unfold PGSIZE; mmu_unfold; lia). change PGSIZE with 4096.
    assert ((a + 4096) mod 4096 = 0) as Ha' by (clear -Ha; dlia).
    destruct (present (pt_lookup (pa_mem s) pgdir a)) eqn:Hp.
    + set (f := P2V (PTE_ADDR (pt_lookup (pa_mem s) pgdir a))).
      assert (frame_of (pa_mem s) pgdir a = Some f) as Hf by (unfold frame_of; by rewrite Hp).
      destruct (so_frame _ _ _ _ Hok a f) as (Hfp & _); [lia|done|].
      rewrite (proj2 (Z.eqb_neq _ 0)).
      2:{ intros He. apply page_ok_range in Hfp. subst f. rewrite He in Hfp.
          clear -Hfp. mmu_lia. }
      wp_use (dealloc_page s l pgdir lim a f); [done|done|done|lia|done|].
      intros _ s1 (Hl1 & Hok1 & Hr1 & Hb1 & Hd1 & Hag1 & Hlk1).
      wp_use (IH s1 (f :: l) (a + 4096)); [done|done|done|lia|done|done|lia|].
      intros _ s'. by apply (dealloc_post_cons pgdir lim a b f s l s1).
    + wp_steps. wp_use (IH s l (a + 4096)); [done|done|done|lia|done|done|lia|].
      intros _ s'. apply dealloc_post_skip; [done|done|lia|].
      intros va Hva. rewrite (pt_lookup_page _ _ va a); [done| |done|].
      * unfold is_u32. mmu_unfold. lia.
      * clear -Hva Ha. dlia.
Qed.

Lemma deallocuvm_ok s l pgdir lim oldsz newsz :
  free_pages s l -> space_ok (pa_mem s) pgdir lim l ->
  0 <= newsz < oldsz -> oldsz <= lim -> lim <= KERNBASE ->
  wp (deallocuvm pgdir oldsz newsz)
     (fun r s' => r = newsz /\ dealloc_post pgdir lim (PGROUNDUP newsz) oldsz s l s') s.
Proof.
  intros Hl Hok Hsz Hlim Hk. unfold deallocuvm. rewrite Z.geb_leb, (proj2 (Z.leb_gt _ _)) by lia.
  assert (PGROUNDUP newsz mod 4096 = 0 /\ 0 <= PGROUNDUP newsz) as [Ha Ha0].
  { rewrite PGROUNDUP_eq. unfold KERNBASE in *. mlia. }
  wp_step. wp_use (deallocuvm_loop_ok _ s l pgdir lim); [done..| |].
  - unfold PGSIZE. clear. dlia.
  - intros _ s' HP. by wp_step.
Qed.

(** ** freevm *)

Lemma freevm_tables_ok n s l pgdir i :
  free_pages s l -> page_ok pgdir -> pgdir ∉ l -> 0 <= i -> i + Z.of_nat n <= 1024 ->
  (forall j t, i <= j < 1024 -> pt_at (pa_mem s) pgdir j = Some t ->
     page_ok t /\ t <> pgdir /\ t ∉ l) ->
  (forall j k t, i <= j < 1024 -> i <= k < 1024 ->
     pt_at (pa_mem s) pgdir j = Some t -> pt_at (pa_mem s) pgdir k = Some t -> j = k) ->
  wp (freevm_tables n pgdir i)
    (fun _ s' => free_pages s' (rev (tables (pa_mem s) pgdir i n) ++ l) /\ same_rest s s' /\
       agree_on (fun a => ~ free_byte (tables (pa_mem s) pgdir i n) a) (pa_mem s) (pa_mem s')) s.
Proof.
  revert s l i. induction n as [|n IH]; intros s l i Hl Hpg Hpl Hi Hin Hpt Hinj; cbn [freevm_tables].
  { apply wp_ret. done. }
  unfold rd32. wp_steps. fold (present (ld32 (pa_mem s) (pgdir + 4 * i))). cbn [tables].
  destruct (pt_at (pa_mem s) pgdir i) as [t|] eqn:E.
  - unfold pt_at in E. fold (present (ld32 (pa_mem s) (pgdir + 4 * i))) in E.
    destruct (present _) eqn:Hp; [|done]. injection E as Ht.
    assert (pt_at (pa_mem s) pgdir i = Some t) as E
      by (unfold pt_at; fold (present (ld32 (pa_mem s) (pgdir + 4 * i))); rewrite Hp; congruence).
    destruct (Hpt i t) as (Htp & Hne & Htl); [lia|done|]. cbn [when]. rewrite Ht.
    wp_use kfree_ok; [done..|]. intros _ s1 (Hl1 & Hr1 & Hag1).
    assert (forall j, 0 <= j < 1024 -> pt_at (pa_mem s1) pgdir j = pt_at (pa_mem s) pgdir j) as Hsame.
    { intros j Hj. apply pt_at_ext, (agree_ld32 _ _ _ _ Hag1). intros b Hb.
      apply (page_disjoint pgdir); [apply Hpg|apply Htp|done|]. unfold in_page. lia. }
    wp_use (IH s1 (t :: l) (i + 1)); [done|done| |lia|lia|..].
    + rewrite not_elem_of_cons. done.
    + intros j u Hj. rewrite Hsame by lia. intros Hu.
      destruct (Hpt j u) as (? & ? & ?); [lia|done|]. split; [done|]. split; [done|].
      rewrite not_elem_of_cons. split; [|done]. intros ->.
      assert (j = i) by (apply (Hinj j i t); lia || done). lia.
    + intros j k u Hj Hk. rewrite !Hsame by lia. apply Hinj; lia.
    + intros _ s2 (Hl2 & Hr2 & Hag2).
      rewrite (tables_ext (pa_mem s) (pa_mem s1)) in * by (intros; apply Hsame; lia).
      cbn [rev]. rewrite <- app_assoc. split; [done|]. split; [by rewrite Hr1|].
      intros a Ha. rewrite Hag2.
      * apply Hag1. contradict Ha. exists t. split; [by left|done].
      * contradict Ha. destruct Ha as (p & ? & ?). exists p. split; [by right|done].
  - unfold pt_at in E. fold (present (ld32 (pa_mem s) (pgdir + 4 * i))) in E.
    destruct (present _) eqn:Hp; [done|]. cbn [when]. wp_step.
    apply IH; try done; try lia.
    + intros j t Hj. apply Hpt. lia.
    + intros j k t Hj Hk. apply Hinj; lia.
Qed.

#[global] Opaque pages_to.

(** Everything a page directory owns below [MIN_ADDR]. *)
Definition owned (m : mem) (pgdir : Z) : list Z :=
  pgdir :: rev (all_tables m pgdir) ++
           rev (frames m pgdir (pages_to 0 MIN_ADDR)).

Lemma cons_app_assoc {A} (x : A) u v w : (x :: u ++ v) ++ w = x :: u ++ v ++ w.
Proof. cbn. by rewrite app_assoc. Qed.
Lemma owned_app m pgdir l :
  owned m pgdir ++ l = pgdir :: rev (all_tables m pgdir) ++
                       rev (frames m pgdir (pages_to 0 MIN_ADDR)) ++ l.
Proof. apply cons_app_assoc. Qed.

Lemma pt_byte_tables m pgdir a :
  pt_byte m pgdir a <-> in_page pgdir a \/ free_byte (all_tables m pgdir) a.
Proof.
  rewrite <- all_tables_eq. unfold pt_byte, free_byte, NPDENTRIES. setoid_rewrite elem_of_tables. rewrite Z2Nat.id by lia.
  split; (intros [?|Hb]; [by left|right]).
  - destruct Hb as (i & t & ? & ? & ?). exists t. split; [exists i; done|done].
  - destruct Hb as (t & (i & ? & ?) & ?). exists i, t. done.
Qed.

Lemma not_free_byte_owned m pgdir a :
  ~ free_byte (owned m pgdir) a ->
  ~ pt_byte m pgdir a /\ ~ free_byte (frames m pgdir (pages_to 0 MIN_ADDR)) a /\
  ~ free_byte (all_tables m pgdir) a /\ ~ in_page pgdir a.
Proof.
  intros Hn.
  assert (forall p, p ∈ owned m pgdir -> ~ in_page p a) as Hp by (intros p ? ?; apply Hn; by exists p).
  assert (~ in_page pgdir a) as H1 by (apply Hp; left).
  assert (~ free_byte (all_tables m pgdir) a) as H2.
  { intros (t & Ht & Ha). apply (Hp t); [|done]. right. rewrite elem_of_app. left.
    by rewrite list_elem_of_In, <- in_rev, <- list_elem_of_In. }
  split; [rewrite pt_byte_tables; tauto|]. split; [|done].
  intros (t & Ht & Ha). apply (Hp t); [|done]. right. rewrite elem_of_app. right.
  by rewrite list_elem_of_In, <- in_rev, <- list_elem_of_In.
Qed.

Lemma freevm_ok s l pgdir :
  free_pages s l -> space_ok (pa_mem s) pgdir MIN_ADDR l ->
  wp (freevm pgdir)
    (fun _ s' => free_pages s' (owned (pa_mem s) pgdir ++ l) /\ same_rest s s' /\
       agree_on (fun a => ~ free_byte (owned (pa_mem s) pgdir) a) (pa_mem s) (pa_mem s')) s.
Proof.
  intros Hl Hok. pose proof (so_pgdir _ _ _ _ Hok) as Hpd. set (m := pa_mem s) in *.
  pose proof (pgdir_page _ _ _ Hpd) as Hpg.
  unfold freevm. rewrite (proj2 (Z.eqb_neq pgdir 0)) by by apply page_ok_nonzero.
  wp_step. wp_use (deallocuvm_ok s l pgdir MIN_ADDR); [done|done|done|done|done|].
  intros _ s1 [_ Hd].
  assert (PGROUNDUP 0 = 0) as E0 by reflexivity. rewrite E0 in Hd. clear E0.
  set (fr := frames m pgdir (pages_to 0 MIN_ADDR)) in *.
  pose proof (so_pgdir _ _ _ _ (dp_ok _ _ _ _ _ _ _ Hd)) as Hpd1.
  assert (all_tables (pa_mem s1) pgdir = all_tables m pgdir) as Htab.
  { rewrite <- !all_tables_eq. apply tables_ext. intros j Hj. rewrite Z2Nat.id in Hj by done.
    apply (pt_at_agree m _ _ l); [done|apply Hd|]. unfold NPDENTRIES in Hj. lia. }
  wp_step. wp_use (freevm_tables_ok _ s1); [apply Hd|done|apply Hpd1|lia| | | |].
  - rewrite Z2Nat.id by done. unfold NPDENTRIES. lia.
  - intros j t Hj. apply (pt_page _ _ _ Hpd1). lia.
  - intros j k t Hj Hk. apply (pt_inj _ _ _ Hpd1); lia.
  - intros _ s2 (Hl2 & Hr2 & Hag2). fold m fr in Hl2.
    rewrite !all_tables_eq, Htab in Hl2, Hag2.
    wp_use kfree_ok; [done|done| |].
    + rewrite elem_of_app. intros [Hin|Hin]; [|by apply Hpd1 in Hin].
      rewrite list_elem_of_In, <- in_rev, <- list_elem_of_In, <- Htab, <- all_tables_eq in Hin.
      apply elem_of_tables in Hin as (j & Hj & Hat). rewrite Z2Nat.id in Hj by done.
      apply (pt_page _ _ _ Hpd1) in Hat as (_ & Hne & _); [exact (Hne eq_refl)|].
      unfold NPDENTRIES in Hj. lia.
    + intros _ s3 (Hl3 & Hr3 & Hag3). rewrite owned_app.
      split; [exact Hl3|]. split; [by rewrite (dp_rest _ _ _ _ _ _ _ Hd), Hr2|].
      intros a (H1 & H2 & H3 & H4)%not_free_byte_owned.
      rewrite Hag3, Hag2 by done. exact (dp_frame _ _ _ _ _ _ _ Hd a (conj H1 H2)).
Qed.
End Dealloc.

(** ** setupkvm *)

(** The mapping a list of kernel regions describes, on top of [old]. *)
Definition kmap_size (k : kmap_entry) : Z := u32 (phys_end k - phys_start k).
Fixpoint kmap_lookup (old : Z -> Z) (ks : list kmap_entry) (va : Z) : Z :=
  match ks with
  | [] => old va
  | k :: ks =>
      if decide (virt k <= va < virt k + kmap_size k)
      then Z.lor (Z.lor (phys_start k + (va / 4096 * 4096 - virt k)) (perm k)) PTE_P
      else kmap_lookup old ks va
  end.

Record kmap_entry_ok (k : kmap_entry) : Prop := {
  ke_virt : virt k mod 4096 = 0 /\ KERNBASE <= virt k;
  ke_phys : phys_start k mod 4096 = 0 /\ 0 <= phys_start k;
  ke_size : kmap_size k mod 4096 = 0 /\ 0 < kmap_size k;
  ke_vend : virt k + kmap_size k <= 4294967296;
  ke_pend : phys_start k + kmap_size k <= 4294967296;
  ke_perm : 0 <= perm k < 4096
}.

Section Setup.
  Context {S : Type} `{LinkerLayout} `{!PageAlloc S} `{!PageAllocLaws S}.
  Implicit Types (s : S) (m : mem).

Lemma kmap_entries_ok : Forall kmap_entry_ok Vm.kmap.
Proof.
  pose proof data_aligned. pose proof data_low. pose proof end_after_data. pose proof end_high.
  repeat constructor; unfold kmap_size; cbn; try done; unfold V2P; mmu_lia.
Qed.

(** The regions follow one another in the address space. *)
Definition kmap_sorted (ks : list kmap_entry) : Prop := forall i j k k',
  ks !! i = Some k -> ks !! j = Some k' -> (i < j)%nat -> virt k + kmap_size k <= virt k'.

Lemma kmap_is_sorted : kmap_sorted Vm.kmap.
Proof.
  pose proof data_aligned. pose proof data_low. pose proof end_after_data. pose proof end_high.
  intros i j k k' Hi Hj Hij.
  do 4 (destruct i as [|i]; cbn in Hi;
        [injection Hi as <-; do 4 (destruct j as [|j]; cbn in Hj;
           [try lia; injection Hj as <-; unfold kmap_size; cbn; mmu_lia|]); done|]).
  done.
Qed.

Lemma mapped_kmap old k va :
  kmap_entry_ok k ->
  mapped old (virt k) (kmap_size k / 4096) (phys_start k) (perm k) va =
    if decide (virt k <= va < virt k + kmap_size k)
    then Z.lor (Z.lor (phys_start k + (va / 4096 * 4096 - virt k)) (perm k)) PTE_P else old va.
Proof.
  intros [_ _ [Hs _] _ _ _]. unfold mapped.
  replace (4096 * (kmap_size k / 4096)) with (kmap_size k) by (clear -Hs; dlia). done.
Qed.

Lemma space_ok_no_frames m pgdir lim l :
  pgdir_ok m pgdir l -> (forall va, 0 <= va < lim -> present (pt_lookup m pgdir va) = false) ->
  space_ok m pgdir lim l.
Proof.
  intros Hpd Hn. split; [done|..]; unfold frame_of; intros; rewrite Hn in *; done.
Qed.

Lemma freevm_kernel_only s l pgdir :
  free_pages s l -> pgdir_ok (pa_mem s) pgdir l ->
  (forall va, 0 <= va < MIN_ADDR -> present (pt_lookup (pa_mem s) pgdir va) = false) ->
  wp (freevm pgdir)
    (fun _ s' => exists l', free_pages s' l' /\ l' ≡ₚ pgdir :: all_tables (pa_mem s) pgdir ++ l /\
       same_rest s s' /\
       agree_on (fun a => ~ pt_byte (pa_mem s) pgdir a) (pa_mem s) (pa_mem s')) s.
Proof.
  intros Hl Hpd Hn. wp_use (freevm_ok s l pgdir); [done|by apply space_ok_no_frames|].
  intros _ s' (Hl' & Hr & Hag). eexists. split; [done|]. rewrite owned_app in *.
  assert (frames (pa_mem s) pgdir (pages_to 0 MIN_ADDR) = []) as Hfr.
  { apply frames_None. intros va [Hv _]%elem_of_pages_to; [|done]. by apply frame_of_none, Hn. }
  rewrite Hfr. split; [|split; [done|]].
  - cbn [rev app]. constructor. apply Permutation_app_tail. symmetry. apply Permutation_rev.
  - intros a Ha. apply Hag. intros (p & Hp & Hin). apply Ha, pt_byte_tables.
    unfold owned in Hp. rewrite Hfr, elem_of_cons, elem_of_app in Hp.
    destruct Hp as [->|[Hp|Hp]]; [by left| |by apply not_elem_of_nil in Hp].
    right. exists p. rewrite list_elem_of_In, <- in_rev, <- list_elem_of_In in Hp. done.
Qed.

Lemma kmap_lookup_out old ks va :
  Forall (fun k => va < virt k) ks -> kmap_lookup old ks va = old va.
Proof.
  induction 1 as [|k ks Hk _ IH]; [done|]. cbn. rewrite decide_False by lia. done.
Qed.
Lemma kmap_lookup_ext old old' ks va :
  old va = old' va -> kmap_lookup old ks va = kmap_lookup old' ks va.
Proof. intros He. induction ks as [|k ks IH]; [done|]. cbn. case_decide; done. Qed.

(** What [setupkvm] keeps true while it fills the kernel part: the user part
    is empty and no page got lost. *)
Record kvm_inv (pgdir : Z) (l0 : list Z) (s : S) (l : list Z) : Prop := {
  ki_free : free_pages s l;
  ki_ok : pgdir_ok (pa_mem s) pgdir l;
  ki_pages : pgdir :: all_tables (pa_mem s) pgdir ++ l ≡ₚ l0;
  ki_user va : 0 <= va < KERNBASE -> pt_lookup (pa_mem s) pgdir va = 0;
  ki_low j : 0 <= j < 512 -> pt_at (pa_mem s) pgdir j = None
}.

(** The page directory and its tables for the kernel half are at most 513 pages, so
    that [setupkvm] cannot run out of more. *)
Lemma tables_length m pgdir i n : (length (tables m pgdir i n) <= n)%nat.
Proof using. clear. revert i. induction n as [|n IH]; intros i; cbn [tables]; [done|]. specialize (IH (i + 1)). destruct (pt_at m pgdir i); cbn [length]; lia. Qed.
Lemma tables_skip m pgdir i k n : (forall j, i <= j < i + Z.of_nat k -> pt_at m pgdir j = None) ->
  tables m pgdir i (k + n) = tables m pgdir (i + Z.of_nat k) n.
Proof using.
  clear. revert i. induction k as [|k IH]; intros i Hn; [by rewrite Z.add_0_r|]. cbn [Nat.add tables]. rewrite Hn by lia.
  rewrite IH by (intros; apply Hn; lia). f_equal. lia.
Qed.
Lemma kvm_pages pgdir l0 s l : kvm_inv pgdir l0 s l -> (length l0 <= 513 + length l)%nat.
Proof.
  intros Hi. rewrite <- (Permutation_length (ki_pages _ _ _ _ Hi)). cbn [length]. rewrite length_app.
  rewrite <- all_tables_eq. change (Z.to_nat NPDENTRIES) with (512 + 512)%nat. rewrite tables_skip by (intros; apply (ki_low _ _ _ _ Hi); lia).
  pose proof (tables_length (pa_mem s) pgdir (0 + Z.of_nat 512) 512). lia.
Qed.

Lemma setupkvm_loop_ok ks s l l0 pgdir :
  kvm_inv pgdir l0 s l -> Forall kmap_entry_ok ks -> kmap_sorted ks ->
  (forall k va, k ∈ ks -> virt k <= va < virt k + kmap_size k ->
     pt_lookup (pa_mem s) pgdir va = 0) ->
  wp (setupkvm_loop ks pgdir)
    (fun r s' => exists l', same_rest s s' /\
       agree_on (fun a => ~ pt_byte (pa_mem s) pgdir a /\ ~ free_byte l a) (pa_mem s) (pa_mem s') /\
       (r = 0 /\ free_pages s' l' /\ l' ≡ₚ l0 /\ (length l0 <= 513)%nat \/
        r = pgdir /\ kvm_inv pgdir l0 s' l' /\ l' `suffix_of` l /\
        forall va, is_u32 va ->
          pt_lookup (pa_mem s') pgdir va = kmap_lookup (pt_lookup (pa_mem s) pgdir) ks va)) s.
Proof.
  revert s l. induction ks as [|k ks IH]; intros s l Hi Hks Hsort Hz; cbn [setupkvm_loop].
  { apply wp_ret. exists l. split; [done|]. split; [done|]. right. done. }
  apply Forall_cons in Hks as [Hk Hks]. pose proof Hk as [[Hv1 Hv2] [Hp1 Hp2] [Hs1 Hs2] Hve Hpe Hperm].
  fold (kmap_size k).
  assert (virt k / 4096 * 4096 = virt k) as Hva by (clear -Hv1; dlia).
  assert (extra_pages (virt k) (kmap_size k) + 1 = kmap_size k / 4096) as Hx
    by (unfold extra_pages; clear -Hv1 Hs1; dlia).
  assert (0 < KERNBASE) by done.
  wp_step. wp_use mappages_full; [apply Hi|apply Hi|lia|lia|lia|done|lia| |done| |].
  - clear -Hx Hpe Hs1. dlia.
  - intros j Hj. rewrite Hva. rewrite (Hz k); [done|by left|].
    clear -Hj Hx Hs1. assert (4096 * (kmap_size k / 4096) = kmap_size k) by dlia. lia.
  - rewrite Hva. intros r s1 (l1 & j & Hs & Hr & Hlow & Hlk).
    assert (kvm_inv pgdir l0 s1 l1) as Hi1.
    { split; [apply Hs|apply Hs| | |].
      3:{ intros i Hi'. rewrite Hlow; [by apply (ki_low _ _ _ _ Hi)|]. rewrite PDX_eq, u32_small by lia. change KERNBASE with (512 * 4194304) in Hv2. clear -Hv2 Hi'. dlia. }
      - rewrite (vs_tables _ _ _ _ _ Hs). apply Hi.
      - intros va Hva'. rewrite Hlk by (unfold is_u32; mmu_unfold; lia). unfold mapped.
        rewrite decide_False by lia. by apply (ki_user _ _ _ _ Hi). }
    destruct Hr as [[-> ->]|(-> & Hj & ->)].
    + rewrite Hx in Hlk. change (0 <? 0) with false. cbv iota.
      wp_use (IH s1 l1); [done|done| | |].
      * intros i i' k1 k2 Hk1 Hk2 Hii. apply (Hsort (Datatypes.S i) (Datatypes.S i')); done || lia.
      * intros k' va Hk' Hr. rewrite Hlk.
        2:{ rewrite Forall_forall in Hks. apply Hks in Hk' as [[? ?] _ _ ? _ _]. unfold is_u32. lia. }
        rewrite mapped_kmap by done. rewrite decide_False; [apply (Hz k'); [by right|done]|].
        apply list_elem_of_lookup in Hk' as [i Hi'].
        pose proof (Hsort 0%nat (Datatypes.S i) k k' eq_refl Hi'). lia.
      * intros r s2 (l2 & Hr2 & Hag2 & HC). exists l2. split; [by rewrite (vs_rest _ _ _ _ _ Hs)|].
        split.
        { intros a [Ha Hf]. rewrite Hag2; [by apply (vs_frame _ _ _ _ _ Hs)|]. split.
          - intros [?|?]%(vs_bytes _ _ _ _ _ Hs); done.
          - contradict Hf. eapply free_byte_suffix; [apply Hs|done]. }
        destruct HC as [HC|(-> & Hi2 & Hsf & Hlk2)]; [by left|right].
        split; [done|]. split; [done|]. split; [etrans; [done|apply Hs]|].
        intros va Hva'. rewrite Hlk2 by done. cbn [kmap_lookup]. specialize (Hlk va Hva').
        rewrite mapped_kmap in Hlk by done. case_decide as Hin.
        { rewrite kmap_lookup_out; [done|]. apply Forall_forall. intros k' [i Hi']%list_elem_of_lookup.
          pose proof (Hsort 0%nat (Datatypes.S i) k k' eq_refl Hi'). lia. }
        by apply kmap_lookup_ext.
    + change (-1 <? 0) with true. cbv iota.
      wp_step. wp_use (freevm_kernel_only s1 []); [apply Hi1|apply Hi1| |].
      * intros va Hv. rewrite (ki_user _ _ _ _ Hi1); [done|]. unfold MIN_ADDR in Hv. mmu_unfold. lia.
      * intros _ s2 (l2 & Hl2 & Hp & Hr2 & Hag2). wp_step. exists l2.
        split; [by rewrite (vs_rest _ _ _ _ _ Hs)|]. split.
        { intros a [Ha Hf]. rewrite Hag2; [by apply (vs_frame _ _ _ _ _ Hs)|].
          intros [?|?]%(vs_bytes _ _ _ _ _ Hs); done. }
        left. split; [done|]. split; [done|]. split; [rewrite Hp; apply Hi1|by apply (kvm_pages _ _ _ _ Hi1)].
Qed.

(** A zeroed page is an empty page directory. *)
Lemma fresh_pgdir m m' pgdir :
  page_ok pgdir -> m' = memset m pgdir 0 PGSIZE ->
  (forall i, 0 <= i < 1024 -> pt_at m' pgdir i = None) /\ all_tables m' pgdir = [] /\
  (forall va, pt_lookup m' pgdir va = 0) /\ (forall a, pt_byte m' pgdir a -> in_page pgdir a).
Proof.
  intros Hp ->.
  assert (forall i, 0 <= i < 1024 -> pt_at (memset m pgdir 0 PGSIZE) pgdir i = None) as Hn.
  { intros i Hi. unfold pt_at. rewrite ld32_memset_zero by (unfold PGSIZE; lia). done. }
  split; [done|]. split; [|split].
  - rewrite <- all_tables_eq. apply tables_none. intros j Hj. rewrite Z2Nat.id in Hj by done.
    apply Hn. unfold NPDENTRIES in Hj. lia.
  - intros va. unfold pt_lookup. rewrite Hn by apply PDX_range. done.
  - intros a [?|(i & t & Hi & Ht & _)]; [done|]. rewrite Hn in Ht; done.
Qed.

Lemma setupkvm_ok s l :
  free_pages s l ->
  wp setupkvm (fun r s' => exists l', same_rest s s' /\
       agree_on (fun a => ~ free_byte l a) (pa_mem s) (pa_mem s') /\
       (r = 0 /\ free_pages s' l' /\ l' ≡ₚ l /\ (length l <= 513)%nat \/
        page_ok r /\ r ∈ l /\ kvm_inv r l s' l' /\ l' `suffix_of` l /\
        forall va, is_u32 va -> pt_lookup (pa_mem s') r va = kmap_lookup (fun _ => 0) Vm.kmap va)) s.
Proof.
  intros Hl. pose proof (free_pages_wf _ _ Hl) as [Hnd Hfp]. unfold setupkvm. wp_step.
  wp_use kalloc_ok; [done|]. intros r s1 (-> & Hm1 & Hl1 & Hr1).
  destruct l as [|p l]; cbn [hd tl] in *.
  { cbn. exists []. rewrite Hm1. split; [done|]. split; [done|]. left. split_and!; [done..|cbn; lia]. }
  apply NoDup_cons in Hnd as [Hpl Hnd]. apply Forall_cons in Hfp as [Hp Hfp].
  rewrite (proj2 (Z.eqb_neq p 0)) by by apply page_ok_nonzero.
  wp_step. apply (wp_upd_mem _ _ _ l Hl1).
  { intros a (q & Hq & Ha). rewrite ld8_memset by done. unfold PGSIZE.
    case_decide as Hin; [|done]. by destruct (page_of_free l q a p). }
  intros s2 Hl2 Hm2 Hr2.
  destruct (fresh_pgdir _ _ p Hp Hm2) as (Hat & Htab & Hlk & Hby).
  change (P2V PHYSTOP >? DEVSPACE) with false. cbv iota.
  wp_use (setupkvm_loop_ok Vm.kmap s2 l (p :: l) p).
  - split; [done| |by rewrite Htab|intros; apply Hlk|intros; apply Hat; lia]. split; [done|done|..].
    + intros i t Hi Ht. rewrite Hat in Ht; done.
    + intros i j t Hi _ Ht. rewrite Hat in Ht; done.
  - apply kmap_entries_ok.
  - apply kmap_is_sorted.
  - intros; apply Hlk.
  - intros r s3 (l3 & Hr3 & Hag3 & HC). exists l3. split; [by rewrite Hr1, Hr2|]. split.
    { intros a Ha. rewrite Hag3, Hm2, Hm1.
      - rewrite ld8_memset by done. case_decide as Hin; [|done].
        destruct Ha. exists p. split; [by left|done].
      - split; contradict Ha.
        + exists p. split; [by left|by apply Hby].
        + apply (free_byte_suffix _ l); [by exists [p]|done]. }
    destruct HC as [HC|(-> & Hi & Hsf & HL)]; [by left|right].
    split; [done|]. split; [by left|]. split; [done|].
    split; [etrans; [done|by exists [p]]|].
    intros va Hva. rewrite HL by done. apply kmap_lookup_ext, Hlk.
Qed.
End Setup.

(** ** Adding frames to an address space *)

Section Grow.
  Context {S : Type} `{LinkerLayout} `{!PageAlloc S} `{!PageAllocLaws S}.
  Implicit Types (s : S) (m : mem).

(** The word [mappages] stores for frame [f]. *)
Definition pte_for (f perm : Z) : Z := Z.lor (Z.lor (V2P f) perm) PTE_P.

Lemma pte_for_frame f perm :
  page_ok f -> 0 <= perm < 4096 ->
  present (pte_for f perm) = true /\ P2V (PTE_ADDR (pte_for f perm)) = f.
Proof.
  intros Hf Hp. destruct (page_ok_V2P_page f Hf) as [Ha Hu]. unfold pte_for, present.
  assert (0 <= Z.lor perm PTE_P < 4096) as Hfl by by apply lor_flag_range.
  split.
  - apply c_true_ne. intros Hz. apply (f_equal (fun x => Z.testbit x 0)) in Hz.
    rewrite Z.land_spec, Z.lor_spec, orb_true_r in Hz. done.
  - rewrite <- Z.lor_assoc, PTE_ADDR_lor by done. by apply page_ok_P2V_V2P.
Qed.

(** What [kalloc] hands out belongs to nobody. *)
Lemma fresh_page s l1 pgdir lim p :
  free_pages s (p :: l1) -> space_ok (pa_mem s) pgdir lim (p :: l1) ->
  page_ok p /\ p ∉ l1 /\ (forall a, in_page p a -> ~ pt_byte (pa_mem s) pgdir a) /\
  (forall va, 0 <= va < lim -> frame_of (pa_mem s) pgdir va <> Some p).
Proof.
  intros [[Hp Hnd]%NoDup_cons [Hpo Hfp]%Forall_cons]%free_pages_wf Hok.
  split; [done|]. split; [done|]. split.
  - pose proof (so_pgdir _ _ _ _ Hok) as Hpd. intros a Ha [Hin|(i & t & Hi & Ht & Hin)].
    + pose proof (pgdir_busy _ _ _ Hpd) as [Hne _]%not_elem_of_cons.
      by apply (page_disjoint p pgdir a); [apply Hpo|apply Hpd| |..].
    + apply (pt_page _ _ _ Hpd) in Ht as (Hto & _ & [Hne _]%not_elem_of_cons); [|done].
      by apply (page_disjoint p t a); [apply Hpo|apply Hto| |..].
  - intros va Hva Hf. apply (so_frame _ _ _ _ Hok) in Hf as (_ & [Hne _]%not_elem_of_cons & _); done.
Qed.

Lemma space_ok_agree m m' pgdir lim l l' :
  space_ok m pgdir lim l -> agree_on (pt_byte m pgdir) m m' -> l' ⊆ l -> space_ok m' pgdir lim l'.
Proof.
  intros Hok Hag Hl. pose proof (so_pgdir _ _ _ _ Hok) as Hpd.
  assert (agree_on (in_page pgdir) m m') as Hag' by (intros a ?; apply Hag; by left).
  assert (forall va, frame_of m' pgdir va = frame_of m pgdir va) as Hfr
    by (intros va; by apply frame_of_lookup, (pt_lookup_agree m _ _ l)).
  split.
  - by apply (pgdir_ok_agree m m' pgdir l).
  - intros va f Hva. rewrite Hfr. intros (? & Hn & Hb)%(so_frame _ _ _ _ Hok); [|done].
    split; [done|]. split; [intros ?%Hl; done|].
    intros a Ha. rewrite (pt_byte_agree m m' pgdir l) by done. by apply Hb.
  - intros va va' f Hva Hva'. rewrite !Hfr. by apply (so_inj _ _ _ _ Hok).
Qed.

(** Page tables may grow; frames disappear or stay. *)
Lemma space_ok_step s l s' l' pgdir lim :
  free_pages s l -> vm_step pgdir s l s' l' -> space_ok (pa_mem s) pgdir lim l ->
  (forall va f, 0 <= va < lim -> frame_of (pa_mem s') pgdir va = Some f ->
     frame_of (pa_mem s) pgdir va = Some f) ->
  space_ok (pa_mem s') pgdir lim l'.
Proof.
  intros Hl Hs Hok Hfr. destruct (free_pages_wf _ _ Hl) as [_ Hfp]. split.
  - apply Hs.
  - intros va f Hva (Hp & Hn & Hb)%Hfr%(so_frame _ _ _ _ Hok); [|done..]. split; [done|]. split.
    + destruct (vs_suffix _ _ _ _ _ Hs) as [k ->]. contradict Hn. apply elem_of_app. by right.
    + intros a Ha [?|(q & Hq & Hqa)]%(vs_bytes _ _ _ _ _ Hs); [by apply (Hb a)|].
      by apply (page_of_free l q a f).
  - intros va va' f Hva Hva' ?%Hfr ?%Hfr; [|done..]. by apply (so_inj _ _ _ _ Hok va va' f).
Qed.

Lemma space_ok_add s l s' l' pgdir lim p va0 :
  free_pages s l -> vm_step pgdir s l s' l' -> space_ok (pa_mem s) pgdir lim l ->
  page_ok p -> p ∉ l -> (forall a, in_page p a -> ~ pt_byte (pa_mem s) pgdir a) ->
  (forall va, 0 <= va < lim -> frame_of (pa_mem s) pgdir va <> Some p) ->
  (forall va, 0 <= va < lim -> frame_of (pa_mem s') pgdir va =
     if decide (va / 4096 = va0 / 4096) then Some p else frame_of (pa_mem s) pgdir va) ->
  space_ok (pa_mem s') pgdir lim l'.
Proof.
  intros Hl Hs Hok Hp Hpl Hpb Hpf Hfr. destruct (free_pages_wf _ _ Hl) as [_ Hfp].
  assert (forall f, page_ok f -> f ∉ l -> (forall a, in_page f a -> ~ pt_byte (pa_mem s) pgdir a) ->
            f ∉ l' /\ forall a, in_page f a -> ~ pt_byte (pa_mem s') pgdir a) as Hout.
  { intros f Hf Hn Hb. split.
    - destruct (vs_suffix _ _ _ _ _ Hs) as [k ->]. contradict Hn. apply elem_of_app. by right.
    - intros a Ha [?|(q & Hq & Hqa)]%(vs_bytes _ _ _ _ _ Hs); [by apply (Hb a)|].
      by apply (page_of_free l q a f). }
  split.
  - apply Hs.
  - intros va f Hva. rewrite Hfr by done. case_decide.
    + intros [= <-]. split; [done|]. by apply Hout.
    + intros (Hfo & Hn & Hb)%(so_frame _ _ _ _ Hok); [|done]. split; [done|]. by apply Hout.
  - intros va va' f Hva Hva'. rewrite !Hfr by done. repeat case_decide; try congruence.
    + intros [= <-] Hf. by apply Hpf in Hf.
    + intros Hf [= <-]. by apply Hpf in Hf.
    + by apply (so_inj _ _ _ _ Hok).
Qed.

Lemma perm_snoc_frame {A} (t3 t1 l3 l1 fr : list A) p :
  t3 ++ l3 ≡ₚ t1 ++ l1 -> t3 ++ (fr ++ [p]) ++ l3 ≡ₚ t1 ++ fr ++ p :: l1.
Proof.
  intros Hp. rewrite !(Permutation_app_swap_app t3 (fr ++ [p])), Hp, <- !app_assoc.
  rewrite (Permutation_app_swap_app t1 fr). cbn. by rewrite Permutation_middle.
Qed.

(** Mapping one page to a frame nobody else has. *)
Lemma map_fresh s l pgdir lim p va0 perm :
  free_pages s l -> space_ok (pa_mem s) pgdir lim l -> lim <= KERNBASE ->
  page_ok p -> p ∉ l -> (forall a, in_page p a -> ~ pt_byte (pa_mem s) pgdir a) ->
  (forall va, 0 <= va < lim -> frame_of (pa_mem s) pgdir va <> Some p) ->
  va0 mod 4096 = 0 -> 0 <= va0 < KERNBASE -> 0 <= perm < 4096 ->
  present (pt_lookup (pa_mem s) pgdir va0) = false ->
  wp (mappages pgdir va0 PGSIZE (V2P p) perm)
    (fun r s' => exists l', vm_step pgdir s l s' l' /\ space_ok (pa_mem s') pgdir lim l' /\
       (r = 0 /\ (forall va, is_u32 va -> pt_lookup (pa_mem s') pgdir va =
           if decide (va / 4096 = va0 / 4096) then pte_for p perm else pt_lookup (pa_mem s) pgdir va) \/
        r = -1 /\ l' = [] /\
          forall va, is_u32 va -> pt_lookup (pa_mem s') pgdir va = pt_lookup (pa_mem s) pgdir va)) s.
Proof.
  intros Hl Hok Hlim Hp Hpl Hpb Hpf Hva Hva0 Hperm Hnp. unfold PGSIZE.
  assert (extra_pages va0 4096 = 0) as Hx by (unfold extra_pages; clear -Hva; dlia).
  assert (va0 / 4096 * 4096 = va0) as Hd by (clear -Hva; dlia).
  destruct (page_ok_V2P_page p Hp) as [Hpa Hpu].
  wp_use mappages_ok; [done|apply Hok|lia|lia|mmu_unfold; lia|done|apply Hpu| |done| |].
  - rewrite Hx. unfold is_u32 in Hpu. lia.
  - intros k Hk. rewrite Hx in Hk. replace k with 0 by lia. by rewrite Hd, Z.mul_0_r, Z.add_0_r.
  - rewrite Hx, Hd. intros r s' (l' & k & Hs & Hr & Hlk). exists l'. split; [done|].
    destruct Hr as [[-> ->]|(-> & Hk & ->)].
    + assert (forall va, is_u32 va -> pt_lookup (pa_mem s') pgdir va =
           if decide (va / 4096 = va0 / 4096) then pte_for p perm
           else pt_lookup (pa_mem s) pgdir va) as HL.
      { intros va Hva'. rewrite Hlk by done. unfold mapped. case_decide as E.
        - rewrite decide_True by (clear -E Hva; dlia).
          replace (va / 4096 * 4096 - va0) with 0 by (clear -E Hva; dlia). by rewrite Z.add_0_r.
        - rewrite decide_False; [done|]. clear -E Hva. dlia. }
      split; [|by left]. apply (space_ok_add s l s' l' pgdir lim p va0); try done.
      intros va Hv. unfold frame_of. rewrite HL by (unfold is_u32; mmu_unfold; lia).
      case_decide; [|done]. by destruct (pte_for_frame p perm) as [-> ->].
    + replace k with 0 in Hlk by lia.
      assert (forall va, is_u32 va -> pt_lookup (pa_mem s') pgdir va = pt_lookup (pa_mem s) pgdir va)
        as HL by (intros va Hva'; rewrite Hlk by done; unfold mapped; by rewrite decide_False by lia).
      split; [|by right]. apply (space_ok_step s l); [done..|].
      intros va f Hv. rewrite (frame_of_lookup (pa_mem s)); [done|].
      apply HL. unfold is_u32; mmu_unfold; lia.
Qed.

(** [s'] extends the address space of [s] by the pages of [a, b): each is
    backed by a frame of its own taken from the free list [l], with the
    permissions and the contents given; nothing else the MMU sees changed, and
    no page got lost. *)
Record grown (perm_of byte_of : Z -> Z) (pgdir lim a b : Z)
    (s : S) (l : list Z) (s' : S) (l' : list Z) : Prop := {
  gr_free : free_pages s' l';
  gr_ok : space_ok (pa_mem s') pgdir lim l';
  gr_rest : same_rest s s';
  gr_suffix : l' `suffix_of` l;
  gr_pages : all_tables (pa_mem s') pgdir ++ frames (pa_mem s') pgdir (pages_to a b) ++ l'
             ≡ₚ all_tables (pa_mem s) pgdir ++ l;
  gr_bytes x : pt_byte (pa_mem s') pgdir x -> pt_byte (pa_mem s) pgdir x \/ free_byte l x;
  gr_frame : agree_on (fun x => ~ pt_byte (pa_mem s) pgdir x /\ ~ free_byte l x)
               (pa_mem s) (pa_mem s');
  gr_out va : is_u32 va -> ~ (a <= va < b) ->
    pt_lookup (pa_mem s') pgdir va = pt_lookup (pa_mem s) pgdir va;
  gr_in va : a <= va < b -> exists f, f ∈ l /\
    pt_lookup (pa_mem s') pgdir va = pte_for f (perm_of (va / 4096 * 4096)) /\
    ld8 (pa_mem s') (f + va mod 4096) = byte_of va
}.

Lemma grown_refl perm_of byte_of pgdir lim a s l :
  free_pages s l -> space_ok (pa_mem s) pgdir lim l ->
  grown perm_of byte_of pgdir lim a a s l s l.
Proof.
  intros Hl Hok. split; try done; auto.
  - by rewrite (pages_to_nil a a) by lia.
  - intros va Hva. lia.
Qed.

(** One more page: [p], filled with its bytes, is mapped at [b]. *)
Section Snoc.
  Variables (perm_of byte_of : Z -> Z) (pgdir lim a b : Z) (s : S) (l : list Z) (s1 : S) (p : Z) (l1 : list Z) (s2 s3 : S) (l3 : list Z).
  Hypothesis Hl : free_pages s l.
  Hypothesis HG : grown perm_of byte_of pgdir lim a b s l s1 (p :: l1).
  Hypothesis Ha : a mod 4096 = 0.
  Hypothesis Hb : b mod 4096 = 0.
  Hypothesis Hab : 0 <= a <= b.
  Hypothesis Hbl : b < lim.
  Hypothesis Hlim : lim <= KERNBASE.
  Hypothesis Hperm : forall va, 0 <= perm_of va < 4096.
  Hypothesis Hr12 : same_rest s1 s2.
  Hypothesis Hag12 : agree_on (fun x => ~ in_page p x) (pa_mem s1) (pa_mem s2).
  Hypothesis Hbytes : forall o, 0 <= o < 4096 -> ld8 (pa_mem s2) (p + o) = byte_of (b + o).
  Hypothesis Hs : vm_step pgdir s2 l1 s3 l3.
  Hypothesis Hok3 : space_ok (pa_mem s3) pgdir lim l3.
  Hypothesis Hlk3 : forall va, is_u32 va -> pt_lookup (pa_mem s3) pgdir va =
     if decide (va / 4096 = b / 4096) then pte_for p (perm_of b) else pt_lookup (pa_mem s2) pgdir va.

Lemma snoc_fresh : page_ok p /\ p ∉ l1 /\ (forall x, in_page p x -> ~ pt_byte (pa_mem s1) pgdir x) /\ Forall page_ok l1.
Proof.
  pose proof (gr_free _ _ _ _ _ _ _ _ _ _ HG) as Hl1. pose proof (gr_ok _ _ _ _ _ _ _ _ _ _ HG) as Hok1. pose proof (so_pgdir _ _ _ _ Hok1) as Hpd1.
  destruct (fresh_page s1 l1 pgdir lim p) as (Hp & Hpl & Hpb & _); [done..|].
  destruct (free_pages_wf _ _ Hl1) as [_ [_ Hfp]%Forall_cons]. done.
Qed.
Lemma snoc_tables : agree_on (pt_byte (pa_mem s1) pgdir) (pa_mem s1) (pa_mem s2) /\
  (forall x, pt_byte (pa_mem s2) pgdir x <-> pt_byte (pa_mem s1) pgdir x) /\ all_tables (pa_mem s2) pgdir = all_tables (pa_mem s1) pgdir.
Proof.
  pose proof (gr_free _ _ _ _ _ _ _ _ _ _ HG) as Hl1. pose proof (gr_ok _ _ _ _ _ _ _ _ _ _ HG) as Hok1. pose proof (so_pgdir _ _ _ _ Hok1) as Hpd1.
  destruct snoc_fresh as (_ & _ & Hpb & _).
  assert (agree_on (pt_byte (pa_mem s1) pgdir) (pa_mem s1) (pa_mem s2)) as Hagp.
  { intros x Hx. apply Hag12. intros Hin. by apply (Hpb x). }
  assert (agree_on (in_page pgdir) (pa_mem s1) (pa_mem s2)) as Hagd by (intros x ?; apply Hagp; by left).
  split; [done|]. split; [intros x; by apply (pt_byte_agree _ _ _ (p :: l1))|].
  rewrite <- !all_tables_eq. apply tables_ext. intros j Hj. rewrite Z2Nat.id in Hj by done.
  apply (pt_at_agree _ _ _ (p :: l1)); [done|done|]. unfold NPDENTRIES in Hj. lia.
Qed.
Lemma snoc_lookup va : is_u32 va -> pt_lookup (pa_mem s3) pgdir va =
  if decide (va / 4096 = b / 4096) then pte_for p (perm_of b) else pt_lookup (pa_mem s1) pgdir va.
Proof.
  pose proof (gr_free _ _ _ _ _ _ _ _ _ _ HG) as Hl1. pose proof (gr_ok _ _ _ _ _ _ _ _ _ _ HG) as Hok1. pose proof (so_pgdir _ _ _ _ Hok1) as Hpd1.
  intros Hva. destruct snoc_tables as (Hagp & _ & _). rewrite Hlk3 by done. case_decide; [done|]. by apply (pt_lookup_agree _ _ _ (p :: l1)).
Qed.
Lemma snoc_pages : all_tables (pa_mem s3) pgdir ++ frames (pa_mem s3) pgdir (pages_to a (b + 4096)) ++ l3 ≡ₚ all_tables (pa_mem s) pgdir ++ l.
Proof.
  destruct snoc_fresh as (Hp & _). destruct snoc_tables as (_ & _ & Htab). pose proof snoc_lookup as Hlk.
  rewrite <- (gr_pages _ _ _ _ _ _ _ _ _ _ HG).
  rewrite (pages_to_split a b (b + 4096)), frames_app by lia.
  rewrite (pages_to_cons b), (pages_to_nil (b + 4096)) by lia.
  rewrite (frames_ext (pa_mem s1) (pa_mem s3) pgdir (pages_to a b)).
  2:{ intros va [Hv Hvm]%elem_of_pages_to; [|done]. apply frame_of_lookup.
      rewrite Hlk by (unfold is_u32; mmu_unfold; lia). rewrite decide_False; [done|].
      clear -Hv Hb. dlia. }
  assert (frames (pa_mem s3) pgdir [b] = [p]) as ->.
  { unfold frames. cbn. unfold frame_of. rewrite Hlk by (unfold is_u32; mmu_unfold; lia).
    rewrite decide_True by done. by destruct (pte_for_frame p (perm_of b)) as [-> ->]. }
  apply (perm_snoc_frame _ _ _ _ _ _ (eq_rect _ (fun t => _ ++ l3 ≡ₚ t ++ l1)
           (vs_tables _ _ _ _ _ Hs) _ Htab)).
Qed.
(** The bytes of the new page and of the pages before it. *)
Lemma snoc_new va : a <= va < b + 4096 -> va / 4096 = b / 4096 -> p ∈ l -> exists f, f ∈ l /\
  pte_for p (perm_of b) = pte_for f (perm_of (va / 4096 * 4096)) /\ ld8 (pa_mem s3) (f + va mod 4096) = byte_of va.
Proof.
  intros Hva E Hpinl. destruct snoc_fresh as (Hp & Hpl & Hpb & Hfp). destruct snoc_tables as (_ & Hb12 & _).
  exists p. split; [done|]. replace (va / 4096 * 4096) with b by (clear -E Hb; dlia).
  split; [done|]. rewrite (vs_frame _ _ _ _ _ Hs).
  * rewrite Hbytes by (clear; dlia). f_equal. clear -E Hb. dlia.
  * assert (in_page p (p + va mod 4096)) as Hin by (unfold in_page; clear; dlia).
    rewrite Hb12. split; [by apply Hpb|]. intros (q & Hq & Hqa).
    by apply (page_of_free l1 q (p + va mod 4096) p).
Qed.
Lemma snoc_old va : a <= va < b + 4096 -> va / 4096 <> b / 4096 -> exists f, f ∈ l /\
  pt_lookup (pa_mem s1) pgdir va = pte_for f (perm_of (va / 4096 * 4096)) /\ ld8 (pa_mem s3) (f + va mod 4096) = byte_of va.
Proof.
  pose proof (gr_free _ _ _ _ _ _ _ _ _ _ HG) as Hl1. pose proof (gr_ok _ _ _ _ _ _ _ _ _ _ HG) as Hok1. pose proof (so_pgdir _ _ _ _ Hok1) as Hpd1.
  intros Hva E. destruct snoc_fresh as (Hp & Hpl & Hpb & Hfp). destruct snoc_tables as (_ & Hb12 & _).
  destruct (gr_in _ _ _ _ _ _ _ _ _ _ HG va) as (f & Hf & Hv & Hby).
  { clear -Hva E Hb. dlia. }
  exists f. split; [done|]. split; [done|]. rewrite <- Hby.
  assert (frame_of (pa_mem s1) pgdir va = Some f) as Hfr.
  { destruct (free_pages_wf _ _ Hl) as [_ Hfl]. rewrite Forall_forall in Hfl.
    unfold frame_of. rewrite Hv.
    by destruct (pte_for_frame f (perm_of (va / 4096 * 4096))) as [-> ->]; [apply Hfl|..]. }
  apply (so_frame _ _ _ _ Hok1) in Hfr as (Hfo & Hfn & Hfb); [|clear -Hva Hab Hbl E Hb; dlia].
  assert (in_page f (f + va mod 4096)) as Hin by (unfold in_page; clear; dlia).
  apply not_elem_of_cons in Hfn as [Hfp' Hfn].
  rewrite (vs_frame _ _ _ _ _ Hs), Hag12; [done| |].
  * by apply (page_disjoint f); [apply Hfo|apply Hp|..].
  * rewrite Hb12. split; [by apply Hfb|]. intros (q & Hq & Hqa).
    by apply (page_of_free l1 q (f + va mod 4096) f).
Qed.
Lemma grown_snoc : grown perm_of byte_of pgdir lim a (b + 4096) s l s3 l3.
Proof using All.
  destruct snoc_tables as (_ & Hb12 & _).
  assert (l1 `suffix_of` p :: l1) as Hsf1 by by exists [p].
  assert (p ∈ l) as Hpinl.
  { destruct (gr_suffix _ _ _ _ _ _ _ _ _ _ HG) as [k ->]. apply elem_of_app. right. by left. }
  split.
  - apply Hs.
  - done.
  - by rewrite (gr_rest _ _ _ _ _ _ _ _ _ _ HG), Hr12, (vs_rest _ _ _ _ _ Hs).
  - etrans; [apply Hs|]. etrans; [done|apply HG].
  - exact snoc_pages.
  - intros x [Hx|Hx]%(vs_bytes _ _ _ _ _ Hs).
    + apply Hb12 in Hx. by apply (gr_bytes _ _ _ _ _ _ _ _ _ _ HG).
    + right. eapply free_byte_suffix; [|done]. etrans; [exact Hsf1|apply HG].
  - intros x [Hx Hf]. rewrite (vs_frame _ _ _ _ _ Hs).
    + rewrite Hag12; [by apply (gr_frame _ _ _ _ _ _ _ _ _ _ HG)|].
      intros Hin. apply Hf. by exists p.
    + rewrite Hb12. split.
      * by intros [?|?]%(gr_bytes _ _ _ _ _ _ _ _ _ _ HG).
      * contradict Hf. eapply free_byte_suffix; [|done]. etrans; [exact Hsf1|apply HG].
  - intros va Hva Hn. rewrite snoc_lookup by done. rewrite decide_False by (clear -Hn Hb Hab; dlia).
    apply (gr_out _ _ _ _ _ _ _ _ _ _ HG); [done|lia].
  - intros va Hva. rewrite snoc_lookup by (unfold is_u32; mmu_unfold; lia). case_decide; [by apply snoc_new|by apply snoc_old].
Qed.
End Snoc.

(** Giving back a page that is neither mapped nor part of the page table. *)
Lemma space_ok_kfree m m' pgdir lim l p :
  space_ok m pgdir lim l -> page_ok p -> agree_on (fun x => ~ in_page p x) m m' ->
  (forall x, in_page p x -> ~ pt_byte m pgdir x) ->
  (forall va, 0 <= va < lim -> frame_of m pgdir va <> Some p) ->
  space_ok m' pgdir lim (p :: l) /\
  (forall va, pt_lookup m' pgdir va = pt_lookup m pgdir va) /\
  all_tables m' pgdir = all_tables m pgdir.
Proof.
  intros Hok Hp Hag Hpb Hpf. pose proof (so_pgdir _ _ _ _ Hok) as Hpd.
  assert (agree_on (pt_byte m pgdir) m m') as Hagp.
  { intros x Hx. apply Hag. intros Hin. by apply (Hpb x). }
  assert (agree_on (in_page pgdir) m m') as Hagd by (intros x ?; apply Hagp; by left).
  assert (forall va, pt_lookup m' pgdir va = pt_lookup m pgdir va) as HL
    by (intros va; by apply (pt_lookup_agree _ _ _ l)).
  pose proof (space_ok_agree m m' pgdir lim l l Hok Hagp (fun _ x => x)) as Hok'.
  assert (in_page p p) as Hpp by (unfold in_page; lia).
  split; [split; [split|..]|split; [done|]].
  - apply Hpd.
  - apply not_elem_of_cons. split; [|apply Hpd]. intros ->. by apply (Hpb p); [|left].
  - intros i t Hi Ht. destruct (pt_page _ _ _ (so_pgdir _ _ _ _ Hok') i t Hi Ht) as (? & ? & ?).
    split; [done|]. split; [done|]. apply not_elem_of_cons. split; [|done]. intros ->.
    apply (Hpb p); [done|]. right. exists i, p. by rewrite <- (pt_at_agree m m' pgdir l).
  - apply (so_pgdir _ _ _ _ Hok').
  - intros va f Hva Hf. destruct (so_frame _ _ _ _ Hok' va f Hva Hf) as (? & ? & ?).
    split; [done|]. split; [|done]. apply not_elem_of_cons. split; [|done]. intros ->.
    apply (Hpf va); [done|]. by rewrite <- (frame_of_lookup m m').
  - apply Hok'.
  - rewrite <- !all_tables_eq. apply tables_ext. intros j Hj. rewrite Z2Nat.id in Hj by done.
    apply (pt_at_agree _ _ _ l); [done|done|]. unfold NPDENTRIES in Hj. lia.
Qed.

(** The state [allocuvm] is in when it gives up: the pages of [a, b) that got
    a frame have it from [l], [extra] is a page it still holds. *)
Record half_grown (pgdir lim a b : Z) (extra : list Z) (s : S) (l : list Z)
    (s' : S) (l' : list Z) : Prop := {
  hg_free : free_pages s' l';
  hg_ok : space_ok (pa_mem s') pgdir lim l';
  hg_rest : same_rest s s';
  hg_pages : all_tables (pa_mem s') pgdir ++ frames (pa_mem s') pgdir (pages_to a b) ++ extra ++ l'
             ≡ₚ all_tables (pa_mem s) pgdir ++ l;
  hg_bytes x : pt_byte (pa_mem s') pgdir x -> pt_byte (pa_mem s) pgdir x \/ free_byte l x;
  hg_frame : agree_on (fun x => ~ pt_byte (pa_mem s) pgdir x /\ ~ free_byte l x)
               (pa_mem s) (pa_mem s');
  hg_out va : is_u32 va -> ~ (a <= va /\ va / 4096 * 4096 < b) ->
    pt_lookup (pa_mem s') pgdir va = pt_lookup (pa_mem s) pgdir va;
  hg_in va f : a <= va < b -> frame_of (pa_mem s') pgdir va = Some f -> f ∈ l
}.

Lemma undo_growth pgdir lim oldsz newsz extra s l s1 l1 :
  half_grown pgdir lim (PGROUNDUP oldsz) newsz extra s l s1 l1 ->
  0 <= oldsz < newsz -> newsz <= lim -> lim <= KERNBASE ->
  (forall va, PGROUNDUP oldsz <= va -> va / 4096 * 4096 < newsz ->
     present (pt_lookup (pa_mem s) pgdir va) = false) ->
  wp (deallocuvm pgdir newsz oldsz)
    (fun _ s' => exists l', free_pages s' l' /\ space_ok (pa_mem s') pgdir lim l' /\
       same_rest s s' /\ all_tables (pa_mem s') pgdir ++ extra ++ l' ≡ₚ all_tables (pa_mem s) pgdir ++ l /\
       agree_on (fun x => ~ pt_byte (pa_mem s) pgdir x /\ ~ free_byte l x) (pa_mem s) (pa_mem s') /\
       (forall x, pt_byte (pa_mem s') pgdir x <-> pt_byte (pa_mem s1) pgdir x) /\
       (forall q, q ∈ l' -> q ∈ l1 \/ exists va, 0 <= va < newsz /\
          frame_of (pa_mem s1) pgdir va = Some q) /\
       forall va, is_u32 va -> frame_of (pa_mem s') pgdir va = frame_of (pa_mem s) pgdir va) s1.
Proof.
  intros HG Hsz Hn Hlim Hnp.
  wp_use (deallocuvm_ok s1 l1 pgdir lim newsz oldsz); [apply HG|apply HG|lia|done|done|].
  intros _ s2 [_ Hd]. set (a := PGROUNDUP oldsz) in *.
  assert (a mod 4096 = 0 /\ 0 <= a) as [Ha Ha0].
  { subst a. rewrite PGROUNDUP_eq. unfold KERNBASE in *. mlia. }
  eexists. split; [apply Hd|]. split; [apply Hd|].
  split; [by rewrite (hg_rest _ _ _ _ _ _ _ _ _ HG), (dp_rest _ _ _ _ _ _ _ Hd)|].
  split; [|split; [|split; [apply Hd|split]]].
  - rewrite <- (hg_pages _ _ _ _ _ _ _ _ _ HG).
    assert (all_tables (pa_mem s2) pgdir = all_tables (pa_mem s1) pgdir) as ->.
    { rewrite <- !all_tables_eq. apply tables_ext. intros j Hj. rewrite Z2Nat.id in Hj by done.
      apply (pt_at_agree _ _ _ l1); [apply HG|apply Hd|]. unfold NPDENTRIES in Hj. lia. }
    apply Permutation_app_head. rewrite (Permutation_app_swap_app extra).
    apply Permutation_app_tail. symmetry. apply Permutation_rev.
  - intros x [Hx Hf]. rewrite (dp_frame _ _ _ _ _ _ _ Hd).
    + by apply (hg_frame _ _ _ _ _ _ _ _ _ HG).
    + split.
      * by intros [?|?]%(hg_bytes _ _ _ _ _ _ _ _ _ HG).
      * intros (f & Hfr & Hin). apply Hf. exists f. split; [|done].
        unfold frames in Hfr. apply list_elem_of_omap in Hfr as (va & Hv & Hvf).
        apply elem_of_pages_to in Hv as [Hv _]; [|done].
        by apply (hg_in _ _ _ _ _ _ _ _ _ HG va f).
  - intros q [Hq|Hq]%elem_of_app; [right|by left].
    rewrite list_elem_of_In, <- in_rev, <- list_elem_of_In in Hq.
    unfold frames in Hq. apply list_elem_of_omap in Hq as (va & Hv & Hvf). exists va.
    apply elem_of_pages_to in Hv as [Hv _]; [|done]. split; [lia|done].
  - intros va Hva. unfold frame_of. rewrite (dp_lookup _ _ _ _ _ _ _ Hd) by done.
    unfold unmapped. case_decide as E.
    + rewrite (Hnp va) by (apply E). destruct (present (pt_lookup (pa_mem s1) pgdir va)) eqn:Ep;
        [done|by rewrite Ep].
    + by rewrite (hg_out _ _ _ _ _ _ _ _ _ HG).
Qed.
End Grow.
