(* ===== verification/VmGrow.v ===== *)
(** * Growing and copying user address spaces

    [allocuvm] gives a range of pages zeroed frames or, when memory runs out,
    takes back what it did; [copyuvm] builds a page table of its own for a
    child process, with the same contents in frames of its own (vm.c). *)

From S2P Require Import Prelude Mmu Mem PageAlloc Vm VmSpace.
From stdpp Require Import base gmap list strings.
From Stdlib Require Import ZArith Lia.
#[local] Open Scope Z_scope.

Section Alloc.
  Context {S : Type} `{LinkerLayout} `{!PageAlloc S} `{!PageAllocLaws S}.
  Implicit Types (s : S) (m : mem).

Definition user_rw (_ : Z) : Z := Z.lor PTE_W PTE_U.
Definition zero_bytes (_ : Z) : Z := 0.

(** What is left of a failed [allocuvm]: every address is backed as before and
    every page is back (some as page tables that stay behind). *)
Record rolled_back (pgdir lim : Z) (s : S) (l : list Z) (s' : S) (l' : list Z) : Prop := {
  rb_free : free_pages s' l';
  rb_ok : space_ok (pa_mem s') pgdir lim l';
  rb_rest : same_rest s s';
  rb_pages : all_tables (pa_mem s') pgdir ++ l' ≡ₚ all_tables (pa_mem s) pgdir ++ l;
  rb_frame : agree_on (fun x => ~ pt_byte (pa_mem s) pgdir x /\ ~ free_byte l x) (pa_mem s) (pa_mem s');
  rb_lookup va : is_u32 va -> frame_of (pa_mem s') pgdir va = frame_of (pa_mem s) pgdir va
}.

(** The frames of a grown range are those of its part that has any. *)
Lemma frames_upto m pgdir a b c :
  a mod 4096 = 0 -> b mod 4096 = 0 -> a <= b <= c ->
  (forall va, b <= va < c -> present (pt_lookup m pgdir va) = false) ->
  frames m pgdir (pages_to a c) = frames m pgdir (pages_to a b).
Proof.
  intros Ha Hb Hbc Hnp. rewrite (pages_to_split a b c), frames_app by (done || lia).
  rewrite (frames_None _ _ (pages_to b c)); [by rewrite app_nil_r|].
  intros va [Hv _]%elem_of_pages_to; [|done]. by apply frame_of_none, Hnp.
Qed.

Lemma grown_frame perm_of byte_of pgdir lim a b s l s' l' va f :
  free_pages s l -> (forall va, 0 <= perm_of va < 4096) ->
  grown perm_of byte_of pgdir lim a b s l s' l' -> a <= va < b ->
  frame_of (pa_mem s') pgdir va = Some f -> f ∈ l.
Proof.
  intros Hl Hperm HG Hva. destruct (gr_in _ _ _ _ _ _ _ _ _ _ HG va Hva) as (g & Hg & Hlk & _).
  destruct (free_pages_wf _ _ Hl) as [_ Hfl]. rewrite Forall_forall in Hfl.
  unfold frame_of. rewrite Hlk.
  destruct (pte_for_frame g (perm_of (va / 4096 * 4096))) as [-> ->]; [by apply Hfl|done|].
  by intros [= <-].
Qed.

Lemma half_grown_nil perm_of byte_of pgdir lim a b c s l s1 l1 s2 :
  free_pages s l -> (forall va, 0 <= perm_of va < 4096) ->
  grown perm_of byte_of pgdir lim a b s l s1 l1 ->
  a mod 4096 = 0 -> b mod 4096 = 0 -> 0 <= a <= b -> b <= c -> c <= KERNBASE ->
  (forall va, a <= va -> va / 4096 * 4096 < c -> present (pt_lookup (pa_mem s) pgdir va) = false) ->
  pa_mem s2 = pa_mem s1 -> free_pages s2 l1 -> same_rest s1 s2 ->
  half_grown pgdir lim a c [] s l s2 l1.
Proof.
  intros Hl Hperm HG Ha Hb Hab Hbc Hc Hnp Hm2 Hl2 Hr2.
  assert (forall va, b <= va < c -> present (pt_lookup (pa_mem s1) pgdir va) = false) as Hnp'.
  { intros va Hva. rewrite (gr_out _ _ _ _ _ _ _ _ _ _ HG); [|unfold is_u32; mmu_unfold; lia|lia].
    apply Hnp; [lia|]. clear -Hva. dlia. }
  split; rewrite ?Hm2; try apply HG; try done.
  - by rewrite (gr_rest _ _ _ _ _ _ _ _ _ _ HG).
  - rewrite (frames_upto _ _ a b c) by (done || lia). cbn. apply HG.
  - intros va Hva Hn. apply (gr_out _ _ _ _ _ _ _ _ _ _ HG); [done|]. clear -Hn Hbc Hb. dlia.
  - intros va f Hva Hf. destruct (Z.lt_ge_cases va b).
    + apply (grown_frame perm_of byte_of pgdir lim a b s l s1 l1 va f); done || lia.
    + rewrite frame_of_none in Hf; [done|]. apply Hnp'. lia.
Qed.

Lemma perm_extra {A} (t3 t1 l3 l1 fr : list A) p :
  t3 ++ l3 ≡ₚ t1 ++ l1 -> t3 ++ fr ++ [p] ++ l3 ≡ₚ t1 ++ fr ++ p :: l1.
Proof. intros Hp. rewrite (app_assoc fr). by apply perm_snoc_frame. Qed.

Lemma half_grown_extra perm_of byte_of pgdir lim a b c s l s1 p l1 s2 s3 l3 :
  free_pages s l -> (forall va, 0 <= perm_of va < 4096) ->
  grown perm_of byte_of pgdir lim a b s l s1 (p :: l1) ->
  a mod 4096 = 0 -> b mod 4096 = 0 -> 0 <= a <= b -> b <= c -> c <= KERNBASE ->
  (forall va, a <= va -> va / 4096 * 4096 < c -> present (pt_lookup (pa_mem s) pgdir va) = false) ->
  same_rest s1 s2 -> agree_on (fun x => ~ in_page p x) (pa_mem s1) (pa_mem s2) ->
  vm_step pgdir s2 l1 s3 l3 -> space_ok (pa_mem s3) pgdir lim l3 ->
  (forall va, is_u32 va -> pt_lookup (pa_mem s3) pgdir va = pt_lookup (pa_mem s1) pgdir va) ->
  half_grown pgdir lim a c [p] s l s3 l3.
Proof.
  intros Hl Hperm HG Ha Hb Hab Hbc Hc Hnp Hr12 Hag12 Hs Hok3 Hlk3.
  pose proof (half_grown_nil _ _ _ _ _ _ _ _ _ _ _ _ Hl Hperm HG Ha Hb Hab Hbc Hc Hnp
                eq_refl (gr_free _ _ _ _ _ _ _ _ _ _ HG) (reflexivity _)) as HN.
  destruct (fresh_page s1 l1 pgdir lim p) as (Hp & Hpl & Hpb & Hpf); [apply HG..|].
  assert (agree_on (in_page pgdir) (pa_mem s1) (pa_mem s2)) as Hagd.
  { intros x Hx. apply Hag12. intros Hin. apply (Hpb x); [done|by left]. }
  pose proof (so_pgdir _ _ _ _ (gr_ok _ _ _ _ _ _ _ _ _ _ HG)) as Hpd1.
  assert (forall x, pt_byte (pa_mem s2) pgdir x <-> pt_byte (pa_mem s1) pgdir x) as Hb12
    by (intros x; by apply (pt_byte_agree _ _ _ (p :: l1))).
  assert (forall x, free_byte l1 x -> free_byte l x) as Hfree.
  { intros x Hx. apply (free_byte_suffix _ (p :: l1)); [apply HG|].
    apply (free_byte_suffix _ l1); [by exists [p]|done]. }
  split.
  - apply Hs.
  - done.
  - by rewrite (gr_rest _ _ _ _ _ _ _ _ _ _ HG), Hr12, (vs_rest _ _ _ _ _ Hs).
  - rewrite <- (hg_pages _ _ _ _ _ _ _ _ _ HN). cbn [app].
    rewrite (frames_ext (pa_mem s1) (pa_mem s3)).
    2:{ intros va [Hv _]%elem_of_pages_to; [|done]. apply frame_of_lookup, Hlk3.
        unfold is_u32; mmu_unfold; lia. }
    apply perm_extra. rewrite (vs_tables _ _ _ _ _ Hs). apply Permutation_app_tail.
    rewrite <- !all_tables_eq. rewrite (tables_ext (pa_mem s1) (pa_mem s2)); [done|].
    intros j Hj. rewrite Z2Nat.id in Hj by done.
    apply (pt_at_agree _ _ _ (p :: l1)); [done|done|]. unfold NPDENTRIES in Hj. lia.
  - intros x [Hx%Hb12|Hx]%(vs_bytes _ _ _ _ _ Hs); [|by auto].
    by apply (hg_bytes _ _ _ _ _ _ _ _ _ HN).
  - intros x [Hx Hf]. rewrite (vs_frame _ _ _ _ _ Hs), Hag12.
    + by apply (hg_frame _ _ _ _ _ _ _ _ _ HN).
    + intros Hin. apply Hf. destruct (gr_suffix _ _ _ _ _ _ _ _ _ _ HG) as [k ->].
      exists p. split; [|done]. apply elem_of_app. right. by left.
    + rewrite Hb12. split; [|auto]. by intros [?|?]%(hg_bytes _ _ _ _ _ _ _ _ _ HN).
  - intros va Hva Hn. rewrite Hlk3 by done. by apply (hg_out _ _ _ _ _ _ _ _ _ HN).
  - intros va f Hva. rewrite (frame_of_lookup (pa_mem s1)).
    + by apply (hg_in _ _ _ _ _ _ _ _ _ HN).
    + apply Hlk3. unfold is_u32; mmu_unfold; lia.
Qed.

(** Filling a page just allocated and mapping it at [b]. *)
Lemma fill_and_map {A} (k : Z -> M S A) Q s1 p l1 s2 pgdir lim b perm g :
  free_pages s1 (p :: l1) -> space_ok (pa_mem s1) pgdir lim (p :: l1) -> lim <= KERNBASE ->
  pa_mem s2 = pa_mem s1 -> free_pages s2 l1 -> same_rest s1 s2 ->
  (forall m, agree_on (fun x => ~ in_page p x) m (g m)) ->
  b mod 4096 = 0 -> 0 <= b < KERNBASE -> 0 <= perm < 4096 ->
  present (pt_lookup (pa_mem s1) pgdir b) = false ->
  (forall r s3 s2' l3, same_rest s1 s2' -> pa_mem s2' = g (pa_mem s1) ->
     vm_step pgdir s2' l1 s3 l3 -> space_ok (pa_mem s3) pgdir lim l3 ->
     (r = 0 /\ (forall va, is_u32 va -> pt_lookup (pa_mem s3) pgdir va =
        if decide (va / 4096 = b / 4096) then pte_for p perm else pt_lookup (pa_mem s2') pgdir va) \/
      r = -1 /\ l3 = [] /\
        forall va, is_u32 va -> pt_lookup (pa_mem s3) pgdir va = pt_lookup (pa_mem s1) pgdir va) ->
     wp (k r) Q s3) ->
  wp (_ ← upd_mem g; r ← mappages pgdir b PGSIZE (V2P p) perm; k r) Q s2.
Proof.
  intros Hl1 Hok1 Hlim Hm2 Hl2 Hr2 Hg Hb Hb0 Hperm Hnp HK.
  destruct (fresh_page s1 l1 pgdir lim p) as (Hp & Hpl & Hpb & Hpf); [done..|].
  destruct (free_pages_wf _ _ Hl2) as [_ Hfp].
  wp_step. apply (wp_upd_mem _ _ _ l1 Hl2).
  { intros a (q & Hq & Ha). apply Hg. by apply (page_of_free l1 q). }
  rewrite Hm2. intros s2' Hl2' Hm2' Hr2'.
  assert (agree_on (fun x => ~ in_page p x) (pa_mem s1) (pa_mem s2')) as Hag by (rewrite Hm2'; apply Hg).
  assert (agree_on (pt_byte (pa_mem s1) pgdir) (pa_mem s1) (pa_mem s2')) as Hagp.
  { intros x Hx. apply Hag. intros Hin. by apply (Hpb x). }
  assert (agree_on (in_page pgdir) (pa_mem s1) (pa_mem s2')) as Hagd by (intros x ?; apply Hagp; by left).
  pose proof (so_pgdir _ _ _ _ Hok1) as Hpd1.
  assert (forall va, pt_lookup (pa_mem s2') pgdir va = pt_lookup (pa_mem s1) pgdir va) as HL
    by (intros va; by apply (pt_lookup_agree _ _ _ (p :: l1))).
  wp_step. wp_use (map_fresh s2' l1 pgdir lim p b perm); [done| |done|done|done| | |done|done|done| |].
  - apply (space_ok_agree (pa_mem s1) _ _ _ (p :: l1)); [done|done|]. intros x ?. by right.
  - intros a Ha. rewrite (pt_byte_agree (pa_mem s1) _ _ (p :: l1)) by done. by apply Hpb.
  - intros va Hva. rewrite (frame_of_lookup (pa_mem s1)) by apply HL. by apply Hpf.
  - by rewrite HL.
  - intros r s3 (l3 & Hs & Hok3 & Hr). apply (HK r s3 s2' l3); try done.
    + by rewrite Hr2.
    + destruct Hr as [Hr|(? & ? & Hr)]; [by left|right]. split; [done|]. split; [done|].
      intros va Hva. by rewrite Hr, HL.
Qed.

(** A page that was allocated and could not be mapped is still nobody's. *)
Lemma held_page s p l s2 s3 l3 pgdir lim :
  free_pages s (p :: l) -> space_ok (pa_mem s) pgdir lim (p :: l) -> lim <= KERNBASE ->
  agree_on (fun x => ~ in_page p x) (pa_mem s) (pa_mem s2) -> vm_step pgdir s2 l s3 l3 ->
  (forall va, is_u32 va -> pt_lookup (pa_mem s3) pgdir va = pt_lookup (pa_mem s) pgdir va) ->
  (forall x, in_page p x -> ~ pt_byte (pa_mem s3) pgdir x) /\
  (forall va, 0 <= va < lim -> frame_of (pa_mem s3) pgdir va <> Some p).
Proof.
  intros Hl Hok Hlim Hag Hs HL.
  destruct (fresh_page s l pgdir lim p) as (Hp & Hpl & Hpb & Hpf); [done..|].
  destruct (free_pages_wf _ _ Hl) as [_ [_ Hfp]%Forall_cons]. split.
  - intros x Hx [Hpx|(q & Hq & Hqx)]%(vs_bytes _ _ _ _ _ Hs).
    + apply (Hpb x Hx). apply (pt_byte_agree _ (pa_mem s2) _ (p :: l)); [apply Hok| |done].
      intros y Hy. apply Hag. intros Hin. apply (Hpb y); [done|by left].
    + by apply (page_of_free l q x p).
  - intros va Hva. rewrite (frame_of_lookup (pa_mem s)); [by apply Hpf|].
    apply HL. unfold is_u32. mmu_unfold. lia.
Qed.

Lemma allocuvm_loop_ok n s l s1 l1 pgdir lim b oldsz newsz :
  let a := PGROUNDUP oldsz in
  free_pages s l -> grown user_rw zero_bytes pgdir lim a b s l s1 l1 ->
  0 <= oldsz <= newsz -> oldsz <= a -> b mod 4096 = 0 -> a <= b -> b < newsz + 4096 ->
  newsz <= lim -> lim <= KERNBASE ->
  (forall va, a <= va -> va / 4096 * 4096 < newsz -> present (pt_lookup (pa_mem s) pgdir va) = false) ->
  newsz - b <= 4096 * Z.of_nat n ->
  wp (allocuvm_loop (Datatypes.S n) pgdir b oldsz newsz)
    (fun r s' => exists l',
       (r = newsz /\ exists b', b' mod 4096 = 0 /\ newsz <= b' < newsz + 4096 /\
          grown user_rw zero_bytes pgdir lim a b' s l s' l') \/
       (r = 0 /\ rolled_back pgdir lim s l s' l')) s1.
Proof.
  cbv zeta. set (a := PGROUNDUP oldsz).
  intros Hl HG Hsz Hoa Hb Hab Hbn Hlim Hk Hnp Hn.
  assert (a mod 4096 = 0) as Ha by (subst a; rewrite PGROUNDUP_eq; clear; mlia).
  assert (forall va, 0 <= user_rw va < 4096) as Hperm by (intros; done).
  revert s1 l1 b HG Hb Hab Hbn Hn. induction n as [|n IH]; intros s1 l1 b HG Hb Hab Hbn Hn.
  { cbn. rewrite (proj2 (Z.ltb_ge b newsz)) by lia. apply wp_ret. exists l1. left.
    split; [done|]. exists b. split; [done|]. split; [lia|done]. }
  remember (Datatypes.S n) as k eqn:Hk'. cbn [allocuvm_loop].
  destruct (Z.ltb_spec b newsz) as [Hlt|Hge].
  2:{ apply wp_ret. exists l1. left. split; [done|]. exists b. split; [done|]. split; [lia|done]. }
  subst k. pose proof (gr_free _ _ _ _ _ _ _ _ _ _ HG) as Hl1.
  wp_step. wp_use kalloc_ok; [done|]. intros r s2 (-> & Hm2 & Hl2 & Hr2).
  destruct l1 as [|p l1]; cbn [hd tl] in *.
  - cbn [Z.eqb]. wp_step. wp_use (undo_growth pgdir lim oldsz newsz [] s l s2 []).
    + apply (half_grown_nil user_rw zero_bytes pgdir lim a b newsz s l s1 []); done || lia.
    + lia.
    + done.
    + done.
    + done.
    + intros _ s3 (l3 & H1 & H2 & H3 & H4 & H5 & _ & _ & H6). wp_step. exists l3. right.
      split; [done|]. by split.
  - destruct (fresh_page s1 l1 pgdir lim p) as (Hp & Hpl & Hpb & Hpf); [done|apply HG|].
    rewrite (proj2 (Z.eqb_neq p 0)) by by apply page_ok_nonzero.
    assert (forall m, agree_on (fun x => ~ in_page p x) m (memset m p 0 PGSIZE)) as Hg.
    { intros m x Hx. rewrite ld8_memset by done. unfold in_page, PGSIZE in *. case_decide; [lia|done]. }
    assert (0 <= b < KERNBASE) as Hbk by lia.
    apply (fill_and_map _ _ s1 p l1 s2 pgdir lim b (user_rw b)); try done; [apply HG| |].
    { rewrite (gr_out _ _ _ _ _ _ _ _ _ _ HG); [|unfold is_u32; mmu_unfold; lia|lia].
      apply Hnp; [lia|]. clear -Hlt Hb. dlia. }
    intros r s3 s2' l3 Hr2' Hm2' Hs Hok3 [[-> HL]|(-> & -> & HL)].
    + change (0 <? 0) with false. cbv iota. unfold PGSIZE. rewrite u32_small by (mmu_unfold; lia).
      apply (IH s3 l3); [|clear -Hb; dlia|lia|lia|lia].
      apply (grown_snoc user_rw zero_bytes pgdir lim a b s l s1 p l1 s2' s3 l3); try done; try lia.
      * rewrite Hm2'. apply Hg.
      * intros o Ho. rewrite Hm2', ld8_memset, decide_True by (unfold PGSIZE; done || lia). done.
    + change (-1 <? 0) with true. cbv iota. wp_step.
      wp_use (undo_growth pgdir lim oldsz newsz [p] s l s3 []); [|lia|done|done|done|].
      * apply (half_grown_extra user_rw zero_bytes pgdir lim a b newsz s l s1 p l1 s2'); try done; try lia.
        rewrite Hm2'. apply Hg.
      * intros _ s4 (l4 & H1 & H2 & H3 & H4 & H5 & H6 & H7 & H8).
        assert (forall va, 0 <= va < lim -> frame_of (pa_mem s4) pgdir va <> Some p) as Hpf4.
        { intros va Hva Hf. rewrite H8 in Hf by (unfold is_u32; mmu_unfold; lia).
          apply (Hpf va Hva). rewrite <- Hf. apply frame_of_lookup.
          apply (gr_out _ _ _ _ _ _ _ _ _ _ HG); [unfold is_u32; mmu_unfold; lia|].
          intros Hin. rewrite frame_of_none in Hf; [done|]. apply Hnp; [lia|]. clear -Hin Hlt Hb. dlia. }
        assert (forall x, in_page p x -> ~ pt_byte (pa_mem s4) pgdir x) as Hpb4.
        { intros x Hx Hpx%H6. revert x Hx Hpx. apply (held_page s1 p l1 s2' s3 [] pgdir lim); try done.
          - apply HG.
          - rewrite Hm2'. apply Hg. }
        assert (p ∉ l4) as Hpl4.
        { intros [Hin|(va & Hva & Hf)]%H7; [by apply not_elem_of_nil in Hin|].
          rewrite (frame_of_lookup (pa_mem s1)) in Hf
            by (apply HL; unfold is_u32; mmu_unfold; lia).
          apply (Hpf va); [lia|done]. }
        wp_step. wp_use kfree_ok; [done..|]. intros _ s5 (Hl5 & Hr5 & Hag5). wp_step.
        destruct (space_ok_kfree _ _ _ _ _ _ H2 Hp Hag5 Hpb4 Hpf4) as (Hok5 & HL5 & Htab5).
        exists (p :: l4). right. split; [done|]. split; [done|done|by rewrite H3| | |].
        -- by rewrite Htab5.
        -- intros x [Hx Hf]. rewrite Hag5; [exact (H5 x (conj Hx Hf))|]. intros Hin. apply Hf. exists p.
           split; [|done]. destruct (gr_suffix _ _ _ _ _ _ _ _ _ _ HG) as [k ->].
           apply elem_of_app. right. by left.
        -- intros va Hva. rewrite (frame_of_lookup (pa_mem s4)) by apply HL5. by apply H8.
Qed.

Lemma PGROUNDUP_bounds sz :
  0 <= sz <= KERNBASE -> PGROUNDUP sz mod 4096 = 0 /\ sz <= PGROUNDUP sz < sz + 4096.
Proof. intros Hsz. rewrite PGROUNDUP_eq. unfold KERNBASE in *. mlia. Qed.

Lemma allocuvm_ok s l pgdir lim oldsz newsz :
  free_pages s l -> space_ok (pa_mem s) pgdir lim l ->
  0 <= oldsz <= newsz -> newsz <= lim -> lim <= KERNBASE -> newsz < KERNBASE ->
  (forall va, PGROUNDUP oldsz <= va < PGROUNDUP newsz ->
     present (pt_lookup (pa_mem s) pgdir va) = false) ->
  wp (allocuvm pgdir oldsz newsz)
    (fun r s' => exists l',
       (r = newsz /\ grown user_rw zero_bytes pgdir lim (PGROUNDUP oldsz)
                       (PGROUNDUP newsz) s l s' l') \/
       (r = 0 /\ rolled_back pgdir lim s l s' l')) s.
Proof.
  intros Hl Hok Hsz Hlim Hk Hnk Hnp.
  destruct (PGROUNDUP_bounds oldsz) as [Ha Hab]; [lia|].
  destruct (PGROUNDUP_bounds newsz) as [Hc Hcb]; [lia|].
  unfold allocuvm. rewrite Z.geb_leb, (proj2 (Z.leb_gt _ _)), (proj2 (Z.ltb_ge _ _)) by lia.
  wp_use (allocuvm_loop_ok _ s l s l pgdir lim (PGROUNDUP oldsz)); try done; try lia.
  - by apply grown_refl.
  - intros va Hva Hvn. apply Hnp. clear -Hva Hvn Hc Hcb. dlia.
  - unfold PGSIZE. clear. dlia.
  - intros r s' (l' & [(-> & b' & Hb' & Hb'b & HG)|HR]); exists l'; [left|by right].
    split; [done|].
    replace (PGROUNDUP newsz) with b'; [done|]. clear -Hb' Hb'b Hc Hcb. dlia.
Qed.
End Alloc.

(** ** copyuvm *)

Section Copy.
  Context {S : Type} `{LinkerLayout} `{!PageAlloc S} `{!PageAllocLaws S}.
  Implicit Types (s : S) (m : mem).

Lemma pt_byte_not_free m pgdir l a :
  Forall page_ok l -> pgdir_ok m pgdir l -> pt_byte m pgdir a -> ~ free_byte l a.
Proof.
  intros Hfp Hpd Hb (q & Hq & Hqa). destruct Hb as [Hb|(i & t & Hi & Ht & Hb)].
  - apply (page_of_free l q a pgdir); try done; apply Hpd.
  - apply (pt_page _ _ _ Hpd) in Ht as (? & _ & ?); [|done]. by apply (page_of_free l q a t).
Qed.

Lemma frame_not_free m pgdir lim l va f a :
  Forall page_ok l -> space_ok m pgdir lim l -> 0 <= va < lim ->
  frame_of m pgdir va = Some f -> in_page f a -> ~ free_byte l a.
Proof.
  intros Hfp Hok Hva (? & ? & _)%(so_frame _ _ _ _ Hok) Ha (q & Hq & Hqa); [|done].
  by apply (page_of_free l q a f).
Qed.

Lemma space_ok_le m pgdir lim lim' l :
  space_ok m pgdir lim l -> lim' <= lim -> space_ok m pgdir lim' l.
Proof.
  intros Hok Hle. split; [apply Hok|..].
  - intros va f Hva. apply (so_frame _ _ _ _ Hok). lia.
  - intros va va' f Hva Hva'. apply (so_inj _ _ _ _ Hok); lia.
Qed.

(** Giving up a page table built from the pages of [l] returns all of them. *)
Lemma freevm_returns s l1 l d :
  free_pages s l1 -> space_ok (pa_mem s) d MIN_ADDR l1 ->
  d :: all_tables (pa_mem s) d ++ frames (pa_mem s) d (pages_to 0 MIN_ADDR) ++ l1 ≡ₚ l ->
  wp (freevm d) (fun _ s' => exists l', free_pages s' l' /\ l' ≡ₚ l /\ same_rest s s' /\
                   agree_on (fun x => ~ free_byte l x) (pa_mem s) (pa_mem s')) s.
Proof.
  intros Hl1 Hok HP. wp_use (freevm_ok s l1 d); [done..|]. intros _ s' (Hl' & Hr & Hag).
  exists (owned (pa_mem s) d ++ l1).
  assert (owned (pa_mem s) d ++ l1 ≡ₚ l) as Hperm.
  { rewrite <- HP, owned_app. constructor. by rewrite <- !Permutation_rev. }
  split; [done|]. split; [done|]. split; [done|].
  intros x Hx. apply Hag. contradict Hx. destruct Hx as (q & Hq & Hin). exists q. split; [|done].
  rewrite <- Hperm, elem_of_app. by left.
Qed.

(** The byte a user program reads at [va]. *)
Definition user_byte m (pgdir va : Z) : option Z :=
  f ← frame_of m pgdir va; Some (ld8 m (f + va mod 4096)).

Section Loop.
  Variables (s0 : S) (l0 : list Z) (pgdir sz : Z).
  Hypothesis Hl0 : free_pages s0 l0.
  Hypothesis Hsrc : space_ok (pa_mem s0) pgdir KERNBASE l0.
  Hypothesis Hsz : 0 <= sz <= MIN_ADDR.
  Hypothesis Hpres : forall va, 0 <= va < sz -> present (pt_lookup (pa_mem s0) pgdir va) = true.

Definition src_perm (va : Z) : Z := PTE_FLAGS (pt_lookup (pa_mem s0) pgdir va).
Definition src_byte (va : Z) : Z := default 0 (user_byte (pa_mem s0) pgdir va).

Lemma src_perm_range va : 0 <= src_perm va < 4096.
Proof. unfold src_perm. rewrite PTE_FLAGS_eq. clear. dlia. Qed.

(** The source address space while the free pages of [l0] are being used. *)
Lemma src_stable m :
  agree_on (fun x => ~ free_byte l0 x) (pa_mem s0) m ->
  (forall va, pt_lookup m pgdir va = pt_lookup (pa_mem s0) pgdir va) /\
  (forall va f o, 0 <= va < KERNBASE -> frame_of (pa_mem s0) pgdir va = Some f -> 0 <= o < 4096 ->
     ld8 m (f + o) = ld8 (pa_mem s0) (f + o)).
Proof.
  intros Hag. destruct (free_pages_wf _ _ Hl0) as [_ Hfp].
  pose proof (so_pgdir _ _ _ _ Hsrc) as Hpd. split.
  - intros va. apply (pt_lookup_agree _ _ _ l0); [done|]. intros x Hx.
    by apply Hag, (pt_byte_not_free (pa_mem s0) pgdir).
  - intros va f o Hva Hf Ho. apply Hag. apply (frame_not_free (pa_mem s0) pgdir KERNBASE l0 va f); try done.
    unfold in_page. lia.
Qed.

(** Pages of a copy in progress: directory [d], grown from state [s1] up to
    page [i], all its pages from [l0]. *)
Record copying (s1 : S) (l1 : list Z) (d i : Z) (s : S) (l : list Z) : Prop := {
  cp_free1 : free_pages s1 l1;
  cp_dir : d :: all_tables (pa_mem s1) d ++ l1 ≡ₚ l0;
  cp_user va : 0 <= va < KERNBASE -> pt_lookup (pa_mem s1) d va = 0;
  cp_src1 : agree_on (fun x => ~ free_byte l0 x) (pa_mem s0) (pa_mem s1);
  cp_rest : same_rest s0 s1;
  cp_grown : grown src_perm src_byte d KERNBASE 0 i s1 l1 s l
}.

Lemma copying_src s1 l1 d i s l :
  copying s1 l1 d i s l ->
  (forall x, pt_byte (pa_mem s) d x -> free_byte l0 x) /\
  agree_on (fun x => ~ free_byte l0 x) (pa_mem s0) (pa_mem s).
Proof.
  intros HC. pose proof (cp_grown _ _ _ _ _ _ HC) as HG.
  assert (forall x, pt_byte (pa_mem s1) d x \/ free_byte l1 x -> free_byte l0 x) as Hb.
  { intros x Hx. rewrite pt_byte_tables in Hx. destruct Hx as [[Hx|(q & Hq & Hx)]|(q & Hq & Hx)].
    - exists d. split; [|done]. rewrite <- (cp_dir _ _ _ _ _ _ HC). by left.
    - exists q. split; [|done]. rewrite <- (cp_dir _ _ _ _ _ _ HC), elem_of_cons, elem_of_app. auto.
    - exists q. split; [|done]. rewrite <- (cp_dir _ _ _ _ _ _ HC), elem_of_cons, elem_of_app. auto. }
  split.
  - intros x Hx%(gr_bytes _ _ _ _ _ _ _ _ _ _ HG). by apply Hb.
  - intros x Hx. rewrite (gr_frame _ _ _ _ _ _ _ _ _ _ HG); [by apply (cp_src1 _ _ _ _ _ _ HC)|].
    split; contradict Hx; apply Hb; [by left|by right].
Qed.

(** [s2] holds what [s] holds, except for a page [extra] that left the free
    list: giving up the copy returns every page. *)
Lemma copy_give_up s1 l1 d i s l s2 l2 :
  copying s1 l1 d i s l -> i mod 4096 = 0 -> 0 <= i <= MIN_ADDR ->
  free_pages s2 l2 -> space_ok (pa_mem s2) d KERNBASE l2 ->
  (forall va, is_u32 va -> pt_lookup (pa_mem s2) d va = pt_lookup (pa_mem s) d va) ->
  all_tables (pa_mem s2) d ++ l2 ≡ₚ all_tables (pa_mem s) d ++ l ->
  same_rest s s2 -> agree_on (fun x => ~ free_byte l0 x) (pa_mem s) (pa_mem s2) ->
  wp (_ ← freevm d; mret 0) (fun r s' => exists l', r = 0 /\ free_pages s' l' /\ l' ≡ₚ l0 /\
       same_rest s0 s' /\ agree_on (fun x => ~ free_byte l0 x) (pa_mem s0) (pa_mem s')) s2.
Proof.
  intros HC Hi Hib Hl2 Hok2 HL Htab Hr2 Hag2. pose proof (cp_grown _ _ _ _ _ _ HC) as HG.
  destruct (copying_src _ _ _ _ _ _ HC) as [_ Hsrc'].
  assert (MIN_ADDR <= KERNBASE) as Hmk by done.
  wp_step. wp_use (freevm_returns s2 l2 l0 d); [done|by apply (space_ok_le _ _ KERNBASE)| |].
  - rewrite (frames_ext (pa_mem s) (pa_mem s2)).
    2:{ intros va [Hv _]%elem_of_pages_to; [|done]. apply frame_of_lookup, HL.
        unfold is_u32; mmu_unfold; lia. }
    rewrite (frames_upto _ _ 0 i MIN_ADDR) by (first [done | lia |
      intros va Hva; rewrite (gr_out _ _ _ _ _ _ _ _ _ _ HG) by (unfold is_u32; mmu_unfold; lia);
      rewrite (cp_user _ _ _ _ _ _ HC) by lia; done]).
    rewrite <- (cp_dir _ _ _ _ _ _ HC), <- (gr_pages _ _ _ _ _ _ _ _ _ _ HG). constructor.
    rewrite (Permutation_app_swap_app _ (frames _ _ _) l2), Htab. apply Permutation_app_swap_app.
  - intros _ s' (l' & Hl' & HP & Hr & Hag). wp_step. exists l'. split; [done|]. split; [done|].
    split; [done|]. split.
    + by rewrite (cp_rest _ _ _ _ _ _ HC), (gr_rest _ _ _ _ _ _ _ _ _ _ HG), Hr2.
    + intros x Hx. rewrite Hag, Hag2 by done. by apply Hsrc'.
Qed.

Lemma user_byte_frame va f :
  frame_of (pa_mem s0) pgdir va = Some f -> src_byte va = ld8 (pa_mem s0) (f + va mod 4096).
Proof. unfold src_byte, user_byte. by intros ->. Qed.

Definition copied (r : Z) (s' : S) : Prop := exists l',
  same_rest s0 s' /\ agree_on (fun x => ~ free_byte l0 x) (pa_mem s0) (pa_mem s') /\
  (r = 0 /\ free_pages s' l' /\ l' ≡ₚ l0 \/
   exists s1 l1, copying s1 l1 r (PGROUNDUP sz) s' l').

Lemma copyuvm_step s1 l1 d i s l :
  copying s1 l1 d i s l -> i mod 4096 = 0 -> 0 <= i < sz ->
  exists f e, frame_of (pa_mem s0) pgdir i = Some f /\ e = pt_lookup (pa_mem s0) pgdir i /\
    present e = true /\ f = P2V (PTE_ADDR e) /\ pte_of (pa_mem s) pgdir i <> 0 /\
    ld32 (pa_mem s) (pte_of (pa_mem s) pgdir i) = e /\
    forall p, page_ok p -> p ∈ l0 -> forall o, 0 <= o < 4096 ->
      ld8 (memmove (pa_mem s) p f PGSIZE) (p + o) = src_byte (i + o).
Proof.
  intros HC Hi Hib. assert (MIN_ADDR <= KERNBASE) as Hmk by done.
  destruct (copying_src _ _ _ _ _ _ HC) as [_ Hsrc'].
  destruct (src_stable _ Hsrc') as [HL HB]. pose proof (Hpres i Hib) as Hp.
  assert (frame_of (pa_mem s0) pgdir i = Some (P2V (PTE_ADDR (pt_lookup (pa_mem s0) pgdir i)))) as Hf
    by (unfold frame_of; by rewrite Hp).
  assert (pte_of (pa_mem s) pgdir i <> 0) as Hpte.
  { intros Hz. unfold pte_of in Hz. rewrite <- HL in Hp. unfold pt_lookup in Hp.
    assert (pt_at (pa_mem s) pgdir (PDX i) = pt_at (pa_mem s0) pgdir (PDX i)) as Hat.
    { apply (pt_at_agree _ _ _ l0); [apply Hsrc| |apply PDX_range]. intros x Hx.
      apply Hsrc', (pt_byte_not_free (pa_mem s0) pgdir); [by apply (free_pages_wf s0)|apply Hsrc|by left]. }
    destruct (pt_at (pa_mem s) pgdir (PDX i)) as [t|]; [|done]. symmetry in Hat.
    apply (pt_page _ _ _ (so_pgdir _ _ _ _ Hsrc)) in Hat as [?%page_ok_range _]; [|apply PDX_range].
    pose proof (PTX_range i). mmu_unfold. lia. }
  eexists _, _. split; [done|]. split; [done|]. split; [done|]. split; [done|]. split; [done|].
  split; [by rewrite pt_lookup_pte, HL|]. intros p Hpo Hpl o Ho.
  rewrite ld8_memmove, decide_True by (unfold PGSIZE; done || lia).
  set (f := P2V _) in *. replace (f + (p + o - p)) with (f + o) by lia.
  rewrite (HB i f o) by (done || lia).
  rewrite (user_byte_frame (i + o) f).
  - f_equal. clear -Hi Ho. dlia.
  - rewrite <- Hf. unfold frame_of.
    rewrite (pt_lookup_page _ pgdir (i + o) i); [done|unfold is_u32; mmu_unfold..|clear -Hi Ho; dlia];
      unfold MIN_ADDR in *; lia.
Qed.

Lemma copying_snoc s1 l1 d i s p l s2 s3 l3 :
  copying s1 l1 d i s (p :: l) -> i mod 4096 = 0 -> 0 <= i < sz ->
  same_rest s s2 -> agree_on (fun x => ~ in_page p x) (pa_mem s) (pa_mem s2) ->
  (forall o, 0 <= o < 4096 -> ld8 (pa_mem s2) (p + o) = src_byte (i + o)) ->
  vm_step d s2 l s3 l3 -> space_ok (pa_mem s3) d KERNBASE l3 ->
  (forall va, is_u32 va -> pt_lookup (pa_mem s3) d va =
     if decide (va / 4096 = i / 4096) then pte_for p (src_perm i) else pt_lookup (pa_mem s2) d va) ->
  copying s1 l1 d (i + 4096) s3 l3.
Proof.
  intros HC Hi Hib Hr Hag Hb Hs Hok HL. assert (MIN_ADDR < KERNBASE) by done.
  destruct HC as [? ? ? ? ? HG]. split; [done..|].
  apply (grown_snoc _ _ _ _ _ i s1 l1 s p l s2); try done; try lia. apply src_perm_range.
Qed.

Lemma copy_exit s1 l1 d i s l :
  copying s1 l1 d i s l -> i mod 4096 = 0 -> sz <= i < sz + 4096 -> copied d s.
Proof.
  intros HC Hi Hib. assert (MIN_ADDR < KERNBASE) as Hmk by done. exists l.
  pose proof (cp_grown _ _ _ _ _ _ HC) as HG.
  split; [by rewrite (cp_rest _ _ _ _ _ _ HC), (gr_rest _ _ _ _ _ _ _ _ _ _ HG)|].
  split; [by apply (copying_src _ _ _ _ _ _ HC)|]. right. exists s1, l1.
  destruct (PGROUNDUP_bounds sz) as [Hc Hcb]; [lia|].
  replace (PGROUNDUP sz) with i; [done|]. clear -Hi Hib Hc Hcb. dlia.
Qed.

Lemma copy_fail s1 l1 d i s p l s2 s3 :
  copying s1 l1 d i s (p :: l) -> i mod 4096 = 0 -> 0 <= i < sz -> page_ok p -> p ∈ l0 ->
  same_rest s s2 -> agree_on (fun x => ~ in_page p x) (pa_mem s) (pa_mem s2) ->
  vm_step d s2 l s3 [] -> space_ok (pa_mem s3) d KERNBASE [] ->
  (forall va, is_u32 va -> pt_lookup (pa_mem s3) d va = pt_lookup (pa_mem s) d va) ->
  wp (_ ← pa_kfree p; _ ← freevm d; mret 0)
    (fun r s' => exists l', r = 0 /\ free_pages s' l' /\ l' ≡ₚ l0 /\
       same_rest s0 s' /\ agree_on (fun x => ~ free_byte l0 x) (pa_mem s0) (pa_mem s')) s3.
Proof.
  intros HC Hi Hib Hp Hpl0 Hr2 Hag2 Hs Hok3 HL. pose proof (cp_grown _ _ _ _ _ _ HC) as HG.
  destruct (held_page s p l s2 s3 [] d KERNBASE) as [Hpb Hpf]; [apply HG|apply HG|done..|].
  pose proof (gr_ok _ _ _ _ _ _ _ _ _ _ HG) as Hok.
  wp_step. wp_use (kfree_ok s3 [] p); [apply Hs|done|apply not_elem_of_nil|].
  intros _ s4 (Hl4 & Hr4 & Hag4).
  destruct (space_ok_kfree _ _ _ _ _ _ Hok3 Hp Hag4 Hpb Hpf) as (Hok4 & HL4 & Htab4).
  assert (agree_on (in_page d) (pa_mem s) (pa_mem s2)) as Hagd.
  { intros x Hx. apply Hag2. intros Hin.
    destruct (fresh_page s l d KERNBASE p) as (_ & _ & Hpb0 & _); [apply HG|done|].
    apply (Hpb0 x); [done|by left]. }
  assert (all_tables (pa_mem s2) d = all_tables (pa_mem s) d) as Htab2.
  { rewrite <- !all_tables_eq. apply tables_ext. intros j Hj. rewrite Z2Nat.id in Hj by done.
    apply (pt_at_agree _ _ _ (p :: l)); [apply Hok|done|]. unfold NPDENTRIES in Hj. lia. }
  pose proof (vs_tables _ _ _ _ _ Hs) as HT. rewrite app_nil_r, Htab2 in HT.
  apply (copy_give_up s1 l1 d i s (p :: l) s4 [p]);
    [exact HC|exact Hi|lia|exact Hl4|exact Hok4|..].
  - intros va Hva. by rewrite HL4, HL.
  - rewrite Htab4, HT, <- app_assoc. apply Permutation_app_head. symmetry. apply Permutation_cons_append.
  - by rewrite Hr2, (vs_rest _ _ _ _ _ Hs).
  - intros x Hx. rewrite Hag4, (vs_frame _ _ _ _ _ Hs), Hag2.
    + done.
    + intros Hin. exact (Hx (ex_intro _ p (conj Hpl0 Hin))).
    + rewrite (pt_byte_agree (pa_mem s) (pa_mem s2) d (p :: l) x (so_pgdir _ _ _ _ Hok) Hagd).
      destruct (copying_src _ _ _ _ _ _ HC) as [Hb _]. split; [intros Hbx%Hb; exact (Hx Hbx)|].
      intros (q & Hq & Hqx). apply Hx. exists q. split; [|done].
      rewrite <- (cp_dir _ _ _ _ _ _ HC), elem_of_cons, elem_of_app. right. right.
      destruct (gr_suffix _ _ _ _ _ _ _ _ _ _ HG) as [k ->]. apply elem_of_app. right. by right.
    + intros Hin. exact (Hx (ex_intro _ p (conj Hpl0 Hin))).
Qed.

Lemma copyuvm_loop_ok n s1 l1 d i s l :
  copying s1 l1 d i s l -> i mod 4096 = 0 -> 0 <= i < sz + 4096 -> sz - i <= 4096 * Z.of_nat n ->
  wp (copyuvm_loop (Datatypes.S n) pgdir d sz i) copied s.
Proof.
  assert (MIN_ADDR < KERNBASE) as Hmk by done.
  revert i s l. induction n as [|n IH]; intros i s l HC Hi Hib Hn.
  { cbn. rewrite (proj2 (Z.ltb_ge i sz)) by lia. apply wp_ret. apply (copy_exit s1 l1 d i s l); done || lia. }
  remember (Datatypes.S n) as k eqn:Hk'. cbn [copyuvm_loop].
  destruct (Z.ltb_spec i sz) as [Hlt|Hge]; [|apply wp_ret; apply (copy_exit s1 l1 d i s l); done || lia].
  subst k. pose proof (cp_grown _ _ _ _ _ _ HC) as HG.
  pose proof (gr_free _ _ _ _ _ _ _ _ _ _ HG) as Hl.
  destruct (copyuvm_step s1 l1 d i s l HC Hi) as (f & e & Hf & He & Hpe & Hfe & Hpte & Hld & Hcopy); [lia|].
  apply wp_bind. unfold wp at 1. rewrite walkpgdir_noalloc.
  rewrite (proj2 (Z.eqb_neq _ 0)) by done. wp_step. unfold rd32. wp_step. rewrite Hld.
  fold (present e). rewrite Hpe. cbn [negb]. cbv zeta. rewrite <- Hfe.
  wp_step. wp_use kalloc_ok; [done|]. intros r s2 (-> & Hm2 & Hl2 & Hr2).
  assert (forall r s', (exists l', r = 0 /\ free_pages s' l' /\ l' ≡ₚ l0 /\ same_rest s0 s' /\
       agree_on (fun x => ~ free_byte l0 x) (pa_mem s0) (pa_mem s')) -> copied r s') as Hfail.
  { intros r s' (l' & -> & ? & ? & ? & ?). exists l'. split; [done|]. split; [done|]. by left. }
  destruct l as [|p l]; cbn [hd tl] in *.
  - cbn [Z.eqb]. wp_use (copy_give_up s1 l1 d i s [] s2 []);
      [exact HC|exact Hi|lia|exact Hl2|rewrite Hm2; apply HG|rewrite Hm2; reflexivity
      |by rewrite Hm2|exact Hr2|rewrite Hm2; exact (fun _ _ => eq_refl)|exact Hfail].
  - destruct (fresh_page s l d KERNBASE p) as (Hp & Hpl & Hpb & Hpf); [done|apply HG|].
    rewrite (proj2 (Z.eqb_neq p 0)) by by apply page_ok_nonzero.
    assert (p ∈ l0) as Hpl0.
    { rewrite <- (cp_dir _ _ _ _ _ _ HC), elem_of_cons, elem_of_app. right. right.
      destruct (gr_suffix _ _ _ _ _ _ _ _ _ _ HG) as [k ->]. apply elem_of_app. right. by left. }
    assert (forall m, agree_on (fun x => ~ in_page p x) m (memmove m p f PGSIZE)) as Hg.
    { intros m x Hx. rewrite ld8_memmove by done. unfold in_page, PGSIZE in *. case_decide; [lia|done]. }
    assert (0 <= i < KERNBASE) as Hik by lia.
    assert (PTE_FLAGS e = src_perm i) as -> by (by rewrite He).
    apply (fill_and_map _ _ s p l s2 d KERNBASE i (src_perm i));
      [exact Hl|apply HG|apply Z.le_refl|exact Hm2|exact Hl2|exact Hr2|exact Hg|exact Hi|exact Hik
      |apply src_perm_range| |].
    { rewrite (gr_out _ _ _ _ _ _ _ _ _ _ HG); [|unfold is_u32; mmu_unfold; lia|lia].
      rewrite (cp_user _ _ _ _ _ _ HC i Hik). reflexivity. }
    intros r s3 s2' l3 Hr2' Hm2' Hs Hok3 [[-> HL]|(-> & -> & HL)].
    + change (0 <? 0) with false. cbv iota. unfold PGSIZE. rewrite u32_small by (mmu_unfold; lia).
      apply (IH (i + 4096) s3 l3); [|clear -Hi; dlia|lia|lia].
      apply (copying_snoc s1 l1 d i s p l s2');
        [exact HC|exact Hi|lia|exact Hr2'|rewrite Hm2'; apply Hg
        |rewrite Hm2'; by apply Hcopy|exact Hs|exact Hok3|exact HL].
    + change (-1 <? 0) with true. cbv iota.
      wp_use (copy_fail s1 l1 d i s p l s2' s3);
        [exact HC|exact Hi|lia|exact Hp|exact Hpl0|exact Hr2'|rewrite Hm2'; apply Hg
        |exact Hs|exact Hok3|exact HL|exact Hfail].
Qed.

Lemma copyuvm_ok : wp (copyuvm pgdir sz) copied s0.
Proof.
  unfold copyuvm. wp_step. wp_use (setupkvm_ok s0 l0); [exact Hl0|].
  intros d s1 (l1 & Hr & Hag & [(-> & Hl1 & HP & _)|(Hd & Hdl & Hi & Hsf & Hlk)]).
  - cbn [Z.eqb]. wp_step. exists l1. split; [exact Hr|]. split; [exact Hag|]. by left.
  - rewrite (proj2 (Z.eqb_neq d 0)) by by apply page_ok_nonzero.
    apply (copyuvm_loop_ok _ s1 l1 d 0 s1 l1); [|reflexivity|lia|unfold PGSIZE; clear; dlia].
    split; [apply Hi|apply Hi|apply Hi|exact Hag|exact Hr|].
    apply grown_refl; [apply Hi|]. apply space_ok_no_frames; [apply Hi|].
    intros va Hva. by rewrite (ki_user _ _ _ _ Hi).
Qed.

(** What a copy looks like to a user program. *)
Lemma copied_user r s' :
  copied r s' -> r <> 0 ->
  forall va, 0 <= va < sz ->
    user_byte (pa_mem s') r va = user_byte (pa_mem s0) pgdir va /\
    (exists f, frame_of (pa_mem s') r va = Some f /\ f ∈ l0) /\
    PTE_FLAGS (pt_lookup (pa_mem s') r va) = PTE_FLAGS (pt_lookup (pa_mem s0) pgdir va).
Proof.
  intros (l' & _ & _ & [[-> _]|(s1 & l1 & HC)]) Hr va Hva; [done|].
  assert (MIN_ADDR < KERNBASE) as Hmk by done.
  destruct (PGROUNDUP_bounds sz) as [_ Hcb]; [lia|].
  pose proof (cp_grown _ _ _ _ _ _ HC) as HG.
  destruct (gr_in _ _ _ _ _ _ _ _ _ _ HG va) as (f & Hf & Hlk & Hb); [lia|].
  destruct (free_pages_wf _ _ (cp_free1 _ _ _ _ _ _ HC)) as [_ Hfp].
  assert (page_ok f) as Hfo by (rewrite Forall_forall in Hfp; by apply Hfp).
  pose proof (src_perm_range (va / 4096 * 4096)) as Hpr.
  destruct (pte_for_frame f _ Hfo Hpr) as [Hp Ha].
  assert (pt_lookup (pa_mem s0) pgdir (va / 4096 * 4096) = pt_lookup (pa_mem s0) pgdir va) as Hpage.
  { apply pt_lookup_page; [unfold is_u32; mmu_unfold; clear -Hva Hmk Hsz; unfold MIN_ADDR in *; dlia..|].
    clear. dlia. }
  assert (frame_of (pa_mem s') r va = Some f) as Hfr
    by (unfold frame_of; rewrite Hlk, Hp, Ha; reflexivity).
  split; [|split].
  - unfold user_byte at 1. rewrite Hfr. cbn. rewrite Hb. unfold src_byte, user_byte.
    assert (exists g, frame_of (pa_mem s0) pgdir va = Some g) as [g ->]
      by (unfold frame_of; rewrite (Hpres va Hva); by eexists). done.
  - exists f. split; [exact Hfr|]. rewrite <- (cp_dir _ _ _ _ _ _ HC), elem_of_cons, elem_of_app. auto.
  - rewrite Hlk. unfold pte_for. destruct (page_ok_V2P_page f Hfo) as [Hfa Hfu].
    rewrite <- Z.lor_assoc, PTE_FLAGS_lor; [|exact Hfa|by apply lor_flag_range].
    unfold src_perm. rewrite Hpage. apply lor_present. by apply Hpres.
Qed.
End Loop.
End Copy.
