(* ===== verification/VmTheorems.v ===== *)
(** * Theorems about virtual memory

    What vm.c guarantees to its callers, stated on the operations themselves;
    the lemmas are in [Vm], [VmSpace] and [VmGrow].  The witnesses use a small
    machine state: a free list of three pages and a page directory with at most
    one page table. *)

From S2P Require Import Prelude Mmu Mem PageAlloc Kalloc Vm VmSpace VmGrow.
From stdpp Require Import base gmap list strings.
From Stdlib Require Import ZArith Lia.
#[local] Open Scope Z_scope.

Section Theorems.
  Context {S : Type} `{LinkerLayout} `{!PageAlloc S} `{!PageAllocLaws S}.
  Implicit Types (s : S).

(** [mappages] returns for every page-aligned physical range; on success
    exactly the pages that [va, va+size) touches point to consecutive physical
    pages with the permissions asked for, every other address is translated as
    before, and page tables came from the free list; it fails (-1) only when
    the free list is exhausted. *)
Theorem mappages_maps s l pgdir va size pa perm :
  free_pages s l -> pgdir_ok (pa_mem s) pgdir l ->
  0 <= va -> 1 <= size -> va + size <= 4294967296 ->
  pa mod 4096 = 0 -> 0 <= pa -> pa + 4096 * extra_pages va size < 4294967296 ->
  0 <= perm < 4096 ->
  (forall k, 0 <= k <= extra_pages va size ->
     present (pt_lookup (pa_mem s) pgdir (va / 4096 * 4096 + 4096 * k)) = false) ->
  exists r s' l', mappages pgdir va size pa perm s = Ret r s' /\ vm_step pgdir s l s' l' /\
    (r = 0 /\ (forall va', is_u32 va' -> pt_lookup (pa_mem s') pgdir va' =
         if decide (va / 4096 <= va' / 4096 <= (va + size - 1) / 4096)
         then Z.lor (Z.lor (pa + 4096 * (va' / 4096 - va / 4096)) perm) PTE_P
         else pt_lookup (pa_mem s) pgdir va') \/
     r = -1 /\ l' = []).
Proof.
  intros Hl Hok Hva Hsz Hend Hpa Hpa0 Hpan Hperm Hnp.
  destruct (proj1 (wp_Ret _ _ _) (mappages_ok s l pgdir va size pa perm Hl Hok Hva Hsz Hend
              Hpa Hpa0 Hpan Hperm Hnp)) as (r & s' & Hrun & l' & k & Hs & Hr & HL).
  exists r, s', l'. split; [exact Hrun|]. split; [exact Hs|].
  destruct Hr as [[-> ->]|(-> & _ & ->)]; [left|by right]. split; [reflexivity|].
  intros va' Hva'. rewrite HL by exact Hva'. unfold mapped, extra_pages. case_decide as E.
  - rewrite decide_True by (clear -E; dlia). do 2 f_equal. clear. dlia.
  - rewrite decide_False; [reflexivity|]. clear -E. dlia.
Qed.

(** mapping over a page that is already present stops the kernel. *)
Theorem mappages_never_overwrites s pgdir va size pa perm :
  is_u32 va -> pgdir_ok (pa_mem s) pgdir [] -> present (pt_lookup (pa_mem s) pgdir va) = true ->
  mappages pgdir va size pa perm s = Panic "remap".
Proof. apply mappages_remap. Qed.

(** C30: [setupkvm] either builds a page directory in which exactly the four
    kernel regions are mapped, to the physical addresses and permissions of
    the table [kmap], and the user half is empty, or returns 0 with every page
    back on the free list; it never writes outside free pages. *)
Theorem setupkvm_maps_kernel s l :
  free_pages s l ->
  exists r s' l', setupkvm s = Ret r s' /\
    agree_on (fun a => ~ free_byte l a) (pa_mem s) (pa_mem s') /\ free_pages s' l' /\
    (r = 0 /\ l' ≡ₚ l \/
     r ∈ l /\ pgdir_ok (pa_mem s') r l' /\ r :: all_tables (pa_mem s') r ++ l' ≡ₚ l /\
     forall va, is_u32 va ->
       pt_lookup (pa_mem s') r va = kmap_lookup (fun _ => 0) Vm.kmap va).
Proof.
  intros Hl. destruct (proj1 (wp_Ret _ _ _) (setupkvm_ok s l Hl))
    as (r & s' & Hrun & l' & _ & Hag & [(-> & Hl' & HP & _)|(Hr & Hrl & Hi & _ & HL)]);
    exists r || exists 0; exists s', l'; split; [exact Hrun| |exact Hrun|].
  - split; [exact Hag|]. split; [exact Hl'|]. left. done.
  - split; [exact Hag|]. split; [apply Hi|]. right. split; [exact Hrl|]. split; [apply Hi|].
    split; [apply Hi|exact HL].
Qed.

(** [deallocuvm] unmaps exactly the pages from [newsz] (rounded up) to
    [oldsz], gives each of their frames back once, and leaves the address space
    well formed and every other address translated as before. *)
Theorem deallocuvm_unmaps s l pgdir lim oldsz newsz :
  free_pages s l -> space_ok (pa_mem s) pgdir lim l ->
  0 <= newsz < oldsz -> oldsz <= lim -> lim <= KERNBASE ->
  let fs := frames (pa_mem s) pgdir (pages_to (PGROUNDUP newsz) oldsz) in
  exists s', deallocuvm pgdir oldsz newsz s = Ret newsz s' /\
    free_pages s' (rev fs ++ l) /\ space_ok (pa_mem s') pgdir lim (rev fs ++ l) /\
    (forall va, PGROUNDUP newsz <= va < oldsz -> frame_of (pa_mem s') pgdir va = None) /\
    (forall va, 0 <= va < newsz -> frame_of (pa_mem s') pgdir va = frame_of (pa_mem s) pgdir va).
Proof.
  intros Hl Hok Hsz Hlim Hk fs. destruct (PGROUNDUP_bounds newsz) as [Ha Hab]; [lia|].
  destruct (proj1 (wp_Ret _ _ _) (deallocuvm_ok s l pgdir lim oldsz newsz Hl Hok Hsz Hlim Hk))
    as (r & s' & Hrun & -> & Hd).
  exists s'. split; [exact Hrun|]. split; [apply Hd|]. split; [apply Hd|].
  assert (forall va, 0 <= va < KERNBASE -> is_u32 va) as Hu by (intros; unfold is_u32; mmu_unfold; lia).
  split; intros va Hva; unfold frame_of; rewrite (dp_lookup _ _ _ _ _ _ _ Hd) by (apply Hu; lia);
    unfold unmapped.
  - rewrite decide_True by (clear -Hva; dlia).
    destruct (present (pt_lookup (pa_mem s) pgdir va)) eqn:E; [reflexivity|by rewrite E].
  - by rewrite decide_False by (clear -Hva Hab; lia).
Qed.

(** C28: [freevm] gives back the page directory, every page table and every
    frame mapped below [MIN_ADDR], each exactly once; a frame mapped at or
    above [MIN_ADDR] (the region that wmap serves) stays allocated. *)
Theorem freevm_frees s l pgdir :
  free_pages s l -> space_ok (pa_mem s) pgdir KERNBASE l ->
  exists s' l', freevm pgdir s = Ret tt s' /\ free_pages s' l' /\
    l' ≡ₚ pgdir :: all_tables (pa_mem s) pgdir ++
          frames (pa_mem s) pgdir (pages_to 0 MIN_ADDR) ++ l /\
    (forall va f, MIN_ADDR <= va < KERNBASE -> frame_of (pa_mem s) pgdir va = Some f -> f ∉ l').
Proof.
  intros Hl Hok. assert (MIN_ADDR <= KERNBASE) as Hmk by done.
  destruct (proj1 (wp_Ret _ _ _) (freevm_ok s l pgdir Hl (space_ok_le _ _ _ _ _ Hok Hmk)))
    as ([] & s' & Hrun & Hl' & _ & _).
  rewrite owned_app in Hl'. eexists s', _. split; [exact Hrun|]. split; [exact Hl'|]. split.
  { constructor. by rewrite <- !Permutation_rev. }
  intros va f Hva Hf. assert (0 <= va < KERNBASE) as Hva' by (unfold MIN_ADDR in *; lia).
  destruct (so_frame _ _ _ _ Hok va f Hva' Hf) as (Hfo & Hfl & Hfb).
  assert (in_page f f) as Hff by (unfold in_page; lia).
  rewrite elem_of_cons, !elem_of_app, !list_elem_of_In, <- !in_rev, <- !list_elem_of_In.
  intros [->|[Ht|[Hfr|Hin]]].
  - apply (Hfb pgdir Hff). by left.
  - apply (Hfb f Hff). apply pt_byte_tables. right. by exists f.
  - unfold frames in Hfr. apply list_elem_of_omap in Hfr as (va' & Hv & Hvf).
    apply elem_of_pages_to in Hv as [Hv _]; [|done].
    assert (va / 4096 = va' / 4096) as He by (apply (so_inj _ _ _ _ Hok va va' f); (lia || done)).
    clear -He Hva Hv. unfold MIN_ADDR in *. dlia.
  - exact (Hfl Hin).
Qed.

(** C29: [allocuvm] returns for every request below [KERNBASE].  On success
    each new page is writable user memory of its own, filled with zeroes, and
    every other address is untouched; on failure it returns 0, every address is
    backed as before, and no page is lost. *)
Theorem allocuvm_grows s l pgdir lim oldsz newsz :
  free_pages s l -> space_ok (pa_mem s) pgdir lim l ->
  0 <= oldsz <= newsz -> newsz <= lim -> lim <= KERNBASE -> newsz < KERNBASE ->
  (forall va, PGROUNDUP oldsz <= va < PGROUNDUP newsz ->
     present (pt_lookup (pa_mem s) pgdir va) = false) ->
  exists r s' l', allocuvm pgdir oldsz newsz s = Ret r s' /\ free_pages s' l' /\
    space_ok (pa_mem s') pgdir lim l' /\
    (r = newsz /\
     (forall va, PGROUNDUP oldsz <= va < PGROUNDUP newsz -> user_byte (pa_mem s') pgdir va = Some 0) /\
     (forall va, is_u32 va -> ~ PGROUNDUP oldsz <= va < PGROUNDUP newsz ->
        pt_lookup (pa_mem s') pgdir va = pt_lookup (pa_mem s) pgdir va) /\
     all_tables (pa_mem s') pgdir ++
       frames (pa_mem s') pgdir (pages_to (PGROUNDUP oldsz) (PGROUNDUP newsz)) ++ l'
       ≡ₚ all_tables (pa_mem s) pgdir ++ l \/
     r = 0 /\
     (forall va, is_u32 va -> frame_of (pa_mem s') pgdir va = frame_of (pa_mem s) pgdir va) /\
     all_tables (pa_mem s') pgdir ++ l' ≡ₚ all_tables (pa_mem s) pgdir ++ l).
Proof.
  intros Hl Hok Hsz Hlim Hk Hnk Hnp.
  destruct (proj1 (wp_Ret _ _ _) (allocuvm_ok s l pgdir lim oldsz newsz Hl Hok Hsz Hlim Hk Hnk Hnp))
    as (r & s' & Hrun & l' & [[-> HG]|[-> HR]]).
  - exists newsz, s', l'. split; [exact Hrun|]. split; [apply HG|]. split; [apply HG|]. left.
    split; [reflexivity|]. split; [|split; [apply HG|apply HG]].
    intros va Hva. destruct (gr_in _ _ _ _ _ _ _ _ _ _ HG va Hva) as (f & Hf & HL & Hb).
    destruct (free_pages_wf _ _ Hl) as [_ Hfp]. rewrite Forall_forall in Hfp.
    destruct (pte_for_frame f (user_rw (va / 4096 * 4096)) (Hfp f Hf)) as [Hp Ha]; [done|].
    unfold user_byte, frame_of. rewrite HL, Hp, Ha. cbn. by rewrite Hb.
  - exists 0, s', l'. split; [exact Hrun|]. split; [apply HR|]. split; [apply HR|]. right.
    split; [reflexivity|]. split; [apply HR|apply HR].
Qed.

(** C8: [copyuvm] of an address space whose pages below [sz] are present
    returns.  On success the child reads the same byte at every address below
    [sz], with the same permissions, from frames that were free before, and the
    parent's address space and memory are untouched; on failure it returns 0
    with every page back on the free list. *)
Theorem copyuvm_copies s l pgdir sz :
  free_pages s l -> space_ok (pa_mem s) pgdir KERNBASE l -> 0 <= sz <= MIN_ADDR ->
  (forall va, 0 <= va < sz -> present (pt_lookup (pa_mem s) pgdir va) = true) ->
  exists r s' l', copyuvm pgdir sz s = Ret r s' /\ free_pages s' l' /\
    agree_on (fun x => ~ free_byte l x) (pa_mem s) (pa_mem s') /\
    (r = 0 /\ l' ≡ₚ l \/
     r ∈ l /\ space_ok (pa_mem s') r KERNBASE l' /\
     forall va, 0 <= va < sz ->
       user_byte (pa_mem s') r va = user_byte (pa_mem s) pgdir va /\
       (exists f, frame_of (pa_mem s') r va = Some f /\ f ∈ l) /\
       PTE_FLAGS (pt_lookup (pa_mem s') r va) = PTE_FLAGS (pt_lookup (pa_mem s) pgdir va)).
Proof.
  intros Hl Hok Hsz Hp.
  destruct (proj1 (wp_Ret _ _ _) (copyuvm_ok s l pgdir sz Hl Hok Hsz Hp)) as (r & s' & Hrun & HC).
  pose proof HC as (l' & _ & Hag & [(-> & Hl' & HP)|(s1 & l1 & Hc)]).
  - exists 0, s', l'. split; [exact Hrun|]. split; [exact Hl'|]. split; [exact Hag|]. by left.
  - assert (r ∈ l) as Hrl by (rewrite <- (cp_dir _ _ _ _ _ _ _ _ _ Hc); by left).
    destruct (free_pages_wf _ _ Hl) as [_ Hfp]. rewrite Forall_forall in Hfp.
    exists r, s', l'. split; [exact Hrun|]. split; [apply Hc|]. split; [exact Hag|]. right.
    split; [exact Hrl|]. split; [apply Hc|].
    by apply (copied_user s l pgdir sz Hsz Hp r s' HC), page_ok_nonzero, Hfp.
Qed.
End Theorems.

(** ** Witnesses *)

Section Demo.
  Variable d : Z.
  Hypothesis Hd : 0 <= d < 512.
Lemma demo_at_pt i :
  0 <= i < 1024 -> pt_at (demo_mem_at d) demo_dir i = if decide (d = i) then Some demo_tab else None.
Proof using Hd.
  intros Hi. unfold demo_mem_at. set (m := st32 (st32 (st32 (st32 ∅ _ _) _ _) _ _) _ _).
  rewrite pt_at_new by (done || lia). case_decide; [reflexivity|].
  unfold pt_at. subst m. unfold demo_dir, demo_tab. rewrite !ld32_st32_ne by lia. reflexivity.
Qed.

Lemma demo_at_lookup va :
  is_u32 va -> pt_lookup (demo_mem_at d) demo_dir va = if decide (va / 4096 = 1024 * d) then V2P demo_frame + 7 else 0.
Proof using Hd.
  intros Hva. pose proof (PDX_range va). pose proof (PTX_range va) as HT. unfold pt_lookup.
  rewrite demo_at_pt by done.
  rewrite (PDX_eq va), (PTX_eq va), (u32_small va) in * by done.
  destruct (decide (d = va / 4194304)) as [E|E].
  - unfold demo_mem_at at 1. unfold demo_tab, demo_dir. rewrite ld32_st32_ne by lia.
    destruct (decide (va / 4096 = 1024 * d)) as [E'|E'].
    + replace (va / 4096 mod 1024) with 0 by (rewrite E'; clear; dlia). reflexivity.
    + rewrite !ld32_st32_ne by (clear -E E' HT Hva; unfold is_u32 in Hva; dlia). reflexivity.
  - rewrite decide_False; [reflexivity|]. clear -E. dlia.
Qed.

Lemma demo_at_frame va f :
  0 <= va < KERNBASE -> frame_of (demo_mem_at d) demo_dir va = Some f -> va / 4096 = 1024 * d /\ f = demo_frame.
Proof using Hd.
  intros Hva. unfold frame_of. rewrite demo_at_lookup by (unfold is_u32; mmu_unfold; lia).
  case_decide as E; cbn; [|done]. by intros [= <-].
Qed.

Lemma demo_at_pgdir : pgdir_ok (demo_mem_at d) demo_dir demo_free.
Proof using Hd.
  split.
  - done.
  - apply (bool_decide_unpack _). vm_compute. exact I.
  - intros i t Hi. rewrite demo_at_pt by done. case_decide; [|done]. intros [= <-].
    split; [done|]. split; [done|]. apply (bool_decide_unpack _). vm_compute. exact I.
  - intros i j t Hi Hj. rewrite !demo_at_pt by done. repeat case_decide; try done. lia.
Qed.

Lemma demo_at_space : space_ok (demo_mem_at d) demo_dir KERNBASE demo_free.
Proof using Hd.
  split.
  - apply demo_at_pgdir.
  - intros va f Hva Hf. apply demo_at_frame in Hf as [_ ->]; [|done]. split; [done|]. split.
    + apply (bool_decide_unpack _). vm_compute. exact I.
    + intros a Ha [Hdir|(i & t & Hi & Ht & Hin)].
      * unfold in_page, demo_frame, demo_dir in *. lia.
      * rewrite demo_at_pt in Ht by done. case_decide; [|done]. injection Ht as <-.
        unfold in_page, demo_frame, demo_tab in *. lia.
  - intros va va' f Hva Hva' Hf Hf'. apply demo_at_frame in Hf as [? _]; [|done].
    apply demo_at_frame in Hf' as [? _]; [|done]. lia.
Qed.
End Demo.
Lemma demo_lookup va :
  is_u32 va -> pt_lookup demo_mem demo_dir va = if decide (va / 4096 = 0) then V2P demo_frame + 7 else 0.
Proof. apply (demo_at_lookup 0). lia. Qed.
Lemma demo_pgdir : pgdir_ok demo_mem demo_dir demo_free.
Proof. apply demo_at_pgdir. lia. Qed.
Lemma demo_space : space_ok demo_mem demo_dir KERNBASE demo_free.
Proof. apply demo_at_space. lia. Qed.

Lemma mappages_maps_witness :
  exists r s', mappages demo_dir 8191 2 0x300000 6 demo = Ret r s'.
Proof.
  destruct (mappages_maps demo demo_free demo_dir 8191 2 0x300000 6) as (r & s' & _ & ? & _).
  - apply demo_kmem_free.
  - apply demo_pgdir.
  - lia.
  - lia.
  - lia.
  - reflexivity.
  - lia.
  - reflexivity.
  - lia.
  - intros k Hk. change (extra_pages 8191 2) with 1 in Hk.
    change (8191 / 4096 * 4096) with 4096. change (pa_mem demo) with demo_mem.
    rewrite demo_lookup by (unfold is_u32; lia). rewrite decide_False; [reflexivity|]. clear -Hk. dlia.
  - exists r, s'. assumption.
Defined.

Lemma mappages_never_overwrites_witness :
  mappages demo_dir 100 1 0x300000 6 demo = Panic "remap".
Proof.
  apply (mappages_never_overwrites demo demo_dir 100 1 0x300000 6).
  - unfold is_u32. lia.
  - apply (pgdir_ok_agree demo_mem _ _ demo_free); [apply demo_pgdir|exact (fun _ _ => eq_refl)|].
    intros x Hx%not_elem_of_nil. done.
  - change (pa_mem demo) with demo_mem. rewrite demo_lookup by (unfold is_u32; lia). reflexivity.
Defined.

Lemma setupkvm_maps_kernel_witness : exists r s' l', setupkvm demo = Ret r s' /\ kmem_free s' l'.
Proof.
  destruct (setupkvm_maps_kernel demo demo_free) as (r & s' & l' & ? & _ & ? & _).
  - apply demo_kmem_free.
  - exists r, s', l'. split; assumption.
Defined.

Lemma deallocuvm_unmaps_witness :
  exists s', deallocuvm demo_dir 4096 0 demo = Ret 0 s' /\ frame_of (kmem_mem s') demo_dir 0 = None.
Proof.
  destruct (deallocuvm_unmaps demo demo_free demo_dir KERNBASE 4096 0) as (s' & ? & _ & _ & Hn & _).
  - apply demo_kmem_free.
  - apply demo_space.
  - lia.
  - mmu_unfold. lia.
  - lia.
  - exists s'. split; [assumption|]. apply Hn. change (PGROUNDUP 0) with 0. lia.
Defined.

Lemma freevm_frees_witness : exists s' l', freevm demo_dir demo = Ret tt s' /\ kmem_free s' l'.
Proof.
  destruct (freevm_frees demo demo_free demo_dir) as (s' & l' & ? & ? & _).
  - apply demo_kmem_free.
  - apply demo_space.
  - exists s', l'. split; assumption.
Defined.

Lemma allocuvm_grows_witness : exists r s', allocuvm demo_dir 4096 12288 demo = Ret r s'.
Proof.
  destruct (allocuvm_grows demo demo_free demo_dir KERNBASE 4096 12288) as (r & s' & _ & ? & _).
  - apply demo_kmem_free.
  - apply demo_space.
  - lia.
  - mmu_unfold. lia.
  - lia.
  - mmu_unfold. lia.
  - intros va Hva. change (PGROUNDUP 4096) with 4096 in Hva. change (PGROUNDUP 12288) with 12288 in Hva.
    change (pa_mem demo) with demo_mem. rewrite demo_lookup by (unfold is_u32; lia).
    rewrite decide_False; [reflexivity|]. clear -Hva. dlia.
  - exists r, s'. assumption.
Defined.

Lemma copyuvm_copies_witness : exists r s', copyuvm demo_dir 4096 demo = Ret r s'.
Proof.
  destruct (copyuvm_copies demo demo_free demo_dir 4096) as (r & s' & _ & ? & _).
  - apply demo_kmem_free.
  - apply demo_space.
  - unfold MIN_ADDR. lia.
  - intros va Hva. change (pa_mem demo) with demo_mem. rewrite demo_lookup by (unfold is_u32; lia).
    rewrite decide_True by (clear -Hva; dlia). reflexivity.
  - exists r, s'. assumption.
Defined.
