(* ===== verification/Wmap.v ===== *)
(** * The table of memory mappings (sysfile.c, proc.h, wmap.h)

    A process keeps at most 16 mappings in [arr], sorted by start address and
    without holes, and a second copy of start and length in [wmapinfo].  This
    file has the table operations [insert_mapping] and [remove_mapping] and the
    system calls that only touch the table: [sys_wmap], [sys_wremap] and
    [sys_getwmapinfo].  The abstract table is the list of its valid mappings,
    [mappings]. *)

From S2P Require Import Prelude Mmu Vm.
From stdpp Require Import base list strings.
From Stdlib Require Import ZArith Lia.
#[local] Open Scope Z_scope.

Definition MAP_PRIVATE : Z := 0x0001.
Definition MAP_SHARED : Z := 0x0002.
Definition MAP_ANONYMOUS : Z := 0x0004.
Definition MAP_FIXED : Z := 0x0008.
Definition FAILED : Z := -1.
Definition SUCCESS : Z := 0.
Definition MAX_WMMAP_INFO : nat := 16.

(** [struct mem_block] and [struct wmapinfo]. *)
Record mem_block := mkBlock {
  mb_start : Z; mb_end : Z; mb_flags : Z; mb_length : Z; mb_fd : Z; mb_ref : Z; mb_valid : Z }.
Record wmapinfo := mkInfo {
  total_mmaps : Z; wi_addr : list Z; wi_length : list Z;
  n_loaded_pages : list Z; leftmostLoadedAddr : list Z }.
(** The part of [struct proc] that holds mappings.  The blocks are in pages of
    their own, so the table holds their values. *)
Record wtab := mkTab { arr : list mem_block; winfo : wmapinfo }.

Definition empty_block : mem_block := mkBlock 0 0 0 0 0 0 0.
(** The table as [allocproc] sets it up. *)
Definition init_wtab : wtab :=
  mkTab (replicate MAX_WMMAP_INFO empty_block)
    (mkInfo 0 (replicate MAX_WMMAP_INFO 0) (replicate MAX_WMMAP_INFO 0)
       (replicate MAX_WMMAP_INFO 0) (replicate MAX_WMMAP_INFO (i32 (MAX_ADDR + 1)))).

(** ** Array accesses, undefined outside the array *)

Definition get_block (i : Z) : M wtab mem_block := fun t =>
  if i <? 0 then Undef "arr index"
  else match arr t !! Z.to_nat i with Some b => Ret b t | None => Undef "arr index" end.
Definition set_block (i : Z) (b : mem_block) : M wtab unit := fun t =>
  if (0 <=? i) && (i <? Z.of_nat MAX_WMMAP_INFO)
  then Ret tt (mkTab (<[Z.to_nat i := b]> (arr t)) (winfo t)) else Undef "arr index".
Definition upd_info (f : wmapinfo -> wmapinfo) : M wtab unit :=
  modify (fun t => mkTab (arr t) (f (winfo t))).
Definition get_total : M wtab Z := gets (fun t => total_mmaps (winfo t)).

(** Copy entry [j] of an array to entry [i]; store into entry [i].  The callers
    have accessed [arr] at the same indices before. *)
Definition put (i v : Z) (l : list Z) : list Z := <[Z.to_nat i := v]> l.
Definition copy (i j : Z) (l : list Z) : list Z := put i (nth (Z.to_nat j) l 0) l.

(** ** insert_mapping *)

Definition new_block (start end_ flags length fd : Z) : mem_block :=
  mkBlock start end_ flags length fd 1 1.
(** Fill slot [i] and count the mapping. *)
Definition fill_slot (i start end_ flags length fd : Z) : M wtab Z :=
  _ ← set_block i (new_block start end_ flags length fd);
  b ← get_block i;
  _ ← upd_info (fun w => mkInfo (i32 (total_mmaps w + 1)) (put i (i32 (mb_start b)) (wi_addr w))
                           (put i (mb_length b) (wi_length w)) (n_loaded_pages w) (leftmostLoadedAddr w));
  mret (i32 (mb_start b)).

(** Shift right every mapping that starts after [start]; returns the free slot. *)
Fixpoint shift_right (insert_idx : nat) (start : Z) : M wtab Z :=
  match insert_idx with
  | O => mret 0
  | S k =>
      let i := Z.of_nat insert_idx in
      b ← get_block (i - 1);
      if mb_start b >? start then
        _ ← set_block i b;
        _ ← upd_info (fun w => mkInfo (total_mmaps w) (copy i (i - 1) (wi_addr w))
                                 (copy i (i - 1) (wi_length w)) (copy i (i - 1) (n_loaded_pages w))
                                 (leftmostLoadedAddr w));
        shift_right k start
      else mret i
  end.
Definition insert_mapping (start end_ flags length numMappings fd : Z) : M wtab Z :=
  if numMappings =? Z.of_nat MAX_WMMAP_INFO then mret FAILED
  else if numMappings =? 0 then fill_slot 0 start end_ flags length fd
  else if numMappings <? 0 then undef "arr index"
  else
    insert_idx ← shift_right (Z.to_nat numMappings) start;
    fill_slot insert_idx start end_ flags length fd.

(** ** remove_mapping *)

(** The first valid entry that starts at [addr], from index [i]. *)
Fixpoint find_valid (l : list mem_block) (i addr : Z) : Z :=
  match l with
  | [] => -1
  | b :: l => if c_true (mb_valid b) && (mb_start b =? addr) then i else find_valid l (i + 1) addr
  end.

(** [for (i = found; i < MAX_WMMAP_INFO - 1; i++)]: entry [i] becomes entry
    [i+1], in [arr] and in the arrays of [wmapinfo]. *)
Fixpoint shift_left (n : nat) (i : Z) : M wtab unit :=
  match n with
  | O => mret tt
  | S n =>
      b ← get_block (i + 1);
      _ ← set_block i b;
      _ ← upd_info (fun w => mkInfo (total_mmaps w) (copy i (i + 1) (wi_addr w))
                               (copy i (i + 1) (wi_length w)) (copy i (i + 1) (n_loaded_pages w))
                               (copy i (i + 1) (leftmostLoadedAddr w)));
      shift_left n (i + 1)
  end.
Definition remove_mapping (addr : Z) : M wtab Z :=
  l ← gets arr;
  let found := find_valid (take MAX_WMMAP_INFO l) 0 addr in
  if found =? -1 then mret 0
  else
    b ← get_block found;
    let ref := i32 (mb_ref b - 1) in
    _ ← set_block found (mkBlock (mb_start b) (mb_end b) (mb_flags b) (mb_length b) (mb_fd b) ref (mb_valid b));
    _ ← when (ref =? 0) (
      _ ← upd_info (fun w => mkInfo (i32 (total_mmaps w - 1)) (put found 0 (wi_addr w))
                               (put found 0 (wi_length w)) (put found 0 (n_loaded_pages w))
                               (put found 0 (leftmostLoadedAddr w)));
      _ ← set_block found (mkBlock (mb_start b) 0 0 0 0 0 0);
      shift_left (MAX_WMMAP_INFO - 1 - Z.to_nat found) found);
    mret 1.

(** ** The system calls

    [args n] is what [argint n] stores; [None] when it fails, which leaves the
    caller's local variable uninitialised. *)

Definition use {S} (x : option Z) : M S Z :=
  match x with Some v => mret v | None => undef "uninitialised local" end.

(** Does an end of the new range fall strictly inside a valid mapping? *)
Definition overlaps (addr end_ : Z) (b : mem_block) : bool :=
  c_true (mb_valid b) &&
  ((addr >? mb_start b) && (addr <? mb_end b) || (end_ >? mb_start b) && (end_ <? mb_end b)).

(** The search of [sys_wmap] and [sys_wremap] for a place: [prevEnd] is the end
    of the mapping before, [leftmost] the candidate so far. *)
Fixpoint search_place (l : list mem_block) (need prevEnd leftmost : Z) : Z :=
  match l with
  | [] => leftmost
  | b :: l =>
      if mb_valid b =? 0 then u32 (prevEnd + 1)
      else
        let curStart := i32 (mb_start b) in
        let leftmost := if i32 (curStart - prevEnd) >? need then u32 (prevEnd + 1) else leftmost in
        search_place l need (i32 (mb_end b)) leftmost
  end.

Definition sys_wmap (args : nat -> option Z) : M wtab Z :=
  addr ← use (args 0%nat);
  let addr := u32 addr in
  length ← use (args 1%nat);
  if (addr <? 0) || (length <? 1) then mret FAILED
  else
    flags ← use (args 2%nat);
    if c_true (Z.land flags MAP_FIXED) then
      if c_true (addr mod PGSIZE) then mret FAILED
      else
        let end_ := u32 (addr + PGROUNDUP_int length - 1) in
        l ← gets arr;
        if existsb (overlaps addr end_) (take MAX_WMMAP_INFO l) then mret FAILED
        else
          n ← get_total;
          fd ← use (args 3%nat);
          insertAddr ← insert_mapping addr end_ flags length n fd;
          if u32 insertAddr =? u32 FAILED then mret FAILED else mret (i32 (u32 insertAddr))
    else
      n ← get_total;
      if n =? Z.of_nat MAX_WMMAP_INFO then mret FAILED
      else
        l ← gets arr;
        let leftmostAddr :=
          search_place (take MAX_WMMAP_INFO l) (PGROUNDUP_int length) (MIN_ADDR - 1) MIN_ADDR in
        let end_ := i32 (leftmostAddr + PGROUNDUP_int length - 1) in
        fd ← use (args 3%nat);
        insertAddr ← insert_mapping leftmostAddr (u32 end_) flags length n fd;
        if u32 insertAddr =? u32 FAILED then mret FAILED else mret (i32 (u32 insertAddr)).

(** The first entry below [total_mmaps] with [valid == 1] that starts at [addr]. *)
Fixpoint find_block (n : nat) (i addr : Z) : M wtab (option Z) :=
  match n with
  | O => mret None
  | S n => b ← get_block i;
           if (mb_valid b =? 1) && (mb_start b =? addr) then mret (Some i) else find_block n (i + 1) addr
  end.

(** Replace the mapping at [oldaddr] by one of the new size in place. *)
Definition resize_mapping (oldaddr end_ flags newsize fd : Z) : M wtab Z :=
  x ← remove_mapping oldaddr;
  if negb (x =? 1) then mret FAILED
  else
    n ← get_total;
    x2 ← insert_mapping oldaddr (u32 (end_ - 1)) flags newsize n fd;
    if negb (x2 =? -1) then mret x2 else mret FAILED.

Definition sys_wremap (args : nat -> option Z) : M wtab Z :=
  oldaddr ← use (args 0%nat);
  let oldaddr := u32 oldaddr in
  if c_true (oldaddr mod PGSIZE) then mret (u32 FAILED)
  else
    n ← get_total;
    found ← find_block (Z.to_nat n) 0 oldaddr;
    let location := default 0 found in
    old ← get_block location;
    match found with
    | None => mret (u32 FAILED)
    | Some _ =>
        newsize ← use (args 2%nat);
        let end_ := u32 (oldaddr + PGROUNDUP_int newsize) in
        next ← get_block (location + 1);
        if (mb_valid next =? 1) && (end_ <? mb_start next) then
          r ← resize_mapping oldaddr end_ (mb_flags old) newsize (mb_fd old); mret (u32 r)
        else if mb_valid next =? 0 then
          if end_ >? MAX_ADDR then mret (u32 FAILED)
          else r ← resize_mapping oldaddr end_ (mb_flags old) newsize (mb_fd old); mret (u32 r)
        else
          flag ← use (args 3%nat);
          if flag =? 0 then mret (u32 FAILED)
          else
            x3 ← remove_mapping oldaddr;
            if negb (x3 =? 1) then mret (u32 FAILED)
            else
              l ← gets arr;
              let leftmostAddr :=
                search_place (take MAX_WMMAP_INFO l) (PGROUNDUP_int newsize) (MIN_ADDR - 1) MIN_ADDR in
              let end_ := u32 (leftmostAddr + PGROUNDUP_int newsize - 1) in
              n ← get_total;
              insertAddr ← insert_mapping leftmostAddr (u32 (end_ - 1)) (mb_flags old) newsize n (mb_fd old);
              if u32 insertAddr =? u32 FAILED then mret (u32 FAILED) else mret (u32 insertAddr)
    end.

(** [sys_getwmapinfo] fills the caller's structure [w]; [null] when the pointer
    is.  Entries past [total_mmaps] keep what the caller had there. *)
Fixpoint copy_info (n : nat) (i : Z) (src w : wmapinfo) : wmapinfo :=
  match n with
  | O => w
  | S n => copy_info n (i + 1) src
             (mkInfo (total_mmaps w) (put i (nth (Z.to_nat i) (wi_addr src) 0) (wi_addr w))
                (put i (nth (Z.to_nat i) (wi_length src) 0) (wi_length w))
                (put i (nth (Z.to_nat i) (n_loaded_pages src) 0) (n_loaded_pages w))
                (leftmostLoadedAddr w))
  end.
Definition sys_getwmapinfo (null : bool) (w : wmapinfo) : M wtab (Z * wmapinfo) :=
  if null then mret (FAILED, w)
  else
    src ← gets winfo;
    if Z.of_nat MAX_WMMAP_INFO <? total_mmaps src then undef "wmapinfo index"
    else mret (SUCCESS, copy_info (Z.to_nat (total_mmaps src)) 0 src
                 (mkInfo (total_mmaps src) (wi_addr w) (wi_length w) (n_loaded_pages w) (leftmostLoadedAddr w))).
