(* ===== verification/WmapTable.v ===== *)
(** * The mapping table refines a sorted list of mappings

    [table_ok t l] relates the 16-slot table to the list [l] of its mappings:
    the first slots hold [l] in order, the others are invalid, and [wmapinfo]
    agrees.  [insert_mapping] is sorted insertion, [remove_mapping] deletion of
    the first mapping that starts at the address. *)

From S2P Require Import Prelude Mmu Vm Wmap.
From stdpp Require Import base list strings.
From Stdlib Require Import ZArith Lia.
#[local] Open Scope Z_scope.

(** ** Shifting a range of an array *)

Section Shift.
  Context {A : Type}.
  Implicit Types (c : list A).

(** Entries [r+1 .. n] of [c'] are entries [r .. n-1] of [c]. *)
Definition shifted_r (r n : nat) c c' : Prop :=
  length c' = length c /\
  forall j, c' !! j = if decide (r < j <= n)%nat then c !! (j - 1)%nat else c !! j.
(** Entries [r .. n-1] of [c'] are entries [r+1 .. n] of [c]. *)
Definition shifted_l (r n : nat) c c' : Prop :=
  length c' = length c /\
  forall j, c' !! j = if decide (r <= j < n)%nat then c !! S j else c !! j.

Lemma shifted_r_refl n c : shifted_r n n c c.
Proof. split; [done|]. intros j. by rewrite decide_False by lia. Qed.
Lemma shifted_l_refl n c : shifted_l n n c c.
Proof. split; [done|]. intros j. by rewrite decide_False by lia. Qed.

Lemma shifted_r_step r k c c' x :
  (r <= k)%nat -> (S k < length c)%nat -> c !! k = Some x ->
  shifted_r r k (<[S k := x]> c) c' -> shifted_r r (S k) c c'.
Proof.
  intros Hr Hk Hx [Hlen Hs]. rewrite length_insert in Hlen. split; [done|]. intros j. rewrite Hs.
  destruct (decide (r < j <= k)%nat) as [E|E].
  - rewrite decide_True by lia. by rewrite list_lookup_insert_ne by lia.
  - destruct (decide (j = S k)) as [->|Hj].
    + rewrite decide_True by lia. rewrite list_lookup_insert_eq by done.
      by replace (S k - 1)%nat with k by lia.
    + rewrite decide_False by lia. by rewrite list_lookup_insert_ne.
Qed.

Lemma shifted_l_step r n c c' x :
  (r < n)%nat -> (n < length c)%nat -> c !! S r = Some x ->
  shifted_l (S r) n (<[r := x]> c) c' -> shifted_l r n c c'.
Proof.
  intros Hr Hn Hx [Hlen Hs]. rewrite length_insert in Hlen. split; [done|]. intros j. rewrite Hs.
  destruct (decide (S r <= j < n)%nat) as [E|E].
  - rewrite decide_True by lia. by rewrite list_lookup_insert_ne by lia.
  - destruct (decide (j = r)) as [->|Hj].
    + rewrite decide_True by lia. by rewrite list_lookup_insert_eq by lia.
    + rewrite decide_False by lia. by rewrite list_lookup_insert_ne.
Qed.
End Shift.

(** The four parallel arrays and the table have 16 entries. *)
Record sized (t : wtab) : Prop := {
  sz_arr : length (arr t) = MAX_WMMAP_INFO;
  sz_addr : length (wi_addr (winfo t)) = MAX_WMMAP_INFO;
  sz_length : length (wi_length (winfo t)) = MAX_WMMAP_INFO;
  sz_loaded : length (n_loaded_pages (winfo t)) = MAX_WMMAP_INFO;
  sz_left : length (leftmostLoadedAddr (winfo t)) = MAX_WMMAP_INFO
}.

Lemma copy_nat i j l x : l !! j = Some x -> copy (Z.of_nat i) (Z.of_nat j) l = <[i := x]> l.
Proof. intros Hx. unfold copy, put. rewrite !Nat2Z.id. by rewrite (nth_lookup_Some _ _ _ _ Hx). Qed.

Lemma wp_get_block i b Q t :
  arr t !! i = Some b -> Q b t -> wp (get_block (Z.of_nat i)) Q t.
Proof.
  intros Hb HQ. unfold wp, get_block. rewrite (proj2 (Z.ltb_ge _ _)) by lia.
  by rewrite Nat2Z.id, Hb.
Qed.
Lemma wp_set_block i b Q t :
  (i < MAX_WMMAP_INFO)%nat -> Q tt (mkTab (<[i := b]> (arr t)) (winfo t)) ->
  wp (set_block (Z.of_nat i) b) Q t.
Proof.
  intros Hi HQ. unfold wp, set_block.
  rewrite (proj2 (Z.leb_le _ _)), (proj2 (Z.ltb_lt _ _)) by lia. cbn [andb]. by rewrite Nat2Z.id.
Qed.

(** All arrays but [leftmostLoadedAddr] are shifted right from [r] to [n]. *)
Record right_shift (r n : nat) (t t' : wtab) : Prop := {
  rs_arr : shifted_r r n (arr t) (arr t');
  rs_addr : shifted_r r n (wi_addr (winfo t)) (wi_addr (winfo t'));
  rs_length : shifted_r r n (wi_length (winfo t)) (wi_length (winfo t'));
  rs_loaded : shifted_r r n (n_loaded_pages (winfo t)) (n_loaded_pages (winfo t'));
  rs_left : leftmostLoadedAddr (winfo t') = leftmostLoadedAddr (winfo t);
  rs_total : total_mmaps (winfo t') = total_mmaps (winfo t)
}.

Lemma shift_right_ok n start t :
  sized t -> (n < MAX_WMMAP_INFO)%nat ->
  wp (shift_right n start) (fun r t' => exists k, r = Z.of_nat k /\ (k <= n)%nat /\ right_shift k n t t' /\
       (forall j b, (k <= j < n)%nat -> arr t !! j = Some b -> start < mb_start b) /\
       (forall b, arr t !! (k - 1)%nat = Some b -> (0 < k)%nat -> mb_start b <= start)) t.
Proof.
  revert t. induction n as [|n IH]; intros t Hsz Hn; cbn [shift_right].
  { apply wp_ret. exists 0%nat. split; [done|]. split; [lia|].
    split; [split; try done; apply shifted_r_refl|]. split; intros; lia. }
  destruct Hsz as [Ha1 Ha2 Ha3 Ha4 Ha5].
  destruct (lookup_lt_is_Some_2 (arr t) n) as [b Hb]; [lia|].
  destruct (lookup_lt_is_Some_2 (wi_addr (winfo t)) n) as [xa Hxa]; [lia|].
  destruct (lookup_lt_is_Some_2 (wi_length (winfo t)) n) as [xl Hxl]; [lia|].
  destruct (lookup_lt_is_Some_2 (n_loaded_pages (winfo t)) n) as [xn Hxn]; [lia|].
  replace (Z.of_nat (S n) - 1) with (Z.of_nat n) by lia.
  wp_step. apply (wp_get_block n b); [done|]. rewrite Z.gtb_ltb.
  destruct (Z.ltb_spec start (mb_start b)) as [Hlt|Hge].
  - wp_step. apply wp_set_block; [done|]. unfold upd_info. wp_steps. cbn [arr winfo].
    rewrite (copy_nat _ _ _ _ Hxa), (copy_nat _ _ _ _ Hxl), (copy_nat _ _ _ _ Hxn).
    wp_use IH; [split; cbn; rewrite ?length_insert; done|lia|].
    intros r t' (k & -> & Hk & [H1 H2 H3 H4 H5 H6] & Hgt & Hle). cbn in *.
    exists k. split; [done|]. split; [lia|]. split; [|split].
    + split; cbn; try done; (eapply shifted_r_step; [| |done|done]; lia).
    + intros j c Hj Hc. destruct (decide (j = n)) as [->|]; [congruence|].
      apply (Hgt j); [lia|]. by rewrite list_lookup_insert_ne by lia.
    + intros c Hc. apply Hle. by rewrite list_lookup_insert_ne by lia.
  - wp_step. exists (S n). split; [done|]. split; [done|].
    split; [split; try done; apply shifted_r_refl|]. split; [intros; lia|].
    intros c Hc _. replace (S n - 1)%nat with n in Hc by lia. congruence.
Qed.

(** ** The abstract table *)

Definition starts_le (a b : mem_block) : Prop := mb_start a <= mb_start b.

Record table_ok (t : wtab) (l : list mem_block) : Prop := {
  to_sized : sized t;
  to_total : total_mmaps (winfo t) = Z.of_nat (length l);
  to_fits : (length l <= MAX_WMMAP_INFO)%nat;
  to_arr i : (i < length l)%nat -> arr t !! i = l !! i;
  to_valid i b : l !! i = Some b -> mb_valid b = 1 /\ is_u32 (mb_start b);
  to_rest i b : (length l <= i)%nat -> arr t !! i = Some b -> mb_valid b = 0;
  to_addr i b : l !! i = Some b -> wi_addr (winfo t) !! i = Some (i32 (mb_start b));
  to_length i b : l !! i = Some b -> wi_length (winfo t) !! i = Some (mb_length b);
  to_sorted i j a b : l !! i = Some a -> l !! j = Some b -> (i <= j)%nat -> starts_le a b
}.

(** Insertion that keeps a list of mappings sorted, behind equal starts. *)
Fixpoint ord_insert (b : mem_block) (l : list mem_block) : list mem_block :=
  match l with
  | [] => [b]
  | c :: l => if mb_start c <=? mb_start b then c :: ord_insert b l else b :: c :: l
  end.

Lemma length_ord_insert b l : length (ord_insert b l) = S (length l).
Proof. induction l as [|c l IH]; [done|]. cbn. destruct (_ <=? _); cbn; congruence. Qed.

Lemma elem_of_ord_insert b l x : x ∈ ord_insert b l <-> x = b \/ x ∈ l.
Proof.
  induction l as [|c l IH]; cbn; [by rewrite elem_of_cons|].
  destruct (_ <=? _); rewrite !elem_of_cons, ?IH; tauto.
Qed.

(** A cut of [l] at [k] into not-greater and greater starts is where the new
    mapping goes. *)
Lemma ord_insert_lookup b l k :
  (k <= length l)%nat ->
  (forall j c, (j < k)%nat -> l !! j = Some c -> mb_start c <= mb_start b) ->
  (forall c, l !! k = Some c -> mb_start b < mb_start c) ->
  forall j, ord_insert b l !! j =
    if decide (j < k)%nat then l !! j else if decide (j = k) then Some b else l !! (j - 1)%nat.
Proof.
  revert k. induction l as [|c l IH]; intros k Hk Hle Hgt j.
  { destruct k; [|cbn in Hk; lia]. destruct j as [|j]; cbn; [done|].
    rewrite decide_False by lia. by rewrite Nat.sub_0_r. }
  cbn [ord_insert]. destruct k as [|k].
  - rewrite (proj2 (Z.leb_gt _ _)) by by apply Hgt. rewrite decide_False by lia.
    destruct j as [|j]; cbn; [done|]. by rewrite Nat.sub_0_r.
  - rewrite (proj2 (Z.leb_le _ _)) by (apply (Hle 0%nat); done || lia).
    destruct j as [|j]; [by rewrite decide_True by lia|]. cbn [lookup list_lookup].
    rewrite (IH k); [|cbn in Hk; lia|intros i x ?; apply (Hle (S i)); lia|done].
    destruct (decide (j < k)%nat).
    + by rewrite decide_True by lia.
    + rewrite (decide_False (P := (S j < S k)%nat)) by lia. destruct (decide (j = k)) as [->|].
      * by rewrite decide_True.
      * rewrite decide_False by lia. destruct j as [|j]; [lia|]. cbn. by rewrite Nat.sub_0_r.
Qed.

Lemma fill_slot_ok k start end_ flags length_ fd t :
  sized t -> (k < MAX_WMMAP_INFO)%nat ->
  fill_slot (Z.of_nat k) start end_ flags length_ fd t =
    Ret (i32 start)
      (mkTab (<[k := new_block start end_ flags length_ fd]> (arr t))
         (mkInfo (i32 (total_mmaps (winfo t) + 1)) (<[k := i32 start]> (wi_addr (winfo t)))
            (<[k := length_]> (wi_length (winfo t))) (n_loaded_pages (winfo t))
            (leftmostLoadedAddr (winfo t)))).
Proof.
  intros Hsz Hk. unfold fill_slot, set_block, get_block, upd_info, modify, mbind, M_bind, mret, M_ret.
  rewrite (proj2 (Z.leb_le _ _)), (proj2 (Z.ltb_lt _ _)) by lia. cbn [andb arr winfo].
  rewrite (proj2 (Z.ltb_ge _ _)), Nat2Z.id by lia.
  rewrite list_lookup_insert_eq by (rewrite (sz_arr _ Hsz); done). cbn. unfold put. by rewrite Nat2Z.id.
Qed.

Lemma insert_mapping_shift start end_ flags length_ n fd :
  (n < MAX_WMMAP_INFO)%nat ->
  insert_mapping start end_ flags length_ (Z.of_nat n) fd =
    (k ← shift_right n start; fill_slot k start end_ flags length_ fd).
Proof.
  intros Hn. unfold insert_mapping. rewrite (proj2 (Z.eqb_neq _ _)) by lia.
  destruct n as [|n]; [done|].
  rewrite (proj2 (Z.eqb_neq _ 0)), (proj2 (Z.ltb_ge _ 0)), Nat2Z.id by lia. done.
Qed.

Lemma table_rest t l i :
  table_ok t l -> (length l <= i < MAX_WMMAP_INFO)%nat ->
  exists b, arr t !! i = Some b /\ mb_valid b = 0.
Proof.
  intros Hok Hi. destruct (lookup_lt_is_Some_2 (arr t) i) as [b Hb].
  { rewrite (sz_arr _ (to_sized _ _ Hok)). lia. }
  exists b. split; [done|]. by apply (to_rest _ _ Hok i); [lia|].
Qed.

(** Column [c] with [x] put in slot [k] and slots [k .. n-1] moved up. *)
Definition col_insert {A} (k n : nat) (x : A) (c : list A) (j : nat) : option A :=
  if decide (j < k)%nat then c !! j
  else if decide (j = k) then Some x
  else if decide (j <= n)%nat then c !! (j - 1)%nat else c !! j.

Lemma col_insert_shifted {A} k n (x : A) c c' j :
  shifted_r k n c c' -> (k < length c)%nat -> <[k := x]> c' !! j = col_insert k n x c j.
Proof.
  intros [Hlen Hs] Hk. unfold col_insert. destruct (decide (j = k)) as [->|Hj].
  - rewrite list_lookup_insert_eq by lia. by rewrite decide_False by lia.
  - rewrite list_lookup_insert_ne, Hs by done. repeat case_decide; done || lia.
Qed.

Lemma table_ok_insert t l t' nb k :
  table_ok t l -> (length l < MAX_WMMAP_INFO)%nat -> (k <= length l)%nat ->
  (forall j c, (j < k)%nat -> l !! j = Some c -> mb_start c <= mb_start nb) ->
  (forall j c, (k <= j)%nat -> l !! j = Some c -> mb_start nb < mb_start c) ->
  mb_valid nb = 1 -> is_u32 (mb_start nb) -> sized t' ->
  total_mmaps (winfo t') = Z.of_nat (S (length l)) ->
  (forall j, arr t' !! j = col_insert k (length l) nb (arr t) j) ->
  (forall j, wi_addr (winfo t') !! j = col_insert k (length l) (i32 (mb_start nb)) (wi_addr (winfo t)) j) ->
  (forall j, wi_length (winfo t') !! j = col_insert k (length l) (mb_length nb) (wi_length (winfo t)) j) ->
  table_ok t' (ord_insert nb l).
Proof.
  intros Hok Hl Hk Hcut Hcut' Hv Hu Hsz Htot Harr Haddr Hlen.
  pose proof (ord_insert_lookup nb l k Hk Hcut (fun c => Hcut' k c (le_n k))) as HI.
  assert (forall (P : nat -> mem_block -> Prop),
    P k nb -> (forall i b, l !! i = Some b -> (i < k)%nat -> P i b) ->
    (forall i b, l !! i = Some b -> (k <= i)%nat -> P (S i) b) ->
    forall j b, ord_insert nb l !! j = Some b -> P j b) as Hcase.
  { intros P Hnb Hlo Hhi j b. rewrite HI. destruct (decide (j < k)%nat); [by intros; apply Hlo|].
    destruct (decide (j = k)) as [->|]; [by intros [= <-]|].
    intros Hj. replace j with (S (j - 1)) by lia. apply Hhi; [done|lia]. }
  split; rewrite ?length_ord_insert.
  - done.
  - done.
  - lia.
  - intros i Hi. rewrite Harr, HI. unfold col_insert. repeat case_decide; try done; try lia.
    + by apply (to_arr _ _ Hok); lia.
    + by apply (to_arr _ _ Hok); lia.
  - apply (Hcase (fun _ b => mb_valid b = 1 /\ is_u32 (mb_start b))); [done|..];
      intros i b Hb _; by apply (to_valid _ _ Hok i).
  - intros i b Hi. rewrite Harr. unfold col_insert. rewrite !decide_False by lia.
    apply (to_rest _ _ Hok). lia.
  - apply (Hcase (fun j b => wi_addr (winfo t') !! j = Some (i32 (mb_start b)))).
    + rewrite Haddr. unfold col_insert. by rewrite decide_False, decide_True by lia.
    + intros i b Hb Hi. rewrite Haddr. unfold col_insert. rewrite decide_True by lia.
      by apply (to_addr _ _ Hok).
    + intros i b Hb Hi. rewrite Haddr. unfold col_insert. pose proof (lookup_lt_Some _ _ _ Hb).
      rewrite !decide_False, decide_True by lia. cbn. rewrite Nat.sub_0_r. by apply (to_addr _ _ Hok).
  - apply (Hcase (fun j b => wi_length (winfo t') !! j = Some (mb_length b))).
    + rewrite Hlen. unfold col_insert. by rewrite decide_False, decide_True by lia.
    + intros i b Hb Hi. rewrite Hlen. unfold col_insert. rewrite decide_True by lia.
      by apply (to_length _ _ Hok).
    + intros i b Hb Hi. rewrite Hlen. unfold col_insert. pose proof (lookup_lt_Some _ _ _ Hb).
      rewrite !decide_False, decide_True by lia. cbn. rewrite Nat.sub_0_r. by apply (to_length _ _ Hok).
  - intros i j a b Ha Hb Hij. revert j b Hb Hij. revert i a Ha.
    apply (Hcase (fun i a => forall j b, ord_insert nb l !! j = Some b -> (i <= j)%nat -> starts_le a b)).
    + apply (Hcase (fun j b => (k <= j)%nat -> starts_le nb b)); unfold starts_le; [lia|..].
      * intros; lia.
      * intros i b Hb Hi _. pose proof (Hcut' i b Hi Hb). lia.
    + intros i a Ha Hi. apply (Hcase (fun j b => (i <= j)%nat -> starts_le a b)).
      * intros _. apply (Hcut i a Hi Ha).
      * intros j b Hb _ Hij. by apply (to_sorted _ _ Hok i j).
      * intros j b Hb Hj _. apply (to_sorted _ _ Hok i j); done || lia.
    + intros i a Ha Hi. apply (Hcase (fun j b => (S i <= j)%nat -> starts_le a b)).
      * intros; lia.
      * intros; lia.
      * intros j b Hb Hj Hij. apply (to_sorted _ _ Hok i j); done || lia.
Qed.

Lemma insert_mapping_ok t l start end_ flags length_ fd :
  table_ok t l -> (length l < MAX_WMMAP_INFO)%nat -> is_u32 start ->
  wp (insert_mapping start end_ flags length_ (total_mmaps (winfo t)) fd)
    (fun r t' => r = i32 start /\ table_ok t' (ord_insert (new_block start end_ flags length_ fd) l) /\
       leftmostLoadedAddr (winfo t') = leftmostLoadedAddr (winfo t)) t.
Proof.
  intros Hok Hl Hst. pose proof (to_sized _ _ Hok) as Hsz. set (nb := new_block start end_ flags length_ fd).
  rewrite (to_total _ _ Hok), insert_mapping_shift by done.
  wp_step. wp_use (shift_right_ok (length l) start t); [done..|].
  intros _ t1 (k & -> & Hk & [H1 H2 H3 H4 H5 H6] & Hgt & Hle).
  assert (sized t1) as Hsz1.
  { destruct Hsz. split; [rewrite (proj1 H1)|rewrite (proj1 H2)|rewrite (proj1 H3)|rewrite (proj1 H4)
    |rewrite H5]; done. }
  unfold wp. rewrite fill_slot_ok by (done || lia). split; [done|]. split; [|done].
  destruct Hsz as [Ha1 Ha2 Ha3 Ha4 Ha5]. unfold MAX_WMMAP_INFO in *.
  apply (table_ok_insert t l _ nb k); cbn [arr winfo wi_addr wi_length total_mmaps]; try done.
  - intros j c Hj Hc. destruct (lookup_lt_is_Some_2 l (k - 1)) as [b Hb]; [lia|].
    assert (mb_start b <= start) as Hbs by (apply Hle; [rewrite (to_arr _ _ Hok) by lia; done|lia]).
    pose proof (to_sorted _ _ Hok j (k - 1) c b Hc Hb ltac:(lia)) as Hcb. unfold starts_le in Hcb. cbn. lia.
  - intros j c Hj Hc. pose proof (lookup_lt_Some _ _ _ Hc). apply (Hgt j c); [lia|].
    by rewrite (to_arr _ _ Hok).
  - destruct Hsz1. split; cbn; rewrite ?length_insert; done.
  - rewrite H6, (to_total _ _ Hok). rewrite i32_small by lia. lia.
  - intros j. apply col_insert_shifted; [done|lia].
  - intros j. apply col_insert_shifted; [done|lia].
  - intros j. apply col_insert_shifted; [done|lia].
Qed.

(** ** Removal *)

Record left_shift (r n : nat) (t t' : wtab) : Prop := {
  ls_arr : shifted_l r n (arr t) (arr t');
  ls_addr : shifted_l r n (wi_addr (winfo t)) (wi_addr (winfo t'));
  ls_length : shifted_l r n (wi_length (winfo t)) (wi_length (winfo t'));
  ls_loaded : shifted_l r n (n_loaded_pages (winfo t)) (n_loaded_pages (winfo t'));
  ls_left : shifted_l r n (leftmostLoadedAddr (winfo t)) (leftmostLoadedAddr (winfo t'));
  ls_total : total_mmaps (winfo t') = total_mmaps (winfo t)
}.

Lemma shift_left_ok n r t :
  sized t -> (r + n < MAX_WMMAP_INFO)%nat ->
  wp (shift_left n (Z.of_nat r)) (fun _ t' => left_shift r (r + n) t t') t.
Proof.
  revert r t. induction n as [|n IH]; intros r t Hsz Hn; cbn [shift_left].
  { apply wp_ret. rewrite Nat.add_0_r. split; try done; apply shifted_l_refl. }
  destruct Hsz as [Ha1 Ha2 Ha3 Ha4 Ha5].
  destruct (lookup_lt_is_Some_2 (arr t) (S r)) as [b Hb]; [lia|].
  destruct (lookup_lt_is_Some_2 (wi_addr (winfo t)) (S r)) as [xa Hxa]; [lia|].
  destruct (lookup_lt_is_Some_2 (wi_length (winfo t)) (S r)) as [xl Hxl]; [lia|].
  destruct (lookup_lt_is_Some_2 (n_loaded_pages (winfo t)) (S r)) as [xn Hxn]; [lia|].
  destruct (lookup_lt_is_Some_2 (leftmostLoadedAddr (winfo t)) (S r)) as [xm Hxm]; [lia|].
  replace (Z.of_nat r + 1) with (Z.of_nat (S r)) by lia.
  wp_step. apply (wp_get_block (S r) b); [done|]. wp_step. apply wp_set_block; [lia|].
  unfold upd_info. wp_steps. cbn [arr winfo].
  rewrite (copy_nat _ _ _ _ Hxa), (copy_nat _ _ _ _ Hxl), (copy_nat _ _ _ _ Hxn), (copy_nat _ _ _ _ Hxm).
  wp_use (IH (S r)); [split; cbn; rewrite ?length_insert; done|lia|].
  intros _ t' [H1 H2 H3 H4 H5 H6]. cbn in *. replace (r + S n)%nat with (S (r + n)) by lia.
  split; cbn; try done; (eapply shifted_l_step; [| |done|done]; lia).
Qed.

Lemma find_valid_spec l i addr :
  (find_valid l (Z.of_nat i) addr = -1 /\
     (forall j b, l !! j = Some b -> mb_valid b <> 0 -> mb_start b <> addr)) \/
  (exists k b, find_valid l (Z.of_nat i) addr = Z.of_nat (i + k) /\ l !! k = Some b /\
     mb_valid b <> 0 /\ mb_start b = addr /\
     forall j c, (j < k)%nat -> l !! j = Some c -> mb_valid c <> 0 -> mb_start c <> addr).
Proof.
  revert i. induction l as [|b l IH]; intros i; cbn [find_valid]; [by left|].
  destruct (c_true (mb_valid b)) eqn:Ev; cbn [andb].
  2:{ apply c_false_spec in Ev. replace (Z.of_nat i + 1) with (Z.of_nat (S i)) by lia.
      destruct (IH (S i)) as [[-> Hn]|(k & c & -> & Hk & Hc & Hs & Hf)]; [left|right].
      - split; [done|]. intros [|j] c; cbn; [congruence|apply Hn].
      - exists (S k), c. split; [lia|]. split; [done|]. split; [done|]. split; [done|].
        intros [|j] d Hj; cbn; [congruence|]. apply Hf. lia. }
  apply c_true_spec in Ev. destruct (Z.eqb_spec (mb_start b) addr) as [E|E].
  - right. exists 0%nat, b. split; [lia|]. split; [done|]. split; [done|]. split; [done|]. intros; lia.
  - replace (Z.of_nat i + 1) with (Z.of_nat (S i)) by lia.
    destruct (IH (S i)) as [[-> Hn]|(k & c & -> & Hk & Hc & Hs & Hf)]; [left|right].
    + split; [done|]. intros [|j] c; cbn; [congruence|apply Hn].
    + exists (S k), c. split; [lia|]. split; [done|]. split; [done|]. split; [done|].
      intros [|j] d Hj; cbn; [congruence|]. apply Hf. lia.
Qed.

(** The first mapping that starts at [addr]. *)
Definition first_at (l : list mem_block) (addr : Z) (k : nat) (b : mem_block) : Prop :=
  l !! k = Some b /\ mb_start b = addr /\
  forall j c, (j < k)%nat -> l !! j = Some c -> mb_start c <> addr.

Lemma find_valid_table t l addr :
  table_ok t l ->
  (find_valid (take MAX_WMMAP_INFO (arr t)) 0 addr = -1 /\ Forall (fun b => mb_start b <> addr) l) \/
  (exists k b, find_valid (take MAX_WMMAP_INFO (arr t)) 0 addr = Z.of_nat k /\ first_at l addr k b).
Proof.
  intros Hok. rewrite take_ge by (rewrite (sz_arr _ (to_sized _ _ Hok)); done).
  assert (forall j b, l !! j = Some b -> arr t !! j = Some b) as Hin.
  { intros j b Hb. rewrite (to_arr _ _ Hok); [done|]. by apply lookup_lt_Some in Hb. }
  pose proof (find_valid_spec (arr t) 0 addr) as HF. change (Z.of_nat 0) with 0 in HF.
  destruct HF as [[-> Hn]|(k & b & -> & Hb & Hv & Hs & Hf)].
  - left. split; [done|]. apply Forall_lookup. intros j b Hb. apply (Hn j b); [by apply Hin|].
    destruct (to_valid _ _ Hok j b Hb) as [-> _]. done.
  - right. exists k, b. split; [done|].
    assert (k < length l)%nat as Hk.
    { destruct (decide (k < length l)%nat) as [|Hge]; [done|]. destruct Hv.
      apply (to_rest _ _ Hok k); [lia|done]. }
    split; [by rewrite <- (to_arr _ _ Hok)|]. split; [done|].
    intros j c Hj Hc. apply (Hf j c Hj); [by apply Hin|].
    destruct (to_valid _ _ Hok j c Hc) as [-> _]. done.
Qed.

Lemma lookup_delete_case {A} (l : list A) k j :
  delete k l !! j = if decide (j < k)%nat then l !! j else l !! S j.
Proof.
  case_decide; [by apply list_lookup_delete_lt|]. apply list_lookup_delete_ge. lia.
Qed.

(** The table without entry [k]. *)
Lemma table_ok_delete t l t' k n :
  table_ok t l -> (length l < MAX_WMMAP_INFO)%nat -> (k < length l)%nat ->
  n = (MAX_WMMAP_INFO - 1)%nat -> sized t' -> total_mmaps (winfo t') = Z.of_nat (length l) - 1 ->
  (forall j, j <> k -> arr t' !! j = if decide (k <= j < n)%nat then arr t !! S j else arr t !! j) ->
  arr t' !! k = arr t !! S k ->
  (forall j, (j < length l - 1)%nat -> wi_addr (winfo t') !! j =
     if decide (k <= j)%nat then wi_addr (winfo t) !! S j else wi_addr (winfo t) !! j) ->
  (forall j, (j < length l - 1)%nat -> wi_length (winfo t') !! j =
     if decide (k <= j)%nat then wi_length (winfo t) !! S j else wi_length (winfo t) !! j) ->
  table_ok t' (delete k l).
Proof.
  intros Hok Hl Hk -> Hsz Htot Harr Hark Haddr Hlen. unfold MAX_WMMAP_INFO in *.
  assert (length (delete k l) = length l - 1)%nat as Hdl
    by (apply length_delete, lookup_lt_is_Some_2; done).
  assert (forall j b, delete k l !! j = Some b ->
            (j < length l - 1)%nat /\ exists i, l !! i = Some b /\ i = (if decide (k <= j)%nat then S j else j)) as Hc.
  { intros j b Hb. split; [apply lookup_lt_Some in Hb; lia|]. rewrite lookup_delete_case in Hb.
    case_decide; [exists j|exists (S j)]; (split; [done|]); case_decide; done || lia. }
  split; rewrite ?Hdl.
  - done.
  - rewrite Htot. lia.
  - unfold MAX_WMMAP_INFO. lia.
  - intros i Hi. rewrite lookup_delete_case. destruct (decide (i < k)%nat).
    + rewrite Harr, decide_False by lia. apply (to_arr _ _ Hok). lia.
    + rewrite <- (to_arr _ _ Hok) by lia. destruct (decide (i = k)) as [->|]; [done|].
      by rewrite Harr, decide_True by lia.
  - intros i b Hb. apply Hc in Hb as (_ & j & Hb & _). by apply (to_valid _ _ Hok j).
  - intros i b Hi Hb. destruct (decide (i = k)) as [->|].
    + rewrite Hark in Hb. apply (to_rest _ _ Hok (S k)); [lia|done].
    + rewrite Harr in Hb by done. case_decide.
      * apply (to_rest _ _ Hok (S i)); [lia|done].
      * apply (to_rest _ _ Hok i); [|done]. apply lookup_lt_Some in Hb as Hlt.
        rewrite (sz_arr _ (to_sized _ _ Hok)) in Hlt. unfold MAX_WMMAP_INFO in Hlt. lia.
  - intros i b Hb. apply Hc in Hb as (Hi & j & Hb & ->). rewrite Haddr by done.
    case_decide; by apply (to_addr _ _ Hok).
  - intros i b Hb. apply Hc in Hb as (Hi & j & Hb & ->). rewrite Hlen by done.
    case_decide; by apply (to_length _ _ Hok).
  - intros i j a b Ha Hb Hij. apply Hc in Ha as (_ & i' & Ha & ->). apply Hc in Hb as (_ & j' & Hb & ->).
    apply (to_sorted _ _ Hok _ _ a b Ha Hb). repeat case_decide; lia.
Qed.

Lemma remove_mapping_ok t l addr k b :
  table_ok t l -> (length l < MAX_WMMAP_INFO)%nat -> first_at l addr k b -> mb_ref b = 1 ->
  wp (remove_mapping addr) (fun r t' => r = 1 /\ table_ok t' (delete k l) /\
       (forall j, (j < MAX_WMMAP_INFO - 1)%nat ->
          n_loaded_pages (winfo t') !! j = n_loaded_pages (winfo t) !! (if decide (k <= j)%nat then S j else j) /\
          leftmostLoadedAddr (winfo t') !! j
            = leftmostLoadedAddr (winfo t) !! (if decide (k <= j)%nat then S j else j))) t.
Proof.
  intros Hok Hl (Hk & Hs & Hf) Href. pose proof (to_sized _ _ Hok) as Hsz.
  pose proof (lookup_lt_Some _ _ _ Hk) as Hkl.
  assert (arr t !! k = Some b) as Hb by by rewrite (to_arr _ _ Hok).
  unfold remove_mapping. wp_steps.
  assert (find_valid (take MAX_WMMAP_INFO (arr t)) 0 addr = Z.of_nat k) as ->.
  { destruct (find_valid_table t l addr Hok) as [[_ Hn]|(k' & b' & -> & Hk' & Hs' & Hf')].
    - rewrite Forall_lookup in Hn. by apply Hn in Hk.
    - f_equal. destruct (lt_eq_lt_dec k k') as [[?|?]|?]; [|done|].
      + by destruct (Hf' k b).
      + by destruct (Hf k' b'). }
  rewrite (proj2 (Z.eqb_neq _ _)) by lia.
  wp_step. apply (wp_get_block k b); [done|]. wp_step. apply wp_set_block; [lia|].
  rewrite Href. change (i32 (1 - 1) =? 0) with true. unfold when, upd_info. wp_steps.
  apply wp_set_block; [lia|]. cbn [arr winfo]. rewrite list_insert_insert_eq.
  unfold put. rewrite !Nat2Z.id. destruct Hsz as [Ha1 Ha2 Ha3 Ha4 Ha5]. unfold MAX_WMMAP_INFO in *.
  wp_use (shift_left_ok (16 - 1 - k) k);
    [split; cbn; rewrite ?length_insert; done|unfold MAX_WMMAP_INFO; lia|].
  replace (k + (16 - 1 - k))%nat with 15%nat by lia.
  intros _ t' [H1 H2 H3 H4 H5 H6]. cbn in H1, H2, H3, H4, H5, H6. wp_step. split; [done|].
  assert (forall {A} (c c' : list A) (x : A) j, shifted_l k 15 (<[k:=x]> c) c' -> (j < 15)%nat ->
            c' !! j = c !! (if decide (k <= j)%nat then S j else j)) as Hcol.
  { intros A c c' x j [_ Hc] Hj. rewrite Hc. destruct (decide (k <= j)%nat).
    - rewrite decide_True by lia. by rewrite list_lookup_insert_ne by lia.
    - rewrite decide_False by lia. by rewrite list_lookup_insert_ne by lia. }
  split; [|intros j Hj; split; [by apply (Hcol _ _ _ 0)|by apply (Hcol _ _ _ 0)]].
  apply (table_ok_delete t l t' k 15); try done; unfold MAX_WMMAP_INFO.
  - destruct H1 as [L1 _], H2 as [L2 _], H3 as [L3 _], H4 as [L4 _], H5 as [L5 _].
    split; [rewrite L1|rewrite L2|rewrite L3|rewrite L4|rewrite L5]; by rewrite length_insert.
  - rewrite H6, (to_total _ _ Hok), i32_small by lia. lia.
  - intros j Hj. destruct (decide (j < 15)%nat).
    + rewrite (Hcol _ _ _ _ j H1) by done. repeat case_decide; done || lia.
    + rewrite (proj2 H1), !decide_False by lia. by rewrite list_lookup_insert_ne.
  - rewrite (Hcol _ _ _ _ k H1), decide_True by lia. done.
  - intros j Hj. rewrite (Hcol _ _ _ _ j H2) by lia. case_decide; done.
  - intros j Hj. rewrite (Hcol _ _ _ _ j H3) by lia. case_decide; done.
Qed.
