(* ===== verification/WmapCalls.v ===== *)
(** * wmap and wremap keep mappings apart

    What the system calls on the mapping table do on every branch, for tables
    whose mappings are page-aligned, disjoint and inside
    [MIN_ADDR, MAX_ADDR) ([layout_ok]), and where the code departs from that. *)

From S2P Require Import Prelude Mmu Vm Wmap WmapTable.
From stdpp Require Import base list strings.
From Stdlib Require Import ZArith Lia.
#[local] Open Scope Z_scope.

(** Bytes of whole pages that [length] bytes take. *)
Definition pages_len (length : Z) : Z := (length + 4095) / 4096 * 4096.

Record block_ok (b : mem_block) : Prop := {
  bo_aligned : mb_start b mod 4096 = 0;
  bo_length : 1 <= mb_length b;
  bo_end : mb_end b = mb_start b + pages_len (mb_length b) - 1;
  bo_low : MIN_ADDR <= mb_start b;
  bo_high : mb_end b < MAX_ADDR
}.
Definition disjoint_blocks (a b : mem_block) : Prop := mb_end a < mb_start b \/ mb_end b < mb_start a.
Fixpoint apart (l : list mem_block) : Prop :=
  match l with [] => True | a :: l => Forall (disjoint_blocks a) l /\ apart l end.
Definition layout_ok (l : list mem_block) : Prop := Forall block_ok l /\ apart l.

(** Where [sys_wmap] places a mapping it may choose the address of. *)
Definition next_free (l : list mem_block) : Z :=
  match last l with None => MIN_ADDR | Some b => mb_end b + 1 end.

Lemma pages_len_pos length : 1 <= length -> 4096 <= pages_len length /\ pages_len length mod 4096 = 0.
Proof. unfold pages_len. intros. dlia. Qed.
Lemma PGROUNDUP_int_pages length : 1 <= length <= 536870912 -> PGROUNDUP_int length = pages_len length.
Proof. intros. rewrite PGROUNDUP_int_eq. unfold pages_len. rewrite i32_small by lia. done. Qed.

Lemma ord_insert_last b l :
  Forall (fun c => mb_start c <= mb_start b) l -> ord_insert b l = l ++ [b].
Proof.
  induction 1 as [|c l Hc _ IH]; [done|]. cbn. rewrite (proj2 (Z.leb_le _ _)) by done. by rewrite IH.
Qed.
Lemma Forall_ord_insert (P : mem_block -> Prop) b l : Forall P (ord_insert b l) <-> P b /\ Forall P l.
Proof. rewrite !Forall_forall. setoid_rewrite elem_of_ord_insert. naive_solver. Qed.
Lemma apart_ord_insert b l :
  Forall (disjoint_blocks b) l -> apart l -> apart (ord_insert b l).
Proof.
  induction l as [|c l IH]; intros Hb; cbn; [done|]. intros [Hc Hl].
  apply Forall_cons in Hb as [Hbc Hb]. destruct (_ <=? _); cbn.
  - split; [|by apply IH]. apply Forall_ord_insert. split; [|done].
    unfold disjoint_blocks in *. tauto.
  - split; [by constructor|done].
Qed.
Lemma layout_ord_insert b l :
  layout_ok l -> block_ok b -> Forall (disjoint_blocks b) l -> layout_ok (ord_insert b l).
Proof.
  intros [Hl Ha] Hb Hd. split; [by apply Forall_ord_insert|by apply apart_ord_insert].
Qed.

Lemma apart_lookup l i j a b :
  apart l -> l !! i = Some a -> l !! j = Some b -> i <> j -> disjoint_blocks a b.
Proof.
  revert i j. induction l as [|c l IH]; intros i j Hap; [done|]. destruct Hap as [Hc Hl].
  rewrite Forall_lookup in Hc. destruct i as [|i], j as [|j]; cbn; try done.
  - intros [= ->] Hj _. by apply (Hc j).
  - intros Hi [= ->] _. apply Hc in Hi. unfold disjoint_blocks in *. tauto.
  - intros Hi Hj Hne. apply (IH i j); [done..|]. congruence.
Qed.

(** In a table the mappings end in the order they start. *)
Lemma layout_last t l b c :
  table_ok t l -> layout_ok l -> last l = Some b -> c ∈ l -> mb_end c <= mb_end b.
Proof.
  intros Hok [Hf Ha] Hb Hc. rewrite last_lookup in Hb. apply list_elem_of_lookup_1 in Hc as [i Hi].
  pose proof (lookup_lt_Some _ _ _ Hi). pose proof (lookup_lt_Some _ _ _ Hb).
  pose proof (to_sorted _ _ Hok i _ c b Hi Hb ltac:(lia)) as Hs. unfold starts_le in Hs.
  rewrite Forall_lookup in Hf. pose proof (Hf _ _ Hb) as [_ ? ? _ _]. pose proof (Hf _ _ Hi) as [_ ? ? _ _].
  pose proof (pages_len_pos (mb_length b)). pose proof (pages_len_pos (mb_length c)).
  destruct (decide (i = pred (length l))) as [->|Hne]; [replace c with b by congruence; lia|].
  destruct (apart_lookup _ _ _ _ _ Ha Hi Hb Hne); lia.
Qed.

(** The search stops at the first free slot: only the last mapping counts. *)
Lemma search_place_ok l b rest need prevEnd leftmost :
  Forall (fun c => mb_valid c <> 0) l -> mb_valid b = 0 ->
  search_place (l ++ b :: rest) need prevEnd leftmost =
    u32 (match last l with None => prevEnd | Some c => i32 (mb_end c) end + 1).
Proof.
  intros Hl Hb. revert prevEnd leftmost. induction Hl as [|c l Hc _ IH]; intros prevEnd leftmost;
    cbn [search_place app].
  - by rewrite Hb.
  - rewrite (proj2 (Z.eqb_neq _ _)) by done. rewrite IH, last_cons. by destruct (last l).
Qed.

Lemma table_split t l :
  table_ok t l -> (length l < MAX_WMMAP_INFO)%nat ->
  exists b rest, take MAX_WMMAP_INFO (arr t) = l ++ b :: rest /\ mb_valid b = 0.
Proof.
  intros Hok Hl. destruct (table_rest t l (length l) Hok) as (b & Hb & Hv); [lia|].
  exists b, (drop (S (length l)) (arr t)). split; [|done].
  rewrite take_ge by (rewrite (sz_arr _ (to_sized _ _ Hok)); done).
  rewrite <- (take_drop (length l) (arr t)) at 1. rewrite (drop_S _ b) by done. f_equal.
  apply list_eq. intros i. destruct (decide (i < length l)%nat).
  - rewrite lookup_take_lt by done. by apply (to_arr _ _ Hok).
  - rewrite lookup_take_ge by lia. symmetry. apply lookup_ge_None_2. lia.
Qed.

Lemma search_place_table t l need :
  table_ok t l -> layout_ok l -> (length l < MAX_WMMAP_INFO)%nat ->
  search_place (take MAX_WMMAP_INFO (arr t)) need (MIN_ADDR - 1) MIN_ADDR = next_free l.
Proof.
  intros Hok [Hf Ha] Hl. destruct (table_split t l Hok Hl) as (b & rest & -> & Hv).
  rewrite search_place_ok; [|apply Forall_lookup|done].
  2:{ intros i c Hc. by destruct (to_valid _ _ Hok i c Hc) as [-> _]. }
  unfold next_free. destruct (last l) as [c|] eqn:E; [|done].
  assert (block_ok c) as [_ ? ? ? ?].
  { rewrite last_lookup in E. rewrite Forall_lookup in Hf. by apply Hf in E. }
  pose proof (pages_len_pos (mb_length c)). unfold MIN_ADDR, MAX_ADDR in *.
  rewrite i32_small, u32_small by lia. done.
Qed.

(** The four arguments a system call stub pushes. *)
Definition arg4 (a b c d : Z) (n : nat) : option Z :=
  match n with 0%nat => Some a | 1%nat => Some b | 2%nat => Some c | 3%nat => Some d | _ => None end.

Lemma not_FAILED start : is_u32 start -> start mod 4096 = 0 -> (u32 (i32 start) =? u32 FAILED) = false.
Proof. intros Hu Ha. apply Z.eqb_neq. rewrite u32_i32, u32_small by done. change (u32 FAILED) with 4294967295. dlia. Qed.

Lemma next_free_ok t l :
  table_ok t l -> layout_ok l ->
  next_free l mod 4096 = 0 /\ MIN_ADDR <= next_free l <= MAX_ADDR /\
  Forall (fun c => mb_end c < next_free l) l.
Proof.
  intros Hok Hlay. unfold next_free. destruct (last l) as [b|] eqn:E.
  - pose proof Hlay as [Hf _]. assert (block_ok b) as [? ? ? ? ?].
    { pose proof E as E'. rewrite last_lookup in E'. rewrite Forall_lookup in Hf. by apply Hf in E'. }
    pose proof (pages_len_pos (mb_length b)). unfold MIN_ADDR, MAX_ADDR in *.
    split; [clear -bo_aligned0 bo_end0 H bo_length0; dlia|]. split; [lia|].
    apply Forall_forall. intros c Hc. pose proof (layout_last t l b c Hok Hlay E Hc). lia.
  - apply last_None in E as ->. unfold MIN_ADDR, MAX_ADDR. split; [done|]. split; [lia|constructor].
Qed.

Lemma delete_ord_insert b l k :
  (k <= length l)%nat ->
  (forall j c, (j < k)%nat -> l !! j = Some c -> mb_start c < mb_start b) ->
  (forall j c, (k <= j)%nat -> l !! j = Some c -> mb_start b < mb_start c) ->
  delete k (ord_insert b l) = l /\ first_at (ord_insert b l) (mb_start b) k b.
Proof.
  intros Hk Hlt Hgt.
  pose proof (ord_insert_lookup b l k Hk (fun j c Hj Hc => Z.lt_le_incl _ _ (Hlt j c Hj Hc))
                (fun c => Hgt k c (le_n k))) as HI.
  split.
  - apply list_eq. intros j. rewrite lookup_delete_case. rewrite !HI. repeat case_decide; try done; try lia.
    cbn. by rewrite Nat.sub_0_r.
  - split; [by rewrite HI, decide_False, decide_True by lia|]. split; [done|].
    intros j c Hj. rewrite HI, decide_True by lia. intros Hc. pose proof (Hlt j c Hj Hc). lia.
Qed.

(** A sorted list without a mapping that starts at [addr] is cut by [addr]. *)
Lemma sorted_cut t l addr :
  table_ok t l -> Forall (fun c => mb_start c <> addr) l ->
  exists k, (k <= length l)%nat /\
    (forall j c, (j < k)%nat -> l !! j = Some c -> mb_start c < addr) /\
    (forall j c, (k <= j)%nat -> l !! j = Some c -> addr < mb_start c).
Proof.
  intros Hok Hn. rewrite Forall_lookup in Hn.
  assert (forall n, (n <= length l)%nat -> exists k, (k <= n)%nat /\
    (forall j c, (j < k)%nat -> l !! j = Some c -> mb_start c < addr) /\
    (forall j c, (k <= j < n)%nat -> l !! j = Some c -> addr < mb_start c)) as Hcut.
  { induction n as [|n IH]; intros Hl; [exists 0%nat; split; [lia|split; intros; lia]|].
    destruct IH as (k & Hk & Hlt & Hgt); [lia|].
    destruct (lookup_lt_is_Some_2 l n) as [b Hb]; [lia|]. pose proof (Hn n b Hb).
    destruct (Z.lt_ge_cases (mb_start b) addr) as [Hba|Hba].
    - exists (S n). split; [lia|]. split; [|intros; lia]. intros j c Hj Hc.
      pose proof (to_sorted _ _ Hok j n c b Hc Hb ltac:(lia)) as Hs. unfold starts_le in Hs. lia.
    - exists k. split; [lia|]. split; [done|]. intros j c Hj Hc.
      destruct (decide (j = n)) as [->|]; [replace c with b by congruence; lia|apply (Hgt j); done || lia]. }
  destruct (Hcut (length l)) as (k & Hk & Hlt & Hgt); [done|]. exists k. split; [done|]. split; [done|].
  intros j c Hj Hc. apply (Hgt j); [|done]. apply lookup_lt_Some in Hc. lia.
Qed.

Section Calls.
  Variables (t : wtab) (l : list mem_block).
  Hypotheses (Hok : table_ok t l) (Hlay : layout_ok l).

Lemma wmap_new_block start length_ flags fd :
  start mod 4096 = 0 -> MIN_ADDR <= start -> 1 <= length_ -> start + pages_len length_ <= MAX_ADDR ->
  let b := new_block start (u32 (start + PGROUNDUP_int length_ - 1)) flags length_ fd in
  block_ok b /\ mb_end b = start + pages_len length_ - 1 /\ is_u32 start /\ length_ <= 536870912.
Proof.
  intros Ha Hlo Hlen Hhi. pose proof (pages_len_pos length_ Hlen).
  assert (length_ <= pages_len length_) by (unfold pages_len; dlia).
  unfold MIN_ADDR, MAX_ADDR in *. cbn. rewrite PGROUNDUP_int_pages by lia. rewrite u32_small by lia.
  split; [split; cbn; unfold MIN_ADDR, MAX_ADDR; done || lia|]. split; [done|]. split; [|lia].
  unfold is_u32. lia.
Qed.

(** C18: without MAP_FIXED and with fewer than [MAX_WMMAP_INFO] mappings, a request
    that fits behind the last mapping is placed directly behind it, also when there
    is a hole further left: the call returns that address, the table gains
    exactly this mapping, and the mappings stay aligned, in range and disjoint. *)
Theorem wmap_places addr length_ flags fd :
  (length l < MAX_WMMAP_INFO)%nat -> 1 <= length_ -> Z.land flags MAP_FIXED = 0 ->
  next_free l + pages_len length_ <= MAX_ADDR ->
  exists t', sys_wmap (arg4 addr length_ flags fd) t = Ret (next_free l) t' /\
    let l' := l ++ [new_block (next_free l) (next_free l + pages_len length_ - 1) flags length_ fd] in
    table_ok t' l' /\ layout_ok l'.
Proof.
  intros Hl Hlen Hfl Hfit. destruct (next_free_ok t l Hok Hlay) as (Ha & Hr & Hend).
  destruct (wmap_new_block (next_free l) length_ flags fd) as (Hb & He & Hu & Hle); [done|lia..|].
  pose proof (pages_len_pos length_ Hlen) as [Hpl _].
  unfold MIN_ADDR, MAX_ADDR in *. cbn in He.
  assert (u32 (i32 (next_free l + PGROUNDUP_int length_ - 1)) = next_free l + pages_len length_ - 1)
    as Hend' by by rewrite u32_i32.
  set (nb := new_block (next_free l) (next_free l + pages_len length_ - 1) flags length_ fd).
  assert (ord_insert nb l = l ++ [nb]) as Hins.
  { apply ord_insert_last, Forall_forall. intros c Hc. rewrite Forall_forall in Hend.
    destruct Hlay as [Hf _]. rewrite Forall_forall in Hf. specialize (Hend c Hc).
    destruct (Hf c Hc) as [_ ? ? _ _]. pose proof (pages_len_pos (mb_length c)). cbn. lia. }
  assert (wp (sys_wmap (arg4 addr length_ flags fd))
            (fun r t' => r = next_free l /\ table_ok t' (l ++ [nb])) t) as HW.
  { unfold sys_wmap. cbn [use arg4]. wp_steps.
    rewrite (proj2 (Z.ltb_ge (u32 addr) 0)) by apply (u32_range addr).
    rewrite (proj2 (Z.ltb_ge length_ 1)) by lia. cbn [orb]. wp_steps.
    rewrite Hfl. change (c_true 0) with false. cbv iota. unfold get_total. wp_steps.
        rewrite (to_total _ _ Hok), (proj2 (Z.eqb_neq _ _)) by lia. wp_steps.
    rewrite (search_place_table t l) by done. wp_steps.
    rewrite <- (to_total _ _ Hok), Hend'. wp_use insert_mapping_ok; [done..|].
    intros r t' (-> & Hok' & _). rewrite not_FAILED by done. wp_step.
    rewrite u32_i32, u32_small by done. rewrite i32_small by lia. split; [done|]. by rewrite <- Hins. }
  apply wp_Ret in HW as (r & t' & Hrun & -> & Hok'). exists t'. split; [done|]. cbv zeta. fold nb.
  split; [done|]. rewrite <- Hins. apply layout_ord_insert; [done|by rewrite He in Hb|].
  apply Forall_forall. intros c Hc. rewrite Forall_forall in Hend. right. by apply Hend.
Qed.

Lemma no_overlap addr end_ :
  addr <= end_ -> Forall (fun c => end_ < mb_start c \/ mb_end c < addr) l ->
  existsb (overlaps addr end_) (take MAX_WMMAP_INFO (arr t)) = false.
Proof.
  intros Hae Hd. rewrite <- not_true_iff_false, existsb_exists. intros (b & Hin & Hb).
  apply list_elem_of_In in Hin. rewrite take_ge in Hin by (rewrite (sz_arr _ (to_sized _ _ Hok)); done).
  apply list_elem_of_lookup_1 in Hin as [i Hi]. unfold overlaps in Hb.
  apply andb_true_iff in Hb as [Hv%c_true_spec Hb].
  destruct (decide (i < length l)%nat) as [Hil|Hil]; [|by destruct Hv; apply (to_rest _ _ Hok i); [lia|]].
  rewrite (to_arr _ _ Hok) in Hi by done. rewrite Forall_lookup in Hd. apply Hd in Hi.
  rewrite orb_true_iff, !andb_true_iff, !Z.gtb_ltb, !Z.ltb_lt in Hb. lia.
Qed.

(** a MAP_FIXED request for a page-aligned range inside
    [MIN_ADDR, MAX_ADDR) that is disjoint from every mapping succeeds at exactly
    that address: the table gains the mapping in its sorted place and stays
    aligned, in range and disjoint. *)
Theorem wmap_fixed_places addr length_ flags fd :
  (length l < MAX_WMMAP_INFO)%nat -> 1 <= length_ -> Z.land flags MAP_FIXED <> 0 ->
  addr mod 4096 = 0 -> MIN_ADDR <= addr -> addr + pages_len length_ <= MAX_ADDR ->
  let b := new_block addr (addr + pages_len length_ - 1) flags length_ fd in
  Forall (disjoint_blocks b) l ->
  exists t', sys_wmap (arg4 addr length_ flags fd) t = Ret addr t' /\
    table_ok t' (ord_insert b l) /\ layout_ok (ord_insert b l).
Proof.
  intros Hl Hlen Hfl Ha Hlo Hhi b Hd.
  destruct (wmap_new_block addr length_ flags fd) as (Hb & He & Hu & Hle); [done..|].
  pose proof (pages_len_pos length_ Hlen) as [Hpl _]. cbn in He.
  rewrite He in Hb. fold b in Hb. unfold MIN_ADDR, MAX_ADDR in *.
  assert (wp (sys_wmap (arg4 addr length_ flags fd))
            (fun r t' => r = addr /\ table_ok t' (ord_insert b l)) t) as HW.
  { unfold sys_wmap. cbn [use arg4]. wp_steps. rewrite (u32_small addr) by done.
    rewrite (proj2 (Z.ltb_ge addr 0)), (proj2 (Z.ltb_ge length_ 1)) by lia. cbn [orb]. wp_steps.
    rewrite (c_true_ne _ Hfl). unfold PGSIZE. rewrite Ha. change (c_true 0) with false. cbv iota. wp_steps.
    rewrite He, no_overlap; [|lia|exact Hd]. unfold get_total. wp_steps.
    wp_use insert_mapping_ok; [done..|]. intros r t' (-> & Hok' & _).
    rewrite not_FAILED by done. wp_step. rewrite u32_i32, u32_small, i32_small by (done || lia). done. }
  apply wp_Ret in HW as (r & t' & Hrun & -> & Hok'). exists t'. split; [done|]. split; [done|].
  by apply layout_ord_insert.
Qed.

(** requests that cannot be served are refused without touching the
    table: a length below one, an unaligned fixed address, and any request once
    16 mappings exist. *)
Theorem wmap_refuses addr length_ flags fd :
  is_u32 addr ->
  length_ < 1 \/ (Z.land flags MAP_FIXED <> 0 /\ addr mod 4096 <> 0) \/ length l = MAX_WMMAP_INFO ->
  sys_wmap (arg4 addr length_ flags fd) t = Ret FAILED t.
Proof.
  intros Hu Hbad. unfold sys_wmap, use, arg4, mbind, M_bind, mret, M_ret.
  rewrite (u32_small addr) by done. rewrite (proj2 (Z.ltb_ge addr 0)) by apply Hu. cbn [orb].
  destruct (Z.ltb_spec length_ 1) as [|Hlen]; [done|]. unfold get_total, gets.
  assert (c_true (addr mod PGSIZE) = false -> Z.land flags MAP_FIXED <> 0 ->
          length l = MAX_WMMAP_INFO) as Hfull.
  { intros Ha%c_false_spec Hf. unfold PGSIZE in Ha. destruct Hbad as [?|[[]|?]]; done || lia. }
  destruct (c_true (Z.land flags MAP_FIXED)) eqn:Ef.
  - apply c_true_spec in Ef. destruct (c_true (addr mod PGSIZE)) eqn:Ea; [done|].
    destruct (existsb _ _); [done|].
    unfold insert_mapping. rewrite (to_total _ _ Hok), Hfull, Z.eqb_refl by done. done.
  - apply c_false_spec in Ef. rewrite (to_total _ _ Hok).
    destruct Hbad as [?|[[]| ->]]; [lia|done|]. by rewrite Z.eqb_refl.
Qed.

(** inserting a mapping and removing it by its address restores the list
    of mappings. *)
Theorem insert_remove_roundtrip start end_ flags length_ fd :
  (length l + 1 < MAX_WMMAP_INFO)%nat -> is_u32 start -> Forall (fun c => mb_start c <> start) l ->
  exists t1 t2, insert_mapping start end_ flags length_ (total_mmaps (winfo t)) fd t = Ret (i32 start) t1 /\
    remove_mapping start t1 = Ret 1 t2 /\ table_ok t2 l.
Proof.
  intros Hl Hu Hn. set (b := new_block start end_ flags length_ fd).
  destruct (sorted_cut t l start Hok Hn) as (k & Hk & Hlt & Hgt).
  destruct (delete_ord_insert b l k Hk Hlt Hgt) as (Hdel & Hfst).
  destruct (proj1 (wp_Ret _ _ _) (insert_mapping_ok t l start end_ flags length_ fd Hok ltac:(lia) Hu))
    as (r & t1 & Hrun & -> & Hok1 & _). fold b in Hok1.
  destruct (proj1 (wp_Ret _ _ _) (remove_mapping_ok t1 (ord_insert b l) start k b Hok1
              ltac:(rewrite length_ord_insert; lia) Hfst eq_refl)) as (r & t2 & Hrun2 & -> & Hok2 & _).
  exists t1, t2. split; [done|]. split; [done|]. by rewrite Hdel in Hok2.
Qed.

Lemma find_block_ok oldaddr k b n i :
  first_at l oldaddr k b -> (i <= k)%nat -> (n = length l - i)%nat ->
  find_block n (Z.of_nat i) oldaddr t = Ret (Some (Z.of_nat k)) t.
Proof.
  intros (Hk & Hs & Hf) Hi Hn. pose proof (lookup_lt_Some _ _ _ Hk) as Hkl.
  revert i Hi Hn. induction n as [|n IH]; intros i Hi Hn; [lia|]. cbn [find_block].
  destruct (lookup_lt_is_Some_2 l i) as [c Hc]; [lia|].
  unfold mbind, M_bind, get_block. rewrite (proj2 (Z.ltb_ge _ 0)), Nat2Z.id by lia.
  rewrite (to_arr _ _ Hok), Hc by lia. destruct (to_valid _ _ Hok i c Hc) as [-> _]. cbn [andb Z.eqb Pos.eqb].
  destruct (decide (i = k)) as [->|Hne].
  - replace c with b by congruence. rewrite Hs, Z.eqb_refl. done.
  - rewrite (proj2 (Z.eqb_neq _ _)) by (apply (Hf i); [lia|done]).
    replace (Z.of_nat i + 1) with (Z.of_nat (S i)) by lia. apply IH; lia.
Qed.

(** Mappings before and behind the one at [oldaddr]. *)
Lemma layout_cut oldaddr k b :
  first_at l oldaddr k b ->
  (forall j c, (j < k)%nat -> l !! j = Some c -> mb_start c < oldaddr) /\
  (forall j c, (k < j)%nat -> l !! j = Some c -> mb_end b < mb_start c).
Proof.
  intros (Hk & Hs & Hf). destruct Hlay as [Hb Ha]. rewrite Forall_lookup in Hb.
  pose proof (Hb k b Hk) as [_ ? ? _ _]. pose proof (pages_len_pos (mb_length b)). split; intros j c Hj Hc.
  - pose proof (to_sorted _ _ Hok j k c b Hc Hk ltac:(lia)) as Hle. unfold starts_le in Hle.
    pose proof (Hf j c Hj Hc). lia.
  - pose proof (to_sorted _ _ Hok k j b c Hk Hc ltac:(lia)) as Hle. unfold starts_le in Hle.
    pose proof (Hb j c Hc) as [_ ? ? _ _]. pose proof (pages_len_pos (mb_length c)).
    destruct (apart_lookup l k j b c Ha Hk Hc ltac:(lia)); lia.
Qed.

Lemma resize_ok oldaddr k b newsize end_ :
  (length l < MAX_WMMAP_INFO)%nat -> first_at l oldaddr k b -> mb_ref b = 1 ->
  oldaddr mod 4096 = 0 -> is_u32 oldaddr ->
  let nb := new_block oldaddr (u32 (end_ - 1)) (mb_flags b) newsize (mb_fd b) in
  wp (resize_mapping oldaddr end_ (mb_flags b) newsize (mb_fd b))
     (fun r t' => r = i32 oldaddr /\ table_ok t' (<[k := nb]> l)) t.
Proof.
  intros Hl Hfst Href Ha Hu nb. destruct (layout_cut oldaddr k b Hfst) as [Hlt Hgt].
  pose proof Hfst as (Hk & Hs & _). pose proof (lookup_lt_Some _ _ _ Hk) as Hkl.
  unfold resize_mapping. wp_step. wp_use (remove_mapping_ok t l oldaddr k b); [done..|].
  intros r t1 (-> & Hok1 & _). change (negb (1 =? 1)) with false. cbv iota. unfold get_total. wp_steps.
  assert (length (delete k l) = length l - 1)%nat as Hdl
    by (apply length_delete, lookup_lt_is_Some_2; done).
  wp_use insert_mapping_ok; [done|lia|done|]. intros r t' (-> & Hok' & _).
  rewrite (proj2 (Z.eqb_neq (i32 oldaddr) (-1))) by (clear -Ha Hu; mlia). cbn [negb]. wp_step.
  split; [done|]. fold nb in Hok'.
  replace (<[k := nb]> l) with (ord_insert nb (delete k l)); [done|].
  assert (forall c, l !! S k = Some c -> mb_start nb < mb_start c) as Hnext.
  { intros c Hc. pose proof (Hgt (S k) c ltac:(lia) Hc). destruct Hlay as [Hb _].
    rewrite Forall_lookup in Hb. pose proof (Hb k b Hk) as [_ ? ? _ _].
    pose proof (pages_len_pos (mb_length b)). cbn. lia. }
  apply list_eq. intros j. rewrite (ord_insert_lookup nb (delete k l) k).
  - destruct (decide (j = k)) as [->|Hj].
    + by rewrite decide_False, list_lookup_insert_eq by lia.
    + rewrite list_lookup_insert_ne by done. rewrite !lookup_delete_case.
      destruct (decide (j < k)%nat); [done|]. rewrite decide_False by lia.
      f_equal. lia.
  - lia.
  - intros i c Hi. rewrite lookup_delete_case, decide_True by done. intros Hc.
    pose proof (Hlt i c Hi Hc). cbn. lia.
  - intros c. rewrite lookup_delete_case, decide_False by lia. apply Hnext.
Qed.

Lemma block_resize oldaddr b newsize fd :
  block_ok b -> mb_start b = oldaddr -> 1 <= newsize -> oldaddr + pages_len newsize <= MAX_ADDR ->
  let nb := new_block oldaddr (u32 (u32 (oldaddr + PGROUNDUP_int newsize) - 1)) (mb_flags b) newsize fd in
  block_ok nb /\ mb_end nb = oldaddr + pages_len newsize - 1 /\
  u32 (oldaddr + PGROUNDUP_int newsize) = oldaddr + pages_len newsize /\ is_u32 oldaddr.
Proof.
  intros [Ha _ _ Hlo _] <- Hn Hhi. pose proof (pages_len_pos newsize Hn).
  assert (newsize <= pages_len newsize) by (unfold pages_len; dlia).
  unfold MIN_ADDR, MAX_ADDR in *. cbn. rewrite PGROUNDUP_int_pages by lia.
  rewrite (u32_small (mb_start b + pages_len newsize)) by lia. rewrite u32_small by lia.
  split; [split; cbn; unfold MIN_ADDR, MAX_ADDR; done || lia|]. split; [done|]. split; [done|].
  unfold is_u32. lia.
Qed.

Lemma layout_insert_at k b nb :
  l !! k = Some b -> block_ok nb ->
  (forall j c, j <> k -> l !! j = Some c -> disjoint_blocks nb c) -> layout_ok (<[k := nb]> l).
Proof.
  intros Hk Hnb Hd. destruct Hlay as [Hf Ha]. split; [by apply Forall_insert|].
  clear Hok Hf Hlay. revert k Hk Hd. induction l as [|c l' IH]; intros k Hk Hd; [done|].
  destruct Ha as [Hc Ha]. destruct k as [|k]; cbn.
  - split; [|done]. apply Forall_lookup. intros j d Hj. by apply (Hd (S j)).
  - split.
    + apply Forall_insert; [done|]. pose proof (Hd 0%nat c ltac:(lia) eq_refl).
      unfold disjoint_blocks in *. tauto.
    + apply IH; [done|done|]. intros j d Hj Hjd. apply (Hd (S j)); [lia|done].
Qed.

(** [wremap] of a mapping that only this process uses resizes it in place
    when it is the last one and the new size fits below [MAX_ADDR], or when the
    next mapping starts behind its new end: the call returns the old address
    and the table differs in this mapping only. *)
Theorem wremap_in_place oldaddr oldsize newsize flag k b :
  (length l < MAX_WMMAP_INFO)%nat -> first_at l oldaddr k b -> mb_ref b = 1 -> 1 <= newsize ->
  oldaddr + pages_len newsize <= MAX_ADDR ->
  (forall c, l !! S k = Some c -> oldaddr + pages_len newsize < mb_start c) ->
  let nb := new_block oldaddr (oldaddr + pages_len newsize - 1) (mb_flags b) newsize (mb_fd b) in
  exists t', sys_wremap (arg4 oldaddr oldsize newsize flag) t = Ret oldaddr t' /\
    table_ok t' (<[k := nb]> l) /\ layout_ok (<[k := nb]> l).
Proof.
  intros Hl Hfst Href Hn Hhi Hnext nb. pose proof Hfst as (Hk & Hs & Hf).
  pose proof (lookup_lt_Some _ _ _ Hk) as Hkl.
  assert (block_ok b) as Hb by (destruct Hlay as [HF _]; rewrite Forall_lookup in HF; by apply HF in Hk).
  destruct (block_resize oldaddr b newsize (mb_fd b) Hb Hs Hn Hhi) as (Hnb & Hend & Hu & Hou).
  cbn in Hend. rewrite Hend in Hnb. fold nb in Hnb.
  assert (oldaddr mod 4096 = 0) as Ha by (rewrite <- Hs; apply Hb).
  assert (wp (sys_wremap (arg4 oldaddr oldsize newsize flag))
            (fun r t' => r = oldaddr /\ table_ok t' (<[k := nb]> l)) t) as HW.
  { unfold sys_wremap. cbn [use arg4]. wp_steps. rewrite (u32_small oldaddr) by done.
    unfold PGSIZE. rewrite Ha. change (c_true 0) with false. cbv iota. unfold get_total. wp_steps.
    unfold wp at 1. rewrite (to_total _ _ Hok), Nat2Z.id.
    change 0 with (Z.of_nat 0) at 1.
    rewrite (find_block_ok oldaddr k b (length l) 0) by (done || lia). cbn [default]. unfold id.
    wp_step. apply (wp_get_block k b); [by rewrite (to_arr _ _ Hok)|]. wp_steps. rewrite Hu.
    replace (Z.of_nat k + 1) with (Z.of_nat (S k)) by lia.
    pose proof (resize_ok oldaddr k b newsize (u32 (oldaddr + PGROUNDUP_int newsize)) Hl Hfst Href Ha Hou) as HR.
    cbv zeta in HR. rewrite Hend in HR. fold nb in HR. rewrite Hu in HR.
    assert (forall r : Z, r = i32 oldaddr -> u32 r = oldaddr) as Hret
      by (intros r ->; by rewrite u32_i32, u32_small).
    destruct (decide (S k < length l)%nat) as [Hlt|Hge].
    - destruct (lookup_lt_is_Some_2 l (S k)) as [c Hc]; [done|].
      apply (wp_get_block (S k) c); [by rewrite (to_arr _ _ Hok)|].
      destruct (to_valid _ _ Hok _ _ Hc) as [-> _]. rewrite (proj2 (Z.ltb_lt _ _)) by by apply Hnext.
      cbn [andb Z.eqb Pos.eqb]. wp_step. wp_use HR; [done..|]. intros r t' [? ?]. wp_step. auto.
    - destruct (table_rest t l (S k) Hok) as (c & Hc & Hv); [lia|].
      apply (wp_get_block (S k) c); [done|]. rewrite Hv. cbn [andb Z.eqb].
      rewrite Z.gtb_ltb, (proj2 (Z.ltb_ge _ _)) by done.
      wp_step. wp_use HR; [done..|]. intros r t' [? ?]. wp_step. auto. }
  apply wp_Ret in HW as (r & t' & Hrun & -> & Hok'). exists t'. split; [done|]. split; [done|].
  apply (layout_insert_at k b); [done|done|].
  destruct (layout_cut oldaddr k b Hfst) as [Hlo Hhi']. intros j c Hj Hc. unfold disjoint_blocks. cbn.
  destruct (decide (j < k)%nat) as [Hjk|Hjk].
  - right. destruct Hlay as [HF HA]. pose proof (Hlo j c Hjk Hc).
    destruct (apart_lookup l j k c b HA Hc Hk Hj) as [Hd|Hd]; [lia|].
    rewrite Forall_lookup in HF. pose proof (HF k b Hk) as [_ ? ? _ _].
    pose proof (pages_len_pos (mb_length b)). lia.
  - left. destruct (lookup_lt_is_Some_2 l (S k)) as [d Hd]; [apply lookup_lt_Some in Hc; lia|].
    pose proof (Hnext d Hd).
    pose proof (to_sorted _ _ Hok (S k) j d c Hd Hc ltac:(lia)) as Hle. unfold starts_le in Hle. lia.
Qed.
End Calls.

(** ** Reading the table *)

Lemma copy_info_ok n i src w :
  (i + n <= length (wi_addr src))%nat -> (i + n <= length (wi_length src))%nat ->
  (i + n <= length (wi_addr w))%nat -> (i + n <= length (wi_length w))%nat ->
  let w' := copy_info n (Z.of_nat i) src w in
  total_mmaps w' = total_mmaps w /\
  (forall j, wi_addr w' !! j = if decide (i <= j < i + n)%nat then wi_addr src !! j else wi_addr w !! j) /\
  (forall j, wi_length w' !! j = if decide (i <= j < i + n)%nat then wi_length src !! j else wi_length w !! j).
Proof.
  revert i w. induction n as [|n IH]; intros i w H1 H2 H3 H4; cbn [copy_info].
  { cbn. split; [done|]. split; intros j; by rewrite decide_False by lia. }
  replace (Z.of_nat i + 1) with (Z.of_nat (S i)) by lia. cbv zeta. unfold put. rewrite Nat2Z.id.
  destruct (IH (S i) (mkInfo (total_mmaps w) (<[i:=nth i (wi_addr src) 0]> (wi_addr w))
     (<[i:=nth i (wi_length src) 0]> (wi_length w)) (<[i:=nth i (n_loaded_pages src) 0]> (n_loaded_pages w))
     (leftmostLoadedAddr w))) as (Ht & Ha & Hl); cbn; rewrite ?length_insert; [lia..|].
  assert (forall (c d : list Z) j, (i < length c)%nat -> (i < length d)%nat ->
    (if decide (S i <= j < S i + n)%nat then d !! j else <[i := nth i d 0]> c !! j) =
    (if decide (i <= j < i + S n)%nat then d !! j else c !! j)) as Hcol.
  { intros c d j Hc Hd. destruct (decide (j = i)) as [->|Hj].
    - rewrite decide_False, decide_True, list_lookup_insert_eq by lia.
      destruct (nth_lookup_or_length d i 0) as [->|]; [done|lia].
    - rewrite list_lookup_insert_ne by done. repeat case_decide; done || lia. }
  split; [exact Ht|]. split; intros j; [rewrite Ha|rewrite Hl]; cbn; apply Hcol; lia.
Qed.

(** [getwmapinfo] reports the number of mappings and, in order, the start
    and length of each of them. *)
Theorem getwmapinfo_reports t l w :
  table_ok t l -> length (wi_addr w) = MAX_WMMAP_INFO -> length (wi_length w) = MAX_WMMAP_INFO ->
  exists w', sys_getwmapinfo false w t = Ret (SUCCESS, w') t /\
    total_mmaps w' = Z.of_nat (length l) /\
    forall i b, l !! i = Some b ->
      wi_addr w' !! i = Some (i32 (mb_start b)) /\ wi_length w' !! i = Some (mb_length b).
Proof.
  intros Hok Hw1 Hw2. pose proof (to_fits _ _ Hok) as Hfit. destruct (to_sized _ _ Hok) as [_ S1 S2 _ _].
  unfold sys_getwmapinfo, mbind, M_bind, gets, mret, M_ret.
  rewrite (to_total _ _ Hok), (proj2 (Z.ltb_ge _ _)), Nat2Z.id by lia.
  destruct (copy_info_ok (length l) 0 (winfo t)
    (mkInfo (Z.of_nat (length l)) (wi_addr w) (wi_length w) (n_loaded_pages w) (leftmostLoadedAddr w)))
    as (Ht & Ha & Hl); cbn; [lia..|].
  eexists. split; [reflexivity|]. split; [exact Ht|]. intros i b Hb.
  change 0 with (Z.of_nat 0). rewrite Ha, Hl. pose proof (lookup_lt_Some _ _ _ Hb).
  rewrite !decide_True by lia. split; [by apply (to_addr _ _ Hok)|by apply (to_length _ _ Hok)].
Qed.

(** ** Witnesses *)

Lemma init_table_ok : table_ok init_wtab [].
Proof.
  split; [by split|done|cbn; lia|cbn; intros; lia|done| |done|done|done].
  - intros i b _ Hb. cbn in Hb. do 16 (destruct i as [|i]; [by injection Hb as <-|]). done.
Qed.
Lemma nil_layout_ok : layout_ok [].
Proof. done. Qed.

Lemma wmap_places_witness :
  exists t', sys_wmap (arg4 0 5000 (MAP_ANONYMOUS + MAP_PRIVATE) (-1)) init_wtab = Ret MIN_ADDR t'.
Proof.
  destruct (wmap_places init_wtab [] init_table_ok nil_layout_ok 0 5000 (MAP_ANONYMOUS + MAP_PRIVATE) (-1))
    as (t' & ? & _); [unfold MAX_WMMAP_INFO; cbn; lia|lia|reflexivity|done|]. by exists t'.
Defined.

Lemma wmap_fixed_places_witness :
  exists t', sys_wmap (arg4 0x70000000 4097 (MAP_FIXED + MAP_SHARED) 3) init_wtab = Ret 0x70000000 t'.
Proof.
  destruct (wmap_fixed_places init_wtab [] init_table_ok nil_layout_ok 0x70000000 4097 (MAP_FIXED + MAP_SHARED) 3)
    as (t' & ? & _); [unfold MAX_WMMAP_INFO; cbn; lia|lia|done|done|done|done|constructor|]. by exists t'.
Defined.

Lemma wmap_refuses_witness : sys_wmap (arg4 0x70000010 4096 MAP_FIXED 0) init_wtab = Ret FAILED init_wtab.
Proof.
  apply (wmap_refuses init_wtab [] init_table_ok 0x70000010 4096 MAP_FIXED 0); [done|].
  right. left. done.
Defined.

Lemma insert_remove_roundtrip_witness :
  exists t1 t2, insert_mapping MIN_ADDR 0x60000fff 5 4096 0 0 init_wtab = Ret MIN_ADDR t1 /\
    remove_mapping MIN_ADDR t1 = Ret 1 t2 /\ table_ok t2 [].
Proof.
  apply (insert_remove_roundtrip init_wtab [] init_table_ok MIN_ADDR 0x60000fff 5 4096 0);
    [unfold MAX_WMMAP_INFO; cbn; lia|done|constructor].
Defined.

(** A table with one mapping of one page at [MIN_ADDR]. *)
Definition one_block : mem_block := new_block MIN_ADDR (MIN_ADDR + 4095) 5 4096 0.
Definition one_tab : wtab :=
  mkTab (<[0%nat := one_block]> (arr init_wtab))
    (mkInfo 1 (<[0%nat := MIN_ADDR]> (wi_addr (winfo init_wtab))) (<[0%nat := 4096]> (wi_length (winfo init_wtab)))
       (n_loaded_pages (winfo init_wtab)) (leftmostLoadedAddr (winfo init_wtab))).
Lemma one_table_ok : table_ok one_tab [one_block].
Proof.
  destruct (proj1 (wp_Ret _ _ _) (insert_mapping_ok init_wtab [] MIN_ADDR (MIN_ADDR + 4095) 5 4096 0
              init_table_ok ltac:(unfold MAX_WMMAP_INFO; cbn; lia) ltac:(done))) as (r & t' & Hrun & _ & Hok & _).
  vm_compute in Hrun. injection Hrun as _ <-. exact Hok.
Qed.
Lemma one_layout_ok : layout_ok [one_block].
Proof. split; [|done]. repeat constructor; done. Qed.

Lemma wremap_in_place_witness :
  exists t', sys_wremap (arg4 MIN_ADDR 4096 20000 1) one_tab = Ret MIN_ADDR t'.
Proof.
  destruct (wremap_in_place one_tab [one_block] one_table_ok one_layout_ok MIN_ADDR 4096 20000 1 0%nat one_block)
    as (t' & ? & _); [unfold MAX_WMMAP_INFO; cbn; lia|split; [done|split; [done|intros; lia]]|done|lia|done|done|]. by exists t'.
Defined.

Lemma getwmapinfo_reports_witness :
  exists w', sys_getwmapinfo false (winfo init_wtab) one_tab = Ret (SUCCESS, w') one_tab /\
    total_mmaps w' = 1.
Proof.
  destruct (getwmapinfo_reports one_tab [one_block] (winfo init_wtab) one_table_ok) as (w' & ? & ? & _);
    [done|done|]. by exists w'.
Defined.

(** ** Where the table departs from its comments *)

(** Run a list of calls from the initial table. *)
Fixpoint runs (ms : list (M wtab Z)) (t : wtab) : res wtab Z :=
  match ms with
  | [] => Undef "no call"
  | [m] => m t
  | m :: ms => match m t with Ret _ t' => runs ms t' | e => e end
  end.
Definition ret_of (r : res wtab Z) : option Z := match r with Ret v _ => Some v | _ => None end.
Definition tab_of (r : res wtab Z) : option wtab := match r with Ret _ t => Some t | _ => None end.
Definition wmap_call (addr length flags : Z) : M wtab Z := sys_wmap (arg4 addr length flags 0).

(** The search for a place never uses a hole: with one mapping at 0x70000000
    the whole region below it stays unused. *)
Example wmap_ignores_holes :
  ret_of (runs [wmap_call 0x70000000 4096 MAP_FIXED; wmap_call 0 4096 0] init_wtab) = Some 0x70001000.
Proof. reflexivity. Qed.

(** Nothing keeps a placed mapping below [MAX_ADDR]: behind a mapping of the
    last page the call hands out the first kernel address. *)
Example wmap_leaves_region :
  ret_of (runs [wmap_call 0x7ffff000 4096 MAP_FIXED; wmap_call 0 4096 0] init_wtab) = Some (i32 KERNBASE).
Proof. reflexivity. Qed.

(** A fixed mapping is accepted outside [MIN_ADDR, MAX_ADDR). *)
Example wmap_fixed_outside_region :
  ret_of (runs [wmap_call 0x1000 4096 MAP_FIXED] init_wtab) = Some 0x1000.
Proof. reflexivity. Qed.

(** The overlap test misses a range with the same bounds, and a range that
    contains another one. *)
Example wmap_fixed_accepts_overlap :
  ret_of (runs [wmap_call 0x60001000 4096 MAP_FIXED; wmap_call 0x60001000 4096 MAP_FIXED] init_wtab)
    = Some 0x60001000 /\
  ret_of (runs [wmap_call 0x60001000 4096 MAP_FIXED; wmap_call 0x60000000 12288 MAP_FIXED] init_wtab)
    = Some 0x60000000.
Proof. split; reflexivity. Qed.

Definition full_calls : list (M wtab Z) := replicate 16 (wmap_call 0 4096 MAP_PRIVATE).

(** Removing from a full table leaves the last slot valid: slot 15 still holds
    the mapping that is now in slot 14. *)
Example remove_from_full_duplicates :
  (fun t => (total_mmaps (winfo t), mb_valid <$> arr t !! 15%nat,
             bool_decide (arr t !! 14%nat = None),
             (mb_start <$> arr t !! 14%nat, mb_start <$> arr t !! 15%nat))) <$>
    tab_of (runs (full_calls ++ [remove_mapping MIN_ADDR]) init_wtab)
  = Some (15, Some 1, false, (Some 0x6000f000, Some 0x6000f000)).
Proof. reflexivity. Qed.

(** Resizing the 16th mapping reads slot 16 of the table. *)
Example wremap_last_slot_undefined :
  runs (full_calls ++ [sys_wremap (arg4 0x6000f000 4096 8192 1)]) init_wtab = Undef "arr index".
Proof. reflexivity. Qed.

(** A mapping with a second reference survives its removal, which reports success. *)
Example remove_shared_keeps :
  (fun t => ret_of (remove_mapping MIN_ADDR (mkTab (<[0%nat := mkBlock MIN_ADDR 0x60000fff 2 4096 0 2 1]> (arr t))
                                                (winfo t)))) <$>
    tab_of (runs [wmap_call 0 4096 MAP_SHARED] init_wtab) = Some (Some 1) /\
  (fun t => tab_of (remove_mapping MIN_ADDR (mkTab (<[0%nat := mkBlock MIN_ADDR 0x60000fff 2 4096 0 2 1]> (arr t))
                                                (winfo t)))) <$>
    tab_of (runs [wmap_call 0 4096 MAP_SHARED] init_wtab) =
  Some (Some (mkTab (<[0%nat := mkBlock MIN_ADDR 0x60000fff 2 4096 0 1 1]> (replicate 16 empty_block))
     (winfo (mkTab [] (mkInfo 1 (<[0%nat := MIN_ADDR]> (replicate 16 0)) (<[0%nat := 4096]> (replicate 16 0))
        (replicate 16 0) (replicate 16 (i32 (MAX_ADDR + 1)))))))).
Proof. split; reflexivity. Qed.

(** A mapping inserted in front of another takes over its slot's load counters:
    [leftmostLoadedAddr] is not moved and [n_loaded_pages] is not cleared. *)
Example insert_inherits_counters :
  (fun t => (fun t' => (wi_addr (winfo t') !! 0%nat, n_loaded_pages (winfo t') !! 0%nat,
                        leftmostLoadedAddr (winfo t') !! 0%nat, leftmostLoadedAddr (winfo t') !! 1%nat)) <$>
     tab_of (wmap_call 0x60001000 4096 MAP_FIXED
       (mkTab (arr t) (mkInfo (total_mmaps (winfo t)) (wi_addr (winfo t)) (wi_length (winfo t))
          (<[0%nat := 1]> (n_loaded_pages (winfo t))) (<[0%nat := 0x60005000]> (leftmostLoadedAddr (winfo t))))))) <$>
    tab_of (runs [wmap_call 0x60005000 4096 MAP_FIXED] init_wtab)
  = Some (Some (Some 0x60001000, Some 1, Some 0x60005000, Some (i32 (MAX_ADDR + 1)))).
Proof. reflexivity. Qed.

(** A moved mapping ends one byte early. *)
Example wremap_moved_end :
  (fun t => (fun b => (mb_start b, mb_end b)) <$> arr t !! 1%nat) <$>
    tab_of (runs [wmap_call 0 4096 0; wmap_call 0 4096 0; sys_wremap (arg4 MIN_ADDR 4096 8192 1)] init_wtab)
  = Some (Some (0x60002000, 0x60003ffe)).
Proof. reflexivity. Qed.
