(* ===== verification/Wunmap.v ===== *)
(** * wunmap and getpgdirinfo (sysfile.c)

    The system calls on mappings that also touch the page table.  They run on
    any state that has a page allocator, the mapping table and the page
    directory of the current process ([WmapProc]). *)

From S2P Require Import Prelude Mmu Mem PageAlloc Kalloc Vm VmSpace VmTheorems Wmap WmapTable WmapCalls.
From stdpp Require Import base gmap list strings.
From Stdlib Require Import ZArith Lia.
#[local] Open Scope Z_scope.

(** What the mapping code uses of [myproc()]. *)
Class WmapProc (S : Type) := {
  w_tab : S -> wtab;
  w_set_tab : wtab -> S -> S;
  w_pgdir : S -> Z;
  w_ofile : S -> list Z
}.
Class WmapProcLaws (S : Type) `{PageAlloc S, WmapProc S} : Prop := {
  w_tab_set t s : w_tab (w_set_tab t s) = t;
  w_set_get s : w_set_tab (w_tab s) s = s;
  w_mem_set t s : pa_mem (w_set_tab t s) = pa_mem s;
  w_free_set t s l : free_pages s l -> free_pages (w_set_tab t s) l;
  w_pgdir_set t s : w_pgdir (w_set_tab t s) = w_pgdir s;
  w_rest s s' : same_rest s s' -> w_tab s' = w_tab s /\ w_pgdir s' = w_pgdir s /\ w_ofile s' = w_ofile s
}.

Section Ops.
  Context {S : Type} `{LinkerSymbols} `{!PageAlloc S} `{!WmapProc S}.
  (** [f->off = 0] and [filewrite] of file.c. *)
  Variable set_off : Z -> Z -> M S unit.
  Variable filewrite : Z -> Z -> Z -> M S Z.

(** Run a table operation on the current process. *)
Definition on_tab {A} (m : M wtab A) : M S A := zoom w_tab w_set_tab m.

(** The file a mapping's descriptor names. *)
Definition map_file (fd : Z) : M S Z := fun s =>
  if fd <? 0 then Undef "ofile index"
  else match w_ofile s !! Z.to_nat fd with
       | Some f => if f =? 0 then Undef "null file" else Ret f s
       | None => Undef "ofile index"
       end.

(** The first entry below [total_mmaps] that starts at [addr]. *)
Fixpoint find_start (n : nat) (i addr : Z) : M wtab (option Z) :=
  match n with
  | O => mret None
  | Datatypes.S n => b ← get_block i; if mb_start b =? addr then mret (Some i) else find_start n (i + 1) addr
  end.

(** Clear the entry of one loaded page and free its frame. *)
Definition unmap_page (pgdir va : Z) : M S unit :=
  pte ← walkpgdir pgdir (u32 va) 0;
  if pte =? 0 then mret tt
  else
    e ← rd32 pte;
    if c_true (Z.land e PTE_P) then
      let pa := PTE_ADDR e in
      _ ← wr32 pte 0;
      pa_kfree (P2V pa)
    else mret tt.
Fixpoint unmap_loop (fuel : nat) (pgdir va lim : Z) : M S unit :=
  match fuel with
  | O => nofuel
  | Datatypes.S fuel =>
      if va <? lim then
        _ ← unmap_page pgdir va;
        unmap_loop fuel pgdir (i32 (va + PGSIZE)) lim
      else mret tt
  end.

Definition sys_wunmap (args : nat -> option Z) : M S Z :=
  addr ← use (args 0%nat);
  let addr := u32 addr in
  if c_true (addr mod PGSIZE) then mret FAILED
  else
    n ← on_tab get_total;
    found ← on_tab (find_start (Z.to_nat n) 0 addr);
    match found with
    | None => mret FAILED
    | Some location =>
        toFree ← on_tab (get_block location);
        _ ← when ((Z.land (mb_flags toFree) MAP_ANONYMOUS =? 0) && (Z.land (mb_flags toFree) MAP_PRIVATE =? 0))
              (f ← map_file (mb_fd toFree);
               _ ← set_off f 0;
               _ ← filewrite f (mb_start toFree) (mb_length toFree);
               mret tt);
        w ← on_tab (gets winfo);
        let left := nth (Z.to_nat location) (leftmostLoadedAddr w) 0 in
        let loaded := nth (Z.to_nat location) (n_loaded_pages w) 0 in
        pgdir ← gets w_pgdir;
        _ ← unmap_loop (Datatypes.S (Z.to_nat loaded)) pgdir left (i32 (left + i32 (PGSIZE * loaded)));
        b ← on_tab (get_block location);
        result ← on_tab (remove_mapping (mb_start b));
        if result =? 0 then mret FAILED else mret SUCCESS
    end.

(** [struct pgdirinfo] as the caller passes it. *)
Record pgdirinfo := mkPgInfo { n_upages : Z; pi_va : list Z; pi_pa : list Z }.
Definition MAX_UPAGE_INFO : Z := 32.

Definition user_present (e : Z) : bool :=
  c_true (Z.land (PTE_FLAGS e) PTE_P) && c_true (Z.land (PTE_FLAGS e) PTE_U).

(** Record one user page; pages past the 32nd are only counted. *)
Definition add_upage (i j e : Z) (st : Z * pgdirinfo) : Z * pgdirinfo :=
  let '(count, d) := st in
  let d := if count <? MAX_UPAGE_INFO
           then mkPgInfo (n_upages d) (put count (PGADDR i j 0) (pi_va d)) (put count (P2V (PTE_ADDR e)) (pi_pa d))
           else d in
  (count + 1, mkPgInfo (count + 1) (pi_va d) (pi_pa d)).
Fixpoint scan_table (n : nat) (m : mem) (pgTable i j : Z) (st : Z * pgdirinfo) : Z * pgdirinfo :=
  match n with
  | O => st
  | Datatypes.S n =>
      let e := ld32 m (pgTable + 4 * j) in
      scan_table n m pgTable i (j + 1) (if user_present e then add_upage i j e st else st)
  end.
Fixpoint scan_dir (n : nat) (m : mem) (pgDir i : Z) (st : Z * pgdirinfo) : Z * pgdirinfo :=
  match n with
  | O => st
  | Datatypes.S n =>
      let pde := ld32 m (pgDir + 4 * i) in
      scan_dir n m pgDir (i + 1)
        (if user_present pde
         then scan_table (Z.to_nat NPTENTRIES) m (P2V (PTE_ADDR pde)) i 0 st else st)
  end.
Definition sys_getpgdirinfo (null : bool) (d : pgdirinfo) : M S (Z * pgdirinfo) :=
  if null then mret (FAILED, d)
  else
    s ← gets id;
    mret (SUCCESS, snd (scan_dir (Z.to_nat NPDENTRIES) (pa_mem s) (w_pgdir s) 0 (0, d))).
End Ops.

Section Unmap.
  Context {S : Type} `{LinkerLayout} `{!PageAlloc S} `{!PageAllocLaws S} `{!WmapProc S} `{!WmapProcLaws S}.
  Implicit Types (s : S) (m : mem).

(** Clearing the entry first and freeing the frame after, as [sys_wunmap] does. *)
Lemma clear_then_free s l pgdir lim va f :
  free_pages s l -> space_ok (pa_mem s) pgdir lim l -> lim <= KERNBASE ->
  0 <= va < lim -> frame_of (pa_mem s) pgdir va = Some f ->
  wp (_ ← wr32 (pte_of (pa_mem s) pgdir va) 0; pa_kfree f)
    (fun _ s' => free_pages s' (f :: l) /\ space_ok (pa_mem s') pgdir lim (f :: l) /\
       same_rest s s' /\
       (forall a, pt_byte (pa_mem s') pgdir a <-> pt_byte (pa_mem s) pgdir a) /\
       agree_on (in_page pgdir) (pa_mem s) (pa_mem s') /\
       agree_on (fun a => ~ pt_byte (pa_mem s) pgdir a /\ ~ in_page f a) (pa_mem s) (pa_mem s') /\
       forall va', is_u32 va' -> pt_lookup (pa_mem s') pgdir va' =
         if decide (va' / 4096 = va / 4096) then 0 else pt_lookup (pa_mem s) pgdir va') s.
Proof.
  intros Hl Hok Hlim Hva Hf. pose proof (so_pgdir _ _ _ _ Hok) as Hpd.
  destruct (so_frame _ _ _ _ Hok va f Hva Hf) as (Hfp & Hfl & Hfb).
  assert (pte_of (pa_mem s) pgdir va <> 0) as Hpte by by apply (frame_pte_nonzero _ _ l va f).
  assert (forall v, 0 <= v < lim -> is_u32 v) as Hu by (intros; unfold is_u32; mmu_unfold; lia).
  wp_step. apply (wp_wr_pte s l); [exact Hl|exact Hpd|by apply Hu|exact Hpte|].
  intros s1 Hs1 Hagd1 Hagb1 Hlk1. change (u32 0) with 0 in Hlk1.
  assert (space_ok (pa_mem s1) pgdir lim l) as Hok1.
  { apply (space_ok_step s l s1 l pgdir lim Hl Hs1 Hok). intros v g Hv. unfold frame_of.
    rewrite Hlk1 by by apply Hu. case_decide; done. }
  assert (forall a, pt_byte (pa_mem s1) pgdir a <-> pt_byte (pa_mem s) pgdir a) as Hby1
    by (intros a; exact (pt_byte_agree _ _ _ l a Hpd Hagd1)).
  assert (forall a, in_page f a -> ~ pt_byte (pa_mem s1) pgdir a) as Hfb1
    by (intros a Ha Hb%Hby1; exact (Hfb a Ha Hb)).
  assert (forall v, 0 <= v < lim -> frame_of (pa_mem s1) pgdir v <> Some f) as Hnf.
  { intros v Hv. unfold frame_of. rewrite Hlk1 by by apply Hu. case_decide as E; [done|].
    intros Hv'. apply E, (so_inj _ _ _ _ Hok v va f Hv Hva Hv' Hf). }
  wp_use (kfree_ok s1 l f); [apply Hs1|exact Hfp|exact Hfl|]. intros _ s2 (Hl2 & Hr2 & Hag2).
  destruct (space_ok_kfree _ _ _ _ _ _ Hok1 Hfp Hag2 Hfb1 Hnf) as (Hok2 & Hlk2 & _).
  assert (agree_on (in_page pgdir) (pa_mem s1) (pa_mem s2)) as Hagd2.
  { intros a Ha. apply Hag2. intros Hin. apply (Hfb1 a Hin). by left. }
  split; [exact Hl2|]. split; [exact Hok2|].
  split; [by rewrite (vs_rest _ _ _ _ _ Hs1)|]. split; [|split; [|split]].
  - intros a. rewrite <- Hby1. exact (pt_byte_agree _ _ _ l a (so_pgdir _ _ _ _ Hok1) Hagd2).
  - intros a Ha. rewrite Hagd2 by exact Ha. by apply Hagd1.
  - intros a [Ha Hfa]. rewrite Hag2 by exact Hfa. by apply Hagb1.
  - intros va' Hva'. rewrite Hlk2. by apply Hlk1.
Qed.

Lemma unmap_loop_ok n s l pgdir lim a :
  free_pages s l -> space_ok (pa_mem s) pgdir lim l ->
  a mod 4096 = 0 -> 0 <= a -> lim <= KERNBASE -> a + 4096 * Z.of_nat n <= lim -> a + 4096 * Z.of_nat n < KERNBASE ->
  wp (unmap_loop (Datatypes.S n) pgdir a (a + 4096 * Z.of_nat n))
     (fun _ s' => dealloc_post pgdir lim a (a + 4096 * Z.of_nat n) s l s') s.
Proof.
  revert s l a. induction n as [|n IH]; intros s l a Hl Hok Ha Ha0 Hlk Hn Hlim.
  { cbn [unmap_loop]. rewrite (proj2 (Z.ltb_ge a _)) by lia. apply wp_ret.
    apply dealloc_post_nil; [lia|exact Ha|exact Hl|exact Hok]. }
  remember (Datatypes.S n) as k eqn:Hk. cbn [unmap_loop].
  rewrite (proj2 (Z.ltb_lt a _)) by lia. subst k.
  assert (is_u32 a) as Hau by (unfold is_u32; mmu_unfold; lia).
  assert ((a + 4096) mod 4096 = 0) as Ha' by (clear -Ha; dlia).
  replace (a + 4096 * Z.of_nat (Datatypes.S n)) with (a + 4096 + 4096 * Z.of_nat n) in * by lia.
  unfold PGSIZE. rewrite i32_small by (mmu_unfold; lia).
  assert (forall s1 l1, free_pages s1 l1 -> space_ok (pa_mem s1) pgdir lim l1 ->
    wp (unmap_loop (Datatypes.S n) pgdir (a + 4096) (a + 4096 + 4096 * Z.of_nat n))
      (fun _ s' => dealloc_post pgdir lim (a + 4096) (a + 4096 + 4096 * Z.of_nat n) s1 l1 s') s1) as HR
    by (intros s1 l1 Hl1 Hok1; apply IH; done || lia).
  assert (forall v, a <= v < a + 4096 -> pt_lookup (pa_mem s) pgdir v = pt_lookup (pa_mem s) pgdir a) as Hpg.
  { intros v Hv. apply pt_lookup_page; [unfold is_u32; mmu_unfold; lia|exact Hau|clear -Hv Ha; dlia]. }
  assert (present (pt_lookup (pa_mem s) pgdir a) = false ->
    wp (unmap_loop (Datatypes.S n) pgdir (a + 4096) (a + 4096 + 4096 * Z.of_nat n))
      (fun _ s' => dealloc_post pgdir lim a (a + 4096 + 4096 * Z.of_nat n) s l s') s) as Hskip.
  { intros Hnp. wp_use HR; [exact Hl|exact Hok|]. intros _ s'.
    apply dealloc_post_skip; [exact Ha|exact Ha'|lia|]. intros v Hv. by rewrite Hpg. }
  apply wp_bind. unfold unmap_page. rewrite (u32_small a) by exact Hau.
  apply wp_bind. unfold wp at 1. rewrite walkpgdir_noalloc.
  destruct (Z.eqb_spec (pte_of (pa_mem s) pgdir a) 0) as [Hz|Hnz].
  { apply wp_ret, Hskip. unfold pte_of, pt_lookup in *.
    destruct (pt_at (pa_mem s) pgdir (PDX a)) as [t|] eqn:E; [|done]. pose proof (PTX_range a).
    apply (pt_page _ _ _ (so_pgdir _ _ _ _ Hok)) in E as [?%page_ok_range _]; [|apply PDX_range].
    mmu_unfold. lia. }
  apply wp_bind. unfold rd32. apply wp_gets. rewrite pt_lookup_pte by exact Hnz.
  fold (present (pt_lookup (pa_mem s) pgdir a)).
  destruct (present (pt_lookup (pa_mem s) pgdir a)) eqn:Hp; [|by apply wp_ret, Hskip].
  set (f := P2V (PTE_ADDR (pt_lookup (pa_mem s) pgdir a))).
  assert (frame_of (pa_mem s) pgdir a = Some f) as Hf by (unfold frame_of; by rewrite Hp).
  cbv zeta. fold f. wp_use (clear_then_free s l pgdir lim a f); [exact Hl|exact Hok|exact Hlk|lia|exact Hf|].
  intros _ s1 (Hl1 & Hok1 & Hr1 & Hb1 & Hd1 & Hag1 & Hlk1).
  wp_use HR; [exact Hl1|exact Hok1|]. intros _ s'.
  apply (dealloc_post_cons pgdir lim a _ f s l s1); done || lia.
Qed.

Lemma find_start_ok t l addr k b n i :
  table_ok t l -> first_at l addr k b -> (i <= k)%nat -> (n = length l - i)%nat ->
  find_start n (Z.of_nat i) addr t = Ret (Some (Z.of_nat k)) t.
Proof.
  intros Hok (Hk & Hs & Hf) Hi Hn. pose proof (lookup_lt_Some _ _ _ Hk) as Hkl.
  revert i Hi Hn. induction n as [|n IH]; intros i Hi Hn; [lia|]. cbn [find_start].
  destruct (lookup_lt_is_Some_2 l i) as [c Hc]; [lia|].
  unfold mbind, M_bind, get_block. rewrite (proj2 (Z.ltb_ge _ 0)), Nat2Z.id by lia.
  rewrite (to_arr _ _ Hok), Hc by lia.
  destruct (decide (i = k)) as [->|Hne].
  - replace c with b by congruence. rewrite Hs, Z.eqb_refl. done.
  - rewrite (proj2 (Z.eqb_neq _ _)) by (apply (Hf i); [lia|done]).
    replace (Z.of_nat i + 1) with (Z.of_nat (Datatypes.S i)) by lia. apply IH; lia.
Qed.

Lemma wp_on_tab_pure {A} (m : M wtab A) (a : A) Q s :
  m (w_tab s) = Ret a (w_tab s) -> Q a s -> wp (on_tab m) Q s.
Proof. intros Hm HQ. apply wp_zoom. unfold wp. by rewrite Hm, w_set_get. Qed.

End Unmap.

(** ** One process on a machine

    The smallest state with both interfaces: the allocator with its memory, and
    one process. *)
Record uproc := mkUproc { u_km : kmem; u_tab : wtab; u_pgdir : Z; u_ofile : list Z }.
Definition u_set_km (k : kmem) (u : uproc) : uproc := mkUproc k (u_tab u) (u_pgdir u) (u_ofile u).

#[export] Instance uproc_PageAlloc `{LinkerSymbols} : PageAlloc uproc := {
  pa_mem u := kmem_mem (u_km u);
  pa_set_mem m u := u_set_km (set_kmem_mem m (u_km u)) u;
  pa_kalloc := zoom u_km u_set_km kalloc;
  pa_kfree v := zoom u_km u_set_km (kfree v);
  free_pages u l := kmem_free (u_km u) l;
  same_rest u u' := use_lock (u_km u') = use_lock (u_km u) /\ u_tab u' = u_tab u /\
                    u_pgdir u' = u_pgdir u /\ u_ofile u' = u_ofile u
}.
#[export] Instance uproc_PageAllocLaws `{LinkerLayout} : PageAllocLaws uproc.
Proof.
  split; cbn.
  - done.
  - split; [intros ?; done|intros ?? (? & ? & ? & ?); done|].
    intros ??? (? & ? & ? & ?) (? & ? & ? & ?); cbn in *. repeat split; congruence.
  - done.
  - intros s l Hl. exact (@free_pages_wf kmem _ _ _ (u_km s) l Hl).
  - intros s l m Hl. exact (@free_pages_set_mem kmem _ _ _ (u_km s) l m Hl).
  - intros s l Hl. apply wp_zoom. eapply wp_mono; [exact (@kalloc_ok kmem _ _ _ (u_km s) l Hl)|].
    intros r k (? & ? & ? & ?). done.
  - intros s l p Hl Hp Hn. apply wp_zoom. eapply wp_mono; [exact (@kfree_ok kmem _ _ _ (u_km s) l p Hl Hp Hn)|].
    intros r k (? & ? & ?). done.
  - intros s p Hp Hu. unfold zoom. by rewrite kfree_panics.
Qed.
#[export] Instance uproc_WmapProc : WmapProc uproc := {
  w_tab := u_tab;
  w_set_tab t u := mkUproc (u_km u) t (u_pgdir u) (u_ofile u);
  w_pgdir := u_pgdir;
  w_ofile := u_ofile
}.
#[export] Instance uproc_WmapProcLaws `{LinkerLayout} : WmapProcLaws uproc.
Proof.
  split; cbn; try done.
  - by intros [].
  - intros ?? (? & ? & ? & ?). done.
Qed.

(** The demonstration machine with a mapping of two pages at [MIN_ADDR],
    none of them loaded; and with the first one loaded. *)
Definition demo_block : mem_block := new_block MIN_ADDR (MIN_ADDR + 8191) (MAP_ANONYMOUS + MAP_PRIVATE) 8192 (-1).
Definition demo_wtab_with (loaded : Z) : wtab :=
  mkTab (<[0%nat := demo_block]> (arr init_wtab))
    (mkInfo 1 (<[0%nat := MIN_ADDR]> (wi_addr (winfo init_wtab))) (<[0%nat := 8192]> (wi_length (winfo init_wtab)))
       (<[0%nat := loaded]> (n_loaded_pages (winfo init_wtab))) (<[0%nat := MIN_ADDR]> (leftmostLoadedAddr (winfo init_wtab)))).
Definition demo_wtab : wtab := demo_wtab_with 0.
Definition demo_proc : uproc := mkUproc demo demo_wtab demo_dir (replicate 16 0).
Definition loaded_proc : uproc :=
  mkUproc (mkKmem false true 0x80200000 (demo_mem_at 384)) (demo_wtab_with 1) demo_dir (replicate 16 0).

Lemma demo_table_ok : table_ok demo_wtab [demo_block].
Proof.
  destruct (proj1 (wp_Ret _ _ _) (insert_mapping_ok init_wtab [] MIN_ADDR (MIN_ADDR + 8191)
     (MAP_ANONYMOUS + MAP_PRIVATE) 8192 (-1) init_table_ok ltac:(unfold MAX_WMMAP_INFO; cbn; lia) ltac:(done)))
    as (r & t' & Hrun & _ & Hok & _).
  vm_compute in Hrun. injection Hrun as _ <-. destruct Hok as [[]]. split; done.
Qed.
Lemma demo_layout_ok : layout_ok [demo_block].
Proof. split; [|done]. repeat constructor; done. Qed.

Lemma loaded_table_ok : table_ok (demo_wtab_with 1) [demo_block].
Proof. destruct demo_table_ok as [[]]. split; done. Qed.
Lemma loaded_free : kmem_free (u_km loaded_proc) demo_free.
Proof.
  split; [done|]. split; [vm_compute; done|]. split.
  - apply (bool_decide_unpack _). vm_compute. exact I.
  - repeat constructor; done.
Qed.
