(* ===== verification/PageFault.v ===== *)
(** * The page-fault handler (trap.c, case T_PGFLT)

    A fault inside a mapping allocates a zeroed frame, maps it at the faulting
    address and counts it as loaded.  A fault outside every mapping prints a
    message and changes nothing. *)

From S2P Require Import Prelude Mmu Mem PageAlloc Kalloc Vm VmSpace VmGrow VmTheorems.
From S2P Require Import Wmap WmapTable WmapCalls Wunmap.
From stdpp Require Import base gmap list strings.
From Stdlib Require Import ZArith Lia.
#[local] Open Scope Z_scope.

Section Ops.
  Context {S : Type} `{LinkerSymbols} `{!PageAlloc S} `{!WmapProc S}.
  (** [fileread] of file.c. *)
  Variable fileread : Z -> Z -> Z -> M S Z.

(** The first valid mapping that contains [va], from slot [i]. *)
Fixpoint find_containing (l : list mem_block) (i va : Z) : option (Z * mem_block) :=
  match l with
  | [] => None
  | b :: l =>
      if c_true (mb_valid b) && ((va >=? mb_start b) && (va <=? mb_end b)) then Some (i, b)
      else find_containing l (i + 1) va
  end.

(** The bookkeeping of a loaded page; the comparison is unsigned. *)
Definition count_loaded (location faultyAddr : Z) (t : wtab) : wtab :=
  let w := winfo t in
  let k := Z.to_nat location in
  let left := nth k (leftmostLoadedAddr w) 0 in
  mkTab (arr t)
    (mkInfo (total_mmaps w) (wi_addr w) (wi_length w)
       (put location (i32 (nth k (n_loaded_pages w) 0 + 1)) (n_loaded_pages w))
       (if u32 left >? faultyAddr then put location (i32 faultyAddr) (leftmostLoadedAddr w)
        else leftmostLoadedAddr w)).

(** Allocate, clear and map the page of a fault. *)
Definition load_page (faultyAddr : Z) : M S unit :=
  mem ← pa_kalloc;
  if mem =? 0 then panic "kalloc"
  else
    pgdir ← gets w_pgdir;
    _ ← upd_mem (fun m => memset m mem 0 PGSIZE);
    r ← mappages pgdir faultyAddr PGSIZE (V2P mem) (Z.lor PTE_W PTE_U);
    when (negb (r =? 0)) (pa_kfree mem).

Definition page_fault (faultyAddr : Z) : M S unit :=
  t ← gets w_tab;
  match find_containing (take MAX_WMMAP_INFO (arr t)) 0 faultyAddr with
  | None => mret tt
  | Some (location, mapping) =>
      _ ← load_page faultyAddr;
      _ ← when (Z.land (mb_flags mapping) MAP_ANONYMOUS =? 0)
            (f ← map_file (mb_fd mapping);
             _ ← fileread f faultyAddr PGSIZE;
             mret tt);
      modify (fun s => w_set_tab (count_loaded location faultyAddr (w_tab s)) s)
  end.
End Ops.

Section Facts.
  Context {S : Type} `{LinkerLayout} `{!PageAlloc S} `{!PageAllocLaws S} `{!WmapProc S} `{!WmapProcLaws S}.
  Implicit Types (s : S).

Lemma find_containing_None l i va :
  Forall (fun b => mb_valid b = 0 \/ ~ mb_start b <= va <= mb_end b) l -> find_containing l i va = None.
Proof.
  intros Hl. revert i. induction Hl as [|b l Hb _ IH]; intros i; cbn; [done|]. rewrite IH.
  destruct Hb as [->|Hb]; [done|]. rewrite Z.geb_leb.
  destruct (Z.leb_spec (mb_start b) va), (Z.leb_spec va (mb_end b)); cbn; rewrite ?andb_false_r; done || lia.
Qed.

(** The mapping of a table that contains [va] is found. *)
Lemma find_containing_table t l k b va :
  table_ok t l -> layout_ok l -> l !! k = Some b -> mb_start b <= va <= mb_end b ->
  find_containing (take MAX_WMMAP_INFO (arr t)) 0 va = Some (Z.of_nat k, b).
Proof.
  intros Hok [Hf Ha] Hk Hva. rewrite take_ge by (rewrite (sz_arr _ (to_sized _ _ Hok)); done).
  pose proof (lookup_lt_Some _ _ _ Hk) as Hkl.
  assert (forall j c, (j < length l)%nat -> arr t !! j = Some c -> l !! j = Some c) as Hin
    by (intros j c Hj; by rewrite (to_arr _ _ Hok)).
  assert (arr t !! k = Some b) as Hb by by rewrite (to_arr _ _ Hok).
  assert (forall j c, (j < k)%nat -> arr t !! j = Some c -> mb_end c < va) as Hbefore.
  { intros j c Hj Hc. apply Hin in Hc; [|lia]. pose proof (to_sorted _ _ Hok j k c b Hc Hk ltac:(lia)) as Hle.
    unfold starts_le in Hle. destruct (apart_lookup l j k c b Ha Hc Hk ltac:(lia)); [lia|].
    rewrite Forall_lookup in Hf. pose proof (Hf k b Hk) as [_ ? ? _ _].
    pose proof (pages_len_pos (mb_length b)). lia. }
  destruct (to_valid _ _ Hok k b Hk) as [Hv _].
  change 0 with (Z.of_nat 0). replace (Z.of_nat k) with (Z.of_nat (0 + k)) by lia.
  clear Hok Hf Ha Hk Hin Hkl. revert Hbefore Hb. generalize 0%nat as i. generalize (arr t) as a.
  induction k as [|k IH]; intros a i Hbefore Hb; destruct a as [|c a]; try done; cbn [find_containing].
  - injection Hb as ->. rewrite Hv, Z.geb_leb, !(proj2 (Z.leb_le _ _)) by lia. cbn. by rewrite Nat.add_0_r.
  - pose proof (Hbefore 0%nat c ltac:(lia) eq_refl) as Hc.
    rewrite (proj2 (Z.leb_gt va (mb_end c))) by lia. rewrite !andb_false_r.
    replace (Z.of_nat i + 1) with (Z.of_nat (Datatypes.S i)) by lia.
    rewrite (IH a (Datatypes.S i)); [f_equal; f_equal; lia| |done].
    intros j d Hj Hd. apply (Hbefore (Datatypes.S j)); [lia|done].
Qed.

(** a fault outside every mapping leaves the state as it was (the process
    is not killed). *)
Theorem page_fault_outside fileread s l va :
  table_ok (w_tab s) l -> Forall (fun b => ~ mb_start b <= va <= mb_end b) l ->
  page_fault fileread va s = Ret tt s.
Proof.
  intros Hok Hn. unfold page_fault, mbind, M_bind, gets. rewrite find_containing_None; [done|].
  rewrite take_ge by (rewrite (sz_arr _ (to_sized _ _ Hok)); done).
  apply Forall_lookup. intros i b Hb. destruct (decide (i < length l)%nat) as [Hi|Hi].
  - right. rewrite (to_arr _ _ Hok) in Hb by done. rewrite Forall_lookup in Hn. by apply (Hn i).
  - left. apply (to_rest _ _ Hok i); [lia|done].
Qed.

Lemma kfree_held s2 p fl s3 pgdir :
  page_ok p -> vm_step pgdir s2 fl s3 [] -> space_ok (pa_mem s3) pgdir KERNBASE [] ->
  (forall x, in_page p x -> ~ pt_byte (pa_mem s3) pgdir x) ->
  (forall va, 0 <= va < KERNBASE -> frame_of (pa_mem s3) pgdir va <> Some p) ->
  wp (pa_kfree p) (fun _ s' => free_pages s' [p] /\ space_ok (pa_mem s') pgdir KERNBASE [p] /\
        same_rest s3 s' /\ forall va, pt_lookup (pa_mem s') pgdir va = pt_lookup (pa_mem s3) pgdir va) s3.
Proof.
  intros Hp Hs Hok Hpb Hpf.
  wp_use (kfree_ok s3 [] p); [apply Hs|exact Hp|apply not_elem_of_nil|]. intros _ s4 (Hl4 & Hr4 & Hag4).
  destruct (space_ok_kfree _ _ _ _ _ _ Hok Hp Hag4 Hpb Hpf) as (Hok4 & HL4 & _).
  split; [exact Hl4|]. split; [exact Hok4|]. split; [exact Hr4|exact HL4].
Qed.

Lemma load_page_ok s p fl va :
  free_pages s (p :: fl) -> space_ok (pa_mem s) (w_pgdir s) KERNBASE (p :: fl) ->
  va mod 4096 = 0 -> 0 <= va < KERNBASE -> present (pt_lookup (pa_mem s) (w_pgdir s) va) = false ->
  wp (load_page va) (fun _ s' => exists l', free_pages s' l' /\
       space_ok (pa_mem s') (w_pgdir s) KERNBASE l' /\ same_rest s s' /\
       ((forall o, 0 <= o < 4096 -> user_byte (pa_mem s') (w_pgdir s) (va + o) = Some 0) /\
        (forall va', is_u32 va' -> va' / 4096 <> va / 4096 ->
           pt_lookup (pa_mem s') (w_pgdir s) va' = pt_lookup (pa_mem s) (w_pgdir s) va') \/
        l' = [p] /\ forall va', is_u32 va' ->
           pt_lookup (pa_mem s') (w_pgdir s) va' = pt_lookup (pa_mem s) (w_pgdir s) va')) s.
Proof.
  intros Hl Hok Ha Hva Hnp. set (pgdir := w_pgdir s) in *.
  destruct (fresh_page s fl pgdir KERNBASE p) as (Hp & Hpl & Hpb & Hpf); [done..|].
  unfold load_page. wp_step. wp_use kalloc_ok; [done|]. cbn [hd tl]. intros r s2 (-> & Hm2 & Hl2 & Hr2).
  rewrite (proj2 (Z.eqb_neq p 0)) by by apply page_ok_nonzero. wp_step. wp_step.
  destruct (w_rest s s2 Hr2) as (_ & -> & _). fold pgdir.
  assert (forall m, agree_on (fun x => ~ in_page p x) m (memset m p 0 PGSIZE)) as Hg.
  { intros m x Hx. rewrite ld8_memset by done. unfold in_page, PGSIZE in *. case_decide; [lia|done]. }
  apply (fill_and_map _ _ s p fl s2 pgdir KERNBASE va (Z.lor PTE_W PTE_U)); try done.
  intros r s3 s2' l3 Hr2' Hm2' Hs Hok3 [[-> HL]|(-> & -> & HL)].
  - cbn [Z.eqb negb when]. wp_step. exists l3. split; [apply Hs|]. split; [exact Hok3|].
    split; [by rewrite Hr2', (vs_rest _ _ _ _ _ Hs)|]. left. split.
    + intros o Ho. unfold user_byte, frame_of. rewrite HL by (unfold is_u32; mmu_unfold; dlia).
      rewrite decide_True by (clear -Ha Ho; dlia).
      destruct (pte_for_frame p (Z.lor PTE_W PTE_U) Hp) as [-> ->]; [done|]. cbn.
      replace ((va + o) mod 4096) with o by (clear -Ha Ho; dlia).
      assert (in_page p (p + o)) as Hin by (unfold in_page; lia).
      rewrite (vs_frame _ _ _ _ _ Hs), Hm2'.
      * by rewrite ld8_memset, decide_True by (unfold PGSIZE; done || lia).
      * split; [|intros (q & Hq & Hqa); destruct (free_pages_wf _ _ Hl2) as [_ Hfp];
                 by apply (page_of_free fl q (p + o) p)].
        rewrite (pt_byte_agree (pa_mem s) (pa_mem s2') pgdir (p :: fl)); [by apply Hpb|apply Hok|].
        intros x Hx. rewrite Hm2'. apply Hg. intros Hx'. apply (Hpb x Hx'). by left.
    + intros va' Hva' Hne. rewrite HL, decide_False by done.
      apply (pt_lookup_agree _ _ _ (p :: fl)); [apply Hok|].
      intros x Hx. rewrite Hm2'. apply Hg. intros Hx'. exact (Hpb x Hx' Hx).
  - change (negb (-1 =? 0)) with true. cbn [when].
    destruct (held_page s p fl s2' s3 [] pgdir KERNBASE) as [Hpb3 Hpf3]; try done.
    { rewrite Hm2'. apply Hg. }
    wp_use (kfree_held s2' p fl s3 pgdir); [done..|]. intros _ s4 (Hl4 & Hok4 & Hr4 & HL4).
    exists [p]. split; [done|]. split; [done|].
    split; [by rewrite Hr2', (vs_rest _ _ _ _ _ Hs)|]. right. split; [done|].
    intros va' Hva'. by rewrite HL4, HL.
Qed.

(** C15: a fault at a page-aligned address of an anonymous mapping, with a page
    free, gives the process a zeroed page there and changes no other
    translation; the mapping counts one more loaded page.  When no page table
    can be allocated the frame is freed again and nothing is mapped, and the
    page is counted all the same.  For other addresses the handler
    maps a second page, which is not covered here. *)
Theorem page_fault_loads fileread s p fl l k b va :
  free_pages s (p :: fl) -> space_ok (pa_mem s) (w_pgdir s) KERNBASE (p :: fl) ->
  table_ok (w_tab s) l -> layout_ok l -> l !! k = Some b -> mb_start b <= va <= mb_end b ->
  Z.land (mb_flags b) MAP_ANONYMOUS <> 0 -> va mod 4096 = 0 ->
  present (pt_lookup (pa_mem s) (w_pgdir s) va) = false ->
  exists s' l', page_fault fileread va s = Ret tt s' /\ free_pages s' l' /\
    space_ok (pa_mem s') (w_pgdir s) KERNBASE l' /\
    w_tab s' = count_loaded (Z.of_nat k) va (w_tab s) /\
    ((forall o, 0 <= o < 4096 -> user_byte (pa_mem s') (w_pgdir s) (va + o) = Some 0) /\
     (forall va', is_u32 va' -> va' / 4096 <> va / 4096 ->
        pt_lookup (pa_mem s') (w_pgdir s) va' = pt_lookup (pa_mem s) (w_pgdir s) va') \/
     l' = [p] /\ forall va', is_u32 va' ->
        pt_lookup (pa_mem s') (w_pgdir s) va' = pt_lookup (pa_mem s) (w_pgdir s) va').
Proof.
  intros Hl Hsp Hok Hlay Hk Hva Hanon Ha Hnp.
  assert (0 <= va < KERNBASE) as Hvk.
  { destruct Hlay as [Hf _]. rewrite Forall_lookup in Hf. pose proof (Hf k b Hk) as [_ ? ? ? ?].
    unfold MIN_ADDR, MAX_ADDR in *. mmu_unfold. lia. }
  assert (wp (page_fault fileread va) (fun _ s' => exists s1 l', free_pages s1 l' /\
     space_ok (pa_mem s1) (w_pgdir s) KERNBASE l' /\ s' = w_set_tab (count_loaded (Z.of_nat k) va (w_tab s)) s1 /\
     ((forall o, 0 <= o < 4096 -> user_byte (pa_mem s1) (w_pgdir s) (va + o) = Some 0) /\
      (forall va', is_u32 va' -> va' / 4096 <> va / 4096 ->
        pt_lookup (pa_mem s1) (w_pgdir s) va' = pt_lookup (pa_mem s) (w_pgdir s) va') \/
      l' = [p] /\ forall va', is_u32 va' ->
        pt_lookup (pa_mem s1) (w_pgdir s) va' = pt_lookup (pa_mem s) (w_pgdir s) va')) s) as HW.
  { unfold page_fault. wp_steps. rewrite (find_containing_table _ l k b) by done.
    wp_step. wp_use (load_page_ok s p fl va); [done..|]. intros _ s1 (l' & Hl' & Hok' & Hr & HC).
    rewrite (proj2 (Z.eqb_neq _ _)) by done. unfold when. wp_steps. exists s1, l'. split; [done|].
    split; [done|]. split; [|done]. by destruct (w_rest s s1 Hr) as (-> & _). }
  apply wp_Ret in HW as ([] & s' & Hrun & s1 & l' & Hl' & Hok' & -> & HC).
  eexists _, l'. split; [exact Hrun|]. rewrite w_mem_set, w_tab_set. split; [by apply w_free_set|]. done.
Qed.

(** Mapping the page of an address that is not page aligned: two pages are touched. *)
Lemma mappages_unaligned s l pgdir va p :
  free_pages s l -> pgdir_ok (pa_mem s) pgdir l -> page_ok p -> 0 <= va /\ va + 4096 < KERNBASE -> va mod 4096 <> 0 ->
  present (pt_lookup (pa_mem s) pgdir va) = false -> present (pt_lookup (pa_mem s) pgdir (va + 4096)) = false ->
  wp (mappages pgdir va PGSIZE (V2P p) (Z.lor PTE_W PTE_U)) (fun r s' => exists l', vm_step pgdir s l s' l' /\
    (r = 0 /\ pt_lookup (pa_mem s') pgdir va = Z.lor (Z.lor (V2P p) (Z.lor PTE_W PTE_U)) PTE_P /\
       pt_lookup (pa_mem s') pgdir (va + 4096) = Z.lor (Z.lor (V2P p + 4096) (Z.lor PTE_W PTE_U)) PTE_P \/
     r = -1 /\ l' = [])) s.
Proof.
  intros Hl Hok Hp [Hlo Hvk] Ha Hnp Hnp'. destruct (page_ok_V2P_page p Hp) as [Hpa Hpu].
  pose proof (page_ok_range p Hp) as Hpr. pose proof (page_ok_V2P p Hp) as Hpv.
  assert (extra_pages va PGSIZE = 1) as Hx by (unfold extra_pages, PGSIZE; clear -Ha; dlia).
  assert (forall j, 0 <= j <= 1 -> pt_lookup (pa_mem s) pgdir (va / 4096 * 4096 + 4096 * j)
            = pt_lookup (pa_mem s) pgdir (va + 4096 * j)) as Hpg.
  { intros j Hj. apply pt_lookup_page; [unfold is_u32; mmu_unfold; clear -Hj Hvk Hlo; dlia..|]. clear. dlia. }
  wp_use (mappages_ok s l pgdir va PGSIZE (V2P p) (Z.lor PTE_W PTE_U));
    rewrite ?Hx; try done; try (unfold PGSIZE; mmu_unfold; lia).
  - intros j Hj. rewrite Hpg by done.
    assert (j = 0 \/ j = 1) as [->| ->] by lia; [by rewrite Z.mul_0_r, Z.add_0_r|exact Hnp'].
  - intros r s' (l' & j & Hs & Hr & HM). exists l'. split; [exact Hs|]. destruct Hr as [[-> ->]|(-> & Hj & ->)]; [left|by right].
    split; [done|]. rewrite !HM by (unfold is_u32; mmu_unfold; lia). unfold mapped.
    rewrite !decide_True by (clear -Ha; dlia). split; do 2 f_equal; clear; dlia.
Qed.

(** C40: a fault at an address that is not page aligned maps two pages: its own
    to the new frame, and the following one to the physical page behind that
    frame, which the handler did not allocate. *)
Theorem page_fault_unaligned fileread s p fl l k b va :
  free_pages s (p :: fl) -> space_ok (pa_mem s) (w_pgdir s) KERNBASE (p :: fl) ->
  table_ok (w_tab s) l -> layout_ok l -> l !! k = Some b -> mb_start b <= va <= mb_end b ->
  Z.land (mb_flags b) MAP_ANONYMOUS <> 0 -> va mod 4096 <> 0 -> va + 4096 < KERNBASE ->
  present (pt_lookup (pa_mem s) (w_pgdir s) va) = false ->
  present (pt_lookup (pa_mem s) (w_pgdir s) (va + 4096)) = false ->
  exists s', page_fault fileread va s = Ret tt s' /\
    (pt_lookup (pa_mem s') (w_pgdir s) va = Z.lor (Z.lor (V2P p) (Z.lor PTE_W PTE_U)) PTE_P /\
     pt_lookup (pa_mem s') (w_pgdir s) (va + 4096) =
       Z.lor (Z.lor (V2P p + 4096) (Z.lor PTE_W PTE_U)) PTE_P \/
     free_pages s' [p]).
Proof.
  intros Hl Hsp Hok Hlay Hk Hva Hanon Ha Hvk Hnp Hnp'. set (pgdir := w_pgdir s) in *.
  assert (MIN_ADDR <= va) as Hlo.
  { destruct Hlay as [Hf _]. rewrite Forall_lookup in Hf. pose proof (Hf k b Hk) as [_ ? ? ? ?]. lia. }
  unfold MIN_ADDR in Hlo.
  destruct (fresh_page s fl pgdir KERNBASE p) as (Hp & Hpl & Hpb & Hpf); [done..|].
  destruct (page_ok_V2P_page p Hp) as [Hpa Hpu].
  pose proof (page_ok_range p Hp) as Hpr. pose proof (page_ok_V2P p Hp) as Hpv.
  assert (wp (page_fault fileread va) (fun _ s' => (pt_lookup (pa_mem s') pgdir va =
      Z.lor (Z.lor (V2P p) (Z.lor PTE_W PTE_U)) PTE_P /\
     pt_lookup (pa_mem s') pgdir (va + 4096) = Z.lor (Z.lor (V2P p + 4096) (Z.lor PTE_W PTE_U)) PTE_P \/
     free_pages s' [p])) s) as HW.
  { unfold page_fault. wp_steps. rewrite (find_containing_table _ l k b) by done.
    unfold load_page. wp_step. wp_step. wp_use kalloc_ok; [done|]. cbn [hd tl].
    intros r s2 (-> & Hm2 & Hl2 & Hr2). rewrite (proj2 (Z.eqb_neq p 0)) by by apply page_ok_nonzero.
    wp_step. wp_step. destruct (w_rest s s2 Hr2) as (_ & -> & _). fold pgdir.
    destruct (free_pages_wf _ _ Hl2) as [_ Hfp].
    wp_step. apply (wp_upd_mem _ _ _ fl Hl2).
    { intros a (q & Hq & Hqa). rewrite ld8_memset by done. unfold PGSIZE.
      case_decide; [|done]. by destruct (page_of_free fl q a p). }
    rewrite Hm2. intros s2' Hl2' Hm2' Hr2'.
    assert (agree_on (pt_byte (pa_mem s) pgdir) (pa_mem s) (pa_mem s2')) as Hag.
    { intros x Hx. rewrite Hm2', ld8_memset by done. unfold PGSIZE.
      case_decide as E; [|done]. destruct (Hpb x E Hx). }
    assert (forall v, pt_lookup (pa_mem s2') pgdir v = pt_lookup (pa_mem s) pgdir v) as HL
      by (intros v; apply (pt_lookup_agree _ _ _ (p :: fl)); [apply Hsp|exact Hag]).
    wp_step. wp_use (mappages_unaligned s2' fl pgdir va p); [done| |done|lia|done|by rewrite HL|by rewrite HL|].
    - apply (pgdir_ok_agree (pa_mem s) _ _ (p :: fl)); [apply Hsp| |].
      + intros x Hx'. apply Hag. by left.
      + intros x Hx'. by right.
    - intros r s3 (l3 & Hs & Hr).
      rewrite (proj2 (Z.eqb_neq (Z.land (mb_flags b) MAP_ANONYMOUS) 0)) by done.
      destruct Hr as [[-> HM]|[-> ->]].
      + cbn [Z.eqb negb when]. wp_steps. left. rewrite w_mem_set. exact HM.
      + change (negb (-1 =? 0)) with true. cbn [when].
        wp_use (kfree_ok s3 [] p); [apply Hs|exact Hp|apply not_elem_of_nil|].
        intros _ s4 (Hl4 & _ & _). wp_steps. right. by apply w_free_set. }
  apply wp_Ret in HW as ([] & s' & Hrun & HC). exists s'. done.
Qed.
End Facts.

(** ** Witnesses *)

Lemma demo_unloaded va : 4096 <= va < KERNBASE -> present (pt_lookup (pa_mem demo_proc) (w_pgdir demo_proc) va) = false.
Proof.
  intros Hva. change (pt_lookup (pa_mem demo_proc) (w_pgdir demo_proc) va) with (pt_lookup demo_mem demo_dir va).
  rewrite demo_lookup by (unfold is_u32; mmu_unfold; lia). rewrite decide_False; [reflexivity|]. clear -Hva. dlia.
Qed.

Lemma page_fault_outside_witness :
  page_fault (fun _ _ _ => mret 0) 0x50000000 demo_proc = Ret tt demo_proc.
Proof.
  apply (page_fault_outside (fun _ _ _ => mret 0) demo_proc [demo_block] 0x50000000).
  - apply demo_table_ok.
  - repeat constructor. cbn. unfold MIN_ADDR. lia.
Defined.

Lemma page_fault_loads_witness :
  exists s', page_fault (fun _ _ _ => mret 0) (MIN_ADDR + 4096) demo_proc = Ret tt s' /\
    w_tab s' = count_loaded 0 (MIN_ADDR + 4096) demo_wtab.
Proof.
  destruct (page_fault_loads (fun _ _ _ => mret 0) demo_proc 0x80200000 [0x80203000; 0x80201000] [demo_block]
     0%nat demo_block (MIN_ADDR + 4096)) as (s' & l' & ? & _ & _ & ? & _).
  - apply demo_kmem_free.
  - apply demo_space.
  - apply demo_table_ok.
  - apply demo_layout_ok.
  - reflexivity.
  - cbn. lia.
  - done.
  - reflexivity.
  - apply demo_unloaded. unfold MIN_ADDR. mmu_unfold. lia.
  - exists s'. split; assumption.
Defined.

Lemma page_fault_unaligned_witness :
  exists s', page_fault (fun _ _ _ => mret 0) (MIN_ADDR + 8) demo_proc = Ret tt s'.
Proof.
  destruct (page_fault_unaligned (fun _ _ _ => mret 0) demo_proc 0x80200000 [0x80203000; 0x80201000] [demo_block]
     0%nat demo_block (MIN_ADDR + 8)) as (s' & ? & _).
  - apply demo_kmem_free.
  - apply demo_space.
  - apply demo_table_ok.
  - apply demo_layout_ok.
  - reflexivity.
  - cbn. lia.
  - done.
  - done.
  - done.
  - apply demo_unloaded. unfold MIN_ADDR. mmu_unfold. lia.
  - apply demo_unloaded. unfold MIN_ADDR. mmu_unfold. lia.
  - exists s'. assumption.
Defined.
