(* ===== verification/Pipe.v ===== *)
(** * Pipes (pipe.c)

    A pipe is a ring buffer of 512 bytes with two free-running 32-bit counters.
    Each pass of a process through the pipe's critical section is one function:
    [pipewrite] and [piperead] run until they return or go to sleep, and are
    entered again when woken.  [pstep] interleaves the passes of any number of
    readers and writers. *)

From S2P Require Import Prelude.
From stdpp Require Import base list relations.
From Stdlib Require Import ZArith Lia.
#[local] Open Scope Z_scope.

Definition PIPESIZE : Z := 512.

Record pipe := mkPipe {
  data : list Z; nread : Z; nwrite : Z; readopen : Z; writeopen : Z }.

(** The counters of a pipe as [pipealloc] sets them up; [data] is whatever the
    page held. *)
Definition pipe_init (d : list Z) : pipe := mkPipe d 0 0 1 1.

(** How a pass ends: with a return value, or asleep. *)
Inductive pass := Returns (r : Z) | Sleeps.

(** [p->data[p->nwrite++ % PIPESIZE] = c] *)
Definition put_byte (c : Z) (p : pipe) : pipe :=
  mkPipe (<[Z.to_nat (nwrite p mod PIPESIZE) := c]> (data p)) (nread p) (u32 (nwrite p + 1))
    (readopen p) (writeopen p).
(** [p->data[p->nread++ % PIPESIZE]] *)
Definition get_byte (p : pipe) : Z * pipe :=
  (nth (Z.to_nat (nread p mod PIPESIZE)) (data p) 0,
   mkPipe (data p) (u32 (nread p + 1)) (nwrite p) (readopen p) (writeopen p)).

(** The loop of [pipewrite] over the bytes still to write; [n] is the value it
    returns in the end.  The second result is what is left to write. *)
Fixpoint pipewrite (rest : list Z) (n : Z) (killed : bool) (p : pipe) : pass * list Z * pipe :=
  match rest with
  | [] => (Returns n, [], p)
  | c :: rest' =>
      if nwrite p =? u32 (nread p + PIPESIZE) then
        if (readopen p =? 0) || killed then (Returns (-1), rest, p) else (Sleeps, rest, p)
      else pipewrite rest' n killed (put_byte c p)
  end.

(** The copy loop of [piperead]. *)
Fixpoint piperead_copy (n : nat) (p : pipe) : list Z * pipe :=
  match n with
  | O => ([], p)
  | S n =>
      if nread p =? nwrite p then ([], p)
      else let '(c, p) := get_byte p in let '(cs, p) := piperead_copy n p in (c :: cs, p)
  end.
Definition piperead (n : Z) (killed : bool) (p : pipe) : pass * list Z * pipe :=
  if (nread p =? nwrite p) && negb (writeopen p =? 0) then
    if killed then (Returns (-1), [], p) else (Sleeps, [], p)
  else let '(cs, p) := piperead_copy (Z.to_nat n) p in (Returns (Z.of_nat (length cs)), cs, p).

(** [pipeclose]; the flag says that the page of the pipe is freed. *)
Definition pipeclose (writable : bool) (p : pipe) : bool * pipe :=
  let p := if writable then mkPipe (data p) (nread p) (nwrite p) (readopen p) 0
           else mkPipe (data p) (nread p) (nwrite p) 0 (writeopen p) in
  ((readopen p =? 0) && (writeopen p =? 0), p).

(** ** The queue a pipe represents *)

Definition used (p : pipe) : Z := u32 (nwrite p - nread p).
(** Entry [i] of the queue. *)
Definition at_ (p : pipe) (i : Z) : Z := nth (Z.to_nat ((nread p + i) mod PIPESIZE)) (data p) 0.
Definition contents (p : pipe) : list Z := (fun i => at_ p (Z.of_nat i)) <$> seq 0 (Z.to_nat (used p)).

Record pipe_ok (p : pipe) : Prop := {
  po_data : Z.of_nat (length (data p)) = PIPESIZE;
  po_nread : is_u32 (nread p);
  po_nwrite : is_u32 (nwrite p);
  po_used : used p <= PIPESIZE
}.

Lemma pipe_init_ok d : Z.of_nat (length d) = PIPESIZE -> pipe_ok (pipe_init d) /\ contents (pipe_init d) = [].
Proof. intros Hd. split; [|done]. split; [done|unfold is_u32; cbn; lia..|done]. Qed.

Lemma used_range p : is_u32 (used p).
Proof. apply u32_range. Qed.

Lemma full_used p : pipe_ok p -> nwrite p = u32 (nread p + PIPESIZE) <-> used p = PIPESIZE.
Proof. intros [_ Hr Hw Hu]. unfold used, PIPESIZE in *. mlia. Qed.
Lemma empty_used p : pipe_ok p -> nread p = nwrite p <-> used p = 0.
Proof. intros [_ Hr Hw Hu]. unfold used, PIPESIZE in *. mlia. Qed.

Lemma nth_insert_eq {A} (l : list A) i x d : (i < length l)%nat -> nth i (<[i := x]> l) d = x.
Proof. intros Hi. apply nth_lookup_Some. by apply list_lookup_insert_eq. Qed.
Lemma nth_insert_ne {A} (l : list A) i j x d : i <> j -> nth j (<[i := x]> l) d = nth j l d.
Proof. intros Hi. rewrite !nth_lookup. by rewrite list_lookup_insert_ne. Qed.

Lemma put_byte_ok p c :
  pipe_ok p -> used p <> PIPESIZE ->
  pipe_ok (put_byte c p) /\ contents (put_byte c p) = contents p ++ [c] /\ used (put_byte c p) = used p + 1.
Proof.
  intros [Hd Hr Hw Hu] Hnf. unfold PIPESIZE in *.
  assert (used (put_byte c p) = used p + 1) as Hus.
  { unfold used, put_byte in *. cbn. clear Hd. mlia. }
  assert (0 <= used p < 512) as Hub by (pose proof (used_range p); unfold is_u32 in *; lia).
  split; [|split; [|done]].
  - split; cbn; [by rewrite length_insert|done|apply u32_range|]. unfold PIPESIZE. lia.
  - unfold contents. rewrite Hus. replace (Z.to_nat (used p + 1)) with (Z.to_nat (used p) + 1)%nat by lia.
    rewrite seq_app, fmap_app. cbn [seq fmap list_fmap]. f_equal.
    + apply list_fmap_ext. intros i x Hx. apply lookup_seq in Hx as [-> Hi]. unfold at_, put_byte, PIPESIZE. cbn.
      rewrite nth_insert_ne; [done|]. unfold used in *. clear Hd Hus. mlia.
    + f_equal. unfold at_, put_byte, PIPESIZE. cbn.
      replace (Z.to_nat ((nread p + Z.of_nat (Z.to_nat (used p))) mod 512))
        with (Z.to_nat (nwrite p mod 512)).
      * apply nth_insert_eq. clear Hus. mlia.
      * unfold used in *. f_equal. clear Hd Hus. mlia.
Qed.

Lemma get_byte_ok p :
  pipe_ok p -> used p <> 0 ->
  pipe_ok (snd (get_byte p)) /\ contents p = fst (get_byte p) :: contents (snd (get_byte p)) /\
  used (snd (get_byte p)) = used p - 1.
Proof.
  intros [Hd Hr Hw Hu] Hne. unfold PIPESIZE in *.
  assert (used (snd (get_byte p)) = used p - 1) as Hus.
  { unfold used, get_byte in *. cbn. clear Hd. mlia. }
  assert (0 < used p <= 512) as Hub by (pose proof (used_range p); unfold is_u32 in *; lia).
  split; [|split; [|done]].
  - split; [done|apply u32_range|done|]. rewrite Hus. unfold PIPESIZE. lia.
  - unfold contents. rewrite Hus. replace (Z.to_nat (used p)) with (S (Z.to_nat (used p - 1))) by lia.
    cbn [seq fmap list_fmap]. f_equal.
    + unfold at_, PIPESIZE. cbn. do 3 f_equal. lia.
    + rewrite <- fmap_S_seq, <- list_fmap_compose. apply list_fmap_ext.
      intros i x Hx. apply lookup_seq in Hx as [-> Hi]. unfold at_, get_byte, PIPESIZE. cbn.
      do 2 f_equal. clear Hd Hus. mlia.
Qed.

(** ** One pass *)

Definition same_ends (p p' : pipe) : Prop := readopen p' = readopen p /\ writeopen p' = writeopen p.
#[local] Hint Extern 0 (same_ends _ _) => split; reflexivity : core.

Lemma pipewrite_pass rest n killed p r rest' p' :
  pipe_ok p -> pipewrite rest n killed p = (r, rest', p') ->
  exists acc, rest = acc ++ rest' /\ pipe_ok p' /\ contents p' = contents p ++ acc /\ same_ends p p' /\
    (r = Returns n /\ rest' = [] \/
     rest' <> [] /\ used p' = PIPESIZE /\
     (r = Returns (-1) /\ (readopen p = 0 \/ killed = true) \/
      r = Sleeps /\ readopen p <> 0 /\ killed = false)).
Proof.
  revert p. induction rest as [|c rest IH]; intros p Hok; cbn [pipewrite].
  { intros [= <- <- <-]. exists []. rewrite (app_nil_r (contents p)). splits. by left. }
  destruct (Z.eqb_spec (nwrite p) (u32 (nread p + PIPESIZE))) as [E|E].
  - apply full_used in E; [|done]. destruct ((readopen p =? 0) || killed) eqn:Eb.
    + intros [= <- <- <-]. exists []. rewrite (app_nil_r (contents p)). splits. right. splits. left. splits.
      apply orb_true_iff in Eb as [?%Z.eqb_eq|?]; auto.
    + intros [= <- <- <-]. exists []. rewrite (app_nil_r (contents p)). splits. right. splits. right. splits.
      apply orb_false_iff in Eb as [?%Z.eqb_neq ?]. done.
  - assert (used p <> PIPESIZE) as Hnf by by rewrite <- full_used.
    destruct (put_byte_ok p c Hok Hnf) as (Hok1 & Hc1 & _).
    intros Hrun. apply IH in Hrun as (acc & -> & Hok' & Hc & He & HC); [|done].
    exists (c :: acc). split; [done|]. split; [done|]. rewrite Hc, Hc1, <- app_assoc. done.
Qed.

Lemma piperead_copy_pass n p cs p' :
  pipe_ok p -> piperead_copy n p = (cs, p') ->
  pipe_ok p' /\ contents p = cs ++ contents p' /\ same_ends p p' /\
  ((length cs = n \/ used p' = 0) /\ (cs = [] -> p' = p)).
Proof.
  revert p cs p'. induction n as [|n IH]; intros p cs p' Hok; cbn [piperead_copy].
  { intros [= <- <-]. splits. auto. }
  destruct (Z.eqb_spec (nread p) (nwrite p)) as [E|E].
  { apply empty_used in E; [|done]. intros [= <- <-]. splits. auto. }
  assert (used p <> 0) as Hne by by rewrite <- empty_used.
  destruct (get_byte_ok p Hok Hne) as (Hok1 & Hc1 & _).
  destruct (get_byte p) as [c p1] eqn:Eg. cbn [fst snd] in *.
  destruct (piperead_copy n p1) as [cs1 p2] eqn:Ec. intros [= <- <-].
  destruct (IH _ _ _ Hok1 Ec) as (Hok2 & Hc2 & [He1 He2] & Hlen & _).
  injection Eg as _ <-. cbn in He1, He2. split; [done|]. split; [by rewrite Hc1, Hc2|]. split; [done|].
  split; [|done]. cbn. destruct Hlen; auto.
Qed.

(** ** Any interleaving of readers and writers *)

Inductive pop := PW (rest : list Z) (n : Z) | PR (n : Z).
(** The operations in progress, with a flag for those asleep, and the bytes
    that went into and came out of the pipe so far. *)
Record psys := mkSys {
  sy_pipe : pipe; sy_ops : list (pop * bool); sy_in : list Z; sy_out : list Z }.

Definition is_reader (o : pop * bool) : bool := match o.1 with PR _ => true | PW _ _ => false end.
Definition wake (readers : bool) (ops : list (pop * bool)) : list (pop * bool) :=
  (fun o => if Bool.eqb (is_reader o) readers then (o.1, false) else o) <$> ops.
Definition no_op (readers : bool) (ops : list (pop * bool)) : Prop :=
  Forall (fun o => is_reader o <> readers) ops.

(** [K]: may processes be killed while they use the pipe? *)
Inductive pstep (K : bool) : psys -> psys -> Prop :=
| st_write p ops hin hout bytes :
    writeopen p <> 0 ->
    pstep K (mkSys p ops hin hout)
      (mkSys p (ops ++ [(PW bytes (Z.of_nat (length bytes)), false)]) hin hout)
| st_read p ops hin hout n :
    readopen p <> 0 -> 0 <= n ->
    pstep K (mkSys p ops hin hout) (mkSys p (ops ++ [(PR n, false)]) hin hout)
| st_run_write p ops hin hout i acc rest n (killed : bool) r rest' p' :
    ops !! i = Some (PW rest n, false) -> (killed = true -> K = true) ->
    pipewrite rest n killed p = (r, rest', p') -> rest = acc ++ rest' ->
    pstep K (mkSys p ops hin hout)
      (mkSys p' (match r with
                 | Returns _ => if bool_decide (rest' = []) then wake true (delete i ops) else delete i ops
                 | Sleeps => wake true (<[i := (PW rest' n, true)]> ops)
                 end) (hin ++ acc) hout)
| st_run_read p ops hin hout i n (killed : bool) r cs p' :
    ops !! i = Some (PR n, false) -> (killed = true -> K = true) ->
    piperead n killed p = (r, cs, p') ->
    pstep K (mkSys p ops hin hout)
      (mkSys p' (match r with
                 | Returns v => if v =? -1 then delete i ops else wake false (delete i ops)
                 | Sleeps => <[i := (PR n, true)]> ops
                 end) hin (hout ++ cs))
| st_close p ops hin hout (writable : bool) :
    (* the descriptors of an operation in progress are open *)
    no_op (negb writable) ops ->
    pstep K (mkSys p ops hin hout)
      (mkSys (snd (pipeclose writable p)) (wake writable ops) hin hout).

Definition sys_init (d : list Z) : psys := mkSys (pipe_init d) [] [] [].

Definition op_ok (o : pop * bool) : Prop := match o.1 with PR n => 0 <= n | PW _ _ => True end.
Definition fifo_inv (y : psys) : Prop :=
  pipe_ok (sy_pipe y) /\ Forall op_ok (sy_ops y) /\ sy_in y = sy_out y ++ contents (sy_pipe y).

Lemma pipeclose_ok w p :
  pipe_ok p -> pipe_ok (snd (pipeclose w p)) /\ contents (snd (pipeclose w p)) = contents p /\
  used (snd (pipeclose w p)) = used p.
Proof. intros [? ? ? ?]. unfold pipeclose. destruct w; cbn; (split; [by split|done]). Qed.

Lemma piperead_pass n killed p r cs p' :
  pipe_ok p -> 0 <= n -> piperead n killed p = (r, cs, p') ->
  pipe_ok p' /\ contents p = cs ++ contents p' /\ same_ends p p' /\
  (r = Sleeps /\ cs = [] /\ p' = p /\ used p = 0 /\ writeopen p <> 0 /\ killed = false \/
   r = Returns (-1) /\ cs = [] /\ p' = p /\ killed = true \/
   r = Returns (Z.of_nat (length cs)) /\ (Z.of_nat (length cs) = n \/ used p' = 0) /\ (cs = [] -> p' = p)).
Proof.
  intros Hok Hn. unfold piperead.
  destruct (Z.eqb_spec (nread p) (nwrite p)) as [E|E]; cbn [andb].
  - pose proof (proj1 (empty_used p Hok) E) as Hu.
    destruct (Z.eqb_spec (writeopen p) 0) as [Ew|Ew]; cbn [negb].
    + destruct (piperead_copy (Z.to_nat n) p) as [cs1 p1] eqn:Ec. intros [= <- <- <-].
      destruct (piperead_copy_pass _ _ _ _ Hok Ec) as (? & ? & ? & Hl & ?). splits.
      right. right. split; [done|]. split; [|done]. destruct Hl; [left; lia|by right].
    + destruct killed; intros [= <- <- <-]; (split; [done|]); (split; [done|]); (split; [done|]);
        [right; by left|by left].
  - destruct (piperead_copy (Z.to_nat n) p) as [cs1 p1] eqn:Ec. intros [= <- <- <-].
    destruct (piperead_copy_pass _ _ _ _ Hok Ec) as (? & ? & ? & Hl & ?). splits.
    right. right. split; [done|]. split; [|done]. destruct Hl; [left; lia|by right].
Qed.

Lemma wake_ok b ops : Forall op_ok ops -> Forall op_ok (wake b ops).
Proof.
  intros Ho. apply Forall_fmap. eapply Forall_impl; [exact Ho|]. intros [o a] Hoa. cbn.
  by destruct (Bool.eqb _ _).
Qed.

Lemma fifo_step K y y' : pstep K y y' -> fifo_inv y -> fifo_inv y'.
Proof.
  intros Hst (Hok & Hops & Hin). unfold fifo_inv in *.
  destruct Hst as [p ops hin hout bytes _|p ops hin hout n _ Hn
    |p ops hin hout i acc rest n killed r rest' p' Hi _ Hrun Hrest
    |p ops hin hout i n killed r cs p' Hi _ Hrun|p ops hin hout w _];
    cbn [sy_pipe sy_ops sy_in sy_out] in *.
  - splits. split; [|done]. apply Forall_app. split; [done|]. by repeat constructor.
  - splits. split; [|done]. apply Forall_app. split; [done|]. by repeat constructor.
  - destruct (pipewrite_pass _ _ _ _ _ _ _ Hok Hrun) as (acc' & Hr' & Hok' & Hc & _).
    assert (acc' = acc) as -> by (apply (app_inv_tail rest'); congruence).
    split; [done|]. split; [|by rewrite Hc, Hin, app_assoc].
    destruct r; [|by apply wake_ok, Forall_insert].
    case_bool_decide; [apply wake_ok|]; by apply Forall_delete.
  - assert (0 <= n) as Hn by (rewrite Forall_lookup in Hops; by apply Hops in Hi).
    destruct (piperead_pass _ _ _ _ _ _ Hok Hn Hrun) as (Hok' & Hc & _).
    split; [done|]. split; [|by rewrite <- app_assoc, <- Hc].
    destruct r; [|by apply Forall_insert]. destruct (_ =? _); [|apply wake_ok]; by apply Forall_delete.
  - destruct (pipeclose_ok w p Hok) as (? & -> & _). splits. split; [by apply wake_ok|done].
Qed.

(** C19: whatever the interleaving of readers, writers and closes, with
    processes killed at any time and however often the counters wrap around,
    the bytes read are exactly the bytes written, in order, up to the at most
    512 bytes still in the buffer. *)
Theorem pipe_fifo K d y :
  Z.of_nat (length d) = PIPESIZE -> rtc (pstep K) (sys_init d) y ->
  sy_in y = sy_out y ++ contents (sy_pipe y) /\ (length (contents (sy_pipe y)) <= 512)%nat.
Proof.
  intros Hd Hr. assert (fifo_inv y) as (Hok & _ & Hin).
  { apply (rtc_preserves (pstep K) fifo_inv (sys_init d) y); [apply fifo_step|done|].
    destruct (pipe_init_ok d Hd) as [? Hc]. unfold fifo_inv. cbn [sy_pipe sys_init sy_in sy_out sy_ops].
    rewrite Hc. done. }
  split; [done|]. unfold contents. rewrite length_fmap, length_seq. destruct Hok as [_ _ _ Hu].
  unfold PIPESIZE in Hu. lia.
Qed.

(** ** Nobody sleeps on a condition that holds

    An operation in progress has its end open; a sleeping writer has a full
    pipe with a reader, a sleeping reader an empty one with a writer. *)
Definition op_live (p : pipe) (o : pop * bool) : Prop :=
  match o.1 with
  | PW _ _ => writeopen p <> 0 /\ (o.2 = true -> used p = PIPESIZE /\ readopen p <> 0)
  | PR n => 0 <= n /\ readopen p <> 0 /\ (o.2 = true -> used p = 0 /\ writeopen p <> 0)
  end.
Definition live_inv (y : psys) : Prop := pipe_ok (sy_pipe y) /\ Forall (op_live (sy_pipe y)) (sy_ops y).

Lemma length_contents p : Z.of_nat (length (contents p)) = used p.
Proof.
  unfold contents. rewrite length_fmap, length_seq. pose proof (used_range p). unfold is_u32 in *. lia.
Qed.

(** After waking one side, only the other side can be asleep. *)
Lemma live_wake p p' (b : bool) ops :
  Forall (op_live p) ops -> same_ends p p' ->
  (used p = (if b then PIPESIZE else 0) -> used p' = (if b then PIPESIZE else 0)) ->
  Forall (op_live p') (wake b ops).
Proof.
  intros Hops [Er Ew] Hu. apply Forall_fmap. eapply Forall_impl; [exact Hops|].
  intros [[rest n|n] a]; unfold op_live; cbn [fst snd is_reader]; rewrite ?Er, ?Ew; destruct b; cbn; intuition done.
Qed.

Lemma live_step y y' : pstep false y y' -> live_inv y -> live_inv y'.
Proof.
  intros Hst (Hok & Hops). unfold live_inv in *.
  destruct Hst as [p ops hin hout bytes Hw|p ops hin hout n Hr Hn
    |p ops hin hout i acc rest n killed r rest' p' Hi Hk Hrun Hrest
    |p ops hin hout i n killed r cs p' Hi Hk Hrun|p ops hin hout w Hno];
    cbn [sy_pipe sy_ops sy_in sy_out] in *.
  - split; [done|]. apply Forall_app. split; [done|]. by repeat constructor.
  - split; [done|]. apply Forall_app. split; [done|]. by repeat constructor.
  - assert (killed = false) as -> by (destruct killed; [by specialize (Hk eq_refl)|done]).
    destruct (pipewrite_pass _ _ _ _ _ _ _ Hok Hrun) as (acc' & _ & Hok' & Hc & He & HC). split; [done|].
    assert (used p = PIPESIZE -> used p' = PIPESIZE) as Hu.
    { pose proof (po_used _ Hok'). rewrite <- !length_contents in *. rewrite Hc, length_app in *. lia. }
    pose proof Hops as Hall. rewrite Forall_lookup in Hall. pose proof (Hall _ _ Hi) as [Hwo _]. clear Hall.
    destruct HC as [[-> ->]|(Hne & Hfull & [(-> & [Hro|Hf])|(-> & Hro & _)])].
    + rewrite bool_decide_true by done. apply (live_wake p p' true); [by apply Forall_delete|done|exact Hu].
    + rewrite bool_decide_false by done. apply Forall_delete. eapply Forall_impl; [exact Hops|].
      destruct He as [Er Ew]. intros [[rest0 n0|n0] a0]; unfold op_live; cbn [fst snd];
        rewrite ?Er, ?Ew; intuition done.
    + done.
    + unfold wake. rewrite list_fmap_insert. apply Forall_insert.
      * by apply (live_wake p p' true).
      * destruct He as [Er Ew]. unfold op_live. cbn. by rewrite Er, Ew.
  - assert (killed = false) as -> by (destruct killed; [by specialize (Hk eq_refl)|done]).
    pose proof Hops as Hall. rewrite Forall_lookup in Hall. pose proof (Hall _ _ Hi) as (Hn & Hro & _). clear Hall.
    destruct (piperead_pass _ _ _ _ _ _ Hok Hn Hrun) as (Hok' & Hc & He & HC). split; [done|].
    destruct HC as [(-> & _ & -> & Hu & Hwo & _)|[(_ & _ & _ & Hf)|(-> & _ & _)]]; [|done|].
    + apply Forall_insert; [done|]. unfold op_live. cbn. done.
    + rewrite (proj2 (Z.eqb_neq _ _)) by lia. apply (live_wake p p' false); [by apply Forall_delete|done|].
      intros Hu. rewrite <- length_contents in *. rewrite Hc, length_app in Hu. lia.
  - destruct (pipeclose_ok w p Hok) as (Hok' & _ & Hu). split; [done|].
    apply Forall_fmap. apply Forall_lookup. intros j o Hj. cbn.
    unfold no_op in Hno. rewrite Forall_lookup in Hops, Hno. pose proof (Hops j o Hj) as Ho. pose proof (Hno j o Hj) as Hn.
    destruct o as [[rest n|n] a], w; cbn in Hn; try done; unfold op_live in *; cbn [fst snd is_reader] in *; cbn; intuition done.
Qed.

(** C20: as long as no process is killed while it uses the pipe, no wakeup is
    lost: a writer sleeps only while the pipe is full and has a reader, a reader
    only while it is empty and has a writer. *)
Theorem pipe_no_lost_wakeup d y o :
  Z.of_nat (length d) = PIPESIZE -> rtc (pstep false) (sys_init d) y -> o ∈ sy_ops y -> o.2 = true ->
  match o.1 with
  | PW _ _ => used (sy_pipe y) = PIPESIZE /\ readopen (sy_pipe y) <> 0
  | PR _ => used (sy_pipe y) = 0 /\ writeopen (sy_pipe y) <> 0
  end.
Proof.
  intros Hd Hr Ho Ha. assert (live_inv y) as [_ Hops].
  { apply (rtc_preserves (pstep false) live_inv (sys_init d) y); [apply live_step|done|].
    split; [by apply pipe_init_ok|constructor]. }
  rewrite Forall_forall in Hops. specialize (Hops o Ho). unfold op_live in Hops.
  destruct o as [[rest n|n] a]; cbn in *; tauto.
Qed.

(** A killed writer loses a wakeup: the reader that sleeps on the empty pipe is
    not woken by 512 bytes written before the writer finds the pipe full. *)
Definition zeros (n : nat) : list Z := replicate n 0.
Example killed_writer_loses_wakeup :
  exists y, rtc (pstep true) (sys_init (zeros 512)) y /\
    sy_ops y = [(PR 1, true)] /\ used (sy_pipe y) = 512.
Proof.
  eexists. split; [|split].
  - eapply rtc_l; [apply st_read with (n := 1); done|].
    eapply rtc_l; [apply (st_run_read true) with (i := 0%nat) (killed := false); done|].
    eapply rtc_l; [apply st_write with (bytes := zeros 513); done|].
    eapply rtc_l; [|apply rtc_refl].
    eapply (st_run_write true) with (i := 1%nat) (killed := true) (acc := zeros 512);
      [reflexivity|done|vm_compute; reflexivity|reflexivity].
  - reflexivity.
  - reflexivity.
Qed.

(** ** Witnesses *)

Lemma pipe_fifo_witness :
  exists y, rtc (pstep false) (sys_init (zeros 512)) y /\ sy_in y = sy_out y ++ contents (sy_pipe y) /\
    sy_in y = [7; 8; 9] /\ sy_out y = [7; 8].
Proof.
  assert (exists y, rtc (pstep false) (sys_init (zeros 512)) y /\ sy_in y = [7; 8; 9] /\ sy_out y = [7; 8])
    as (y & Hr & Hi & Ho).
  { eexists. split; [|split].
    - eapply rtc_l; [apply st_write with (bytes := [7; 8; 9]); done|].
      eapply rtc_l; [eapply (st_run_write false) with (i := 0%nat) (killed := false) (acc := [7; 8; 9]); reflexivity || done|].
      eapply rtc_l; [apply st_read with (n := 2); done|].
      eapply rtc_l; [eapply (st_run_read false) with (i := 0%nat) (killed := false); reflexivity || done|].
      apply rtc_refl.
    - reflexivity.
    - reflexivity. }
  exists y. split; [exact Hr|]. split; [|split; [exact Hi|exact Ho]].
  apply (pipe_fifo false (zeros 512) y); [reflexivity|exact Hr].
Defined.

Lemma pipe_no_lost_wakeup_witness :
  exists y o, rtc (pstep false) (sys_init (zeros 512)) y /\ o ∈ sy_ops y /\ o.2 = true /\
    used (sy_pipe y) = 0 /\ writeopen (sy_pipe y) <> 0.
Proof.
  assert (exists y, rtc (pstep false) (sys_init (zeros 512)) y /\ sy_ops y = [(PR 1, true)]) as (y & Hr & Ho).
  { eexists. split.
    - eapply rtc_l; [apply st_read with (n := 1); done|].
      eapply rtc_l; [eapply (st_run_read false) with (i := 0%nat) (killed := false); reflexivity || done|].
      apply rtc_refl.
    - reflexivity. }
  exists y, (PR 1, true). assert ((PR 1, true) ∈ sy_ops y) as Hin by (rewrite Ho; left).
  split; [exact Hr|]. split; [exact Hin|]. split; [reflexivity|].
  exact (pipe_no_lost_wakeup (zeros 512) y (PR 1, true) eq_refl Hr Hin eq_refl).
Defined.
