(* ===== verification/Block.v ===== *)
(** * Disk blocks as bytes (fs.h, buf.h)

    A block is a list of bytes.  C structures laid over a block are read and
    written through little-endian accessors at byte offsets. *)

From S2P Require Import Prelude.
From stdpp Require Import base list.
From Stdlib Require Import ZArith Lia.
#[local] Open Scope Z_scope.

Definition BSIZE : Z := 512.
Notation blk := (list Z).

Definition byte_at (d : blk) (o : Z) : Z := nth (Z.to_nat o) d 0 mod 256.
Definition set_byte (d : blk) (o v : Z) : blk := <[Z.to_nat o := v mod 256]> d.

(** A [ushort] and a [uint] at a byte offset. *)
Definition half_at (d : blk) (o : Z) : Z := byte_at d o + 256 * byte_at d (o + 1).
Definition set_half (d : blk) (o v : Z) : blk := set_byte (set_byte d o v) (o + 1) (v / 256).
Definition word_at (d : blk) (o : Z) : Z := half_at d o + 65536 * half_at d (o + 2).
Definition set_word (d : blk) (o v : Z) : blk := set_half (set_half d o v) (o + 2) (v / 65536).

Lemma byte_at_range d o : 0 <= byte_at d o < 256.
Proof. unfold byte_at. dlia. Qed.
Lemma half_at_range d o : 0 <= half_at d o < 65536.
Proof. unfold half_at. pose proof (byte_at_range d o). pose proof (byte_at_range d (o + 1)). lia. Qed.
Lemma word_at_range d o : is_u32 (word_at d o).
Proof. unfold is_u32, word_at. pose proof (half_at_range d o). pose proof (half_at_range d (o + 2)). lia. Qed.

Lemma length_set_byte d o v : length (set_byte d o v) = length d.
Proof. apply length_insert. Qed.
Lemma length_set_half d o v : length (set_half d o v) = length d.
Proof. unfold set_half. by rewrite !length_set_byte. Qed.
Lemma length_set_word d o v : length (set_word d o v) = length d.
Proof. unfold set_word. by rewrite !length_set_half. Qed.
#[export] Hint Rewrite length_set_byte length_set_half length_set_word : xv6.

Definition in_block (d : blk) (o n : Z) : Prop := 0 <= o /\ o + n <= Z.of_nat (length d).

Lemma byte_at_set_byte d o v p :
  in_block d o 1 -> 0 <= p -> byte_at (set_byte d o v) p = if decide (p = o) then v mod 256 else byte_at d p.
Proof.
  intros [Ho Hl] Hp. unfold byte_at, set_byte. rewrite !nth_lookup. case_decide as E.
  - subst p. rewrite list_lookup_insert_eq by lia. cbn. dlia.
  - by rewrite list_lookup_insert_ne by lia.
Qed.
Lemma byte_at_set_half d o v p :
  in_block d o 2 -> 0 <= p ->
  byte_at (set_half d o v) p = if decide (p = o) then v mod 256 else
    if decide (p = o + 1) then v / 256 mod 256 else byte_at d p.
Proof.
  intros [Ho Hl] Hp. unfold set_half.
  rewrite !byte_at_set_byte by (unfold in_block; rewrite ?length_set_byte; lia).
  repeat case_decide; done || lia.
Qed.
Lemma half_at_set_half d o v p :
  in_block d o 2 -> 0 <= p -> p = o \/ p + 2 <= o \/ o + 2 <= p ->
  half_at (set_half d o v) p = if decide (p = o) then v mod 65536 else half_at d p.
Proof.
  intros Hb Hp Hd. unfold half_at. rewrite !byte_at_set_half by (done || lia).
  repeat case_decide; try lia. dlia.
Qed.
Lemma half_at_set_word d o v p :
  in_block d o 4 -> 0 <= p -> p = o \/ p = o + 2 \/ p + 2 <= o \/ o + 4 <= p ->
  half_at (set_word d o v) p = if decide (p = o) then v mod 65536 else
    if decide (p = o + 2) then v / 65536 mod 65536 else half_at d p.
Proof.
  intros [Ho Hl] Hp Hd. unfold set_word.
  rewrite !half_at_set_half by (unfold in_block; rewrite ?length_set_half; lia).
  repeat case_decide; done || lia.
Qed.
Lemma word_at_set_word d o v p :
  in_block d o 4 -> 0 <= p -> p = o \/ p + 4 <= o \/ o + 4 <= p ->
  word_at (set_word d o v) p = if decide (p = o) then u32 v else word_at d p.
Proof.
  intros Hb Hp Hd. unfold word_at, u32. rewrite !half_at_set_word by (done || lia).
  repeat case_decide; try lia. dlia.
Qed.
