(* ===== verification/Bio.v ===== *)
(** * The buffer cache (bio.c) over a disk (memide.c)

    Thirty buffers in most-recently-used order.  [bread] returns a locked buffer
    with the contents of a block, [bwrite] writes it to disk, [brelse] gives it
    back.  The model is one process's view: a sleep lock is held by it or free.
    [view] is what [bread] returns for a block: the cached data if there is a
    valid buffer, the disk's otherwise. *)

From S2P Require Import Prelude Block.
From stdpp Require Import base gmap list strings.
From Stdlib Require Import ZArith Lia.
#[local] Open Scope Z_scope.

Definition NBUF : nat := 30.
Definition B_VALID : Z := 0x2.
Definition B_DIRTY : Z := 0x4.

Record buf := mkBuf {
  b_flags : Z; b_dev : Z; b_blockno : Z; b_locked : bool; b_refcnt : Z; b_data : blk }.
(** [bcache], with the list through [next] as the list [mru] of buffer numbers,
    and the disk with the history of writes it received. *)
Record bcache := mkCache {
  bufs : list buf; mru : list nat; bc_lock : bool; disksize : Z;
  disk : gmap Z blk; writes : list (Z * blk) }.

Definition disk_at (s : bcache) (n : Z) : blk := default [] (disk s !! n).

Definition set_bufs (bs : list buf) (s : bcache) : bcache :=
  mkCache bs (mru s) (bc_lock s) (disksize s) (disk s) (writes s).
Definition set_mru (l : list nat) (s : bcache) : bcache :=
  mkCache (bufs s) l (bc_lock s) (disksize s) (disk s) (writes s).
Definition set_bc_lock (b : bool) (s : bcache) : bcache :=
  mkCache (bufs s) (mru s) b (disksize s) (disk s) (writes s).
Definition disk_write (n : Z) (d : blk) (s : bcache) : bcache :=
  mkCache (bufs s) (mru s) (bc_lock s) (disksize s) (<[n := d]> (disk s)) (writes s ++ [(n, d)]).

Definition get_buf (i : nat) : M bcache buf := fun s =>
  match bufs s !! i with Some b => Ret b s | None => Undef "buffer" end.
Definition upd_buf (i : nat) (f : buf -> buf) : M bcache unit := fun s =>
  match bufs s !! i with Some b => Ret tt (set_bufs (<[i := f b]> (bufs s)) s) | None => Undef "buffer" end.
Definition with_flags (fl : Z) (b : buf) : buf :=
  mkBuf fl (b_dev b) (b_blockno b) (b_locked b) (b_refcnt b) (b_data b).
Definition with_locked (l : bool) (b : buf) : buf :=
  mkBuf (b_flags b) (b_dev b) (b_blockno b) l (b_refcnt b) (b_data b).
Definition with_refcnt (r : Z) (b : buf) : buf :=
  mkBuf (b_flags b) (b_dev b) (b_blockno b) (b_locked b) r (b_data b).
Definition with_data (d : blk) (b : buf) : buf :=
  mkBuf (b_flags b) (b_dev b) (b_blockno b) (b_locked b) (b_refcnt b) d.

(** [bcache.lock], and the sleep lock of a buffer. *)
Definition acquire_bcache : M bcache unit :=
  b ← gets bc_lock; if (b : bool) then panic "acquire" else modify (set_bc_lock true).
Definition release_bcache : M bcache unit :=
  b ← gets bc_lock; if (b : bool) then modify (set_bc_lock false) else panic "release".
Definition acquiresleep_buf (i : nat) : M bcache unit :=
  b ← get_buf i; if b_locked b then blocked "buffer lock" else upd_buf i (with_locked true).

(** Buffers in the order [binit] links them, the last one first. *)
Definition binit_buf : buf := mkBuf 0 0 0 false 0 [].
Definition binit (size : Z) (d : gmap Z blk) : bcache :=
  mkCache (replicate NBUF binit_buf) (foldl (fun l b => b :: l) [] (seq 0 NBUF)) false size d [].

(** Walk the list for the first buffer with a property. *)
Fixpoint scan (f : buf -> bool) (ids : list nat) (bs : list buf) : option nat :=
  match ids with
  | [] => None
  | i :: ids =>
      match bs !! i with
      | Some b => if f b then Some i else scan f ids bs
      | None => scan f ids bs
      end
  end.

Definition bget (dev blockno : Z) : M bcache nat :=
  _ ← acquire_bcache;
  s ← gets id;
  match scan (fun b => (b_dev b =? dev) && (b_blockno b =? blockno)) (mru s) (bufs s) with
  | Some i =>
      _ ← upd_buf i (fun b => with_refcnt (u32 (b_refcnt b + 1)) b);
      _ ← release_bcache;
      _ ← acquiresleep_buf i;
      mret i
  | None =>
      match scan (fun b => (b_refcnt b =? 0) && (Z.land (b_flags b) B_DIRTY =? 0)) (rev (mru s)) (bufs s) with
      | Some i =>
          _ ← upd_buf i (fun b => mkBuf 0 dev blockno (b_locked b) 1 (b_data b));
          _ ← release_bcache;
          _ ← acquiresleep_buf i;
          mret i
      | None => panic "bget: no buffers"
      end
  end.

(** [iderw] of memide.c. *)
Definition iderw (i : nat) : M bcache unit :=
  b ← get_buf i;
  if negb (b_locked b) then panic "iderw: buf not locked"
  else if Z.land (b_flags b) (Z.lor B_VALID B_DIRTY) =? B_VALID then panic "iderw: nothing to do"
  else if negb (b_dev b =? 1) then panic "iderw: request not for disk 1"
  else
    size ← gets disksize;
    if b_blockno b >=? u32 size then panic "iderw: block out of range"
    else
      _ ← (if c_true (Z.land (b_flags b) B_DIRTY) then
             _ ← upd_buf i (fun b => with_flags (Z.land (b_flags b) (Z.lnot B_DIRTY)) b);
             modify (disk_write (b_blockno b) (b_data b))
           else d ← gets (fun s => disk_at s (b_blockno b)); upd_buf i (with_data d));
      upd_buf i (fun b => with_flags (Z.lor (b_flags b) B_VALID) b).

Definition bread (dev blockno : Z) : M bcache nat :=
  i ← bget dev blockno;
  b ← get_buf i;
  _ ← when (Z.land (b_flags b) B_VALID =? 0) (iderw i);
  mret i.

Definition bwrite (i : nat) : M bcache unit :=
  b ← get_buf i;
  if negb (b_locked b) then panic "bwrite"
  else
    _ ← upd_buf i (fun b => with_flags (Z.lor (b_flags b) B_DIRTY) b);
    iderw i.

Definition brelse (i : nat) : M bcache unit :=
  b ← get_buf i;
  if negb (b_locked b) then panic "brelse"
  else
    _ ← upd_buf i (with_locked false);
    _ ← acquire_bcache;
    _ ← upd_buf i (fun b => with_refcnt (u32 (b_refcnt b - 1)) b);
    b ← get_buf i;
    _ ← when (b_refcnt b =? 0) (modify (fun s => set_mru (i :: filter (fun j => j <> i) (mru s)) s));
    release_bcache.

(** Read and overwrite the data of a locked buffer. *)
Definition buf_data (i : nat) : M bcache blk := b ← get_buf i; mret (b_data b).
Definition set_data (i : nat) (d : blk) : M bcache unit := upd_buf i (with_data d).

(** ** What the cache represents *)

Definition is_dirty (b : buf) : bool := negb (Z.land (b_flags b) B_DIRTY =? 0).
Definition is_valid (b : buf) : bool := negb (Z.land (b_flags b) B_VALID =? 0).
Definition caches (n : Z) (b : buf) : bool := (b_dev b =? 1) && (b_blockno b =? n).
Definition view (s : bcache) (n : Z) : blk :=
  match scan (fun b => caches n b && is_valid b) (seq 0 NBUF) (bufs s) with
  | Some i => match bufs s !! i with Some b => b_data b | None => [] end
  | None => disk_at s n
  end.
(** Buffers that are not pinned by the log. *)
Definition dirty_at (s : bcache) (i : nat) : bool :=
  match bufs s !! i with Some b => is_dirty b | None => false end.
Definition clean (s : bcache) : nat := length (filter (fun i => dirty_at s i = false) (seq 0 NBUF)).

(** [held]: the buffers this process has locked. *)
Record cache_ok (s : bcache) (held : list nat) : Prop := {
  co_len : length (bufs s) = NBUF;
  co_mru : mru s ≡ₚ seq 0 NBUF;
  co_lock : bc_lock s = false;
  co_nodup : NoDup held;
  co_held i b : bufs s !! i = Some b ->
    b_locked b = bool_decide (i ∈ held) /\ b_refcnt b = (if bool_decide (i ∈ held) then 1 else 0);
  co_uniq i j b c n : bufs s !! i = Some b -> bufs s !! j = Some c ->
    caches n b = true -> caches n c = true -> i = j;
  co_flags i b : bufs s !! i = Some b ->
    b_flags b = 0 \/ b_flags b = B_VALID \/ b_flags b = Z.lor B_VALID B_DIRTY;
  co_clean i b : bufs s !! i = Some b -> i ∉ held -> b_dev b = 1 -> b_flags b = B_VALID ->
    b_data b = disk_at s (b_blockno b);
  co_dirty i b : bufs s !! i = Some b -> is_dirty b = true -> b_dev b = 1
}.

(** Block [n] has been modified in the cache and not been written yet. *)
Definition pinned (s : bcache) (n : Z) : Prop :=
  exists i b, bufs s !! i = Some b /\ caches n b = true /\ is_dirty b = true.

Lemma scan_Some f ids bs i :
  scan f ids bs = Some i -> i ∈ ids /\ exists b, bs !! i = Some b /\ f b = true.
Proof.
  induction ids as [|j ids IH]; cbn; [done|].
  destruct (bs !! j) as [b|] eqn:Eb; [destruct (f b) eqn:Ef|].
  - intros [= ->]. split; [by left|]. by exists b.
  - intros [? ?]%IH. split; [by right|done].
  - intros [? ?]%IH. split; [by right|done].
Qed.
Lemma scan_None f ids bs i b :
  scan f ids bs = None -> i ∈ ids -> bs !! i = Some b -> f b = false.
Proof.
  induction ids as [|j ids IH]; cbn; [by intros _ ?%not_elem_of_nil|].
  intros Hs [->|Hi]%elem_of_cons Hb; [|destruct (bs !! j) as [c|]; [destruct (f c)|]; by auto].
  rewrite Hb in Hs. by destruct (f b).
Qed.

Lemma caches_spec n b : caches n b = true <-> b_dev b = 1 /\ b_blockno b = n.
Proof. unfold caches. rewrite andb_true_iff, !Z.eqb_eq. done. Qed.

Section Cache.
  Variables (s : bcache) (held : list nat).
  Hypothesis Hok : cache_ok s held.

Lemma buf_index i b : bufs s !! i = Some b -> i ∈ seq 0 NBUF /\ (i < NBUF)%nat.
Proof.
  intros Hb. apply lookup_lt_Some in Hb. rewrite (co_len _ _ Hok) in Hb. split; [|done].
  apply elem_of_seq. lia.
Qed.

Lemma view_cached i b n :
  bufs s !! i = Some b -> caches n b = true -> is_valid b = true -> view s n = b_data b.
Proof.
  intros Hb Hc Hv. unfold view. destruct (scan _ _ _) as [j|] eqn:E.
  - apply scan_Some in E as (_ & c & Hj & [Hcc _]%andb_true_iff). rewrite Hj.
    rewrite (co_uniq _ _ Hok i j b c n Hb Hj Hc Hcc) in Hb. congruence.
  - apply (scan_None _ _ _ i b) in E; [|by apply (buf_index i b)|done]. cbv beta in E. by rewrite Hc, Hv in E.
Qed.
Lemma view_uncached n :
  (forall i b, bufs s !! i = Some b -> caches n b = true -> is_valid b = false) -> view s n = disk_at s n.
Proof.
  intros Hn. unfold view. destruct (scan _ _ _) as [j|] eqn:E; [|done].
  apply scan_Some in E as (_ & c & Hj & [Hcc Hv]%andb_true_iff). by rewrite (Hn j c Hj Hcc) in Hv.
Qed.
Lemma view_cases n :
  (exists i b, bufs s !! i = Some b /\ caches n b = true /\ is_valid b = true /\ view s n = b_data b) \/
  ((forall i b, bufs s !! i = Some b -> caches n b = true -> is_valid b = false) /\ view s n = disk_at s n).
Proof.
  unfold view. destruct (scan _ _ _) as [j|] eqn:E.
  - left. apply scan_Some in E as (_ & c & Hj & [Hcc Hv]%andb_true_iff). exists j, c. by rewrite Hj.
  - right. split; [|done]. intros i b Hb Hc. apply (scan_None _ _ _ i b) in E; [|by apply (buf_index i b)|done].
    cbv beta in E. by rewrite Hc in E.
Qed.
(** A buffer of this disk that is clean and not in use can be dropped. *)
Lemma view_clean i b :
  bufs s !! i = Some b -> i ∉ held -> b_dev b = 1 -> is_dirty b = false ->
  view s (b_blockno b) = disk_at s (b_blockno b).
Proof.
  intros Hb Hi Hd Hn. assert (caches (b_blockno b) b = true) as Hc by by apply caches_spec.
  destruct (is_valid b) eqn:Hv.
  - rewrite (view_cached i b) by done. apply (co_clean _ _ Hok i b); try done.
    unfold is_dirty, is_valid in *.
    by destruct (co_flags _ _ Hok i b Hb) as [E|[E|E]]; rewrite E in *.
  - apply view_uncached. intros j c Hj Hcc. by rewrite (co_uniq _ _ Hok j i c b _ Hj Hb Hcc Hc) in Hj; simplify_eq.
Qed.

(** Fewer buffers held than clean leaves one to recycle. *)
Lemma clean_free :
  (length held < clean s)%nat -> exists i b, bufs s !! i = Some b /\ i ∉ held /\ is_dirty b = false.
Proof.
  intros Hlt. destruct (decide (Exists (fun i => i ∉ held) (filter (fun i => dirty_at s i = false) (seq 0 NBUF))))
    as [He|Hn].
  - apply Exists_exists in He as (i & [Hd Hi]%list_elem_of_filter & Hh).
    apply elem_of_seq in Hi as [_ Hi].
    destruct (lookup_lt_is_Some_2 (bufs s) i) as [b Hb]; [rewrite (co_len _ _ Hok); lia|].
    exists i, b. split; [done|]. split; [done|]. unfold dirty_at in Hd. by rewrite Hb in Hd.
  - exfalso. apply not_Exists_Forall in Hn; [|intros; apply _]. unfold clean in Hlt.
    assert (length (filter (fun i => dirty_at s i = false) (seq 0 NBUF)) <= length held)%nat; [|lia].
    apply submseteq_length, NoDup_submseteq; [apply NoDup_filter, NoDup_seq|].
    intros i Hi. rewrite Forall_forall in Hn. specialize (Hn i Hi). cbn in Hn. by apply dec_stable.
Qed.
End Cache.

(** A buffer this process has locked. *)
Definition held_buf (n fl : Z) (d : blk) : buf := mkBuf fl 1 n true 1 d.
Definition put_buf (i : nat) (b : buf) (s : bcache) : bcache := set_bufs (<[i := b]> (bufs s)) s.
Definition VD : Z := Z.lor B_VALID B_DIRTY.

(** Buffer [i] can be made (or is already) the locked buffer of block [n]; the
    buffers held before and after are [held] and [held']. *)
Record at_buf (s : bcache) (held held' : list nat) (n : Z) (i : nat) : Prop := {
  ab_lt : (i < NBUF)%nat;
  ab_nodup : NoDup held';
  ab_in : i ∈ held';
  ab_held j : j <> i -> (j ∈ held' <-> j ∈ held);
  ab_only j b : bufs s !! j = Some b -> caches n b = true -> j = i;
  ab_old b : bufs s !! i = Some b -> caches n b = true \/ (i ∉ held /\ is_dirty b = false)
}.
Definition locked_flags (fl : Z) : Prop := fl = B_VALID \/ fl = VD.

Lemma get_buf_run i b s : bufs s !! i = Some b -> get_buf i s = Ret b s.
Proof. intros Hb. unfold get_buf. by rewrite Hb. Qed.
Lemma upd_buf_run i b f s : bufs s !! i = Some b -> upd_buf i f s = Ret tt (put_buf i (f b) s).
Proof. intros Hb. unfold upd_buf. by rewrite Hb. Qed.
Lemma put_buf_lookup i b c s : bufs s !! i = Some b -> bufs (put_buf i c s) !! i = Some c.
Proof. intros Hb. cbn. apply list_lookup_insert_eq. by apply lookup_lt_Some in Hb. Qed.
Lemma put_put_buf i b c s : put_buf i b (put_buf i c s) = put_buf i b s.
Proof. unfold put_buf, set_bufs. cbn. by rewrite list_insert_insert_eq. Qed.
Lemma put_disk_write i b n d s : put_buf i b (disk_write n d s) = disk_write n d (put_buf i b s).
Proof. done. Qed.

Lemma wp_get_buf i b Q s : bufs s !! i = Some b -> Q b s -> wp (get_buf i) Q s.
Proof. intros Hb HQ. unfold wp. by rewrite (get_buf_run i b). Qed.
Lemma wp_upd_buf i b f Q s : bufs s !! i = Some b -> Q tt (put_buf i (f b) s) -> wp (upd_buf i f) Q s.
Proof. intros Hb HQ. unfold wp. by rewrite (upd_buf_run i b). Qed.

Lemma iderw_read i b s :
  bufs s !! i = Some b -> b_locked b = true -> b_flags b = 0 -> b_dev b = 1 ->
  b_blockno b < u32 (disksize s) ->
  wp (iderw i) (fun _ s' => s' = put_buf i (with_flags B_VALID (with_data (disk_at s (b_blockno b)) b)) s) s.
Proof.
  intros Hb Hl Hf Hd Hn. unfold iderw. wp_step. apply (wp_get_buf i b); [done|].
  rewrite Hl, Hf, Hd. cbn [negb Z.land Z.lor Z.eqb Pos.eqb]. change (B_VALID =? 0) with false.
  change (Z.land 0 (Z.lor B_VALID B_DIRTY) =? B_VALID) with false. cbv iota. wp_steps.
  rewrite Z.geb_leb, (proj2 (Z.leb_gt _ _)) by done. change (c_true 0) with false. cbv iota.
  wp_steps. apply (wp_upd_buf i b); [done|].
  eapply wp_upd_buf; [eapply put_buf_lookup; done|]. rewrite put_put_buf. unfold with_flags. cbn. by rewrite Hf.
Qed.

Lemma iderw_write i b s :
  bufs s !! i = Some b -> b_locked b = true -> b_flags b = VD -> b_dev b = 1 ->
  b_blockno b < u32 (disksize s) ->
  wp (iderw i) (fun _ s' => s' = disk_write (b_blockno b) (b_data b) (put_buf i (with_flags B_VALID b) s)) s.
Proof.
  intros Hb Hl Hf Hd Hn. unfold iderw. wp_step. apply (wp_get_buf i b); [done|].
  rewrite Hl, Hf, Hd. change (Z.land VD (Z.lor B_VALID B_DIRTY) =? B_VALID) with false.
  cbn [negb Z.eqb Pos.eqb]. wp_steps.
  rewrite Z.geb_leb, (proj2 (Z.leb_gt _ _)) by done. change (c_true (Z.land VD B_DIRTY)) with true. cbv iota.
  wp_steps. apply (wp_upd_buf i b); [done|]. wp_steps.
  eapply wp_upd_buf; [eapply (put_buf_lookup i b); done|].
  rewrite put_disk_write, put_put_buf. unfold with_flags. cbn. by rewrite Hf.
Qed.

Lemma mru_index s held i : cache_ok s held -> (i < NBUF)%nat -> i ∈ mru s.
Proof. intros Hok Hi. rewrite (co_mru _ _ Hok). apply elem_of_seq. lia. Qed.

Lemma bget_run s held n :
  cache_ok s held -> (forall i b, i ∈ held -> bufs s !! i = Some b -> b_blockno b <> n) ->
  pinned s n \/ (length held < clean s)%nat ->
  wp (bget 1 n) (fun i s' => exists b fl d, bufs s !! i = Some b /\ i ∉ held /\
     s' = put_buf i (held_buf n fl d) s /\
     (forall j c, bufs s !! j = Some c -> caches n c = true -> j = i) /\
     (caches n b = true /\ fl = b_flags b /\ d = b_data b \/
      is_dirty b = false /\ fl = 0 /\ forall c, bufs s !! i = Some c -> caches n c = false)) s.
Proof.
  intros Hok Hheld Hfree. unfold bget, acquire_bcache. wp_steps. rewrite (co_lock _ _ Hok). wp_steps.
  unfold id. change (bufs (set_bc_lock true s)) with (bufs s). change (mru (set_bc_lock true s)) with (mru s).
  assert (forall i b f, bufs s !! i = Some b -> b_locked (f b) = false ->
    wp (_ ← upd_buf i f; _ ← release_bcache; _ ← acquiresleep_buf i; mret i)
       (fun i' s' => i' = i /\ s' = put_buf i (with_locked true (f b)) s) (set_bc_lock true s)) as Hlock.
  { intros i b f Hb Hl. wp_step. apply (wp_upd_buf i b); [done|]. unfold release_bcache. wp_steps. cbn [bc_lock put_buf set_bufs set_bc_lock].
    wp_steps. unfold acquiresleep_buf. wp_steps.
    eapply wp_get_buf; [cbn; apply list_lookup_insert_eq; by apply lookup_lt_Some in Hb|].
    rewrite Hl. eapply wp_upd_buf; [cbn; apply list_lookup_insert_eq; by apply lookup_lt_Some in Hb|].
    wp_step. split; [done|]. unfold put_buf, set_bufs, set_bc_lock. cbn. rewrite list_insert_insert_eq.
    f_equal. symmetry. apply (co_lock _ _ Hok). }
  destruct (scan _ (mru s) (bufs s)) as [i|] eqn:E1.
  - apply scan_Some in E1 as (_ & b & Hb & Hc). change (caches n b = true) in Hc.
    assert (i ∉ held) as Hi by (intros Hin; apply caches_spec in Hc as [_ Hc]; by apply (Hheld i b)).
    destruct (co_held _ _ Hok i b Hb) as [Hbl Hbr]. rewrite bool_decide_false in Hbl, Hbr by done.
    wp_use (Hlock i b); [done|done|]. intros i' s' [-> ->]. exists b, (b_flags b), (b_data b).
    split; [done|]. split; [done|]. apply caches_spec in Hc as Hc'. destruct Hc' as [Hd Hn].
    split; [|split; [|by left]].
    + unfold with_locked, with_refcnt, held_buf. cbn. by rewrite Hbr, Hd, Hn.
    + intros j c Hj Hcc. by apply (co_uniq _ _ Hok j i c b n).
  - destruct (scan _ (rev (mru s)) (bufs s)) as [i|] eqn:E2.
    + apply scan_Some in E2 as (_ & b & Hb & [Hr Hd]%andb_true_iff). apply Z.eqb_eq in Hr, Hd.
      destruct (co_held _ _ Hok i b Hb) as [Hbl Hbr].
      assert (i ∉ held) as Hi by (intros Hin; rewrite bool_decide_true in Hbr by done; lia).
      rewrite bool_decide_false in Hbl by done.
      assert (forall j c, bufs s !! j = Some c -> caches n c = false) as Hnone.
      { intros j c Hj. apply (scan_None _ _ _ j c E1); [|done]. apply (mru_index s held); [done|].
        by apply (buf_index s held Hok j c). }
      wp_use (Hlock i b); [done|done|]. intros i' s' [-> ->]. exists b, 0, (b_data b).
      split; [done|]. split; [done|]. split; [done|]. split.
      * intros j c Hj Hcc. by rewrite (Hnone j c Hj) in Hcc.
      * right. split; [unfold is_dirty; by rewrite Hd|]. split; [done|]. intros c Hc. by apply (Hnone i).
    + exfalso. destruct Hfree as [(j & c & Hj & Hc & _)|Hfree].
      { pose proof (scan_None _ _ _ j c E1) as Hn. cbv beta in Hn. unfold caches in Hc. rewrite Hc in Hn.
        discriminate Hn; [|done]. apply (mru_index s held); [done|]. by apply (buf_index s held Hok j c). }
      destruct (clean_free s held Hok Hfree) as (i & b & Hb & Hi & Hd).
      apply (scan_None _ _ _ i b) in E2; [|rewrite list_elem_of_In, <- in_rev, <- list_elem_of_In;
        apply (mru_index s held); [done|]; by apply (buf_index s held Hok i b)|done].
      destruct (co_held _ _ Hok i b Hb) as [_ Hbr]. rewrite bool_decide_false in Hbr by done.
      unfold is_dirty in Hd. apply negb_false_iff in Hd. cbv beta in E2. by rewrite Hbr, Hd in E2.
Qed.

Lemma held_valid n fl d : locked_flags fl -> is_valid (held_buf n fl d) = true.
Proof. by intros [->| ->]. Qed.
Lemma held_dirty n fl d : locked_flags fl -> is_dirty (held_buf n fl d) = true <-> fl = VD.
Proof. by intros [->| ->]. Qed.

Lemma bread_run s held n :
  cache_ok s held -> (forall i b, i ∈ held -> bufs s !! i = Some b -> b_blockno b <> n) ->
  pinned s n \/ (length held < clean s)%nat -> 0 <= n < u32 (disksize s) ->
  wp (bread 1 n) (fun i s' => exists fl, at_buf s held (i :: held) n i /\ locked_flags fl /\ i ∉ held /\
     (fl = VD <-> pinned s n) /\ s' = put_buf i (held_buf n fl (view s n)) s) s.
Proof.
  intros Hok Hheld Hfree Hn. unfold bread. wp_step. wp_use (bget_run s held n); [done..|].
  intros i s1 (b & fl & d & Hb & Hi & -> & Honly & HC). pose proof (buf_index s held Hok i b Hb) as [_ Hlt].
  wp_step. eapply wp_get_buf; [eapply put_buf_lookup; done|]. cbn [b_flags held_buf].
  assert (at_buf s held (i :: held) n i) as Hat.
  { split; [done|apply NoDup_cons; split; [done|apply Hok]|left| |exact Honly|].
    - intros j Hj. rewrite elem_of_cons. naive_solver.
    - intros c Hc. replace c with b by congruence. destruct HC as [(? & _)|(? & _)]; auto. }
  assert (locked_flags fl /\ caches n b = true /\ d = b_data b /\ fl = b_flags b \/
          fl = 0 /\ is_dirty b = false /\ view s n = disk_at s n) as [(Hfl & Hc & -> & ->)|(-> & Hd & Hv)].
  { destruct HC as [(Hc & -> & ->)|(Hd & -> & Hc)].
    - destruct (co_flags _ _ Hok i b Hb) as [E|E]; [right|left].
      + split; [done|]. split; [unfold is_dirty; by rewrite E|]. apply (view_uncached s).
        intros j c Hj Hcc. rewrite (Honly j c Hj Hcc) in Hj. replace c with b by congruence.
        unfold is_valid. by rewrite E.
      + split; [|done]. exact E.
    - right. split; [done|]. split; [done|]. apply (view_uncached s).
      intros j c Hj Hcc. rewrite (Honly j c Hj Hcc) in Hj. by rewrite (Hc c Hj) in Hcc. }
  - rewrite (proj2 (Z.eqb_neq _ 0)) by (destruct Hfl as [->| ->]; done). unfold when. wp_steps.
    exists (b_flags b). split; [done|]. split; [done|]. split; [done|]. split.
    + split; [intros Hvd; exists i, b; unfold is_dirty; by rewrite Hvd|].
      intros (j & c & Hj & Hcc & Hdc). rewrite (Honly j c Hj Hcc) in Hj. replace c with b in * by congruence.
      unfold is_dirty in Hdc. by destruct Hfl as [E| ->]; [rewrite E in Hdc|].
    + rewrite (view_cached s held Hok i b); [done|done|done|]. unfold is_valid. by destruct Hfl as [->| ->].
  - change (Z.land 0 B_VALID =? 0) with true. unfold when. wp_step.
    wp_use (iderw_read i (held_buf n 0 d)); [by eapply put_buf_lookup|done|done|done|apply Hn|].
    intros _ s2 ->. wp_step. exists B_VALID. split; [done|]. split; [by left|]. split; [done|]. split.
    + split; [done|]. intros (j & c & Hj & Hcc & Hdc). rewrite (Honly j c Hj Hcc) in Hj.
      replace c with b in * by congruence. by rewrite Hd in Hdc.
    + rewrite put_put_buf, Hv. done.
Qed.

Section Hold.
  Variables (s : bcache) (held held' : list nat) (n fl : Z) (i : nat) (d : blk).
  Hypotheses (Hok : cache_ok s held) (Hat : at_buf s held held' n i) (Hfl : locked_flags fl).
  Notation s' := (put_buf i (held_buf n fl d) s).

Lemma hold_lookup j : bufs s' !! j = if decide (j = i) then Some (held_buf n fl d) else bufs s !! j.
Proof.
  cbn. case_decide as E; [subst j|by apply list_lookup_insert_ne].
  apply list_lookup_insert_eq. rewrite (co_len _ _ Hok). apply Hat.
Qed.

Lemma hold_cache_ok : cache_ok s' held'.
Proof.
  split.
  - cbn. rewrite length_insert. apply Hok.
  - apply Hok.
  - apply Hok.
  - apply Hat.
  - intros j b. rewrite hold_lookup. case_decide as E.
    + intros [= <-]. subst j. by rewrite bool_decide_true by apply Hat.
    + intros Hb. destruct (co_held _ _ Hok j b Hb) as [-> ->].
      by rewrite (bool_decide_ext (j ∈ held') (j ∈ held)) by by apply Hat.
  - intros j k b c m. rewrite !hold_lookup. repeat case_decide; subst; try done.
    + intros [= <-] Hc Hm Hcm. apply caches_spec in Hm as [_ <-]. symmetry. by apply (ab_only _ _ _ _ _ Hat k c).
    + intros Hc [= <-] Hcm Hm. apply caches_spec in Hm as [_ <-]. by apply (ab_only _ _ _ _ _ Hat j b).
    + by apply (co_uniq _ _ Hok).
  - intros j b. rewrite hold_lookup. case_decide; [|by apply (co_flags _ _ Hok)].
    intros [= <-]. right. exact Hfl.
  - intros j b. rewrite hold_lookup. case_decide as E; [subst j; intros _ []; apply Hat|].
    intros Hb Hh. apply (co_clean _ _ Hok j b Hb). by rewrite <- (ab_held _ _ _ _ _ Hat j E).
  - intros j b. rewrite hold_lookup. case_decide; [by intros [= <-]|]. apply (co_dirty _ _ Hok).
Qed.

Lemma hold_view m : view s' m = if decide (m = n) then d else view s m.
Proof.
  pose proof hold_cache_ok as Hok'. case_decide as E.
  - subst m. rewrite (view_cached _ _ Hok' i (held_buf n fl d)); [done| | |].
    + rewrite hold_lookup. by rewrite decide_True.
    + by apply caches_spec.
    + by apply held_valid.
  - assert (caches m (held_buf n fl d) = false) as Hnm
      by (unfold caches; cbn; rewrite (proj2 (Z.eqb_neq n m)) by done; done).
    assert (forall k c, k <> i -> bufs s' !! k = Some c <-> bufs s !! k = Some c) as Hk
      by (intros k c ?; rewrite hold_lookup; by rewrite decide_False).
    assert ((forall k c, k <> i -> bufs s !! k = Some c -> caches m c = true -> is_valid c = false) ->
            view s' m = disk_at s m) as Hun.
    { intros Hu. change (disk_at s m) with (disk_at s' m).
      apply view_uncached. intros k c Hc Hcm. destruct (decide (k = i)) as [->|Hki].
      - rewrite hold_lookup, decide_True in Hc by done. injection Hc as <-. by rewrite Hnm in Hcm.
      - apply (Hu k c Hki); [by apply Hk|done]. }
    destruct (view_cases s held Hok m) as [(j & b & Hj & Hc & Hv & Heq)|[Hu Heq]].
    + destruct (decide (j = i)) as [->|Hji].
      * apply caches_spec in Hc as Hc'. destruct Hc' as [Hdev <-].
        destruct (ab_old _ _ _ _ _ Hat b Hj) as [Hcn|[Hh Hd]]; [apply caches_spec in Hcn as [_ Hcn]; congruence|].
        rewrite (view_clean s held Hok i b Hj Hh Hdev Hd).
        apply Hun. intros k c Hki Hkc Hcc. by destruct Hki, (co_uniq _ _ Hok k i c b _ Hkc Hj Hcc Hc).
      * rewrite Heq. apply (view_cached _ _ Hok' j b); [by apply Hk|done|done].
    + rewrite Heq. apply Hun. intros k c _. apply Hu.
Qed.

Lemma hold_pinned m : pinned s' m <-> if decide (m = n) then fl = VD else pinned s m.
Proof.
  split.
  - intros (j & b & Hj & Hc & Hd). rewrite hold_lookup in Hj. case_decide as E; subst.
    + injection Hj as <-. apply caches_spec in Hc as [_ <-]. rewrite decide_True by done.
      by apply (held_dirty n fl d Hfl).
    + case_decide as Em; [subst; by destruct E; apply (ab_only _ _ _ _ _ Hat j b)|]. by exists j, b.
  - case_decide as Em.
    + intros Hvd. exists i, (held_buf n fl d). rewrite hold_lookup, decide_True by done.
      split; [done|]. split; [by apply caches_spec|by apply held_dirty].
    + intros (j & b & Hj & Hc & Hd). exists j, b. rewrite hold_lookup. rewrite decide_False; [done|].
      intros ->. destruct (ab_old _ _ _ _ _ Hat b Hj) as [Hcn|[_ Hd']]; [|congruence].
      apply caches_spec in Hc as [_ <-], Hcn as [_ Hcn]. congruence.
Qed.
End Hold.

(** ** The cache as its clients see it

    [held] pairs the buffers this process has locked with their blocks.  The
    state is described by the contents of the blocks ([view]), the disk, and
    which blocks are [pinned]. *)

Record cache_rep (s : bcache) (held : list (nat * Z)) : Prop := {
  cr_ok : cache_ok s held.*1;
  cr_uniq : NoDup held.*2;
  cr_held i n : (i, n) ∈ held ->
    exists fl d, bufs s !! i = Some (held_buf n fl d) /\ locked_flags fl
}.
(** Same disk and same pinned blocks. *)
Record same_disk (s s' : bcache) : Prop := {
  sd_disk : disk s' = disk s;
  sd_size : disksize s' = disksize s;
  sd_writes : writes s' = writes s
}.

Section Client.
  Variables (s : bcache) (held : list (nat * Z)).
  Hypothesis Hrep : cache_rep s held.

Lemma held_view i n fl d : (i, n) ∈ held -> bufs s !! i = Some (held_buf n fl d) -> view s n = d.
Proof.
  intros Hin Hb. destruct (cr_held _ _ Hrep i n Hin) as (fl' & d' & Hb' & Hfl).
  rewrite Hb in Hb'. injection Hb' as <- <-.
  apply (view_cached s held.*1 (cr_ok _ _ Hrep) i (held_buf n fl d) n Hb); [by apply caches_spec|by apply held_valid].
Qed.

(** A buffer that is held can be overwritten. *)
Lemma held_at_buf i n : (i, n) ∈ held -> at_buf s held.*1 held.*1 n i.
Proof.
  intros Hin. destruct (cr_held _ _ Hrep i n Hin) as (fl & d & Hb & Hfl).
  assert (caches n (held_buf n fl d) = true) as Hc by by apply caches_spec.
  split.
  - by apply (buf_index s held.*1 (cr_ok _ _ Hrep) i _ Hb).
  - apply (co_nodup _ _ (cr_ok _ _ Hrep)).
  - by apply (list_elem_of_fmap_2 fst held (i, n)).
  - done.
  - intros j b Hj Hcj. by apply (co_uniq _ _ (cr_ok _ _ Hrep) j i b (held_buf n fl d) n).
  - intros b Hb'. left. congruence.
Qed.

Lemma held_unique i n m : (i, n) ∈ held -> (i, m) ∈ held -> n = m.
Proof.
  intros (fl & d & Hb & _)%(cr_held _ _ Hrep) (fl' & d' & Hb' & _)%(cr_held _ _ Hrep).
  rewrite Hb in Hb'. by injection Hb'.
Qed.

Lemma put_held_rep i n fl d :
  (i, n) ∈ held -> locked_flags fl -> cache_rep (put_buf i (held_buf n fl d) s) held.
Proof.
  intros Hin Hfl. pose proof (held_at_buf i n Hin) as Hat. split.
  - by apply (hold_cache_ok s held.*1 held.*1 n fl i d (cr_ok _ _ Hrep)).
  - apply Hrep.
  - intros j m Hjm. rewrite (hold_lookup s held.*1 held.*1 n fl i d (cr_ok _ _ Hrep) Hat).
    case_decide as E; [subst j|by apply (cr_held _ _ Hrep)].
    rewrite (held_unique i m n Hjm Hin). by exists fl, d.
Qed.

Lemma bread_ok n :
  n ∉ held.*2 -> pinned s n \/ (length held < clean s)%nat -> 0 <= n < u32 (disksize s) ->
  wp (bread 1 n) (fun i s' => cache_rep s' ((i, n) :: held) /\ same_disk s s' /\
     (forall m, view s' m = view s m) /\ (forall m, pinned s' m <-> pinned s m)) s.
Proof.
  intros Hnh Hfree Hn. pose proof (cr_ok _ _ Hrep) as Hok.
  wp_use (bread_run s held.*1 n); [done| |by rewrite length_fmap|done|].
  { intros i b ([j m] & -> & Hin)%list_elem_of_fmap Hb E. cbn [fst] in Hb. apply Hnh.
    destruct (cr_held _ _ Hrep j m Hin) as (fl & d & Hb' & _). rewrite Hb in Hb'. injection Hb' as ->. cbn [b_blockno held_buf] in E.
    subst m. by apply (list_elem_of_fmap_2 snd held (j, n)). }
  intros i s' (fl & Hat & Hfl & Hi & Hp & ->). split; [|split; [done|split]].
  - split.
    + by apply (hold_cache_ok s held.*1).
    + apply NoDup_cons. split; [done|apply Hrep].
    + intros j m. rewrite (hold_lookup s held.*1 (i :: held.*1)) by done.
      rewrite elem_of_cons. intros [[= -> ->]|Hjm]; [rewrite decide_True by done; by eexists _, _|].
      rewrite decide_False; [by apply (cr_held _ _ Hrep)|]. intros ->.
      apply Hi. by apply (list_elem_of_fmap_2 fst held (i, m)).
  - intros m. rewrite (hold_view s held.*1 (i :: held.*1)) by done. by case_decide; subst.
  - intros m. rewrite (hold_pinned s held.*1 (i :: held.*1)) by done. by case_decide; subst.
Qed.

Lemma buf_data_ok i n : (i, n) ∈ held -> buf_data i s = Ret (view s n) s.
Proof.
  intros Hin. destruct (cr_held _ _ Hrep i n Hin) as (fl & d & Hb & _). rewrite (held_view i n fl d Hin Hb).
  unfold buf_data, mbind, M_bind. by rewrite (get_buf_run i _ s Hb).
Qed.

(** Storing into a held buffer changes the contents of its block. *)
Lemma set_data_ok i n d :
  (i, n) ∈ held ->
  wp (set_data i d) (fun _ s' => cache_rep s' held /\ same_disk s s' /\
     (forall m, view s' m = if decide (m = n) then d else view s m) /\
     (forall m, pinned s' m <-> pinned s m)) s.
Proof.
  intros Hin. pose proof (held_at_buf i n Hin) as Hat. destruct (cr_held _ _ Hrep i n Hin) as (fl & d0 & Hb & Hfl).
  apply (wp_upd_buf i _ _ _ _ Hb). unfold with_data. cbn.
  split; [by apply put_held_rep|]. split; [done|]. split; intros m.
  - by apply (hold_view s held.*1 held.*1 n fl i d (cr_ok _ _ Hrep)).
  - rewrite (hold_pinned s held.*1 held.*1 n fl i d (cr_ok _ _ Hrep) Hat Hfl). case_decide; [subst m|done].
    rewrite <- (held_dirty n fl d0 Hfl). split.
    + intros Hd. exists i, (held_buf n fl d0). split; [done|]. split; [by apply caches_spec|done].
    + intros (j & b & Hj & Hc & Hd). rewrite (ab_only _ _ _ _ _ Hat j b Hj Hc) in Hj. congruence.
Qed.

Lemma pin_ok i n :
  (i, n) ∈ held ->
  wp (upd_buf i (fun b => with_flags (Z.lor (b_flags b) B_DIRTY) b)) (fun _ s' => cache_rep s' held /\
     same_disk s s' /\ (forall m, view s' m = view s m) /\ (forall m, pinned s' m <-> m = n \/ pinned s m) /\
     (exists d, bufs s' !! i = Some (held_buf n VD d))) s.
Proof.
  intros Hin. pose proof (held_at_buf i n Hin) as Hat. destruct (cr_held _ _ Hrep i n Hin) as (fl & d & Hb & Hfl).
  apply (wp_upd_buf i _ _ _ _ Hb). unfold with_flags. cbn [b_flags b_dev b_blockno b_locked b_refcnt b_data held_buf].
  replace (Z.lor fl B_DIRTY) with VD by by destruct Hfl as [->| ->].
  assert (locked_flags VD) as HVD by by right. change (mkBuf VD 1 n true 1 d) with (held_buf n VD d).
  split; [by apply put_held_rep|]. split; [done|]. split; [|split].
  - intros m. rewrite (hold_view s held.*1 held.*1 n VD i d (cr_ok _ _ Hrep)) by done.
    case_decide; [subst m|done]. symmetry. by apply (held_view i n fl).
  - intros m. rewrite (hold_pinned s held.*1 held.*1 n VD i d (cr_ok _ _ Hrep)) by done. case_decide; naive_solver.
  - exists d. by apply (put_buf_lookup _ (held_buf n fl d)).
Qed.
End Client.

Lemma cache_rep_perm s held held' : held ≡ₚ held' -> cache_rep s held -> cache_rep s held'.
Proof.
  intros Hp [Hok Hu Hh]. split; [|by rewrite <- Hp|intros i n; rewrite <- Hp; apply Hh].
  destruct Hok. split; try done; try by rewrite <- Hp.
  - intros i b Hb. destruct (co_held0 i b Hb) as [-> ->].
    by rewrite (bool_decide_ext (i ∈ held'.*1) (i ∈ held.*1)) by by rewrite Hp.
  - intros i b Hb. rewrite <- Hp. by apply co_clean0.
Qed.

Lemma scan_ext f ids bs bs' :
  (forall j, f <$> bs !! j = f <$> bs' !! j) -> scan f ids bs = scan f ids bs'.
Proof.
  intros He. induction ids as [|j ids IH]; cbn; [done|]. specialize (He j).
  destruct (bs !! j), (bs' !! j); cbn in *; [|done..]. injection He as ->. by rewrite IH.
Qed.

(** What releasing a buffer does to its fields does not show. *)
Lemma put_same s i b c :
  bufs s !! i = Some b -> b_flags c = b_flags b -> b_dev c = b_dev b -> b_blockno c = b_blockno b ->
  b_data c = b_data b ->
  (forall m, view (put_buf i c s) m = view s m) /\ (forall m, pinned (put_buf i c s) m <-> pinned s m).
Proof.
  intros Hb Hf Hd Hn Hdt.
  assert (forall j, bufs (put_buf i c s) !! j = if decide (j = i) then Some c else bufs s !! j) as Hlk.
  { intros j. cbn. case_decide as E; [subst j|by apply list_lookup_insert_ne].
    apply list_lookup_insert_eq. by apply lookup_lt_Some in Hb. }
  assert (forall m, caches m c = caches m b) as Hc by (intros m; unfold caches; by rewrite Hd, Hn).
  split; intros m.
  - unfold view. rewrite (scan_ext _ _ (bufs (put_buf i c s)) (bufs s)).
    + destruct (scan _ _ _) as [j|]; [|done]. rewrite Hlk. case_decide; [subst j|done]. by rewrite Hb.
    + intros j. rewrite Hlk. case_decide; [subst j|done]. rewrite Hb. cbn. unfold is_valid. by rewrite Hc, Hf.
  - assert (is_dirty c = is_dirty b) as Hcd by (unfold is_dirty; by rewrite Hf).
    split; intros (j & e & Hj & Hce & Hde).
    + rewrite Hlk in Hj. case_decide; [subst j|by exists j, e]. injection Hj as <-. exists i, b.
      by rewrite <- Hc, <- Hcd.
    + destruct (decide (j = i)) as [->|Hne]; [exists i, c|exists j, e]; rewrite Hlk.
      * rewrite decide_True by done. rewrite Hb in Hj. injection Hj as <-. by rewrite Hc, Hcd.
      * by rewrite decide_False.
Qed.

Lemma disk_write_rep s held i n d :
  cache_rep s held -> (i, n) ∈ held ->
  cache_rep (disk_write n d s) held /\ (forall m, view (disk_write n d s) m = view s m).
Proof.
  intros Hrep Hin. destruct (cr_held _ _ Hrep i n Hin) as (fl & d' & Hb & Hfl).
  pose proof (held_at_buf s held Hrep i n Hin) as Hat.
  assert (forall m, m <> n -> disk_at (disk_write n d s) m = disk_at s m) as Hdm
    by (intros m Hm; unfold disk_at; cbn; by rewrite lookup_insert_ne by done).
  split.
  - split; [|apply Hrep..]. destruct (cr_ok _ _ Hrep). split; try done.
    intros j b Hj Hh Hd Hf. change (bufs s !! j = Some b) in Hj. rewrite (co_clean0 j b Hj Hh Hd Hf).
    symmetry. apply Hdm. intros Hbn. apply Hh.
    rewrite (ab_only _ _ _ _ _ Hat j b Hj); [apply Hat|by apply caches_spec].
  - intros m. unfold view. change (bufs (disk_write n d s)) with (bufs s).
    destruct (scan _ _ _) as [j|] eqn:E; [done|]. apply Hdm. intros ->.
    apply (scan_None _ _ _ i (held_buf n fl d')) in E; [|apply elem_of_seq; split; [lia|apply Hat]|done].
    cbv beta in E. rewrite (proj2 (caches_spec n (held_buf n fl d'))), (held_valid n fl d' Hfl) in E; done.
Qed.

Lemma bwrite_ok s held i n :
  cache_rep s held -> (i, n) ∈ held -> n < u32 (disksize s) ->
  wp (bwrite i) (fun _ s' => cache_rep s' held /\ disk s' = <[n := view s n]> (disk s) /\
     writes s' = writes s ++ [(n, view s n)] /\ disksize s' = disksize s /\
     (forall m, view s' m = view s m) /\ (forall m, pinned s' m <-> m <> n /\ pinned s m)) s.
Proof.
  intros Hrep Hin Hn. unfold bwrite. wp_step.
  destruct (cr_held _ _ Hrep i n Hin) as (fl & d & Hb & Hfl). apply (wp_get_buf i _ _ _ Hb). cbn [b_locked held_buf negb].
  wp_step. wp_use (pin_ok s held Hrep i n Hin). intros _ s1 (Hrep1 & [Hd1 Hs1 Hw1] & Hv1 & Hp1 & d' & Hb1).
  pose proof (held_view s1 held Hrep1 i n VD d' Hin Hb1) as Hd'. rewrite Hv1 in Hd'. subst d'.
  wp_use (iderw_write i _ s1 Hb1); [done..|by rewrite Hs1|]. cbn [b_blockno b_data held_buf].
  intros _ s2 ->. set (s1' := put_buf i _ s1).
  assert (locked_flags B_VALID) as HV by by left.
  pose proof (held_at_buf s1 held Hrep1 i n Hin) as Hat.
  assert (cache_rep s1' held) as Hrep1' by by apply (put_held_rep s1 held Hrep1 i n B_VALID).
  destruct (disk_write_rep s1' held i n (view s n)) as [Hrep2 Hv2]; [exact Hrep1'|done|].
  split; [done|]. split; [cbn; by rewrite Hd1|]. split; [cbn; by rewrite Hw1|]. split; [done|].
  split; intros m.
  - rewrite Hv2. unfold s1'. change (with_flags B_VALID (held_buf n VD (view s n))) with (held_buf n B_VALID (view s n)).
    rewrite (hold_view s1 held.*1 held.*1 n B_VALID i _ (cr_ok _ _ Hrep1) Hat HV). by case_decide; subst.
  - change (pinned (disk_write n (view s n) s1') m) with (pinned s1' m). unfold s1'.
    change (with_flags B_VALID (held_buf n VD (view s n))) with (held_buf n B_VALID (view s n)).
    rewrite (hold_pinned s1 held.*1 held.*1 n B_VALID i _ (cr_ok _ _ Hrep1) Hat HV).
    case_decide; [by split; [|intros []]|]. rewrite Hp1. naive_solver.
Qed.

Lemma view_set_mru l s m : view (set_mru l s) m = view s m.
Proof. unfold view. by change (bufs (set_mru l s)) with (bufs s). Qed.

Lemma brelse_ok s held i n :
  cache_rep s ((i, n) :: held) -> pinned s n \/ view s n = disk_at s n ->
  wp (brelse i) (fun _ s' => cache_rep s' held /\ same_disk s s' /\
     (forall m, view s' m = view s m) /\ (forall m, pinned s' m <-> pinned s m)) s.
Proof.
  intros Hrep Hcl. pose proof (cr_ok _ _ Hrep) as Hok. assert ((i, n) ∈ (i, n) :: held) as Hin by left.
  destruct (cr_held _ _ Hrep i n Hin) as (fl & d & Hb & Hfl).
  pose proof (held_at_buf s _ Hrep i n Hin) as Hat.
  pose proof (held_view s _ Hrep i n fl d Hin Hb) as Hv.
  set (c := mkBuf fl 1 n false 0 d). set (s1 := put_buf i c s).
  assert (forall j, bufs s1 !! j = if decide (j = i) then Some c else bufs s !! j) as Hlk.
  { intros j. cbn. case_decide as E; [subst j|by apply list_lookup_insert_ne].
    apply list_lookup_insert_eq. by apply lookup_lt_Some in Hb. }
  assert (i ∉ held.*1) as Hih by by apply (NoDup_cons_1_1 i held.*1), (co_nodup _ _ Hok).
  destruct (put_same s i _ c Hb) as [Hview Hpin]; [done..|]. fold s1 in Hview, Hpin.
  set (s2 := set_mru (i :: filter (fun j => j <> i) (mru s)) s1).
  assert (wp (brelse i) (fun _ s' => s' = s2) s) as HW.
  { unfold brelse. wp_step. apply (wp_get_buf i _ _ _ Hb). cbn [b_locked held_buf negb].
    wp_step. apply (wp_upd_buf i _ _ _ _ Hb). unfold acquire_bcache. wp_steps.
    change (bc_lock (put_buf i _ s)) with (bc_lock s). rewrite (co_lock _ _ Hok). wp_steps.
    eapply wp_upd_buf; [by apply (put_buf_lookup i (held_buf n fl d))|]. wp_step.
    eapply wp_get_buf; [apply (put_buf_lookup i (with_locked false (held_buf n fl d))); by apply (put_buf_lookup i (held_buf n fl d))|].
    cbn [b_refcnt with_refcnt with_locked held_buf]. change (u32 (1 - 1) =? 0) with true. unfold when. wp_steps.
    unfold release_bcache. wp_steps. cbn [bc_lock set_mru put_buf set_bufs set_bc_lock]. wp_steps.
    unfold s2, s1, c, put_buf, set_bufs, set_bc_lock, set_mru. cbn. rewrite list_insert_insert_eq.
    f_equal. symmetry. apply (co_lock _ _ Hok). }
  wp_use HW. intros _ s' ->. split; [|split; [split; reflexivity|split; [|exact Hpin]]].
  2:{ intros m. unfold s2. by rewrite view_set_mru. }
  assert (forall b, Some c = Some b -> b = c) as Hcc by (intros b Hbc; by injection Hbc).
  split; [|by apply (NoDup_cons_1_2 n held.*2), Hrep|].
  - destruct Hok. split; try done.
    + cbn. by rewrite length_insert.
    + change (mru s2) with (i :: filter (fun j => j <> i) (mru s)). apply NoDup_Permutation; [apply NoDup_cons; split|apply NoDup_seq|].
      * rewrite list_elem_of_filter. naive_solver.
      * apply NoDup_filter. rewrite co_mru0. apply NoDup_seq.
      * intros j. rewrite elem_of_cons, list_elem_of_filter, co_mru0, elem_of_seq.
        pose proof (ab_lt _ _ _ _ _ Hat). destruct (decide (j = i)); naive_solver lia.
    + by apply (NoDup_cons_1_2 i held.*1).
    + intros j b. change (bufs s2) with (bufs s1). rewrite Hlk. case_decide as E.
      * intros ->%Hcc. subst j. by rewrite bool_decide_false.
      * intros Hj. destruct (co_held0 j b Hj) as [-> ->].
        rewrite (bool_decide_ext (j ∈ ((i, n) :: held).*1) (j ∈ held.*1)); [done|]. cbn. rewrite elem_of_cons. naive_solver.
    + intros j k b e m. change (bufs s2) with (bufs s1). rewrite !Hlk.
      repeat case_decide; subst; try done; [intros ->%Hcc He|intros He ->%Hcc|by apply co_uniq0];
        intros; by eapply co_uniq0.
    + intros j b. change (bufs s2) with (bufs s1). rewrite Hlk. case_decide; [intros ->%Hcc|by apply co_flags0].
      by apply (co_flags0 i _ Hb).
    + intros j b. change (bufs s2) with (bufs s1). rewrite Hlk. case_decide as E.
      * intros ->%Hcc _ _ Hf. cbn in Hf |- *. destruct Hcl as [(k & e & Hk & Hce & Hde)|Hcl]; [|by rewrite <- Hv].
        rewrite (ab_only _ _ _ _ _ Hat k e Hk Hce) in Hk. rewrite Hb in Hk. injection Hk as <-.
        apply (held_dirty n fl d Hfl) in Hde. by rewrite Hde in Hf.
      * intros Hj Hh. apply (co_clean0 j b Hj). cbn. rewrite elem_of_cons. naive_solver.
    + intros j b. change (bufs s2) with (bufs s1). rewrite Hlk. case_decide; [by intros ->%Hcc|by apply co_dirty0].
  - intros j m Hjm. change (bufs s2) with (bufs s1). rewrite Hlk, decide_False.
    + apply (cr_held _ _ Hrep). by right.
    + intros ->. apply Hih. by apply (list_elem_of_fmap_2 fst held (i, m)).
Qed.

(** ** Room in the cache *)

(** Only pinned blocks keep buffers from being recycled. *)
Lemma clean_enough s held L :
  cache_ok s held -> (forall m, pinned s m -> m ∈ L) -> (NBUF <= clean s + length L)%nat.
Proof.
  intros Hok HL. unfold clean. set (dl := filter (fun i => dirty_at s i = true) (seq 0 NBUF)).
  assert (forall l, length l = length (filter (fun i => dirty_at s i = false) l) +
                               length (filter (fun i => dirty_at s i = true) l))%nat as Hsplit.
  { induction l as [|i l IH]; [done|]. rewrite !filter_cons. destruct (dirty_at s i); repeat case_decide; done || (cbn; lia). }
  specialize (Hsplit (seq 0 NBUF)). rewrite length_seq in Hsplit. fold dl in Hsplit. rewrite Hsplit at 1.
  assert (forall i, i ∈ dl -> exists b, bufs s !! i = Some b /\ is_dirty b = true /\ b_dev b = 1) as Hdl.
  { intros i [Hd Hi]%list_elem_of_filter. unfold dirty_at in Hd. destruct (bufs s !! i) as [b|] eqn:Hb; [|done].
    exists b. split; [done|]. split; [done|]. by apply (co_dirty _ _ Hok i b). }
  apply Nat.add_le_mono_l. set (bn i := match bufs s !! i with Some b => b_blockno b | None => 0 end).
  rewrite <- (length_fmap bn dl). apply submseteq_length, NoDup_submseteq.
  - apply (NoDup_fmap_2_strong bn); [|apply NoDup_filter, NoDup_seq]. intros i j Hi Hj.
    destruct (Hdl i Hi) as (b & Hb & _ & Hdb), (Hdl j Hj) as (c & Hc & _ & Hdc).
    unfold bn. rewrite Hb, Hc. intros E.
    apply (co_uniq _ _ Hok i j b c (b_blockno b)); [done..| |]; by apply caches_spec.
  - intros n (i & -> & Hi)%list_elem_of_fmap. apply HL. destruct (Hdl i Hi) as (b & Hb & Hd & Hdb).
    exists i, b. unfold bn. rewrite Hb. split; [done|]. split; [by apply caches_spec|done].
Qed.

(** A block that is neither pinned nor held is the same in the cache and on disk. *)
Lemma view_disk s held n : cache_rep s held -> n ∉ held.*2 -> ~ pinned s n -> view s n = disk_at s n.
Proof.
  intros Hrep Hn Hp. pose proof (cr_ok _ _ Hrep) as Hok.
  destruct (view_cases s held.*1 Hok n) as [(i & b & Hb & Hc & Hv & _)|[_ ?]]; [|done].
  apply caches_spec in Hc as Hc'. destruct Hc' as [Hdev <-].
  destruct (is_dirty b) eqn:Hd; [destruct Hp; by exists i, b|].
  apply (view_clean s held.*1 Hok i b Hb); [|done|done].
  intros ([j m] & Hj & Hjm)%list_elem_of_fmap. cbn in Hj. subst j. apply Hn.
  destruct (cr_held _ _ Hrep i m Hjm) as (fl & d & Hb' & _). rewrite Hb in Hb'. injection Hb' as ->.
  by apply (list_elem_of_fmap_2 snd held (i, m)).
Qed.

Lemma binit_rep size d :
  cache_rep (binit size d) [] /\ (forall n, ~ pinned (binit size d) n).
Proof.
  assert (forall i b, bufs (binit size d) !! i = Some b -> b = binit_buf) as Hb
    by (intros i b Hb; by apply lookup_replicate_1 in Hb as [-> _]).
  split; [split; [split|constructor|by intros i n ?%elem_of_nil]|].
  - apply length_replicate.
  - cbn [mru binit]. change (foldl (fun l b => b :: l) [] (seq 0 NBUF)) with (rev (seq 0 NBUF)).
    symmetry. apply Permutation_rev.
  - done.
  - constructor.
  - intros i b ->%Hb. done.
  - intros i j b c n ->%Hb _ [? _]%caches_spec. done.
  - intros i b ->%Hb. by left.
  - intros i b ->%Hb. done.
  - intros i b ->%Hb. done.
  - intros n (i & b & ->%Hb & [? _]%caches_spec & _). done.
Qed.

(** ** The cache is transparent

    Reading and writing whole blocks through the cache, as against a disk
    without one. *)
Inductive bop := Rd (n : Z) | Wr (n : Z) (d : blk).
Definition bop_block (o : bop) : Z := match o with Rd n | Wr n _ => n end.

Definition run_op (o : bop) : M bcache (list blk) :=
  match o with
  | Rd n => i ← bread 1 n; d ← buf_data i; _ ← brelse i; mret [d]
  | Wr n d => i ← bread 1 n; _ ← set_data i d; _ ← bwrite i; _ ← brelse i; mret []
  end.
Fixpoint run_ops (os : list bop) : M bcache (list blk) :=
  match os with
  | [] => mret []
  | o :: os => r ← run_op o; rs ← run_ops os; mret (r ++ rs)
  end.
Fixpoint run_disk (os : list bop) (d : gmap Z blk) : list blk * gmap Z blk :=
  match os with
  | [] => ([], d)
  | Rd n :: os => let '(rs, d') := run_disk os d in (default [] (d !! n) :: rs, d')
  | Wr n b :: os => run_disk os (<[n := b]> d)
  end.

(** Nothing held and nothing pinned. *)
Definition idle (s : bcache) : Prop := cache_rep s [] /\ forall n, ~ pinned s n.

Lemma idle_clean s : idle s -> (0 < clean s)%nat.
Proof.
  intros [Hrep Hp]. pose proof (clean_enough s [] [] (cr_ok _ _ Hrep)) as Hc.
  assert (NBUF <= clean s + 0)%nat by (apply Hc; intros m Hm; by destruct (Hp m)). unfold NBUF in *. lia.
Qed.
Lemma idle_view s n : idle s -> view s n = disk_at s n.
Proof. intros [Hrep Hp]. apply (view_disk s []); [done|apply not_elem_of_nil|apply Hp]. Qed.

Lemma run_op_ok o s :
  idle s -> 0 <= bop_block o < u32 (disksize s) ->
  wp (run_op o) (fun r s' => idle s' /\ disksize s' = disksize s /\
     r = (run_disk [o] (disk s)).1 /\ disk s' = (run_disk [o] (disk s)).2) s.
Proof.
  intros Hid Hn. pose proof Hid as [Hrep Hp]. destruct o as [n|n d]; cbn [run_op bop_block] in *; wp_step.
  - wp_use (bread_ok s [] Hrep n); [apply not_elem_of_nil|right; by apply idle_clean|done|].
    intros i s1 (Hrep1 & [Hd1 Hs1 _] & Hv1 & Hp1). wp_step. unfold wp at 1.
    rewrite (buf_data_ok s1 _ Hrep1 i n) by left. rewrite Hv1. wp_step.
    wp_use (brelse_ok s1 [] i n); [done|right; rewrite Hv1; unfold disk_at; rewrite Hd1; by apply idle_view|].
    intros _ s2 (Hrep2 & [Hd2 Hs2 _] & _ & Hp2). wp_step.
    split; [split; [done|intros m; rewrite Hp2, Hp1; apply Hp]|]. split; [congruence|].
    cbn. split; [f_equal; by apply idle_view|congruence].
  - wp_use (bread_ok s [] Hrep n); [apply not_elem_of_nil|right; by apply idle_clean|done|].
    intros i s1 (Hrep1 & [Hd1 Hs1 _] & Hv1 & Hp1). wp_step.
    wp_use (set_data_ok s1 _ Hrep1 i n d); [left|]. intros _ s2 (Hrep2 & [Hd2 Hs2 _] & Hv2 & Hp2). wp_step.
    wp_use (bwrite_ok s2 _ i n Hrep2); [left|rewrite Hs2, Hs1; apply Hn|].
    intros _ s3 (Hrep3 & Hd3 & _ & Hs3 & Hv3 & Hp3).
    assert (view s3 n = d) as Hvd by (rewrite Hv3, Hv2; by rewrite decide_True).
    rewrite Hv2, decide_True in Hd3 by done. wp_step.
    wp_use (brelse_ok s3 [] i n); [done|right; rewrite Hvd; unfold disk_at; by rewrite Hd3, lookup_insert_eq|].
    intros _ s4 (Hrep4 & [Hd4 Hs4 _] & _ & Hp4). wp_step.
    split; [split; [done|intros m; rewrite Hp4, Hp3, Hp2, Hp1; intros [_ Hm]; by apply (Hp m)]|].
    split; [congruence|]. cbn. split; [done|]. by rewrite Hd4, Hd3, Hd2, Hd1.
Qed.

(** C10: reading and writing blocks through the buffer cache, whatever the
    sequence and however often buffers are recycled, returns what a disk without
    a cache returns and leaves the disk as it would. *)
Theorem cache_transparent size d os :
  Forall (fun o => 0 <= bop_block o < u32 size) os ->
  exists s', run_ops os (binit size d) = Ret (run_disk os d).1 s' /\ disk s' = (run_disk os d).2.
Proof.
  intros Hos. assert (forall s, idle s -> disksize s = size ->
    wp (run_ops os) (fun r s' => r = (run_disk os (disk s)).1 /\ disk s' = (run_disk os (disk s)).2) s) as HW.
  { induction Hos as [|o os Ho _ IH]; intros s Hid Hs; cbn [run_ops run_disk]; [by wp_step|].
    wp_step. wp_use (run_op_ok o s Hid); [by rewrite Hs|]. intros r s1 (Hid1 & Hs1 & -> & Hd1).
    wp_step. wp_use (IH s1 Hid1); [congruence|]. intros rs s2 (-> & Hd2). wp_step. rewrite Hd2, Hd1.
    destruct o as [n|n b]; cbn; [by destruct (run_disk os (disk s))|done]. }
  specialize (HW (binit size d) (binit_rep size d) eq_refl).
  apply wp_Ret in HW as (r & s' & Hrun & -> & Hd). by exists s'.
Qed.
Lemma cache_transparent_witness :
  exists s', run_ops [Wr 3 [7]; Rd 3; Rd 4] (binit 10 ∅) = Ret [[7]; []] s' /\ disk s' = <[3 := [7]]> ∅.
Proof.
  destruct (cache_transparent 10 ∅ [Wr 3 [7]; Rd 3; Rd 4]) as (s' & Hr & Hd); [repeat constructor; done|].
  exists s'. split; [rewrite Hr; reflexivity|rewrite Hd; reflexivity].
Defined.

(** Proofs go through the lemmas above, never through evaluation of thirty buffers. *)
#[global] Opaque view clean.
