(* ===== verification/Ide.v ===== *)
(** * The disk driver (ide.c)

    Requests wait in a queue linked through the buffers; the disk works on the
    first one, and its interrupt finishes it, wakes the process that waits and
    starts the next.  The driver refines the disk in memory that [Bio] has: every
    interrupt does what one call of [iderw] of memide.c does.

    The controller is modelled by its documented behaviour: it takes a command
    with a drive and a sector from its registers, works on it for a while, and
    interrupts. *)

From S2P Require Import Prelude Block Bio.
From stdpp Require Import base gmap list strings relations.
From Stdlib Require Import ZArith Lia.
#[local] Open Scope Z_scope.

Definition FSSIZE : Z := 1000.
Definition SECTOR_SIZE : Z := 512.

(** ** The controller *)

Inductive command := CRead | CWrite (d : blk).
Record request := mkReq { q_drive : Z; q_sector : Z; q_command : command }.
(** Registers 0x1f3 to 0x1f6, as [idestart] fills them and as the disk reads them. *)
Definition out_regs (sector dev : Z) : Z * Z * Z * Z :=
  (Z.land sector 255, Z.land (Z.shiftr sector 8) 255, Z.land (Z.shiftr sector 16) 255,
   Z.lor (Z.lor 224 (Z.shiftl (Z.land dev 1) 4)) (Z.land (Z.shiftr sector 24) 15)).
Definition in_regs (r : Z * Z * Z * Z) : Z * Z :=
  let '(r3, r4, r5, r6) := r in
  (Z.land (Z.shiftr r6 4) 1, r3 + 256 * r4 + 65536 * r5 + 16777216 * Z.land r6 15).

(** ** The driver's state

    [i_bc] has the buffers and disk 1; [i_wait] says which buffers a process waits
    for in [iderw], and whether it is asleep. *)
Record ide := mkIde {
  i_bc : bcache; i_disk0 : gmap Z blk; i_qnext : list (option nat); i_queue : option nat;
  havedisk1 : bool; i_ctl : option request; i_wait : gmap nat bool }.

Definition set_bc (c : bcache) (s : ide) : ide :=
  mkIde c (i_disk0 s) (i_qnext s) (i_queue s) (havedisk1 s) (i_ctl s) (i_wait s).
Definition set_disk0 (d : gmap Z blk) (s : ide) : ide :=
  mkIde (i_bc s) d (i_qnext s) (i_queue s) (havedisk1 s) (i_ctl s) (i_wait s).
Definition set_queue (n : list (option nat)) (q : option nat) (s : ide) : ide :=
  mkIde (i_bc s) (i_disk0 s) n q (havedisk1 s) (i_ctl s) (i_wait s).
Definition set_ctl (c : option request) (s : ide) : ide :=
  mkIde (i_bc s) (i_disk0 s) (i_qnext s) (i_queue s) (havedisk1 s) c (i_wait s).
Definition set_wait (w : gmap nat bool) (s : ide) : ide :=
  mkIde (i_bc s) (i_disk0 s) (i_qnext s) (i_queue s) (havedisk1 s) (i_ctl s) w.
Definition on_bufs {A} (m : M bcache A) : M ide A := zoom i_bc set_bc m.

(** ** The driver *)

Definition idewait : M ide unit :=
  c ← gets i_ctl; match c with None => mret tt | Some _ => blocked "disk busy" end.
Definition idestart (b : nat) : M ide unit :=
  bf ← on_bufs (get_buf b);
  if b_blockno bf >=? FSSIZE then panic "incorrect blockno"
  else
    let sector_per_block := BSIZE / SECTOR_SIZE in
    let sector := i32 (b_blockno bf * sector_per_block) in
    if sector_per_block >? 7 then panic "idestart"
    else
      _ ← idewait;
      let '(drive, sec) := in_regs (out_regs sector (b_dev bf)) in
      modify (set_ctl (Some (mkReq drive sec
        (if c_true (Z.land (b_flags bf) B_DIRTY) then CWrite (b_data bf) else CRead)))).

(** The disk finishes its command, unless it fails; what a read has put in the
    data register. *)
Definition drive_disk (s : ide) (drive : Z) : gmap Z blk := if drive =? 0 then i_disk0 s else disk (i_bc s).
Definition device (err : bool) (s : ide) : ide * blk :=
  match i_ctl s with
  | None => (s, [])
  | Some (mkReq drive sec c) =>
      let s' := set_ctl None s in
      match c with
      | CWrite d =>
          (if err then s' else if drive =? 0 then set_disk0 (<[sec := d]> (i_disk0 s)) s' else set_bc (disk_write sec d (i_bc s)) s', [])
      | CRead => (s', default [] (drive_disk s drive !! sec))
      end
  end.

Definition wake_waiter (b : nat) (s : ide) : ide :=
  match i_wait s !! b with Some true => set_wait (<[b := false]> (i_wait s)) s | _ => s end.
Definition ideintr (err : bool) (data : blk) : M ide unit :=
  q ← gets i_queue;
  match q with
  | None => mret tt
  | Some b =>
      n ← gets i_qnext;
      _ ← modify (set_queue n (default None (n !! b)));
      bf ← on_bufs (get_buf b);
      _ ← when (negb (c_true (Z.land (b_flags bf) B_DIRTY)) && negb err) (on_bufs (upd_buf b (with_data data)));
      _ ← on_bufs (upd_buf b (fun b => with_flags (Z.lor (b_flags b) B_VALID) b));
      _ ← on_bufs (upd_buf b (fun b => with_flags (Z.land (b_flags b) (Z.lnot B_DIRTY)) b));
      _ ← modify (wake_waiter b);
      q ← gets i_queue;
      match q with Some b' => idestart b' | None => mret tt end
  end.
(** The disk is done and interrupts. *)
Definition interrupt (err : bool) : M ide unit := fun s =>
  let '(s', data) := device err s in ideintr err data s'.

(** The last buffer of the queue. *)
Fixpoint last_of (fuel : nat) (n : list (option nat)) (p : nat) : option nat :=
  match fuel with
  | O => None
  | S fuel => match n !! p with Some (Some p') => last_of fuel n p' | _ => Some p end
  end.
Definition append (b : nat) : M ide unit :=
  n ← gets i_qnext;
  let n := <[b := None]> n in
  q ← gets i_queue;
  match q with
  | None => modify (set_queue n (Some b))
  | Some p =>
      match last_of (S (length n)) n p with
      | Some l => modify (set_queue (<[l := Some b]> n) (Some p))
      | None => nofuel
      end
  end.
(** A pass of the loop: the request is finished, or the process goes to sleep. *)
Definition iderw_pass (b : nat) : M ide unit :=
  bf ← on_bufs (get_buf b);
  if Z.land (b_flags bf) (Z.lor B_VALID B_DIRTY) =? B_VALID then modify (fun s => set_wait (delete b (i_wait s)) s)
  else modify (fun s => set_wait (<[b := true]> (i_wait s)) s).
Definition iderw_queued (b : nat) : M ide unit :=
  bf ← on_bufs (get_buf b);
  if negb (b_locked bf) then panic "iderw: buf not locked"
  else if Z.land (b_flags bf) (Z.lor B_VALID B_DIRTY) =? B_VALID then panic "iderw: nothing to do"
  else
    have ← gets havedisk1;
    if c_true (b_dev bf) && negb have then panic "iderw: ide disk 1 not present"
    else
      _ ← append b;
      q ← gets i_queue;
      _ ← when (bool_decide (q = Some b)) (idestart b);
      iderw_pass b.

(** ** Runs

    Processes call [iderw], are woken and go on, and use the buffers they do not
    wait for; the disk interrupts.  The labels count the interrupts. *)
Inductive istep : nat -> ide -> ide -> Prop :=
  | is_call b bf s s' : i_wait s !! b = None -> bufs (i_bc s) !! b = Some bf -> 0 <= b_blockno bf < FSSIZE -> 0 <= b_dev bf <= 1 ->
      iderw_queued b s = Ret tt s' -> istep 0 s s'
  | is_resume b s s' : i_wait s !! b = Some false -> iderw_pass b s = Ret tt s' -> istep 0 s s'
  | is_client b f s s' : i_wait s !! b = None -> on_bufs (upd_buf b f) s = Ret tt s' -> istep 0 s s'
  | is_intr err s s' : interrupt err s = Ret tt s' -> istep 1 s s'.
Inductive iruns : nat -> ide -> ide -> Prop :=
  | ir_refl s : iruns 0 s s
  | ir_step n m s s1 s' : istep n s s1 -> iruns m s1 s' -> iruns (n + m) s s'.
Definition ideinit (c : bcache) (d0 : gmap Z blk) (have : bool) : ide :=
  mkIde c d0 (replicate (length (bufs c)) None) None have None ∅.

(** ** Registers and flags *)

Lemma in_out_regs sector dev : 0 <= sector < FSSIZE -> 0 <= dev <= 1 -> in_regs (out_regs sector dev) = (dev, sector).
Proof.
  unfold FSSIZE. intros Hs Hd. unfold in_regs, out_regs. rewrite !Z.shiftr_div_pow2 by lia.
  change 255 with (Z.ones 8). rewrite !Z.land_ones by lia. change (2 ^ 24) with 16777216. change (2 ^ 16) with 65536. change (2 ^ 8) with 256.
  rewrite (Z.div_small sector 16777216), (Z.div_small sector 65536) by lia. rewrite (Z.mod_small (sector / 256)) by dlia.
  assert (dev = 0 \/ dev = 1) as [->| ->] by lia; apply f_equal2; try reflexivity.
  all: change (Z.land (Z.lor _ _) 15) with 0; change (0 mod 256) with 0; dlia.
Qed.
Definition request_of (bf : buf) : request :=
  mkReq (b_dev bf) (b_blockno bf) (if c_true (Z.land (b_flags bf) B_DIRTY) then CWrite (b_data bf) else CRead).
(** A request that may wait in the queue. *)
Record pending (bf : buf) : Prop := {
  pe_block : 0 <= b_blockno bf < FSSIZE;
  pe_dev : 0 <= b_dev bf <= 1;
  pe_lock : b_locked bf = true;
  pe_flags : Z.land (b_flags bf) (Z.lor B_VALID B_DIRTY) <> B_VALID }.

Lemma done_flags f : Z.land (Z.land (Z.lor f B_VALID) (Z.lnot B_DIRTY)) (Z.lor B_VALID B_DIRTY) = B_VALID.
Proof.
  rewrite <-Z.land_assoc. change (Z.land (Z.lnot B_DIRTY) (Z.lor B_VALID B_DIRTY)) with B_VALID.
  apply Z.bits_inj'. intros n _. rewrite Z.land_spec, Z.lor_spec. by destruct (Z.testbit f n), (Z.testbit B_VALID n).
Qed.
Lemma done_flags_write f : Z.land (Z.lor f B_VALID) (Z.lnot B_DIRTY) = Z.lor (Z.land f (Z.lnot B_DIRTY)) B_VALID.
Proof. rewrite Z.land_lor_distr_l. done. Qed.
Lemma done_flags_read f : Z.land f B_DIRTY = 0 -> Z.land (Z.lor f B_VALID) (Z.lnot B_DIRTY) = Z.lor f B_VALID.
Proof.
  intros Hf. rewrite done_flags_write. f_equal. rewrite <-Z.ldiff_land. pose proof (Z.lor_ldiff_and f B_DIRTY) as E.
  by rewrite Hf, Z.lor_0_r in E.
Qed.

(** ** The queue *)

(** From [p], the links lead through [q] and end. *)
Fixpoint chain_of (n : list (option nat)) (p : option nat) (q : list nat) : Prop :=
  match q with [] => p = None | b :: q => p = Some b /\ exists x, n !! b = Some x /\ chain_of n x q end.

Lemma chain_of_upd n p q b x : b ∉ q -> chain_of n p q -> chain_of (<[b := x]> n) p q.
Proof.
  revert p. induction q as [|c q IH]; intros p Hb; cbn; [done|]. apply not_elem_of_cons in Hb as [Hne Hb].
  intros (-> & y & Hy & Hq). split; [done|]. exists y. split; [by rewrite list_lookup_insert_ne|by apply IH].
Qed.
Lemma last_of_ok fuel n p q :
  (length q < fuel)%nat -> chain_of n (Some p) q -> exists l, last_of fuel n p = Some l /\ l ∈ q /\
    forall b, b ∉ q -> NoDup q -> n !! b = Some None -> chain_of (<[l := Some b]> n) (Some p) (q ++ [b]).
Proof.
  revert p q. induction fuel as [|fuel IH]; intros p q Hf Hq; [lia|]. destruct q as [|c q]; [done|]. cbn [chain_of] in Hq.
  destruct Hq as ([= <-] & x & Hx & Hq). cbn [last_of]. rewrite Hx. destruct x as [p'|].
  - cbn in Hf. destruct (IH p' q) as (l & Hl & Hin & Hc); [lia|done|]. exists l. split; [done|]. split; [by right|].
    intros b Hb Hnd Hbn. apply not_elem_of_cons in Hb as [Hne Hb]. apply NoDup_cons in Hnd as [Hp Hnd].
    cbn [app chain_of]. split; [done|]. exists (Some p'). split; [|by apply Hc].
    rewrite list_lookup_insert_ne; [done|]. by intros ->.
  - destruct q as [|c q]; [|by destruct Hq]. exists p. split; [done|]. split; [left|]. intros b Hb _ Hbn.
    cbn. split; [done|]. exists (Some b). split; [apply list_lookup_insert_eq; by apply lookup_lt_Some in Hx|].
    split; [done|]. exists None. split; [|done]. rewrite list_lookup_insert_ne; [done|]. intros ->. by apply Hb; left.
Qed.

(** ** The invariant *)

Record ide_inv (s : ide) (q : list nat) : Prop := {
  iv_chain : chain_of (i_qnext s) (i_queue s) q;
  iv_nodup : NoDup q;
  iv_length : length (i_qnext s) = length (bufs (i_bc s));
  iv_ctl : match q with [] => i_ctl s = None | b :: _ => i_ctl s = request_of <$> bufs (i_bc s) !! b end;
  iv_queued b : b ∈ q -> i_wait s !! b = Some true /\ exists bf, bufs (i_bc s) !! b = Some bf /\ pending bf;
  iv_asleep b : i_wait s !! b = Some true -> b ∈ q;
  iv_woken b : i_wait s !! b = Some false -> exists bf, bufs (i_bc s) !! b = Some bf /\
    Z.land (b_flags bf) (Z.lor B_VALID B_DIRTY) = B_VALID;
  iv_size : disksize (i_bc s) = FSSIZE }.

Lemma idestart_ok s b bf :
  bufs (i_bc s) !! b = Some bf -> 0 <= b_blockno bf < FSSIZE -> 0 <= b_dev bf <= 1 -> i_ctl s = None ->
  idestart b s = Ret tt (set_ctl (Some (request_of bf)) s).
Proof.
  intros Hb Hn Hd Hc. unfold idestart, on_bufs, zoom, get_buf, mbind, M_bind. rewrite Hb.
  rewrite Z.geb_leb, (proj2 (Z.leb_gt _ _)) by lia. change (BSIZE / SECTOR_SIZE) with 1. change (1 >? 7) with false. cbv iota zeta.
  rewrite Z.mul_1_r, i32_small by (unfold FSSIZE in Hn; lia). rewrite in_out_regs by done.
  unfold idewait, gets, mbind, M_bind. cbn [set_bc i_ctl i_bc]. rewrite Hc. cbn. unfold modify, request_of. by destruct s.
Qed.

Lemma chain_bound n p q : chain_of n p q -> forall b, b ∈ q -> (b < length n)%nat.
Proof.
  revert p. induction q as [|c q IH]; intros p Hq b Hb; [by apply not_elem_of_nil in Hb|]. destruct Hq as (_ & x & Hx & Hq).
  apply elem_of_cons in Hb as [->|Hb]; [by apply lookup_lt_Some in Hx|by apply (IH x)].
Qed.
Lemma chain_length n p q : chain_of n p q -> NoDup q -> (length q <= length n)%nat.
Proof.
  intros Hq Hnd. rewrite <-(length_seq (length n) 0). apply submseteq_length, NoDup_submseteq; [done|].
  intros b Hb. apply elem_of_seq. pose proof (chain_bound n p q Hq b Hb). lia.
Qed.
Lemma append_ok s q b :
  chain_of (i_qnext s) (i_queue s) q -> NoDup q -> b ∉ q -> (b < length (i_qnext s))%nat ->
  exists n, append b s = Ret tt (set_queue n (Some (default b (head q))) s) /\ length n = length (i_qnext s) /\
    chain_of n (Some (default b (head q))) (q ++ [b]).
Proof.
  intros Hq Hnd Hb Hlt. pose proof (chain_length _ _ _ Hq Hnd) as Hl. set (n := <[b := None]> (i_qnext s)).
  assert (n !! b = Some None) as Hn by by apply list_lookup_insert_eq. assert (length n = length (i_qnext s)) as Hln by apply length_insert.
  unfold append, gets, mbind, M_bind. fold n. destruct q as [|p q].
  - cbn in Hq. rewrite Hq. exists n. split; [done|]. split; [done|]. cbn. split; [done|]. by exists None.
  - assert (chain_of n (i_queue s) (p :: q)) as Hq' by by apply chain_of_upd. destruct Hq as [Ep _]. rewrite Ep in *.
    destruct (last_of_ok (S (length n)) n p (p :: q)) as (l & -> & _ & Hc); [rewrite Hln; lia|done|].
    exists (<[l := Some b]> n). split; [done|]. split; [by rewrite length_insert|]. by apply Hc.
Qed.

Lemma queued_inv s q b bf n :
  ide_inv s q -> i_wait s !! b = None -> bufs (i_bc s) !! b = Some bf -> pending bf -> length n = length (i_qnext s) ->
  chain_of n (Some (default b (head q))) (q ++ [b]) ->
  ide_inv (set_wait (<[b := true]> (i_wait s)) (set_ctl (Some (request_of (default bf (bufs (i_bc s) !! default b (head q)))))
    (set_queue n (Some (default b (head q))) s))) (q ++ [b]).
Proof.
  intros [A1 A2 A3 A4 A5 A6 A8 A7] Hw Hb Hp Hn Hc. assert (b ∉ q) as Hbq by (intros Hin; destruct (A5 b Hin) as [E _]; congruence).
  split; cbn [i_qnext i_queue i_bc i_ctl i_wait set_wait set_ctl set_queue].
  - done.
  - apply NoDup_app. split; [done|]. split; [|apply NoDup_singleton]. intros x Hx Hx'%list_elem_of_singleton. by subst x.
  - congruence.
  - destruct q as [|p q]; cbn; [by rewrite Hb|]. destruct (A5 p) as (_ & pf & -> & _); [left|done].
  - intros c [Hin|Hin]%elem_of_app.
    + destruct (A5 c Hin) as [Hc1 Hc2]. split; [|done]. rewrite lookup_insert_ne; [done|]. by intros ->.
    + apply list_elem_of_singleton in Hin as ->. rewrite lookup_insert_eq. split; [done|]. by exists bf.
  - intros c Hc'. apply elem_of_app. destruct (decide (c = b)) as [->|Hne]; [right; left|left].
    apply A6. by rewrite lookup_insert_ne in Hc'.
  - intros c Hc'. destruct (decide (c = b)) as [->|Hne]; [by rewrite lookup_insert_eq in Hc'|].
    rewrite lookup_insert_ne in Hc' by done. by apply A8.
  - done.
Qed.
Lemma iderw_queued_ok s q b bf :
  ide_inv s q -> i_wait s !! b = None -> bufs (i_bc s) !! b = Some bf -> pending bf -> (c_true (b_dev bf) = true -> havedisk1 s = true) ->
  exists s', iderw_queued b s = Ret tt s' /\ ide_inv s' (q ++ [b]) /\ i_bc s' = i_bc s /\ i_disk0 s' = i_disk0 s.
Proof.
  intros Hinv Hw Hb Hp Hdev. pose proof Hinv as [A1 A2 A3 A4 A5 A6 A8 A7]. destruct (Hp) as [P1 P2 P3 P4].
  assert (b ∉ q) as Hbq by (intros Hin; destruct (A5 b Hin) as [E _]; congruence).
  destruct (append_ok s q b A1 A2 Hbq) as (n & Happ & Hn & Hc); [rewrite A3; by apply lookup_lt_Some in Hb|].
  exists (set_wait (<[b := true]> (i_wait s)) (set_ctl (Some (request_of (default bf (bufs (i_bc s) !! default b (head q)))))
    (set_queue n (Some (default b (head q))) s))).
  split; [|split; [by apply (queued_inv s q b bf n)|done]].
  unfold iderw_queued, mbind, M_bind at 1. unfold on_bufs at 1, zoom, get_buf. rewrite Hb. assert (set_bc (i_bc s) s = s) as -> by by destruct s.
  rewrite P3, (proj2 (Z.eqb_neq _ _) P4). cbn [negb]. unfold gets, M_bind at 1.
  assert (c_true (b_dev bf) && negb (havedisk1 s) = false) as -> by (destruct (c_true (b_dev bf)); [by rewrite Hdev|done]).
  unfold M_bind at 1. rewrite Happ. unfold M_bind at 1. cbn [i_queue set_queue].
  set (s1 := set_queue n (Some (default b (head q))) s). assert (forall s2, bufs (i_bc s2) = bufs (i_bc s) ->
    iderw_pass b s2 = Ret tt (set_wait (<[b := true]> (i_wait s2)) s2)) as Hpass.
  { intros s2 E. unfold iderw_pass, on_bufs, zoom, get_buf, mbind, M_bind. rewrite E, Hb, (proj2 (Z.eqb_neq _ _) P4).
    unfold modify. by destruct s2. }
  destruct q as [|p q]; cbn [head default].
  - rewrite bool_decide_true by done. cbn [when]. unfold M_bind at 1. rewrite (idestart_ok s1 b bf) by done. rewrite Hpass by done.
    rewrite Hb. done.
  - rewrite bool_decide_false by (intros [= ->]; apply Hbq; left). cbn [when]. unfold M_bind at 1, mret, M_ret. rewrite Hpass by done.
    destruct (A5 p) as (_ & pf & Hpf & _); [left|]. change (id p) with p. rewrite Hpf. rewrite Hpf in A4. cbn in A4.
    unfold s1, set_wait, set_ctl, set_queue. cbn. by rewrite A4.
Qed.

(** ** The interrupt *)

Definition wants_write (bf : buf) : bool := c_true (Z.land (b_flags bf) B_DIRTY).
(** The first buffer after the handler has had the data of its read. *)
Definition finished (err : bool) (data : blk) (bf : buf) : buf :=
  with_flags (Z.land (Z.lor (b_flags bf) B_VALID) (Z.lnot B_DIRTY)) (if negb (wants_write bf) && negb err then with_data data bf else bf).

Lemma wp_is {A} (m : M ide A) s a s' : wp m (fun x t => x = a /\ t = s') s -> m s = Ret a s'.
Proof. intros (x & t & -> & -> & ->)%wp_Ret. done. Qed.
Lemma get_wp b s bf (Q : buf -> ide -> Prop) : bufs (i_bc s) !! b = Some bf -> Q bf s -> wp (on_bufs (get_buf b)) Q s.
Proof. intros Hb HQ. apply wp_zoom. unfold wp, get_buf. rewrite Hb. by destruct s. Qed.
Lemma upd_wp b s bf f (Q : unit -> ide -> Prop) :
  bufs (i_bc s) !! b = Some bf -> Q tt (set_bc (set_bufs (<[b := f bf]> (bufs (i_bc s))) (i_bc s)) s) -> wp (on_bufs (upd_buf b f)) Q s.
Proof. intros Hb HQ. apply wp_zoom. unfold wp, upd_buf. by rewrite Hb. Qed.
Lemma ideintr_ok s0 b q bf err data c d0 :
  ide_inv s0 (b :: q) -> bufs (i_bc s0) !! b = Some bf -> bufs c = bufs (i_bc s0) -> disksize c = disksize (i_bc s0) ->
  exists s', ideintr err data (mkIde c d0 (i_qnext s0) (i_queue s0) (havedisk1 s0) None (i_wait s0)) = Ret tt s' /\
    i_bc s' = set_bufs (<[b := finished err data bf]> (bufs c)) c /\ ide_inv s' q /\
    i_wait s' = <[b := false]> (i_wait s0) /\ i_disk0 s' = d0.
Proof.
  intros [(Hq & x & Hx & Hch) Hnd Hlen Hctl Hqd Has Hwk Hsz] Hb Hbc Hdz. apply NoDup_cons in Hnd as [Hbq Hnd].
  destruct (Hqd b) as [Hwb _]; [left|]. set (c' := set_bufs (<[b := finished err data bf]> (bufs c)) c).
  set (ctl' := match q with [] => None | h :: _ => request_of <$> bufs c !! h end).
  exists (mkIde c' d0 (i_qnext s0) x (havedisk1 s0) ctl' (<[b := false]> (i_wait s0))).
  assert (forall h, h ∈ q -> bufs c' !! h = bufs (i_bc s0) !! h) as Hother.
  { intros h Hh. unfold c'. cbn. rewrite list_lookup_insert_ne by (by intros ->). by rewrite Hbc. }
  split; [|split; [done|split; [|by split]]].
  - assert (b < length (bufs (i_bc s0)))%nat as Hlt by by apply lookup_lt_Some in Hb.
    apply wp_is. unfold ideintr. do 2 wp_step. cbn [i_queue]. rewrite Hq. do 4 wp_step. cbn [i_qnext]. rewrite Hx. cbn [default from_option id].
    wp_step. apply (get_wp _ _ bf); [cbn; by rewrite Hbc|]. fold (wants_write bf). wp_step.
    set (bf1 := if negb (wants_write bf) && negb err then with_data data bf else bf).
    apply (wp_mono _ (fun _ s => s = mkIde (set_bufs (<[b := bf1]> (bufs c)) c) d0 (i_qnext s0) x (havedisk1 s0) None (i_wait s0))).
    { subst bf1. destruct (negb (wants_write bf) && negb err); cbn [when]; [apply (upd_wp _ _ bf); [cbn; by rewrite Hbc|done]|].
      apply wp_ret. rewrite list_insert_id by (by rewrite Hbc). by destruct c. }
    intros _ ? ->. wp_step. apply (upd_wp _ _ bf1); [cbn; apply list_lookup_insert_eq; by rewrite Hbc|]. wp_step.
    apply (upd_wp _ _ (with_flags (Z.lor (b_flags bf1) B_VALID) bf1)); [cbn; apply list_lookup_insert_eq; by rewrite length_insert, Hbc|].
    do 4 wp_step. unfold wake_waiter. cbn [i_wait set_bc i_bc bufs set_bufs i_qnext i_queue i_ctl havedisk1 i_disk0]. rewrite Hwb.
    cbn [i_wait set_wait i_bc i_qnext i_queue i_ctl havedisk1 i_disk0]. rewrite !list_insert_insert_eq.
    assert (with_flags (Z.land (Z.lor (b_flags bf1) B_VALID) (Z.lnot B_DIRTY)) (with_flags (Z.lor (b_flags bf1) B_VALID) bf1) = finished err data bf) as Hfin.
    { unfold finished. fold bf1. assert (b_flags bf1 = b_flags bf) as -> by (subst bf1; by destruct (negb (wants_write bf) && negb err)). done. }
    cbn [b_flags with_flags] in *. rewrite Hfin.
    destruct q as [|h q]; [cbn in Hch; subst x; done|]. destruct Hch as (-> & y & Hy & Hch).
    destruct (Hqd h) as (_ & hf & Hhf & [P1 P2 P3 P4]); [right; left|].
    unfold wp. rewrite (idestart_ok _ h hf); [|rewrite <-Hhf; apply (Hother h); left|done|done|done].
    unfold ctl', c'. rewrite Hbc, Hhf. done.
  - split; cbn [i_qnext i_queue i_bc i_ctl i_wait].
    + done.
    + done.
    + unfold c'. cbn. by rewrite length_insert, Hbc.
    + unfold ctl'. destruct q as [|h q]; [done|]. rewrite Hother by left. by rewrite Hbc.
    + intros h Hh. rewrite lookup_insert_ne by (by intros ->). rewrite Hother by done. apply Hqd. by right.
    + intros h Hh. destruct (decide (h = b)) as [->|Hne]; [by rewrite lookup_insert_eq in Hh|]. rewrite lookup_insert_ne in Hh by done.
      apply Has, elem_of_cons in Hh as [->|?]; done.
    + intros h Hh. unfold c'. cbn. rewrite Hbc. destruct (decide (h = b)) as [->|Hne].
      * exists (finished err data bf). split; [apply list_lookup_insert_eq; by apply lookup_lt_Some in Hb|apply done_flags].
      * rewrite lookup_insert_ne in Hh by done. rewrite list_lookup_insert_ne by done. by apply Hwk.
    + cbn. by rewrite Hdz.
Qed.

(** The handler's effect is that of a disk in memory. *)
Lemma finished_read data bf : wants_write bf = false -> finished false data bf = with_flags (Z.lor (b_flags bf) B_VALID) (with_data data bf).
Proof.
  unfold wants_write. intros Hd. assert (Z.land (b_flags bf) B_DIRTY = 0) as Hz by by apply c_false_spec. unfold finished, wants_write. rewrite Hd. cbn [negb andb].
  by rewrite done_flags_read.
Qed.
Lemma finished_write data bf : wants_write bf = true -> finished false data bf =
  with_flags (Z.lor (Z.land (b_flags bf) (Z.lnot B_DIRTY)) B_VALID) bf.
Proof. intros Hd. unfold finished. rewrite Hd. cbn [negb andb]. by rewrite done_flags_write. Qed.

Lemma iderw_effect c b bf :
  bufs c !! b = Some bf -> pending bf -> b_dev bf = 1 -> disksize c = FSSIZE ->
  iderw b c = Ret tt (set_bufs (<[b := finished false (disk_at c (b_blockno bf)) bf]> (bufs c))
    (if wants_write bf then disk_write (b_blockno bf) (b_data bf) c else c)).
Proof.
  intros Hb [P1 P2 P3 P4] Hd Hsz. pose proof (lookup_lt_Some _ _ _ Hb) as Hlt. unfold iderw, mbind, M_bind. unfold get_buf at 1. rewrite Hb, P3.
  rewrite (proj2 (Z.eqb_neq _ _) P4), Hd. change (negb (1 =? 1)) with false. cbn [negb]. cbv iota. unfold gets at 1. cbv iota beta. rewrite Hsz. change (u32 FSSIZE) with FSSIZE.
  rewrite Z.geb_leb, (proj2 (Z.leb_gt _ _)) by lia. fold (wants_write bf). destruct (wants_write bf) eqn:E; cbn [negb].
  - unfold upd_buf. rewrite Hb. unfold modify. cbn [bufs set_bufs disk_write]. rewrite list_lookup_insert_eq by done.
    rewrite list_insert_insert_eq, finished_write by done. done.
  - unfold gets, upd_buf. rewrite Hb. cbn [bufs set_bufs]. rewrite list_lookup_insert_eq by done.
    rewrite list_insert_insert_eq, finished_read by done. by destruct c.
Qed.

(** The buffers and the first disk after the request of buffer [b] has been
    carried out by a disk in memory.  After an error the buffer only changes its
    flags. *)
Definition served (err : bool) (b : nat) (bf : buf) (s : ide) : bcache * gmap Z blk :=
  let bs := <[b := finished err (default [] (drive_disk s (b_dev bf) !! b_blockno bf)) bf]> (bufs (i_bc s)) in
  if err || negb (wants_write bf) then (set_bufs bs (i_bc s), i_disk0 s)
  else if b_dev bf =? 0 then (set_bufs bs (i_bc s), <[b_blockno bf := b_data bf]> (i_disk0 s))
  else (set_bufs bs (disk_write (b_blockno bf) (b_data bf) (i_bc s)), i_disk0 s).

Lemma finished_same err data data' bf :
  err || wants_write bf = true -> finished err data bf = finished err data' bf.
Proof. unfold finished. by destruct err, (wants_write bf). Qed.

Lemma interrupt_ok s q b bf err :
  ide_inv s (b :: q) -> bufs (i_bc s) !! b = Some bf ->
  exists s', interrupt err s = Ret tt s' /\ ide_inv s' q /\ i_wait s' = <[b := false]> (i_wait s) /\
    (i_bc s', i_disk0 s') = served err b bf s.
Proof.
  intros Hinv Hb. pose proof (iv_ctl _ _ Hinv) as Hc. cbn in Hc. rewrite Hb in Hc.
  unfold interrupt, device. rewrite Hc. cbn [request_of fmap option_fmap option_map]. fold (wants_write bf). unfold request_of. fold (wants_write bf).
  unfold set_ctl, served. set (old := default [] (drive_disk s (b_dev bf) !! b_blockno bf)). destruct (wants_write bf) eqn:Ed.
  - rewrite <-(finished_same err [] old bf) by (by rewrite Ed, orb_true_r).
    destruct err; [|destruct (Z.eqb_spec (b_dev bf) 0) as [E0|E0]]; cbn [orb negb].
    + destruct (ideintr_ok s b q bf true [] (i_bc s) (i_disk0 s) Hinv Hb) as (s' & Hr & Hbc & Hi & Hw & Hd); [done..|].
      exists s'. splits. by rewrite Hbc, Hd.
    + destruct (ideintr_ok s b q bf false [] (i_bc s) (<[b_blockno bf := b_data bf]> (i_disk0 s)) Hinv Hb) as (s' & Hr & Hbc & Hi & Hw & Hd); [done..|].
      exists s'. splits. by rewrite Hbc, Hd.
    + destruct (ideintr_ok s b q bf false [] (disk_write (b_blockno bf) (b_data bf) (i_bc s)) (i_disk0 s) Hinv Hb) as (s' & Hr & Hbc & Hi & Hw & Hd); [done..|].
      exists s'. splits. by rewrite Hbc, Hd.
  - destruct (ideintr_ok s b q bf err old (i_bc s) (i_disk0 s) Hinv Hb) as (s' & Hr & Hbc & Hi & Hw & Hd); [done..|].
    exists s'. splits. rewrite Hbc, Hd. by destruct err.
Qed.

(** Without an error, on the second drive, this is [iderw] of memide.c. *)
Lemma served_memory s q b bf :
  ide_inv s (b :: q) -> bufs (i_bc s) !! b = Some bf -> b_dev bf = 1 ->
  iderw b (i_bc s) = Ret tt (served false b bf s).1 /\ (served false b bf s).2 = i_disk0 s.
Proof.
  intros Hinv Hb Hd. destruct (iv_queued _ _ Hinv b) as (_ & bf' & Hb' & Hp); [left|]. assert (bf' = bf) as -> by congruence.
  rewrite (iderw_effect (i_bc s) b bf Hb Hp Hd (iv_size _ _ Hinv)). unfold served, drive_disk, disk_at. rewrite Hd.
  by destruct (wants_write bf).
Qed.

(** ** The theorems *)

Lemma istep_inv n s s' q :
  istep n s s' -> ide_inv s q -> exists q', ide_inv s' q' /\ (n = 0%nat /\ (exists l, q' = q ++ l) \/ n = 1%nat /\ q' = tail q).
Proof.
  intros Hstep Hinv. destruct Hstep as [b bf s s' Hw Hb Hn Hd Hr|b s s' Hw Hr|b f s s' Hw Hr|err s s' Hr].
  - assert (pending bf /\ (c_true (b_dev bf) = true -> havedisk1 s = true)) as [Hp Hhave].
    { unfold iderw_queued, mbind, M_bind in Hr. unfold on_bufs at 1, zoom, get_buf in Hr. rewrite Hb in Hr. cbn [havedisk1 set_bc] in Hr.
      destruct (b_locked bf) eqn:El; [|done]. cbn [negb] in Hr. destruct (Z.eqb_spec (Z.land (b_flags bf) (Z.lor B_VALID B_DIRTY)) B_VALID); [done|].
      split; [done|]. intros Hc. unfold gets in Hr. cbn [havedisk1 set_bc] in Hr. rewrite Hc in Hr. by destruct (havedisk1 s). }
    destruct (iderw_queued_ok s q b bf Hinv Hw Hb Hp Hhave) as (s1 & Hr1 & Hi1 & _). assert (s1 = s') as -> by congruence.
    exists (q ++ [b]). split; [done|]. left. split; [done|by exists [b]].
  - exists q. split; [|left; split; [done|exists []; by rewrite app_nil_r]]. destruct Hinv as [A1 A2 A3 A4 A5 A6 A8 A7].
    destruct (A8 b Hw) as (bf & Hb & Hf). assert (s' = set_wait (delete b (i_wait s)) s) as ->.
    { assert (iderw_pass b s = Ret tt (set_wait (delete b (i_wait s)) s)) as E; [|congruence].
      apply wp_is. unfold iderw_pass. wp_step. apply (get_wp _ _ bf); [done|]. rewrite Hf, Z.eqb_refl. by wp_step. }
    assert (b ∉ q) as Hbq by (intros Hin; destruct (A5 b Hin); congruence). split; cbn [i_wait i_bc i_qnext i_queue i_ctl set_wait]; try done.
    + intros c Hc. rewrite lookup_delete_ne by (by intros ->). by apply A5.
    + intros c [_ Hc]%lookup_delete_Some. by apply A6.
    + intros c [_ Hc]%lookup_delete_Some. by apply A8.
  - exists q. split; [|left; split; [done|exists []; by rewrite app_nil_r]]. destruct Hinv as [A1 A2 A3 A4 A5 A6 A8 A7].
    unfold on_bufs, zoom, upd_buf in Hr. destruct (bufs (i_bc s) !! b) as [bf|] eqn:Hb; [|done]. injection Hr as <-.
    assert (forall c, i_wait s !! c <> None -> <[b := f bf]> (bufs (i_bc s)) !! c = bufs (i_bc s) !! c) as Ho
      by (intros c Hc; apply list_lookup_insert_ne; by intros ->).
    split; cbn [i_wait i_bc i_qnext i_queue i_ctl set_bc set_bufs bufs disksize]; try done.
    + by rewrite length_insert.
    + destruct q as [|h q]; [done|]. destruct (A5 h) as [Hh _]; [left|]. by rewrite Ho by congruence.
    + intros c Hc. destruct (A5 c Hc) as [H1 H2]. by rewrite Ho by congruence.
    + intros c Hc. rewrite Ho by congruence. by apply A8.
  - destruct q as [|b q].
    + exists []. split; [|by right]. unfold interrupt, device in Hr. rewrite (iv_ctl _ _ Hinv) in Hr. unfold ideintr, gets, mbind, M_bind in Hr.
      pose proof (iv_chain _ _ Hinv) as Hc. cbn in Hc. rewrite Hc in Hr. by injection Hr as <-.
    + destruct (iv_queued _ _ Hinv b) as (_ & bf & Hb & _); [left|]. destruct (interrupt_ok s q b bf err Hinv Hb) as (s1 & Hr1 & Hi1 & _).
      assert (s1 = s') as -> by congruence. exists q. split; [done|by right].
Qed.
Lemma iruns_inv m s s' q :
  iruns m s s' -> ide_inv s q -> exists q', ide_inv s' q' /\ forall k b, q !! (m + k)%nat = Some b -> q' !! k = Some b.
Proof.
  intros Hr. revert q. induction Hr as [s|n m s s1 s' Hstep Hr IH]; intros q Hinv; [by exists q|].
  destruct (istep_inv n s s1 q Hstep Hinv) as (q1 & Hi1 & Hq1). destruct (IH q1 Hi1) as (q2 & Hi2 & Hq2).
  exists q2. split; [done|]. intros k b Hk. apply Hq2. destruct Hq1 as [[-> [l ->]]|[-> ->]].
  - by apply lookup_app_l_Some.
  - by destruct q.
Qed.
Lemma ideinit_inv c d0 have : disksize c = FSSIZE -> ide_inv (ideinit c d0 have) [].
Proof.
  intros Hsz. split; cbn; try done; [constructor|apply length_replicate|..].
  - by intros b ?%not_elem_of_nil.
Qed.

(** C11: the driver refines a disk in memory.  A call of [iderw] only queues the
    request and goes to sleep.  Every interrupt finishes the first request of the
    queue and wakes its process.  Without an error of the controller it does, for
    a request to the second drive, what [iderw] of memide.c does, and for one to
    the first drive the same to that drive's blocks: a dirty buffer is written to
    its block, another one is filled from it, and no other block or buffer
    changes.  After an error no block changes and the buffer keeps its data but is
    marked valid and clean. *)
Theorem ide_refines c d0 have n s :
  disksize c = FSSIZE -> iruns n (ideinit c d0 have) s ->
  (forall b bf, i_wait s !! b = None -> bufs (i_bc s) !! b = Some bf -> pending bf -> (c_true (b_dev bf) = true -> havedisk1 s = true) ->
    exists s', iderw_queued b s = Ret tt s' /\ i_bc s' = i_bc s /\ i_disk0 s' = i_disk0 s /\ i_wait s' !! b = Some true) /\
  forall err, exists s', interrupt err s = Ret tt s' /\
    match i_queue s with
    | None => s' = s
    | Some b => i_wait s' = <[b := false]> (i_wait s) /\ exists bf, bufs (i_bc s) !! b = Some bf /\
        let blockno := b_blockno bf in
        if err then i_disk0 s' = i_disk0 s /\ i_bc s' = set_bufs
          (<[b := with_flags (Z.land (Z.lor (b_flags bf) B_VALID) (Z.lnot B_DIRTY)) bf]> (bufs (i_bc s))) (i_bc s)
        else if b_dev bf =? 1 then i_disk0 s' = i_disk0 s /\ iderw b (i_bc s) = Ret tt (i_bc s')
        else b_dev bf = 0 /\
          i_bc s' = set_bufs (<[b := finished false (default [] (i_disk0 s !! blockno)) bf]> (bufs (i_bc s))) (i_bc s) /\
          i_disk0 s' = (if wants_write bf then <[blockno := b_data bf]> (i_disk0 s) else i_disk0 s)
    end.
Proof.
  intros Hsz Hr. destruct (iruns_inv _ _ _ [] Hr (ideinit_inv c d0 have Hsz)) as (q & Hinv & _). split.
  - intros b bf Hw Hb Hp Hh. destruct (iderw_queued_ok s q b bf Hinv Hw Hb Hp Hh) as (s' & Hr' & Hi' & Hbc & Hd).
    exists s'. split; [done|]. split; [done|]. split; [done|]. apply (iv_queued _ _ Hi'). apply elem_of_app. right. left.
  - intros err. pose proof (iv_chain _ _ Hinv) as Hc. destruct q as [|b q].
    + cbn in Hc. rewrite Hc. exists s. split; [|done]. unfold interrupt, device. rewrite (iv_ctl _ _ Hinv). unfold ideintr, gets, mbind, M_bind. by rewrite Hc.
    + destruct Hc as [-> _]. destruct (iv_queued _ _ Hinv b) as (_ & bf & Hb & Hp); [left|].
      destruct (interrupt_ok s q b bf err Hinv Hb) as (s' & Hr' & _ & Hw & Heff). exists s'. split; [done|].
      split; [done|]. exists bf. split; [done|]. cbv zeta. destruct err.
      { unfold served, finished in Heff. cbn [orb] in Heff. rewrite andb_false_r in Heff. by injection Heff as -> ->. }
      destruct (Z.eqb_spec (b_dev bf) 1) as [E1|E1].
      { destruct (served_memory s q b bf Hinv Hb E1) as [Hrw Hd]. by rewrite <-Heff in Hrw, Hd. }
      assert (b_dev bf = 0) as E0 by (destruct Hp; lia). unfold served, drive_disk in Heff. rewrite E0 in Heff. cbn [orb Z.eqb] in Heff.
      split; [done|]. by destruct (wants_write bf); cbn [negb] in Heff; injection Heff as -> ->.
Qed.

(** C25: every request is served, in the order of the queue.  A process asleep in
    [iderw] has its buffer in the queue, the chain of [qnext] from [idequeue]; when
    [k] requests are before it, then whatever else happens, the interrupt that
    follows [k] interrupts finishes its request and wakes it, and it then finds
    its request finished and returns.  The queue is never longer than the number
    of buffers. *)
Theorem ide_served c d0 have n s b :
  disksize c = FSSIZE -> iruns n (ideinit c d0 have) s -> i_wait s !! b = Some true ->
  exists q k, chain_of (i_qnext s) (i_queue s) q /\ NoDup q /\ (length q <= length (bufs (i_bc s)))%nat /\ q !! k = Some b /\
    forall s1 err, iruns k s s1 -> i_wait s1 !! b = Some true /\ i_queue s1 = Some b /\
      exists s2 s3, interrupt err s1 = Ret tt s2 /\ i_wait s2 !! b = Some false /\
        iderw_pass b s2 = Ret tt s3 /\ i_wait s3 !! b = None.
Proof.
  intros Hsz Hr Hb. destruct (iruns_inv _ _ _ [] Hr (ideinit_inv c d0 have Hsz)) as (q & Hinv & _).
  pose proof (iv_asleep _ _ Hinv b Hb) as Hin. apply list_elem_of_lookup in Hin. destruct Hin as [k Hk].
  exists q, k. split; [apply Hinv|]. split; [apply Hinv|]. split.
  { rewrite <-(iv_length _ _ Hinv). apply (chain_length _ _ _ (iv_chain _ _ Hinv) (iv_nodup _ _ Hinv)). }
  split; [done|]. intros s1 err Hr1. destruct (iruns_inv _ _ _ q Hr1 Hinv) as (q1 & Hi1 & Hq1). specialize (Hq1 0%nat b). rewrite Nat.add_0_r in Hq1.
  specialize (Hq1 Hk). destruct q1 as [|b' q1]; [done|]. injection Hq1 as ->. destruct (iv_queued _ _ Hi1 b) as (Hwait & bf & Hbf & _); [left|].
  split; [done|]. split; [by destruct (iv_chain _ _ Hi1)|].
  destruct (interrupt_ok s1 q1 b bf err Hi1 Hbf) as (s2 & Hr2 & Hi2 & Hw2 & _). assert (i_wait s2 !! b = Some false) as Hwb by (by rewrite Hw2, lookup_insert_eq).
  destruct (iv_woken _ _ Hi2 b Hwb) as (bf2 & Hb2 & Hf2). exists s2, (set_wait (delete b (i_wait s2)) s2). split; [done|]. split; [done|].
  split; [|by apply lookup_delete_eq]. apply wp_is. unfold iderw_pass. wp_step. apply (get_wp _ _ bf2); [done|]. rewrite Hf2, Z.eqb_refl. by wp_step.
Qed.

(** Two requests, of the blocks 5 and 6, and an interrupt. *)
Definition ide_demo_buf (n : Z) : buf := mkBuf 0 1 n true 1 [].
Definition ide_demo : ide := ideinit (mkCache [ide_demo_buf 5; ide_demo_buf 6] [0; 1]%nat false FSSIZE {[5 := [1]; 6 := [2]]} []) ∅ true.
Definition ide_demo1 : ide := match iderw_queued 0 ide_demo with Ret _ s => s | _ => ide_demo end.
Definition ide_demo2 : ide := match iderw_queued 1 ide_demo1 with Ret _ s => s | _ => ide_demo end.
Lemma ide_demo_runs : iruns 0 ide_demo ide_demo2.
Proof.
  apply (ir_step 0 0 _ ide_demo1). { by apply (is_call 0 (ide_demo_buf 5)). }
  apply (ir_step 0 0 _ ide_demo2). { by apply (is_call 1 (ide_demo_buf 6)). } constructor.
Qed.
Lemma ide_refines_witness : exists s', interrupt false ide_demo2 = Ret tt s' /\ iderw 0 (i_bc ide_demo2) = Ret tt (i_bc s').
Proof.
  destruct (ide_refines (i_bc ide_demo) ∅ true 0 ide_demo2 eq_refl ide_demo_runs) as (_ & Hint).
  destruct (Hint false) as (s' & Hr & _ & bf & Hb & He). injection Hb as <-.
  exists s'. split; [exact Hr|]. exact (proj2 He).
Defined.
Lemma ide_served_witness : exists q k, chain_of (i_qnext ide_demo2) (i_queue ide_demo2) q /\ q !! k = Some 1%nat /\
  forall s1 err, iruns k ide_demo2 s1 -> exists s2, interrupt err s1 = Ret tt s2 /\ i_wait s2 !! 1%nat = Some false.
Proof.
  destruct (ide_served (i_bc ide_demo) ∅ true 0 ide_demo2 1 eq_refl ide_demo_runs eq_refl) as (q & k & Hq & _ & _ & Hk & Hs).
  exists q, k. split; [exact Hq|]. split; [exact Hk|]. intros s1 err Hr.
  destruct (Hs s1 err Hr) as (_ & _ & s2 & s3 & Hi & Hw & _). exists s2. split; [exact Hi|exact Hw].
Defined.

(** A read that fails is not seen by its caller: the buffer counts as valid with
    the data it had. *)
Example failed_read_is_valid : exists s', interrupt true ide_demo2 = Ret tt s' /\
  (fun b => (b_flags b, b_data b)) <$> bufs (i_bc s') !! 0%nat = Some (B_VALID, []).
Proof. exists (match interrupt true ide_demo2 with Ret _ s => s | _ => ide_demo end). split; reflexivity. Qed.
