(* ===== verification/Log.v ===== *)
(** * The write-ahead log (log.c)

    File system calls bracket their updates with [begin_op] and [end_op] and
    announce modified blocks with [log_write]; the last [end_op] commits: the
    modified blocks are copied to the log, the header is written, the blocks are
    written home, and the header is cleared.  [recover_from_log] repeats the
    last two steps after a crash.  The state is the buffer cache with its disk
    and the in-memory log. *)

From S2P Require Import Prelude Block Bio.
From stdpp Require Import base gmap list strings relations.
From Stdlib Require Import ZArith Lia.
#[local] Open Scope Z_scope.

Definition MAXOPBLOCKS : Z := 10.
Definition LOGSIZE : Z := MAXOPBLOCKS * 3.

(** [struct log]; [lh_n] and [lh_block] are its [struct logheader]. *)
Record log := mkLog {
  lg_lock : bool; lg_start : Z; lg_size : Z; lg_outstanding : Z; lg_committing : Z; lg_dev : Z;
  lh_n : Z; lh_block : list Z }.
Record lsys := mkLsys { l_bc : bcache; l_log : log }.
Definition set_bc (b : bcache) (s : lsys) : lsys := mkLsys b (l_log s).
Definition set_log (g : log) (s : lsys) : lsys := mkLsys (l_bc s) g.
Definition on_bc {A} (m : M bcache A) : M lsys A := zoom l_bc set_bc m.
Definition on_log {A} (m : M log A) : M lsys A := zoom l_log set_log m.

Definition with_lock (b : bool) (g : log) : log :=
  mkLog b (lg_start g) (lg_size g) (lg_outstanding g) (lg_committing g) (lg_dev g) (lh_n g) (lh_block g).
Definition with_outstanding (o : Z) (g : log) : log :=
  mkLog (lg_lock g) (lg_start g) (lg_size g) o (lg_committing g) (lg_dev g) (lh_n g) (lh_block g).
Definition with_committing (c : Z) (g : log) : log :=
  mkLog (lg_lock g) (lg_start g) (lg_size g) (lg_outstanding g) c (lg_dev g) (lh_n g) (lh_block g).
Definition with_n (n : Z) (g : log) : log :=
  mkLog (lg_lock g) (lg_start g) (lg_size g) (lg_outstanding g) (lg_committing g) (lg_dev g) n (lh_block g).
Definition with_blocks (l : list Z) (g : log) : log :=
  mkLog (lg_lock g) (lg_start g) (lg_size g) (lg_outstanding g) (lg_committing g) (lg_dev g) (lh_n g) l.

Definition acquire_log : M log unit :=
  b ← gets lg_lock; if (b : bool) then panic "acquire" else modify (with_lock true).
Definition release_log : M log unit :=
  b ← gets lg_lock; if (b : bool) then modify (with_lock false) else panic "release".

(** [log.lh.block[i]], an array of [LOGSIZE] entries. *)
Definition get_lh (i : Z) : M log Z := fun g =>
  if i <? 0 then Undef "lh.block index"
  else match lh_block g !! Z.to_nat i with Some b => Ret b g | None => Undef "lh.block index" end.
Definition set_lh (i v : Z) : M log unit := fun g =>
  if (0 <=? i) && (i <? LOGSIZE) then Ret tt (with_blocks (<[Z.to_nat i := v]> (lh_block g)) g)
  else Undef "lh.block index".

(** ** Super block *)

Record superblock := mkSb {
  sb_size : Z; sb_nblocks : Z; sb_ninodes : Z; sb_nlog : Z; sb_logstart : Z; sb_inodestart : Z; sb_bmapstart : Z }.
Definition sb_of (d : blk) : superblock :=
  mkSb (word_at d 0) (word_at d 4) (word_at d 8) (word_at d 12) (word_at d 16) (word_at d 20) (word_at d 24).
Definition readsb (dev : Z) : M bcache superblock :=
  bp ← bread dev 1;
  d ← buf_data bp;
  let sb := sb_of d in
  _ ← brelse bp;
  mret sb.

(** ** Installing, the header, recovery *)

(** [for (tail = 0; tail < log.lh.n; tail++)]: [k] iterations are left. *)
Fixpoint install_loop (g : log) (k : nat) (tail : Z) : M bcache unit :=
  match k with
  | O => mret tt
  | S k =>
      lbuf ← bread (lg_dev g) (lg_start g + tail + 1);
      match lh_block g !! Z.to_nat tail with
      | None => undef "lh.block index"
      | Some b =>
          dbuf ← bread (lg_dev g) (u32 b);
          d ← buf_data lbuf;
          _ ← set_data dbuf d;
          _ ← bwrite dbuf;
          _ ← brelse lbuf;
          _ ← brelse dbuf;
          install_loop g k (tail + 1)
      end
  end.
Definition install_trans : M lsys unit :=
  g ← gets l_log; on_bc (install_loop g (Z.to_nat (lh_n g)) 0).

Fixpoint read_head_loop (d : blk) (k : nat) (i : Z) : M log unit :=
  match k with
  | O => mret tt
  | S k => _ ← set_lh i (i32 (word_at d (4 + 4 * i))); read_head_loop d k (i + 1)
  end.
Definition read_head : M lsys unit :=
  g ← gets l_log;
  buf ← on_bc (bread (lg_dev g) (lg_start g));
  d ← on_bc (buf_data buf);
  _ ← on_log (modify (with_n (i32 (word_at d 0))));
  _ ← on_log (read_head_loop d (Z.to_nat (i32 (word_at d 0))) 0);
  on_bc (brelse buf).

(** The header block [d] with the in-memory header written over it. *)
Fixpoint head_loop (l : list Z) (i : Z) (d : blk) : blk :=
  match l with
  | [] => d
  | b :: l => head_loop l (i + 1) (set_word d (4 + 4 * i) b)
  end.
Definition head_block (g : log) (d : blk) : blk :=
  head_loop (take (Z.to_nat (lh_n g)) (lh_block g)) 0 (set_word d 0 (lh_n g)).
Definition write_head : M lsys unit :=
  g ← gets l_log;
  buf ← on_bc (bread (lg_dev g) (lg_start g));
  d ← on_bc (buf_data buf);
  _ ← on_bc (set_data buf (head_block g d));
  _ ← on_bc (bwrite buf);
  on_bc (brelse buf).

Definition recover_from_log : M lsys unit :=
  _ ← read_head;
  _ ← install_trans;
  _ ← on_log (modify (with_n 0));
  write_head.

Definition initlog (dev : Z) : M lsys unit :=
  if 4 + 4 * LOGSIZE >=? BSIZE then panic "initlog: too big logheader"
  else
    sb ← on_bc (readsb dev);
    _ ← on_log (modify (fun g => mkLog false (i32 (sb_logstart sb)) (i32 (sb_nlog sb)) (lg_outstanding g)
                                   (lg_committing g) dev (lh_n g) (lh_block g)));
    recover_from_log.

(** ** Transactions *)

(** The two reasons to wait; a caller that has to wait sleeps until the commit. *)
Definition begin_op_waits (g : log) : bool :=
  c_true (lg_committing g) || (lh_n g + (lg_outstanding g + 1) * MAXOPBLOCKS >? LOGSIZE).
Definition begin_op_log : M log unit :=
  _ ← acquire_log;
  w ← gets begin_op_waits;
  if (w : bool) then blocked "log"
  else
    _ ← modify (fun g => with_outstanding (i32 (lg_outstanding g + 1)) g);
    release_log.
Definition begin_op : M lsys unit := on_log begin_op_log.

Fixpoint write_log_loop (g : log) (k : nat) (tail : Z) : M bcache unit :=
  match k with
  | O => mret tt
  | S k =>
      to ← bread (lg_dev g) (lg_start g + tail + 1);
      match lh_block g !! Z.to_nat tail with
      | None => undef "lh.block index"
      | Some b =>
          from ← bread (lg_dev g) (u32 b);
          d ← buf_data from;
          _ ← set_data to d;
          _ ← bwrite to;
          _ ← brelse from;
          _ ← brelse to;
          write_log_loop g k (tail + 1)
      end
  end.
Definition write_log : M lsys unit :=
  g ← gets l_log; on_bc (write_log_loop g (Z.to_nat (lh_n g)) 0).

Definition commit : M lsys unit :=
  g ← gets l_log;
  when (lh_n g >? 0) (
    _ ← write_log;
    _ ← write_head;
    _ ← install_trans;
    _ ← on_log (modify (with_n 0));
    write_head).

(** The bookkeeping of [end_op]: true when this call has to commit. *)
Definition end_op_log : M log bool :=
  _ ← acquire_log;
  _ ← modify (fun g => with_outstanding (i32 (lg_outstanding g - 1)) g);
  g ← gets id;
  if c_true (lg_committing g) then panic "log.committing"
  else
    let do_commit := lg_outstanding g =? 0 in
    _ ← when do_commit (modify (with_committing 1));
    _ ← release_log;
    mret do_commit.
Definition end_op : M lsys unit :=
  do_commit ← on_log end_op_log;
  when do_commit (
    _ ← commit;
    on_log (_ ← acquire_log; _ ← modify (with_committing 0); release_log)).

(** The first position of [blockno] in the logged blocks, or their number. *)
Fixpoint absorb (l : list Z) (blockno : Z) (i : Z) : Z :=
  match l with
  | [] => i
  | b :: l => if u32 b =? blockno then i else absorb l blockno (i + 1)
  end.
Definition log_record (blockno : Z) : M log unit :=
  g ← gets id;
  if (lh_n g >=? LOGSIZE) || (lh_n g >=? lg_size g - 1) then panic "too big a transaction"
  else if lg_outstanding g <? 1 then panic "log_write outside of trans"
  else
    _ ← acquire_log;
    let i := absorb (take (Z.to_nat (lh_n g)) (lh_block g)) blockno 0 in
    _ ← set_lh i (i32 blockno);
    when (i =? lh_n g) (modify (with_n (lh_n g + 1))).
(** [b->flags |= B_DIRTY] keeps the buffer in the cache until the commit. *)
Definition log_write (b : nat) : M lsys unit :=
  bf ← on_bc (get_buf b);
  _ ← on_log (log_record (b_blockno bf));
  _ ← on_bc (upd_buf b (fun bf => with_flags (Z.lor (b_flags bf) B_DIRTY) bf));
  on_log release_log.
