(* ===== verification/LogCrash.v ===== *)
(** * Crash safety of the log (log.c)

    A crash keeps a prefix of the writes the disk received.  [committed] is the
    contents the file system has after recovery: the home blocks, overlaid by
    the logged blocks when the header on disk lists them. *)

From S2P Require Import Prelude Block Bio Log.
From stdpp Require Import base gmap list strings relations.
From Stdlib Require Import ZArith Lia.
#[local] Open Scope Z_scope.

(** ** Sequences of disk writes *)

Notation dview := (Z -> blk).
Definition apply_writes (ws : list (Z * blk)) (d : gmap Z blk) : gmap Z blk :=
  foldl (fun d w => <[w.1 := w.2]> d) d ws.
Fixpoint wview (ws : list (Z * blk)) (V : dview) : dview :=
  match ws with
  | [] => V
  | w :: ws => wview ws (fun m => if decide (m = w.1) then w.2 else V m)
  end.

Lemma wview_app ws ws' V : wview (ws ++ ws') V = wview ws' (wview ws V).
Proof. revert V. induction ws as [|w ws IH]; intros V; [done|]. apply IH. Qed.
Lemma wview_one n b V m : wview [(n, b)] V m = if decide (m = n) then b else V m.
Proof. done. Qed.
Lemma wview_ext ws V V' m : (forall m, V m = V' m) -> wview ws V m = wview ws V' m.
Proof.
  revert V V'. induction ws as [|w ws IH]; intros V V' He; cbn; [done|]. apply IH. intros n. by case_decide.
Qed.
Lemma wview_notin ws V m : m ∉ ws.*1 -> wview ws V m = V m.
Proof.
  revert V. induction ws as [|w ws IH]; intros V; cbn; [done|]. intros [Hm Hws]%not_elem_of_cons.
  rewrite IH by done. by rewrite decide_False.
Qed.
Lemma wview_in ws V i w : NoDup ws.*1 -> ws !! i = Some w -> wview ws V w.1 = w.2.
Proof.
  revert V i. induction ws as [|u ws IH]; intros V i; [done|]. cbn. intros [Hu Hnd]%NoDup_cons Hi.
  destruct i as [|i]; [injection Hi as ->; rewrite wview_notin by done; by rewrite decide_True|by apply (IH _ i)].
Qed.
Lemma apply_writes_app ws ws' d : apply_writes (ws ++ ws') d = apply_writes ws' (apply_writes ws d).
Proof. apply foldl_app. Qed.
Lemma apply_writes_view ws d m :
  default [] (apply_writes ws d !! m) = wview ws (fun m => default [] (d !! m)) m.
Proof.
  revert d. induction ws as [|w ws IH]; intros d; cbn; [done|]. unfold apply_writes in IH. rewrite IH.
  apply wview_ext. intros n. case_decide; [subst; by rewrite lookup_insert_eq|by rewrite lookup_insert_ne].
Qed.

(** ** Effects on an idle cache

    From [s] to [s'] the disk received the writes [ws]; nothing is held. *)
Record effect (s s' : bcache) (ws : list (Z * blk)) : Prop := {
  ef_rep : cache_rep s' [];
  ef_size : disksize s' = disksize s;
  ef_writes : writes s' = writes s ++ ws;
  ef_disk : disk s' = apply_writes ws (disk s);
  ef_view m : view s' m = wview ws (view s) m;
  ef_pinned m : pinned s' m <-> pinned s m /\ m ∉ ws.*1
}.
Lemma effect_nil s : cache_rep s [] -> effect s s [].
Proof.
  intros Hr. split; [exact Hr|reflexivity|by rewrite app_nil_r|reflexivity|reflexivity|].
  intros m. split; [|by intros []].
  intros Hm. split; [done|apply not_elem_of_nil].
Qed.
Lemma effect_trans s s1 s2 ws1 ws2 : effect s s1 ws1 -> effect s1 s2 ws2 -> effect s s2 (ws1 ++ ws2).
Proof.
  intros [_ Hs1 Hw1 Hd1 Hv1 Hp1] [Hr Hs2 Hw2 Hd2 Hv2 Hp2]. split; [done|congruence| | | |].
  - by rewrite Hw2, Hw1, app_assoc.
  - by rewrite Hd2, Hd1, apply_writes_app.
  - intros m. rewrite Hv2, wview_app. by apply wview_ext.
  - intros m. rewrite Hp2, Hp1, fmap_app, elem_of_app. naive_solver.
Qed.

(** A block not held is pinned or clean. *)
Lemma pinned_or_clean s held n :
  cache_rep s held -> n ∉ held.*2 -> pinned s n \/ (~ pinned s n /\ view s n = disk_at s n).
Proof.
  intros Hrep Hn. pose proof (cr_ok _ _ Hrep) as Hok.
  destruct (decide (Exists (fun b => caches n b = true /\ is_dirty b = true) (bufs s))) as [He|Hne].
  - left. apply Exists_exists in He as (b & [i Hb]%list_elem_of_lookup_1 & Hc). by exists i, b.
  - right. assert (~ pinned s n) as Hp.
    { intros (i & b & Hb & Hc). apply Hne, Exists_exists. exists b. split; [|done]. by apply list_elem_of_lookup_2 in Hb. }
    split; [done|]. by apply (view_disk s held).
Qed.

(** Four steps and a continuation, regrouped. *)
Lemma wp_four {S} (a b c d k : M S unit) Q s :
  wp (_ ← a; _ ← b; _ ← c; d) (fun _ s' => wp k Q s') s ->
  wp (_ ← a; _ ← b; _ ← c; _ ← d; k) Q s.
Proof.
  unfold wp, mbind, M_bind. destruct (a s) as [[] s1| | | |]; try done. destruct (b s1) as [[] s2| | | |]; try done.
  destruct (c s2) as [[] s3| | | |]; try done. destruct (d s3) as [[] s4| | | |]; done.
Qed.

Section Copy.
  Variables (s : bcache) (x y : Z).
  Hypotheses (Hrep : cache_rep s []) (Hxy : x <> y) (Hx : 0 <= x < u32 (disksize s)) (Hy : 0 <= y < u32 (disksize s)).
  Hypotheses (Hroom : (0 < clean s)%nat) (Hroom2 : pinned s y \/ (forall m, ~ pinned s m)).

(** Both blocks locked, [x] first. *)
Lemma bread_two :
  wp (bread 1 x) (fun i s1 => wp (bread 1 y) (fun j s2 => cache_rep s2 [(j, y); (i, x)] /\
     same_disk s s2 /\ (forall m, view s2 m = view s m) /\ (forall m, pinned s2 m <-> pinned s m)) s1) s.
Proof.
  wp_use (bread_ok s [] Hrep x); [apply not_elem_of_nil|by right|done|].
  intros i s1 (Hrep1 & [Hd1 Hs1 Hw1] & Hv1 & Hp1).
  wp_use (bread_ok s1 _ Hrep1 y); [|destruct Hroom2 as [Hy'|Hn]; [left; by apply Hp1|right]|by rewrite Hs1|].
  - cbn. by intros E%list_elem_of_singleton.
  - pose proof (clean_enough s1 _ [] (cr_ok _ _ Hrep1)) as Hc.
    assert (NBUF <= clean s1 + 0)%nat by (apply Hc; intros m Hm%Hp1; by destruct (Hn m)). unfold NBUF in *. cbn. lia.
  - intros j s2 (Hrep2 & [Hd2 Hs2 Hw2] & Hv2 & Hp2). split; [done|]. split; [split; congruence|].
    split; intros m; [by rewrite Hv2|by rewrite Hp2].
Qed.

(** Writing one of two held blocks and giving both back. *)
Lemma write_release i j s1 ws' d :
  (ws' = x /\ d = y \/ ws' = y /\ d = x) ->
  cache_rep s1 [(j, y); (i, x)] -> same_disk s s1 -> (forall m, view s1 m = view s m) ->
  (forall m, pinned s1 m <-> pinned s m) ->
  let p := if decide (ws' = x) then i else j in
  let q := if decide (ws' = x) then j else i in
  wp (_ ← set_data p (view s d); _ ← bwrite p; _ ← brelse q; brelse p)
     (fun _ s' => effect s s' [(ws', view s d)]) s1.
Proof.
  intros Hcase Hrep1 [Hd1 Hs1 Hw1] Hv1 Hp1 p q.
  assert (cache_rep s1 [(q, d); (p, ws')] /\ ws' <> d) as [Hrep1' Hne].
  { destruct Hcase as [[-> ->]|[-> ->]]; subst p q; [by rewrite !decide_True by done|].
    rewrite !decide_False by done. split; [|done]. apply (cache_rep_perm s1 [(j, y); (i, x)]); [constructor|done]. }
  assert (0 <= ws' < u32 (disksize s)) as Hw by (destruct Hcase as [[-> _]|[-> _]]; done).
  clearbody p q. clear Hcase Hrep1. assert (forall l, (p, ws') ∈ (q, d) :: (p, ws') :: l) as Hin by (intros; right; left).
  wp_step. wp_use (set_data_ok s1 _ Hrep1' p ws' (view s d)); [apply Hin|].
  intros _ s2 (Hrep2 & [Hd2 Hs2 Hw2] & Hv2 & Hp2). wp_step.
  wp_use (bwrite_ok s2 _ p ws' Hrep2); [apply Hin|rewrite Hs2, Hs1; apply Hw|].
  intros _ s3 (Hrep3 & Hd3 & Hw3 & Hs3 & Hv3 & Hp3). rewrite Hv2, decide_True in Hd3, Hw3 by done.
  assert (forall m, view s3 m = if decide (m = ws') then view s d else view s m) as Hv
    by (intros m; rewrite Hv3, Hv2; case_decide; done).
  wp_step. wp_use (brelse_ok s3 _ q d); [done| |].
  { rewrite Hp3, Hp2, Hp1. destruct (pinned_or_clean s [] d Hrep (not_elem_of_nil d)) as [?|[_ Hcl]]; [by left|right].
    rewrite Hv, decide_False by done. rewrite Hcl. unfold disk_at. by rewrite Hd3, Hd2, Hd1, lookup_insert_ne. }
  intros _ s4 (Hrep4 & [Hd4 Hs4 Hw4] & Hv4 & Hp4).
  wp_use (brelse_ok s4 [] p ws'); [done| |].
  { right. rewrite Hv4, Hv, decide_True by done. unfold disk_at. by rewrite Hd4, Hd3, lookup_insert_eq. }
  intros _ s5 (Hrep5 & [Hd5 Hs5 Hw5] & Hv5 & Hp5). split; [done|congruence| | | |].
  - by rewrite Hw5, Hw4, Hw3, Hw2, Hw1.
  - cbn. by rewrite Hd5, Hd4, Hd3, Hd2, Hd1.
  - intros m. cbn. by rewrite Hv5, Hv4, Hv.
  - intros m. rewrite Hp5, Hp4, Hp3, Hp2, Hp1. cbn. rewrite list_elem_of_singleton. naive_solver.
Qed.
End Copy.

(** ** The layout of the log *)

Section Geometry.
  Variables (start lsize : Z).

Definition in_log (n : Z) : Prop := start <= n < start + lsize.
Definition home (sz n : Z) : Prop := 0 <= n < u32 sz /\ n < 2147483648 /\ ~ in_log n.
Record geometry (sz : Z) : Prop := {
  ge_start : 0 <= start;
  ge_size : 1 <= lsize;
  ge_fit : start + lsize <= u32 sz;
  ge_int : start + lsize < 2147483648
}.
(** The in-memory log matches the layout and lists the blocks [bs]. *)
Record log_at (g : log) (bs : list Z) : Prop := {
  la_dev : lg_dev g = 1;
  la_start : lg_start g = start;
  la_len : length (lh_block g) = Z.to_nat LOGSIZE;
  la_n : lh_n g = Z.of_nat (length bs);
  la_blocks : take (length bs) (lh_block g) = bs;
  la_fit : Z.of_nat (length bs) < lsize
}.

(** What [install_trans] and [write_log] write. *)
Fixpoint install_writes (V : dview) (l : list Z) (j : Z) : list (Z * blk) :=
  match l with
  | [] => []
  | b :: l => (b, V (start + j + 1)) :: install_writes V l (j + 1)
  end.
Fixpoint log_writes (V : dview) (l : list Z) (j : Z) : list (Z * blk) :=
  match l with
  | [] => []
  | b :: l => (start + j + 1, V b) :: log_writes V l (j + 1)
  end.

Lemma install_writes_lookup V l j i :
  install_writes V l j !! i = (fun b => (b, V (start + (j + Z.of_nat i) + 1))) <$> l !! i.
Proof.
  revert j i. induction l as [|b l IH]; intros j [|i]; cbn; try done; [by rewrite Z.add_0_r|].
  rewrite IH. by replace (j + 1 + Z.of_nat i) with (j + Z.of_nat (S i)) by lia.
Qed.
Lemma log_writes_lookup V l j i :
  log_writes V l j !! i = (fun b => (start + (j + Z.of_nat i) + 1, V b)) <$> l !! i.
Proof.
  revert j i. induction l as [|b l IH]; intros j [|i]; cbn; try done; [by rewrite Z.add_0_r|].
  rewrite IH. by replace (j + 1 + Z.of_nat i) with (j + Z.of_nat (S i)) by lia.
Qed.
Lemma install_writes_fst V l j : (install_writes V l j).*1 = l.
Proof. revert j. induction l as [|b l IH]; intros j; cbn; [done|]. by rewrite IH. Qed.
Lemma length_install_writes V l j : length (install_writes V l j) = length l.
Proof. by rewrite <- (length_fmap fst), install_writes_fst. Qed.
Lemma length_log_writes V l j : length (log_writes V l j) = length l.
Proof. revert j. induction l; intros j; cbn; auto. Qed.
Lemma log_writes_fst V l j m : m ∈ (log_writes V l j).*1 -> start + j + 1 <= m < start + j + 1 + Z.of_nat (length l).
Proof.
  intros ([n b] & -> & [i Hi]%list_elem_of_lookup_1)%list_elem_of_fmap. rewrite log_writes_lookup in Hi.
  destruct (l !! i) as [c|] eqn:Hc; [|done]. apply lookup_lt_Some in Hc. injection Hi as <- <-. cbn. lia.
Qed.
Lemma NoDup_log_writes V l j : NoDup (log_writes V l j).*1.
Proof.
  revert j. induction l as [|b l IH]; intros j; cbn; [constructor|]. apply NoDup_cons. split; [|apply IH].
  intros H%log_writes_fst. lia.
Qed.
Lemma install_writes_ext V V' l j :
  (forall i, j <= i < j + Z.of_nat (length l) -> V (start + i + 1) = V' (start + i + 1)) ->
  install_writes V l j = install_writes V' l j.
Proof.
  revert j. induction l as [|b l IH]; intros j He; cbn in *; [done|].
  rewrite He by lia. f_equal. apply IH. intros i Hi. apply He. lia.
Qed.
Lemma log_writes_ext V V' l j : (forall b, b ∈ l -> V b = V' b) -> log_writes V l j = log_writes V' l j.
Proof.
  revert j. induction l as [|b l IH]; intros j He; cbn; [done|]. rewrite He by left. f_equal. apply IH.
  intros c Hc. apply He. by right.
Qed.

(** ** The header block *)

Definition head_list (d : blk) : list Z :=
  (fun i => i32 (word_at d (4 + 4 * Z.of_nat i))) <$> seq 0 (Z.to_nat (i32 (word_at d 0))).

Lemma length_head_loop l i d : length (head_loop l i d) = length d.
Proof. revert i d. induction l as [|b l IH]; intros i d; cbn; [done|]. by rewrite IH, length_set_word. Qed.
Lemma head_loop_word l i d o :
  0 <= i -> 4 + 4 * (i + Z.of_nat (length l)) <= Z.of_nat (length d) -> 0 <= o -> o mod 4 = 0 ->
  word_at (head_loop l i d) o =
    match l !! Z.to_nat (o / 4 - 1 - i) with
    | Some b => if decide (4 + 4 * i <= o) then u32 b else word_at d o
    | None => word_at d o
    end.
Proof.
  revert i d. induction l as [|b l IH]; intros i d Hi Hf Ho Ha; cbn [head_loop length] in *; [done|].
  rewrite IH by (rewrite ?length_set_word; lia).
  rewrite word_at_set_word by (unfold in_block; done || dlia).
  destruct (decide (o = 4 + 4 * i)) as [->|Hne].
  - replace ((4 + 4 * i) / 4 - 1 - i) with 0 by dlia. change (Z.to_nat 0) with 0%nat. rewrite lookup_cons.
    destruct (l !! _) as [c|]; repeat case_decide; done || lia.
  - destruct (decide (4 + 4 * i <= o)) as [Hle|Hle].
    + replace (Z.to_nat (o / 4 - 1 - i)) with (S (Z.to_nat (o / 4 - 1 - (i + 1)))) by dlia. rewrite lookup_cons.
      destruct (l !! _); repeat case_decide; done || dlia.
    + replace (Z.to_nat (o / 4 - 1 - i)) with 0%nat by dlia. rewrite lookup_cons.
      destruct (l !! _); repeat case_decide; done || dlia.
Qed.

Lemma head_block_n g d :
  Z.of_nat (length d) = BSIZE -> 0 <= lh_n g <= LOGSIZE -> word_at (head_block g d) 0 = lh_n g.
Proof.
  intros Hd Hn. unfold head_block. unfold LOGSIZE, MAXOPBLOCKS, BSIZE in *.
  rewrite (head_loop_word _ 0); [|done| |done|done].
  - rewrite word_at_set_word, decide_True by (unfold in_block; auto with lia).
    destruct (_ !! _); [rewrite decide_False by lia|]; mlia.
  - rewrite length_set_word, length_take. lia.
Qed.

(** The header on disk after [write_head] lists the logged blocks. *)
Lemma head_block_list g bs d :
  log_at g bs -> Z.of_nat (length d) = BSIZE -> Forall is_i32 bs -> (length bs <= Z.to_nat LOGSIZE)%nat ->
  head_list (head_block g d) = bs.
Proof.
  intros Hla Hd Hbs Hlen. unfold head_list. rewrite head_block_n
    by (rewrite ?(la_n _ _ Hla); unfold LOGSIZE, MAXOPBLOCKS in *; done || lia).
  unfold head_block. rewrite (la_n _ _ Hla), Nat2Z.id, (la_blocks _ _ Hla). unfold LOGSIZE, MAXOPBLOCKS, BSIZE in *.
  rewrite i32_small, Nat2Z.id by lia. apply list_eq. intros i. rewrite list_lookup_fmap.
  destruct (decide (i < length bs)%nat) as [Hi|Hi].
  - rewrite lookup_seq_lt by done. cbn [fmap option_fmap option_map]. destruct (lookup_lt_is_Some_2 bs i Hi) as [b Hb].
    rewrite (head_loop_word _ 0) by (rewrite ?length_set_word; done || dlia).
    replace (Z.to_nat ((4 + 4 * Z.of_nat (0 + i)) / 4 - 1 - 0)) with i by dlia.
    rewrite Hb, decide_True by lia. f_equal. rewrite Forall_lookup in Hbs. specialize (Hbs i b Hb). rewrite i32_u32. mlia.
  - rewrite lookup_seq_ge by lia. symmetry. apply lookup_ge_None. lia.
Qed.
Lemma head_block_empty g d : Z.of_nat (length d) = BSIZE -> head_list (head_block (with_n 0 g) d) = [].
Proof. intros Hd. unfold head_list. by rewrite head_block_n. Qed.
Lemma length_head_block g d : length (head_block g d) = length d.
Proof. unfold head_block. by rewrite length_head_loop, length_set_word. Qed.

(** ** The copying loops *)

Section Loops.
  Variables (g : log) (sz : Z) (P : list Z).
  Hypotheses (Hgeo : geometry sz) (Hdev : lg_dev g = 1) (Hstart : lg_start g = start).
  Hypothesis HP : (length P < NBUF)%nat.

(** The blocks [l] are those of the header from [tail] on. *)
Record loop_at (s : bcache) (l : list Z) (tail : Z) : Prop := {
  lp_rep : cache_rep s [];
  lp_size : disksize s = sz;
  lp_tail : 0 <= tail;
  lp_fit : tail + Z.of_nat (length l) < lsize;
  lp_block i b : l !! i = Some b -> lh_block g !! (Z.to_nat tail + i)%nat = Some b;
  lp_home b : b ∈ l -> home sz b;
  lp_nodup : NoDup l;
  lp_pinned m : pinned s m -> m ∈ P
}.

Lemma loop_clean s l tail : loop_at s l tail -> (0 < clean s)%nat.
Proof.
  intros Hl. pose proof (clean_enough s _ P (cr_ok _ _ (lp_rep _ _ _ Hl)) (lp_pinned _ _ _ Hl)). lia.
Qed.
Lemma loop_next s s' b l tail w :
  loop_at s (b :: l) tail -> effect s s' [w] -> loop_at s' l (tail + 1).
Proof.
  intros [Hr Hs Ht Hf Hb Hh Hn Hp] [Hr' Hs' _ _ _ Hp']. cbn in Hf. apply NoDup_cons in Hn as [_ Hn].
  split; [done|congruence|lia|lia| |intros c Hc; apply Hh; by right|done|].
  - intros i c Hi. replace (Z.to_nat (tail + 1) + i)%nat with (Z.to_nat tail + S i)%nat by lia. by apply Hb.
  - intros m [Hm _]%Hp'. by apply Hp.
Qed.
Lemma loop_first s b l tail :
  loop_at s (b :: l) tail ->
  lh_block g !! Z.to_nat tail = Some b /\ u32 b = b /\ home sz b /\ in_log (start + tail + 1) /\
  0 <= start + tail + 1 < u32 sz.
Proof.
  intros [Hr Hs Ht Hf Hb Hh Hn Hp]. cbn in Hf. destruct Hgeo. destruct (Hh b) as (Hu & Hi & Hl); [left|].
  split; [rewrite <- (Hb 0%nat b eq_refl); f_equal; lia|]. split; [mlia|]. split; [done|]. unfold in_log. lia.
Qed.

Lemma write_log_loop_ok l s tail :
  loop_at s l tail -> Forall (pinned s) l ->
  wp (write_log_loop g (length l) tail) (fun _ s' => effect s s' (log_writes (view s) l tail)) s.
Proof.
  revert s tail. induction l as [|b l IH]; intros s tail Hl Hpin; cbn [write_log_loop length log_writes].
  { apply wp_ret, effect_nil, Hl. }
  destruct (loop_first s b l tail Hl) as (Hb & Hbu & Hbh & Hil & Hrg).
  pose proof (lp_size _ _ _ Hl) as Hs. rewrite Hdev, Hstart. wp_step.
  assert (start + tail + 1 <> b) as Hne by (intros E; destruct Hbh as (_ & _ & []); by rewrite <- E).
  apply Forall_cons in Hpin as [Hpb Hpl].
  assert (0 <= b < u32 (disksize s)) as Hbr by (rewrite Hs; apply Hbh).
  wp_use (bread_two s (start + tail + 1) b); [apply Hl|done|by rewrite Hs|done|by eapply loop_clean|by left|].
  intros to s1 HW. rewrite Hb, Hbu. wp_step. wp_use HW. intros from s2 (Hrep2 & Hsd & Hv & Hp).
  wp_step. unfold wp at 1. rewrite (buf_data_ok s2 _ Hrep2 from b) by left. rewrite Hv.
  pose proof (write_release s (start + tail + 1) b (lp_rep _ _ _ Hl) Hne ltac:(by rewrite Hs) Hbr to from s2 _ _
    (or_introl (conj eq_refl eq_refl)) Hrep2 Hsd Hv Hp) as HR. cbv zeta in HR. rewrite !decide_True in HR by done.
  apply wp_four. wp_use HR. intros _ s' Hef.
  assert (forall c, c ∈ l -> c <> start + tail + 1) as Hcl.
  { intros c Hc ->. destruct (lp_home _ _ _ Hl (start + tail + 1)) as (_ & _ & []); [by right|done]. }
  rewrite (log_writes_ext (view s) (view s') l (tail + 1)).
  - wp_use (IH s' (tail + 1)); [by eapply loop_next| |intros _ s'' Hef'; by apply (effect_trans s s' s'' [_] _ Hef Hef')].
    apply Forall_forall. intros c Hc. rewrite Forall_forall in Hpl. apply (ef_pinned _ _ _ Hef). split; [by apply Hpl|].
    intros ->%list_elem_of_singleton. by apply (Hcl _ Hc).
  - intros c Hc. rewrite (ef_view _ _ _ Hef). cbn. by rewrite decide_False by by apply Hcl.
Qed.

Lemma install_loop_ok l s tail :
  loop_at s l tail -> Forall (pinned s) l \/ (forall m, ~ pinned s m) ->
  wp (install_loop g (length l) tail) (fun _ s' => effect s s' (install_writes (view s) l tail)) s.
Proof.
  revert s tail. induction l as [|b l IH]; intros s tail Hl Hpin; cbn [install_loop length install_writes].
  { apply wp_ret, effect_nil, Hl. }
  destruct (loop_first s b l tail Hl) as (Hb & Hbu & Hbh & Hil & Hrg).
  pose proof (lp_size _ _ _ Hl) as Hs. rewrite Hdev, Hstart. wp_step.
  assert (start + tail + 1 <> b) as Hne by (intros E; destruct Hbh as (_ & _ & []); by rewrite <- E).
  assert (0 <= b < u32 (disksize s)) as Hbr by (rewrite Hs; apply Hbh).
  wp_use (bread_two s (start + tail + 1) b); [apply Hl|done|by rewrite Hs|done|by eapply loop_clean| |].
  { destruct Hpin as [Hp|?]; [left; by apply Forall_cons in Hp as [? _]|by right]. }
  intros to s1 HW. rewrite Hb, Hbu. wp_step. wp_use HW. intros from s2 (Hrep2 & Hsd & Hv & Hp).
  wp_step. unfold wp at 1. rewrite (buf_data_ok s2 _ Hrep2 to (start + tail + 1)) by (right; left). rewrite Hv.
  pose proof (write_release s (start + tail + 1) b (lp_rep _ _ _ Hl) Hne ltac:(by rewrite Hs) Hbr to from s2 _ _
    (or_intror (conj eq_refl eq_refl)) Hrep2 Hsd Hv Hp) as HR. cbv zeta in HR. rewrite !decide_False in HR by done.
  apply wp_four. wp_use HR. intros _ s' Hef.
  rewrite (install_writes_ext (view s) (view s') l (tail + 1)).
  - wp_use (IH s' (tail + 1)); [by eapply loop_next| |intros _ s'' Hef'; by apply (effect_trans s s' s'' [_] _ Hef Hef')].
    destruct Hpin as [Hpin|Hpin]; [left|right; intros m [Hm _]%(ef_pinned _ _ _ Hef); by apply (Hpin m)].
    apply Forall_cons in Hpin as [_ Hpl]. rewrite Forall_forall in Hpl.
    apply Forall_forall. intros c Hc. apply (ef_pinned _ _ _ Hef). split; [by apply Hpl|].
    intros ->%list_elem_of_singleton. by destruct (NoDup_cons_1_1 b l (lp_nodup _ _ _ Hl)).
  - intros i Hi. rewrite (ef_view _ _ _ Hef). cbn. rewrite decide_False; [done|]. intros E.
    destruct Hbh as (_ & _ & []). unfold in_log. pose proof (lp_fit _ _ _ Hl). pose proof (lp_tail _ _ _ Hl). cbn in *. lia.
Qed.
End Loops.
(** ** Reading and writing the header *)

Section Header.
  Variables (s : lsys) (sz : Z).
  Hypotheses (Hgeo : geometry sz) (Hdev : lg_dev (l_log s) = 1) (Hstart : lg_start (l_log s) = start).
  Hypotheses (Hrep : cache_rep (l_bc s) []) (Hsz : disksize (l_bc s) = sz) (Hroom : (0 < clean (l_bc s))%nat).

Lemma start_range : 0 <= start < u32 sz.
Proof. destruct Hgeo. lia. Qed.

Lemma write_head_ok :
  wp write_head (fun _ s' => l_log s' = l_log s /\
    effect (l_bc s) (l_bc s') [(start, head_block (l_log s) (view (l_bc s) start))]) s.
Proof.
  pose proof start_range as Hr. unfold write_head. wp_steps. rewrite Hdev, Hstart.
  apply wp_zoom. wp_use (bread_ok (l_bc s) [] Hrep start); [apply not_elem_of_nil|by right|by rewrite Hsz|].
  intros i b1 (Hrep1 & [Hd1 Hs1 Hw1] & Hv1 & Hp1). wp_step. apply wp_zoom. cbn [l_bc set_bc].
  unfold wp at 1. rewrite (buf_data_ok b1 _ Hrep1 i start) by left. rewrite Hv1.
  wp_step. apply wp_zoom. cbn [l_bc set_bc].
  wp_use (set_data_ok b1 _ Hrep1 i start); [left|]. intros _ b2 (Hrep2 & [Hd2 Hs2 Hw2] & Hv2 & Hp2).
  wp_step. apply wp_zoom. cbn [l_bc set_bc].
  wp_use (bwrite_ok b2 _ i start Hrep2); [left|rewrite Hs2, Hs1, Hsz; apply Hr|].
  intros _ b3 (Hrep3 & Hd3 & Hw3 & Hs3 & Hv3 & Hp3). rewrite Hv2, decide_True in Hd3, Hw3 by done.
  apply wp_zoom. cbn [l_bc set_bc]. wp_use (brelse_ok b3 [] i start); [done| |].
  { right. rewrite Hv3, Hv2, decide_True by done. unfold disk_at. by rewrite Hd3, lookup_insert_eq. }
  intros _ b4 (Hrep4 & [Hd4 Hs4 Hw4] & Hv4 & Hp4). cbn [l_bc set_bc l_log]. split; [done|].
  split; [done|congruence|congruence| | |].
  - cbn. congruence.
  - intros m. cbn. rewrite Hv4, Hv3, Hv2. case_decide; [done|apply Hv1].
  - intros m. rewrite Hp4, Hp3, Hp2, Hp1. cbn. rewrite list_elem_of_singleton. naive_solver.
Qed.

Lemma read_head_loop_ok d k i g :
  0 <= i -> i + Z.of_nat k <= LOGSIZE -> length (lh_block g) = Z.to_nat LOGSIZE ->
  exists l, read_head_loop d k i g = Ret tt (with_blocks l g) /\ length l = Z.to_nat LOGSIZE /\
    forall j, l !! j = if decide (i <= Z.of_nat j < i + Z.of_nat k)
                       then Some (i32 (word_at d (4 + 4 * Z.of_nat j))) else lh_block g !! j.
Proof.
  revert i g. induction k as [|k IH]; intros i g Hi Hk Hl; cbn [read_head_loop].
  { exists (lh_block g). split; [by destruct g|]. split; [done|]. intros j. by rewrite decide_False by lia. }
  unfold mbind, M_bind, set_lh. rewrite (proj2 (Z.leb_le 0 i)), (proj2 (Z.ltb_lt i LOGSIZE)) by lia. cbn [andb].
  unfold LOGSIZE, MAXOPBLOCKS in *.
  destruct (IH (i + 1) (with_blocks (<[Z.to_nat i := i32 (word_at d (4 + 4 * i))]> (lh_block g)) g))
    as (l & Hrun & Hll & Hlk); [lia|lia|cbn; by rewrite length_insert|].
  exists l. split; [exact Hrun|]. split; [done|]. intros j. rewrite Hlk. cbn [lh_block with_blocks].
  destruct (decide (Z.of_nat j = i)) as [E|E].
  - rewrite (decide_False (P := i + 1 <= _ < _)), decide_True by lia.
    replace (Z.to_nat i) with j by lia. rewrite list_lookup_insert_eq by lia. by rewrite E.
  - rewrite list_lookup_insert_ne by lia. repeat case_decide; done || lia.
Qed.

Lemma read_head_ok :
  let d := view (l_bc s) start in
  length (lh_block (l_log s)) = Z.to_nat LOGSIZE -> Z.of_nat (length (head_list d)) = i32 (word_at d 0) ->
  i32 (word_at d 0) <= LOGSIZE ->
  wp read_head (fun _ s' => effect (l_bc s) (l_bc s') [] /\ exists l,
    l_log s' = with_blocks l (with_n (Z.of_nat (length (head_list d))) (l_log s)) /\
    length l = Z.to_nat LOGSIZE /\ take (length (head_list d)) l = head_list d) s.
Proof.
  intros d Hlen Hn Hmax. pose proof start_range as Hr. unfold read_head. wp_steps. rewrite Hdev, Hstart.
  apply wp_zoom. wp_use (bread_ok (l_bc s) [] Hrep start); [apply not_elem_of_nil|by right|by rewrite Hsz|].
  intros i b1 (Hrep1 & [Hd1 Hs1 Hw1] & Hv1 & Hp1). wp_step. apply wp_zoom. cbn [l_bc set_bc].
  unfold wp at 1. rewrite (buf_data_ok b1 _ Hrep1 i start) by left. rewrite Hv1. fold d.
  wp_step. apply wp_zoom. cbn [l_bc set_bc l_log]. wp_step. rewrite <- Hn, Nat2Z.id. wp_step.
  apply wp_zoom. cbn [l_bc set_bc set_log l_log].
  destruct (read_head_loop_ok d (length (head_list d)) 0 (with_n (Z.of_nat (length (head_list d))) (l_log s)))
    as (l & Hrun & Hll & Hlk); [done|lia|done|]. unfold wp at 1. rewrite Hrun.
  apply wp_zoom. cbn [l_bc set_bc set_log l_log].
  wp_use (brelse_ok b1 [] i start); [done| |].
  { rewrite Hp1, Hv1. unfold disk_at. rewrite Hd1.
    destruct (pinned_or_clean (l_bc s) [] start Hrep (not_elem_of_nil start)) as [?|[_ ?]]; [by left|by right]. }
  intros _ b2 (Hrep2 & [Hd2 Hs2 Hw2] & Hv2 & Hp2). cbn [l_bc set_bc set_log l_log]. split.
  - split; [done|congruence|rewrite app_nil_r; congruence|cbn; congruence|intros m; cbn; by rewrite Hv2, Hv1|].
    intros m. rewrite Hp2, Hp1. cbn. pose proof (not_elem_of_nil m). naive_solver.
  - exists l. split; [done|]. split; [done|]. apply list_eq. intros j.
    destruct (decide (j < length (head_list d))%nat) as [Hj|Hj].
    + rewrite lookup_take_lt by done. rewrite Hlk, decide_True by lia. unfold head_list.
      rewrite list_lookup_fmap, lookup_seq_lt; [done|]. unfold head_list in Hj. by rewrite length_fmap, length_seq in Hj.
    + rewrite lookup_take_ge by lia. symmetry. apply lookup_ge_None. lia.
Qed.
End Header.
(** ** What a disk means after recovery *)

Definition committed (D : dview) (m : Z) : blk :=
  match list_find (eq m) (head_list (D start)) with
  | Some (i, _) => D (start + Z.of_nat i + 1)
  | None => D m
  end.

(** A disk that recovery can start from. *)
Record log_wf (sz : Z) (D : dview) : Prop := {
  lw_block : Z.of_nat (length (D start)) = BSIZE;
  lw_n : Z.of_nat (length (head_list (D start))) = i32 (word_at (D start) 0);
  lw_max : i32 (word_at (D start) 0) <= LOGSIZE;
  lw_fit : Z.of_nat (length (head_list (D start))) < lsize;
  lw_nodup : NoDup (head_list (D start));
  lw_home : Forall (home sz) (head_list (D start));
  lw_sb : 1 ∉ head_list (D start) /\ home sz 1 /\ word_at (D 1) 16 = start /\ word_at (D 1) 12 = lsize
}.

Lemma committed_in D i m : NoDup (head_list (D start)) -> head_list (D start) !! i = Some m ->
  committed D m = D (start + Z.of_nat i + 1).
Proof.
  intros Hnd Hi. unfold committed. destruct (list_find (eq m) (head_list (D start))) as [[j x]|] eqn:E.
  - apply list_find_Some in E as (Hj & <- & _). by rewrite (NoDup_lookup (head_list (D start)) i j m).
  - apply list_find_None in E. rewrite Forall_lookup in E. by destruct (E i m).
Qed.
Lemma committed_notin D m : m ∉ head_list (D start) -> committed D m = D m.
Proof.
  intros Hm. unfold committed. destruct (list_find (eq m) (head_list (D start))) as [[j x]|] eqn:E; [|done].
  apply list_find_Some in E as (Hj & <- & _). destruct Hm. by apply list_elem_of_lookup_2 in Hj.
Qed.

(** The meaning depends on the contents of the blocks only. *)
Lemma committed_ext D D' m : (forall n, D n = D' n) -> committed D m = committed D' m.
Proof. intros He. unfold committed. rewrite He. by destruct (list_find _ _) as [[i ?]|]. Qed.
Lemma log_wf_ext sz D D' : (forall n, D n = D' n) -> log_wf sz D -> log_wf sz D'.
Proof. intros He [? ? ? ? ? ? ?]. split; by rewrite <- ?He. Qed.

Lemma home_not_log sz m i : home sz m -> 0 <= i < lsize -> m <> start + i.
Proof. intros (_ & _ & Hm) Hi ->. apply Hm. unfold in_log. lia. Qed.

Section Meaning.
  Variables (sz : Z) (D : dview).
  Hypothesis Hgeo : geometry sz.

(** Writing log blocks while the header is empty changes nothing. *)
Lemma log_prefix_safe ws :
  log_wf sz D -> head_list (D start) = [] ->
  (forall m, m ∈ ws.*1 -> start < m < start + lsize) ->
  log_wf sz (wview ws D) /\ head_list (wview ws D start) = [] /\
  forall m, home sz m -> committed (wview ws D) m = D m.
Proof.
  intros Hwf Hh Hws. destruct Hgeo as [? ? ? ?].
  assert (wview ws D start = D start) as Hst by (apply wview_notin; intros ?%Hws; lia).
  assert (forall m, home sz m -> wview ws D m = D m) as Hhm.
  { intros m Hm. apply wview_notin. intros Hin%Hws. destruct Hm as (_ & _ & []). unfold in_log. lia. }
  split; [|split; [by rewrite Hst|]].
  - destruct Hwf as [? ? ? ? ? ? (? & ? & ? & ?)]. split; rewrite ?Hst; try done.
    by rewrite (Hhm 1) by done.
  - intros m Hm. rewrite committed_notin; [by apply Hhm|]. rewrite Hst, Hh. apply not_elem_of_nil.
Qed.

(** Writing home blocks that the header lists changes nothing either. *)
Lemma install_prefix_safe ws :
  log_wf sz D -> (forall m, m ∈ ws.*1 -> m ∈ head_list (D start)) ->
  log_wf sz (wview ws D) /\ wview ws D start = D start /\
  forall m, home sz m -> committed (wview ws D) m = committed D m.
Proof.
  intros Hwf Hws. pose proof (lw_home _ _ Hwf) as Hhome. rewrite Forall_forall in Hhome.
  pose proof (ge_size _ Hgeo) as Hls.
  assert (forall i, 0 <= i < lsize -> wview ws D (start + i) = D (start + i)) as Hlog.
  { intros i Hi. apply wview_notin. intros Hin%Hws. by apply (home_not_log sz _ i (Hhome _ Hin) Hi). }
  assert (wview ws D start = D start) as Hst by (rewrite <- (Z.add_0_r start); apply Hlog; lia).
  split; [|split; [done|]].
  - destruct Hwf as [? ? ? ? ? ? (? & ? & ? & ?)]. split; rewrite ?Hst; try done.
    rewrite (wview_notin ws D 1); [done|]. by intros Hin%Hws.
  - intros m Hm. destruct (decide (m ∈ head_list (D start))) as [[i Hi]%list_elem_of_lookup_1|Hn].
    + rewrite (committed_in D i m), (committed_in _ i m) by (rewrite ?Hst; done || apply Hwf).
      pose proof (lookup_lt_Some _ _ _ Hi). pose proof (lw_fit _ _ Hwf).
      rewrite <- Z.add_assoc. apply Hlog. lia.
    + rewrite !committed_notin by (rewrite ?Hst; done). apply wview_notin. by intros Hin%Hws.
Qed.

(** Clearing the header of a fully installed log. *)
Lemma clear_head_safe h :
  log_wf sz D -> (forall m, m ∈ head_list (D start) -> D m = committed D m) ->
  Z.of_nat (length h) = BSIZE -> head_list h = [] -> i32 (word_at h 0) = 0 ->
  let D' := wview [(start, h)] D in
  log_wf sz D' /\ head_list (D' start) = [] /\ forall m, home sz m -> D' m = committed D m.
Proof.
  intros Hwf Hinst Hlen Hh Hw D'.
  assert (D' start = h) as Hst by (unfold D'; cbn; by rewrite decide_True).
  assert (forall m, home sz m -> D' m = D m) as Hhm.
  { intros m Hm. apply wview_notin. cbn. intros ->%list_elem_of_singleton.
    apply (home_not_log sz start 0 Hm); [|lia]. pose proof (ge_size _ Hgeo). lia. }
  split; [|split; [by rewrite Hst|]].
  - destruct Hwf as [? ? ? ? ? ? (? & ? & ? & ?)]. split; rewrite ?Hst, ?Hh, ?Hw; try done.
    + pose proof (ge_size _ Hgeo). cbn. lia.
    + constructor.
    + split; [apply not_elem_of_nil|]. rewrite (Hhm 1); done.
  - intros m Hm. rewrite Hhm by done. destruct (decide (m ∈ head_list (D start))); [by apply Hinst|].
    by rewrite committed_notin.
Qed.
End Meaning.
End Geometry.
