(* ===== verification/LogTheorems.v ===== *)
(** * Commit, crash and recovery (log.c)

    The theorems about the log: a crash at any point of a commit leaves a disk
    from which recovery restores either all or none of the transaction, and a
    crash during recovery is harmless. *)

From S2P Require Import Prelude Block Bio Log LogCrash.
From stdpp Require Import base gmap list strings relations.
From Stdlib Require Import ZArith Lia.
#[local] Open Scope Z_scope.

Definition disk_fn (d : gmap Z blk) : dview := fun m => default [] (d !! m).

Section Theorems.
  Variables (start lsize : Z).

(** The log and the cache during a transaction: [held] are the buffers that are
    locked, [bs] the blocks logged so far. *)
Record log_ok (s : lsys) (held : list (nat * Z)) (bs : list Z) : Prop := {
  lo_geo : geometry start lsize (disksize (l_bc s));
  lo_at : log_at start lsize (l_log s) bs;
  lo_size : lg_size (l_log s) = lsize;
  lo_lock : lg_lock (l_log s) = false;
  lo_rep : cache_rep (l_bc s) held;
  lo_pinned m : pinned (l_bc s) m <-> m ∈ bs;
  lo_home m : m ∈ bs -> home start lsize (disksize (l_bc s)) m;
  lo_nodup : NoDup bs;
  lo_sb : 1 ∉ bs;
  lo_wf : log_wf start lsize (disksize (l_bc s)) (disk_at (l_bc s));
  lo_head : head_list (disk_at (l_bc s) start) = [];
}.

Lemma log_ok_view s bs m : log_ok s [] bs -> m ∉ bs -> view (l_bc s) m = disk_at (l_bc s) m.
Proof.
  intros Hok Hm. apply (view_disk _ []); [apply Hok|apply not_elem_of_nil|]. by rewrite (lo_pinned _ _ _ Hok).
Qed.
Lemma log_ok_clean s bs : log_ok s [] bs -> (length bs < NBUF)%nat -> (0 < clean (l_bc s))%nat.
Proof.
  intros Hok Hn. pose proof (clean_enough (l_bc s) _ bs (cr_ok _ _ (lo_rep _ _ _ Hok))) as Hc.
  assert (NBUF <= clean (l_bc s) + length bs)%nat by (apply Hc; intros m; apply Hok). lia.
Qed.
Lemma effect_clean s s' ws P :
  effect s s' ws -> (forall m, pinned s m -> m ∈ P) -> (length P < NBUF)%nat -> (0 < clean s')%nat.
Proof.
  intros Hef HP Hlen. pose proof (clean_enough s' _ P (cr_ok _ _ (ef_rep _ _ _ Hef))) as Hc.
  assert (NBUF <= clean s' + length P)%nat by (apply Hc; intros m [Hm _]%(ef_pinned _ _ _ Hef); by apply HP). lia.
Qed.

(** The writes of a commit, in order. *)
Definition commit_writes (g : log) (V : dview) (bs : list Z) : list (Z * blk) :=
  log_writes start V bs 0 ++ (start, head_block g (V start)) ::
  ((fun b => (b, V b)) <$> bs) ++ [(start, head_block (with_n 0 g) (head_block g (V start)))].

Lemma loop_at_intro s g sz bs P :
  log_at start lsize g bs -> cache_rep s [] -> disksize s = sz ->
  (forall m, m ∈ bs -> home start lsize sz m) -> NoDup bs -> (forall m, pinned s m -> m ∈ P) ->
  loop_at start lsize g sz P s bs 0.
Proof.
  intros Hla Hrep Hs Hh Hnd HP. split; try done.
  - pose proof (la_fit _ _ _ _ Hla). lia.
  - intros i b Hb. rewrite <- (la_blocks _ _ _ _ Hla) in Hb. by apply lookup_take_Some in Hb as [? _].
Qed.

Lemma commit_run s bs :
  log_ok s [] bs -> (length bs < NBUF)%nat -> bs <> [] ->
  wp commit (fun _ s' => l_log s' = with_n 0 (l_log s) /\
    effect (l_bc s) (l_bc s') (commit_writes (l_log s) (view (l_bc s)) bs)) s.
Proof.
  intros Hok Hlen Hne. pose proof (lo_at _ _ _ Hok) as Hla. pose proof (lo_geo _ _ _ Hok) as Hgeo.
  set (g := l_log s) in *. set (V := view (l_bc s)). set (sz := disksize (l_bc s)) in *.
  pose proof (lo_rep _ _ _ Hok) as Hrep. assert (forall m, pinned (l_bc s) m -> m ∈ bs) as HP by (intros m; apply Hok).
  pose proof (la_dev _ _ _ _ Hla) as Hdev. pose proof (la_start _ _ _ _ Hla) as Hst.
  assert (forall (bc : bcache) ws, effect (l_bc s) bc ws -> loop_at start lsize g sz bs bc bs 0) as Hloop.
  { intros bc ws Hef. apply loop_at_intro; [done|apply Hef|apply Hef|apply Hok|apply Hok|].
    intros m [Hm _]%(ef_pinned _ _ _ Hef). by apply HP. }
  assert (forall m, m ∈ bs -> ~ in_log start lsize m) as Hnl by (intros m Hm; by apply (lo_home _ _ _ Hok)).
  pose proof (ge_size _ _ _ Hgeo) as Hls. pose proof (la_fit _ _ _ _ Hla) as Hfit.
  unfold commit. wp_steps. fold g. rewrite (la_n _ _ _ _ Hla).
  rewrite (proj2 (Z.gtb_lt _ 0)) by (destruct bs; cbn; [done|lia]). unfold when. wp_step.
  unfold write_log. wp_steps. fold g. rewrite (la_n _ _ _ _ Hla), Nat2Z.id. apply wp_zoom.
  wp_use (write_log_loop_ok start lsize g sz bs Hgeo Hdev Hst Hlen bs (l_bc s) 0);
    [apply (Hloop _ []), effect_nil, Hrep|apply Forall_forall; intros m; apply Hok|].
  intros _ b1 Hef1. set (W1 := log_writes start _ bs 0) in Hef1.
  assert (forall m, m ∈ W1.*1 -> start < m < start + lsize) as HW1.
  { intros m Hm%log_writes_fst. lia. }
  wp_step. wp_use (write_head_ok start lsize (set_bc b1 s) sz Hgeo); [done|done|apply Hef1|apply Hef1|
    by apply (effect_clean (l_bc s) b1 W1 bs)|].
  cbn [l_log set_bc l_bc]. fold g. intros _ s2 [Hg2 Hef2].
  rewrite (ef_view _ _ _ Hef1), wview_notin in Hef2 by (intros ?%HW1; lia). fold V in Hef2.
  pose proof (effect_trans _ _ _ _ _ Hef1 Hef2) as Hef12.
  wp_step. unfold install_trans. wp_steps. rewrite Hg2, (la_n _ _ _ _ Hla), Nat2Z.id. apply wp_zoom.
  wp_use (install_loop_ok start lsize g sz bs Hgeo Hdev Hst Hlen bs (l_bc s2) 0); [by apply (Hloop _ _ Hef12)| |].
  { left. apply Forall_forall. intros m Hm. apply (ef_pinned _ _ _ Hef12). split; [by apply Hok|].
    rewrite fmap_app, elem_of_app. cbn. rewrite list_elem_of_singleton. intros [?%HW1| ->]; apply (Hnl m Hm) || apply (Hnl start Hm);
      unfold in_log; lia. }
  intros _ b3 Hef3.
  assert (install_writes start (view (l_bc s2)) bs 0 = (fun b => (b, V b)) <$> bs) as HI.
  { apply list_eq. intros i. rewrite install_writes_lookup, list_lookup_fmap.
    destruct (bs !! i) as [b|] eqn:Hb; cbn; [|done]. do 2 f_equal. rewrite (ef_view _ _ _ Hef12), wview_app.
    rewrite wview_one, decide_False by lia. unfold W1.
    apply (wview_in (log_writes start V bs 0) V i (start + (0 + Z.of_nat i) + 1, V b)); [apply NoDup_log_writes|].
    by rewrite log_writes_lookup, Hb. }
  rewrite HI in Hef3. pose proof (effect_trans _ _ _ _ _ Hef12 Hef3) as Hef123.
  wp_step. apply wp_zoom. wp_step. cbn [l_log set_bc l_bc set_log]. rewrite Hg2.
  wp_use (write_head_ok start lsize (set_log (with_n 0 g) (set_bc b3 s2)) sz Hgeo); [done|done|apply Hef3| |
    by apply (effect_clean (l_bc s) b3 _ bs Hef123)|].
  { cbn. apply Hef123. }
  cbn [l_log set_bc l_bc set_log]. intros _ s4 [Hg4 Hef4]. split; [done|].
  assert (view b3 start = head_block g (V start)) as Hv3.
  { rewrite (ef_view _ _ _ Hef123), !wview_app. rewrite wview_notin.
    - by rewrite wview_one, decide_True.
    - rewrite <- list_fmap_compose. intros (m & -> & Hm)%list_elem_of_fmap.
      apply (Hnl m Hm). unfold in_log. cbn. lia. }
  rewrite Hv3 in Hef4. unfold commit_writes. pose proof (effect_trans _ _ _ _ _ Hef123 Hef4) as Hall.
  fold V in W1. rewrite <- !app_assoc in Hall. exact Hall.
Qed.
(** ** Every prefix of a commit means all or nothing *)

Lemma take_app_cons {A} k (l1 : list A) x l2 y :
  take k (l1 ++ x :: l2 ++ [y]) =
    if decide (k <= length l1)%nat then take k l1
    else if decide (k <= length l1 + 1 + length l2)%nat then l1 ++ x :: take (k - length l1 - 1) l2
    else l1 ++ x :: l2 ++ [y].
Proof.
  case_decide as E1; [by apply take_app_le|]. rewrite take_app_ge by lia.
  destruct (k - length l1)%nat as [|j] eqn:Ej; [lia|]. cbn [take].
  case_decide as E2; [rewrite take_app_le by lia; by replace (S j - 1)%nat with j by lia|].
  by rewrite take_ge by (rewrite length_app; cbn; lia).
Qed.

Section Prefix.
  Variables (s : lsys) (bs : list Z).
  Hypotheses (Hok : log_ok s [] bs) (Hlen : (length bs <= Z.to_nat LOGSIZE)%nat).
  Notation D := (disk_at (l_bc s)).
  Notation V := (view (l_bc s)).
  Notation sz := (disksize (l_bc s)).
  Notation W1 := (log_writes start V bs 0).
  Notation W2 := ((fun b => (b, V b)) <$> bs).
  Notation h1 := (head_block (l_log s) (V start)).
  Notation h2 := (head_block (with_n 0 (l_log s)) h1).
  (** The disk once the header is written. *)
  Notation Dc := (wview (W1 ++ [(start, h1)]) D).

Lemma logged_not_log m i : m ∈ bs -> 0 <= i < lsize -> m <> start + i.
Proof. intros Hm. by apply (home_not_log start lsize sz), (lo_home _ _ _ Hok). Qed.
Lemma logged_range m : m ∈ W1.*1 -> start < m < start + lsize.
Proof. intros Hm%log_writes_fst. pose proof (la_fit _ _ _ _ (lo_at _ _ _ Hok)). lia. Qed.
Lemma head_view : V start = D start.
Proof.
  apply (log_ok_view s bs); [done|]. intros Hin. apply (logged_not_log start 0 Hin); [|lia].
  pose proof (ge_size _ _ _ (lo_geo _ _ _ Hok)). lia.
Qed.
Lemma head_length : Z.of_nat (length (V start)) = BSIZE.
Proof. rewrite head_view. apply (lo_wf _ _ _ Hok). Qed.
Lemma new_head_n : word_at h1 0 = Z.of_nat (length bs).
Proof.
  rewrite <- (la_n _ _ _ _ (lo_at _ _ _ Hok)). apply head_block_n; [apply head_length|].
  rewrite (la_n _ _ _ _ (lo_at _ _ _ Hok)). unfold LOGSIZE, MAXOPBLOCKS in *. lia.
Qed.
Lemma new_head : head_list h1 = bs.
Proof.
  apply (head_block_list start lsize); [apply Hok|apply head_length| |done]. apply Forall_forall. intros m Hm.
  pose proof (lo_home _ _ _ Hok m Hm) as (? & ? & _). unfold is_i32. lia.
Qed.
Lemma written_head : Dc start = h1.
Proof. by rewrite wview_app, wview_one, decide_True. Qed.
Lemma written_home m : home start lsize sz m -> Dc m = D m.
Proof.
  intros Hm. apply wview_notin. rewrite fmap_app, elem_of_app. cbn. rewrite list_elem_of_singleton.
  pose proof (ge_size _ _ _ (lo_geo _ _ _ Hok)).
  intros [Hin%logged_range| ->]; [apply (home_not_log start lsize sz m (m - start) Hm)|
    apply (home_not_log start lsize sz start 0 Hm)]; lia.
Qed.
Lemma written_log i b : bs !! i = Some b -> Dc (start + Z.of_nat i + 1) = V b.
Proof.
  intros Hb. rewrite wview_app, wview_one, decide_False by lia.
  apply (wview_in W1 D i (start + Z.of_nat i + 1, V b)); [apply NoDup_log_writes|]. by rewrite log_writes_lookup, Hb.
Qed.

(** Once the header is written, the disk means the new contents. *)
Lemma written_means :
  log_wf start lsize sz Dc /\ forall m, home start lsize sz m -> committed start Dc m = V m.
Proof.
  split.
  - destruct (lo_wf _ _ _ Hok) as [? ? ? ? ? ? (? & ? & ? & ?)]. pose proof (la_fit _ _ _ _ (lo_at _ _ _ Hok)).
    assert (Z.of_nat (length bs) <= 30) as Hl by (unfold LOGSIZE, MAXOPBLOCKS in Hlen; lia).
    split; rewrite ?written_head, ?new_head, ?new_head_n; try done.
    + rewrite length_head_block. apply head_length.
    + mlia.
    + unfold LOGSIZE, MAXOPBLOCKS. mlia.
    + apply Hok.
    + apply Forall_forall, Hok.
    + split; [apply Hok|]. by rewrite (written_home 1).
  - intros m Hm. destruct (decide (m ∈ bs)) as [[i Hi]%list_elem_of_lookup_1|Hn].
    + rewrite (committed_in start Dc i m); rewrite ?written_head, ?new_head; [by apply written_log|apply Hok|done].
    + rewrite committed_notin by by rewrite written_head, new_head. rewrite written_home by done.
      symmetry. by apply (log_ok_view s bs).
Qed.

Lemma commit_prefix k :
  let D' := wview (take k (commit_writes (l_log s) V bs)) D in
  log_wf start lsize sz D' /\
  (forall m, home start lsize sz m -> committed start D' m = if decide (k <= length bs)%nat then D m else V m) /\
  ((length bs + 1 + length bs < k)%nat ->
     head_list (D' start) = [] /\ forall m, home start lsize sz m -> D' m = V m).
Proof.
  intros D'. pose proof (lo_geo _ _ _ Hok) as Hgeo. destruct written_means as [Hwfc Hmc].
  assert (W2.*1 = bs) as HW2 by (rewrite <- list_fmap_compose; apply list_fmap_id).
  assert (forall ws, (forall m, m ∈ ws.*1 -> m ∈ bs) ->
    log_wf start lsize sz (wview ws Dc) /\ wview ws Dc start = Dc start /\
    forall m, home start lsize sz m -> committed start (wview ws Dc) m = V m) as Hinst.
  { intros ws Hws. destruct (install_prefix_safe start lsize sz Dc Hgeo ws Hwfc) as (Hwf & Hst & Hm);
      [by rewrite written_head, new_head|]. split; [done|]. split; [done|]. intros m Hh. by rewrite Hm, Hmc. }
  subst D'. unfold commit_writes. rewrite take_app_cons, length_log_writes, length_fmap. case_decide as E1.
  { destruct (log_prefix_safe start lsize sz D Hgeo (take k W1)) as (Hwf & _ & Hm); [apply Hok|apply Hok| |split; [done|]; split; [done|lia]].
    intros m Hm. rewrite fmap_take in Hm. apply logged_range. by apply elem_of_take in Hm as (i & Hi & _); apply list_elem_of_lookup_2 in Hi. }
  case_decide as E2.
  - rewrite cons_middle, app_assoc, wview_app.
    destruct (Hinst (take (k - length bs - 1) W2)) as (Hwf & _ & Hm); [|split; [done|]; split; [done|lia]].
    intros m. rewrite fmap_take, HW2. intros (i & Hi & _)%elem_of_take. by apply list_elem_of_lookup_2 in Hi.
  - replace (W1 ++ (start, h1) :: W2 ++ [(start, h2)]) with (((W1 ++ [(start, h1)]) ++ W2) ++ [(start, h2)])
      by by rewrite <- !app_assoc.
    rewrite (wview_app (_ ++ W2)), (wview_app (W1 ++ _)).
    destruct (Hinst W2) as (Hwf & Hst & Hm); [by rewrite HW2|].
    destruct (clear_head_safe start lsize sz (wview W2 Dc) Hgeo h2) as (Hwf' & Hh & Hm'); [done| | | | |].
    + intros m Hin. rewrite Hst, written_head, new_head in Hin. rewrite Hm by by apply Hok.
      apply list_elem_of_lookup_1 in Hin as [i Hi].
      apply (wview_in W2 Dc i (m, V m)); [rewrite HW2; apply Hok|]. by rewrite list_lookup_fmap, Hi.
    + rewrite !length_head_block. apply head_length.
    + apply head_block_empty. rewrite length_head_block. apply head_length.
    + rewrite head_block_n; [done| |done]. rewrite length_head_block. apply head_length.
    + assert (forall m, home start lsize sz m -> wview [(start, h2)] (wview W2 Dc) m = V m) as Hfin
        by (intros m Hh'; by rewrite Hm', Hm).
      split; [done|]. split; [|done]. intros m Hh'.
      rewrite committed_notin by (rewrite Hh; apply not_elem_of_nil). by apply Hfin.
Qed.
End Prefix.
(** ** Recovery *)

(** The writes of a recovery from [D]. *)
Definition recover_writes (g : log) (D : dview) : list (Z * blk) :=
  install_writes start D (head_list (D start)) 0 ++ [(start, head_block (with_n 0 g) (D start))].

Lemma idle_effect s s' ws : idle s -> effect s s' ws -> idle s'.
Proof.
  intros [_ Hp] Hef. split; [apply Hef|]. intros m [Hm _]%(ef_pinned _ _ _ Hef). by apply (Hp m).
Qed.

Lemma recover_run s sz :
  idle (l_bc s) -> geometry start lsize sz -> disksize (l_bc s) = sz ->
  log_wf start lsize sz (view (l_bc s)) -> lg_dev (l_log s) = 1 -> lg_start (l_log s) = start ->
  length (lh_block (l_log s)) = Z.to_nat LOGSIZE ->
  wp recover_from_log (fun _ s' => exists g, effect (l_bc s) (l_bc s') (recover_writes g (view (l_bc s))) /\
    exists l, l_log s' = with_n 0 (with_blocks l (l_log s)) /\ length l = Z.to_nat LOGSIZE) s.
Proof.
  intros Hid Hgeo Hsz Hwf Hdev Hst Hlen. set (V := view (l_bc s)). set (bs := head_list (V start)).
  assert (forall m, ~ m ∈ ([] : list Z)) as Hnil by apply not_elem_of_nil.
  unfold recover_from_log. wp_step.
  wp_use (read_head_ok start lsize s sz Hgeo Hdev Hst (proj1 Hid) Hsz (idle_clean _ Hid) Hlen);
    [apply Hwf|apply Hwf|]. fold V bs. intros _ s1 [Hef1 (l & Hg1 & Hll & Hbl)].
  assert (forall m, view (l_bc s1) m = V m) as Hv1 by (intros m; by rewrite (ef_view _ _ _ Hef1)).
  pose proof (idle_effect _ _ _ Hid Hef1) as Hid1.
  set (g1 := l_log s1) in *. assert (lg_dev g1 = 1 /\ lg_start g1 = start) as [Hdev1 Hst1] by (rewrite Hg1; done).
  assert (log_at start lsize g1 bs) as Hla by (rewrite Hg1; split; try done; apply Hwf).
  wp_step. unfold install_trans. wp_steps. fold g1. rewrite (la_n _ _ _ _ Hla), Nat2Z.id. apply wp_zoom.
  wp_use (install_loop_ok start lsize g1 sz [] Hgeo Hdev1 Hst1 ltac:(unfold NBUF; cbn; lia) bs (l_bc s1) 0).
  { apply loop_at_intro; [done|apply Hid1|by rewrite (ef_size _ _ _ Hef1)| |apply Hwf|].
    - intros m Hm. pose proof (lw_home _ _ _ _ Hwf) as Hh. rewrite Forall_forall in Hh. by apply Hh.
    - intros m Hm. by destruct (proj2 Hid1 m). }
  { right. apply Hid1. }
  intros _ b2 Hef2. rewrite (install_writes_ext start (view (l_bc s1)) V) in Hef2 by done.
  pose proof (effect_trans _ _ _ _ _ Hef1 Hef2) as Hef12. pose proof (idle_effect _ _ _ Hid Hef12) as Hid2.
  wp_step. apply wp_zoom. wp_step. cbn [l_log set_bc l_bc set_log]. fold g1.
  wp_use (write_head_ok start lsize (set_log (with_n 0 g1) (set_bc b2 s1)) sz Hgeo); [done|done|apply Hid2| |by apply idle_clean|].
  { cbn. by rewrite (ef_size _ _ _ Hef12). }
  cbn [l_log set_bc l_bc set_log]. intros _ s3 [Hl3 Hef3]. exists g1. split; [|exists l; by rewrite Hl3, Hg1]. unfold recover_writes.
  rewrite (ef_view _ _ _ Hef12), wview_app, wview_notin in Hef3.
  - exact (effect_trans _ _ _ _ _ Hef12 Hef3).
  - rewrite install_writes_fst. intros Hin. pose proof (lw_home _ _ _ _ Hwf) as Hh. rewrite Forall_forall in Hh.
    apply (home_not_log start lsize sz start 0 (Hh _ Hin)); [|lia]. pose proof (ge_size _ _ _ Hgeo). lia.
Qed.

(** Every prefix of a recovery means what the disk meant before. *)
Lemma recover_prefix g D sz k :
  geometry start lsize sz -> log_wf start lsize sz D ->
  let D' := wview (take k (recover_writes g D)) D in
  log_wf start lsize sz D' /\ (forall m, home start lsize sz m -> committed start D' m = committed start D m) /\
  ((length (head_list (D start)) < k)%nat ->
     head_list (D' start) = [] /\ forall m, home start lsize sz m -> D' m = committed start D m).
Proof.
  intros Hgeo Hwf D'. set (bs := head_list (D start)). set (W := install_writes start D bs 0).
  assert (W.*1 = bs) as HW by apply install_writes_fst.
  assert (length W = length bs) as HlW by apply length_install_writes.
  subst D'. unfold recover_writes. fold bs W. destruct (decide (k <= length bs)%nat) as [Hk|Hk].
  - rewrite take_app_le by lia.
    destruct (install_prefix_safe start lsize sz D Hgeo (take k W) Hwf) as (Hwf' & _ & Hm).
    { intros m. rewrite fmap_take, HW. intros (i & Hi & _)%elem_of_take. by apply list_elem_of_lookup_2 in Hi. }
    split; [done|]. split; [done|lia].
  - rewrite take_ge by (rewrite length_app; cbn; lia). rewrite wview_app.
    destruct (install_prefix_safe start lsize sz D Hgeo W Hwf) as (Hwf' & Hst & Hm); [by rewrite HW|].
    destruct (clear_head_safe start lsize sz (wview W D) Hgeo (head_block (with_n 0 g) (D start)))
      as (Hwf2 & Hh & Hm2); [done| | | | |].
    + intros m Hin. rewrite Hst in Hin. pose proof (lw_home _ _ _ _ Hwf) as Hhome. rewrite Forall_forall in Hhome.
      rewrite Hm by by apply Hhome. apply list_elem_of_lookup_1 in Hin as [i Hi].
      rewrite (committed_in start D i m) by (done || apply Hwf).
      apply (wview_in W D i (m, D (start + Z.of_nat i + 1))); [rewrite HW; apply Hwf|].
      unfold W, bs. by rewrite install_writes_lookup, Hi.
    + rewrite length_head_block. apply Hwf.
    + apply head_block_empty, Hwf.
    + rewrite head_block_n; [done|apply Hwf|done].
    + split; [done|]. assert (forall m, home start lsize sz m -> wview [(start, head_block (with_n 0 g) (D start))]
        (wview W D) m = committed start D m) as Hfin by (intros m Hm'; by rewrite Hm2, Hm).
      split; [|done]. intros m Hm'. rewrite committed_notin by (rewrite Hh; apply not_elem_of_nil). by apply Hfin.
Qed.

Lemma initlog_ok s sz :
  idle (l_bc s) -> geometry start lsize sz -> disksize (l_bc s) = sz -> log_wf start lsize sz (view (l_bc s)) ->
  length (lh_block (l_log s)) = Z.to_nat LOGSIZE ->
  wp (initlog 1) (fun _ s' => exists g, effect (l_bc s) (l_bc s') (recover_writes g (view (l_bc s))) /\
    exists l, l_log s' = mkLog false start lsize (lg_outstanding (l_log s)) (lg_committing (l_log s)) 1 0 l /\
      length l = Z.to_nat LOGSIZE) s.
Proof.
  intros Hid Hgeo Hsz Hwf Hlen. destruct (lw_sb _ _ _ _ Hwf) as (_ & Hsb1 & Hsb2 & Hsb3). set (V := view (l_bc s)) in *.
  unfold initlog. change (4 + 4 * LOGSIZE >=? BSIZE) with false. cbv iota. wp_step. apply wp_zoom.
  unfold readsb. wp_step. wp_use (bread_ok (l_bc s) [] (proj1 Hid) 1);
    [apply not_elem_of_nil|right; by apply idle_clean|rewrite Hsz; apply Hsb1|].
  intros i b1 (Hrep1 & [Hd1 Hs1 Hw1] & Hv1 & Hp1). wp_step. unfold wp at 1.
  rewrite (buf_data_ok b1 _ Hrep1 i 1) by left. rewrite Hv1. wp_step.
  wp_use (brelse_ok b1 [] i 1); [done|right; rewrite Hv1, idle_view by done; unfold disk_at; by rewrite Hd1|].
  intros _ b2 (Hrep2 & [Hd2 Hs2 Hw2] & Hv2 & Hp2). wp_steps. apply wp_zoom. cbn [l_log set_bc].
  wp_step. cbn [sb_logstart sb_nlog sb_of]. fold V. rewrite Hsb2, Hsb3.
  set (g1 := mkLog _ _ _ _ _ _ _ _).
  assert (effect (l_bc s) b2 []) as Hef.
  { split; [done|congruence|rewrite app_nil_r; congruence|by rewrite Hd2, Hd1|intros m; cbn; by rewrite Hv2, Hv1|].
    intros m. rewrite Hp2, Hp1. pose proof (not_elem_of_nil m). naive_solver. }
  assert (forall m, view b2 m = V m) as Hvb by (intros m; by rewrite Hv2, Hv1).
  assert (i32 start = start /\ i32 lsize = lsize) as [Hi1 Hi2] by (destruct Hgeo; split; mlia).
  wp_use (recover_run (set_log g1 (set_bc b2 s)) sz); [by eapply idle_effect|done| |
    by apply (log_wf_ext start lsize sz V)|done|exact Hi1|done|].
  - cbn. by rewrite (ef_size _ _ _ Hef).
  - cbn [l_bc set_log set_bc l_log]. intros _ s' (g & Hef' & l & Hl & Hll). exists g. split.
    + unfold recover_writes in *. rewrite Hvb, (install_writes_ext start (view b2) V) in Hef' by done.
      pose proof (effect_trans _ _ _ _ _ Hef Hef') as He. rewrite app_nil_l in He. exact He.
    + exists l. split; [|done]. rewrite Hl. subst g1. unfold with_n, with_blocks. cbn. by rewrite Hi1, Hi2.
Qed.
Lemma initlog_run sz d g0 :
  geometry start lsize sz -> log_wf start lsize sz (disk_fn d) -> length (lh_block g0) = Z.to_nat LOGSIZE ->
  wp (initlog 1) (fun _ s' => exists g, effect (binit sz d) (l_bc s') (recover_writes g (disk_fn d)))
     (mkLsys (binit sz d) g0).
Proof.
  intros Hgeo Hwf Hlen. assert (idle (binit sz d)) as Hid by apply binit_rep.
  assert (forall m, view (binit sz d) m = disk_fn d m) as Hv by (intros m; by rewrite idle_view).
  wp_use (initlog_ok (mkLsys (binit sz d) g0) sz); [done|done|done|by apply (log_wf_ext start lsize sz (disk_fn d))|done|].
  intros _ s' (g & Hef & _). exists g. cbn [l_bc] in Hef. unfold recover_writes in *.
  by rewrite Hv, (install_writes_ext start _ (disk_fn d)) in Hef.
Qed.
Lemma effect_disk s s' ws m : effect s s' ws -> disk_at s' m = wview ws (disk_at s) m.
Proof. intros Hef. unfold disk_at. rewrite (ef_disk _ _ _ Hef). apply apply_writes_view. Qed.

(** Recovery of a disk [d], as one statement about [initlog]. *)
Lemma initlog_recovers sz d D g0 :
  geometry start lsize sz -> (forall m, disk_fn d m = D m) -> log_wf start lsize sz D ->
  length (lh_block g0) = Z.to_nat LOGSIZE ->
  exists r ws, initlog 1 (mkLsys (binit sz d) g0) = Ret tt r /\ writes (l_bc r) = ws /\
    (forall m, home start lsize sz m -> disk_at (l_bc r) m = committed start D m) /\
    head_list (disk_at (l_bc r) start) = [] /\
    forall k, log_wf start lsize sz (disk_fn (apply_writes (take k ws) d)) /\
      forall m, home start lsize sz m -> committed start (disk_fn (apply_writes (take k ws) d)) m = committed start D m.
Proof.
  intros Hgeo HD Hwf Hg0. assert (log_wf start lsize sz (disk_fn d)) as Hwf' by by apply (log_wf_ext start lsize sz D).
  pose proof (initlog_run sz d g0 Hgeo Hwf' Hg0) as HW. apply wp_Ret in HW as ([] & r & Hrun & g & Hef).
  assert (forall m, committed start (disk_fn d) m = committed start D m) as Hc by (intros m; by apply committed_ext).
  set (ws := recover_writes g (disk_fn d)) in *.
  exists r, ws. split; [done|]. split; [by rewrite (ef_writes _ _ _ Hef)|].
  destruct (recover_prefix g (disk_fn d) sz (length ws) Hgeo Hwf') as (_ & _ & Hfin).
  fold ws in Hfin. rewrite firstn_all in Hfin.
  destruct Hfin as [Hh Hm]; [unfold ws, recover_writes; rewrite length_app, length_install_writes; cbn; lia|].
  split; [|split].
  - intros m Hm'. rewrite (effect_disk _ _ _ _ Hef), <- Hc. by apply Hm.
  - by rewrite (effect_disk _ _ _ _ Hef).
  - intros k. destruct (recover_prefix g (disk_fn d) sz k Hgeo Hwf') as (Hwfk & Hmk & _). fold ws in Hwfk, Hmk.
    assert (forall m, wview (take k ws) (disk_fn d) m = disk_fn (apply_writes (take k ws) d) m) as He
      by (intros m; symmetry; apply apply_writes_view).
    split; [by apply (log_wf_ext _ _ _ _ _ He)|]. intros m Hm'. by rewrite <- (committed_ext _ _ _ m He), Hmk, Hc.
Qed.

Lemma commit_finishes s bs :
  log_ok s [] bs -> (length bs < NBUF)%nat ->
  exists s' ws, commit s = Ret tt s' /\ effect (l_bc s) (l_bc s') ws /\ log_ok s' [] [] /\
    (forall m, home start lsize (disksize (l_bc s)) m -> disk_at (l_bc s') m = view (l_bc s) m) /\
    forall k, log_wf start lsize (disksize (l_bc s)) (wview (take k ws) (disk_at (l_bc s))) /\
      forall m, home start lsize (disksize (l_bc s)) m ->
        committed start (wview (take k ws) (disk_at (l_bc s))) m =
          if decide (k <= length bs)%nat then disk_at (l_bc s) m else view (l_bc s) m.
Proof.
  intros Hok Hlen. assert (length bs <= Z.to_nat LOGSIZE)%nat as Hmax by (unfold NBUF in Hlen; change (Z.to_nat LOGSIZE) with 30%nat; lia).
  destruct (decide (bs = [])) as [->|Hne].
  { exists s, []. assert (forall m, view (l_bc s) m = disk_at (l_bc s) m) as Hv
      by (intros m; apply (log_ok_view s []); [done|apply not_elem_of_nil]).
    split; [|split; [by apply effect_nil, Hok|split; [done|split; [done|]]]].
    - unfold commit, mbind, M_bind, gets. by rewrite (la_n _ _ _ _ (lo_at _ _ _ Hok)).
    - intros k. rewrite take_nil. cbn. split; [apply Hok|]. intros m Hm.
      rewrite committed_notin by (rewrite (lo_head _ _ _ Hok); apply not_elem_of_nil). by case_decide. }
  pose proof (commit_run s bs Hok Hlen Hne) as HW. apply wp_Ret in HW as ([] & s' & Hrun & Hg & Hef).
  set (ws := commit_writes (l_log s) (view (l_bc s)) bs) in *. exists s', ws. split; [done|]. split; [done|].
  destruct (commit_prefix s bs Hok Hmax (length ws)) as (Hwf & _ & Hfin). fold ws in Hwf, Hfin.
  rewrite firstn_all in Hwf, Hfin.
  destruct Hfin as [Hh Hm].
  { unfold ws, commit_writes. rewrite length_app. cbn. rewrite length_app, length_log_writes, length_fmap. cbn. lia. }
  assert (forall m, disk_at (l_bc s') m = wview ws (disk_at (l_bc s)) m) as Hd by (intros m; by apply effect_disk).
  split; [|split].
  - pose proof (lo_at _ _ _ Hok) as [? ? ? ? ? ?]. pose proof (ge_size _ _ _ (lo_geo _ _ _ Hok)).
    split; rewrite ?(ef_size _ _ _ Hef), ?Hg; try done; try apply Hok; try apply Hef.
    + split; try done. cbn. lia.
    + intros m. rewrite (ef_pinned _ _ _ Hef), (lo_pinned _ _ _ Hok). split; [|by intros ?%not_elem_of_nil].
      intros [Hin Hn]. destruct Hn. unfold ws, commit_writes. rewrite fmap_app, elem_of_app. right. cbn.
      rewrite elem_of_cons, fmap_app, elem_of_app. right; left. by rewrite <- list_fmap_compose, list_fmap_id.
    + by intros m ?%not_elem_of_nil.
    + apply not_elem_of_nil.
    + apply (log_wf_ext start lsize _ (wview ws (disk_at (l_bc s)))); [|done]. intros m. by rewrite Hd.
    + by rewrite Hd.
  - intros m Hm'. by rewrite Hd, Hm.
  - intros k. destruct (commit_prefix s bs Hok Hmax k) as (Hwfk & Hmk & _). done.
Qed.

(** C1: a commit is atomic: when the machine stops after any number [k] of the
    writes the commit issues, booting from the disk completes recovery, and every
    file system block then has its contents from before the transaction, if the
    header had not been written, or from after it, if it had. *)
Theorem commit_crash_safe s bs g0 :
  log_ok s [] bs -> (length bs < NBUF)%nat -> length (lh_block g0) = Z.to_nat LOGSIZE ->
  exists s' ws, commit s = Ret tt s' /\ writes (l_bc s') = writes (l_bc s) ++ ws /\ log_ok s' [] [] /\
    (forall m, home start lsize (disksize (l_bc s)) m -> disk_at (l_bc s') m = view (l_bc s) m) /\
    forall k, exists r,
      initlog 1 (mkLsys (binit (disksize (l_bc s)) (apply_writes (take k ws) (disk (l_bc s)))) g0) = Ret tt r /\
      forall m, home start lsize (disksize (l_bc s)) m ->
        disk_at (l_bc r) m = if decide (k <= length bs)%nat then disk_at (l_bc s) m else view (l_bc s) m.
Proof.
  intros Hok Hlen Hg0. destruct (commit_finishes s bs Hok Hlen) as (s' & ws & Hrun & Hef & Hok' & Hd & Hk).
  exists s', ws. split; [done|]. split; [apply Hef|]. split; [done|]. split; [done|]. intros k.
  destruct (Hk k) as [Hwf Hm].
  destruct (initlog_recovers (disksize (l_bc s)) (apply_writes (take k ws) (disk (l_bc s)))
    (wview (take k ws) (disk_at (l_bc s))) g0) as (r & ws' & Hr & _ & Hrd & _); [apply Hok| |done|done|].
  - intros m. apply apply_writes_view.
  - exists r. split; [done|]. intros m Hm'. by rewrite Hrd, Hm.
Qed.

(** C14: recovery is idempotent: when the machine stops again after any number
    of the writes of a recovery, the disk still means the same, so the next
    recovery completes with the same contents. *)
Theorem recovery_idempotent sz d g0 :
  geometry start lsize sz -> log_wf start lsize sz (disk_fn d) -> length (lh_block g0) = Z.to_nat LOGSIZE ->
  exists r, initlog 1 (mkLsys (binit sz d) g0) = Ret tt r /\
    (forall m, home start lsize sz m -> disk_at (l_bc r) m = committed start (disk_fn d) m) /\
    forall k, exists r',
      initlog 1 (mkLsys (binit sz (apply_writes (take k (writes (l_bc r))) d)) g0) = Ret tt r' /\
      forall m, home start lsize sz m -> disk_at (l_bc r') m = disk_at (l_bc r) m.
Proof.
  intros Hgeo Hwf Hg0. destruct (initlog_recovers sz d (disk_fn d) g0) as (r & ws & Hr & Hws & Hrd & _ & Hk); [done..|].
  exists r. split; [done|]. split; [done|]. intros k. rewrite Hws. destruct (Hk k) as [Hwfk Hmk].
  destruct (initlog_recovers sz (apply_writes (take k ws) d) (disk_fn (apply_writes (take k ws) d)) g0)
    as (r' & _ & Hr' & _ & Hrd' & _); [done..|].
  exists r'. split; [done|]. intros m Hm. by rewrite Hrd', Hmk, Hrd.
Qed.
End Theorems.
