(* ===== verification/LogOps.v ===== *)
(** * Transactions (log.c)

    What [bread], [log_write] and [brelse] do inside a transaction, the
    reservation that keeps transactions within the log, and concrete instances
    of the crash theorems. *)

From S2P Require Import Prelude Block Bio Log LogCrash LogTheorems.
From stdpp Require Import base gmap list strings relations.
From Stdlib Require Import ZArith Lia.
#[local] Open Scope Z_scope.

Section Tx.
  Variables (start lsize : Z).
  Notation log_ok := (log_ok start lsize).

(** From [s] to [s'] the disk and the reservations are the same. *)
Record tx_step (s s' : lsys) : Prop := {
  ts_disk : same_disk (l_bc s) (l_bc s');
  ts_out : lg_outstanding (l_log s') = lg_outstanding (l_log s)
}.

Lemma log_ok_cache s s' held held' bs :
  log_ok s held bs -> l_log s' = l_log s -> same_disk (l_bc s) (l_bc s') -> cache_rep (l_bc s') held' ->
  (forall m, pinned (l_bc s') m <-> pinned (l_bc s) m) -> log_ok s' held' bs.
Proof.
  intros [Hg Ha Hs Hl Hr Hp Hh Hn Hsb Hw Hhd] El [Ed Es Ew] Hr' Hp'.
  assert (forall m, disk_at (l_bc s') m = disk_at (l_bc s) m) as Hd by (intros m; unfold disk_at; by rewrite Ed).
  split; rewrite ?El, ?Es; try done.
  - intros m. by rewrite Hp'.
  - by apply (log_wf_ext start lsize _ (disk_at (l_bc s))).
  - by rewrite Hd.
Qed.

Lemma tx_room s held bs :
  log_ok s held bs -> (length held + length bs < NBUF)%nat -> (length held < clean (l_bc s))%nat.
Proof.
  intros Hok Hn. pose proof (clean_enough (l_bc s) _ bs (cr_ok _ _ (lo_rep _ _ _ _ _ Hok))) as Hc.
  assert (NBUF <= clean (l_bc s) + length bs)%nat by (apply Hc; intros m; apply Hok). lia.
Qed.

Lemma tx_bread s held bs n :
  log_ok s held bs -> n ∉ held.*2 -> 0 <= n < u32 (disksize (l_bc s)) ->
  n ∈ bs \/ (length held + length bs < NBUF)%nat ->
  wp (on_bc (bread 1 n)) (fun i s' => log_ok s' ((i, n) :: held) bs /\ tx_step s s' /\
     forall m, view (l_bc s') m = view (l_bc s) m) s.
Proof.
  intros Hok Hn Hr Hroom. apply wp_zoom. wp_use (bread_ok (l_bc s) held (lo_rep _ _ _ _ _ Hok) n); [done| |done|].
  { destruct Hroom; [left; by apply Hok|right; by apply (tx_room s held bs)]. }
  intros i b (Hrep & Hsd & Hv & Hp). split; [by apply (log_ok_cache s _ held _ bs)|]. split; [by split|done].
Qed.

Lemma tx_data s held bs i n :
  log_ok s held bs -> (i, n) ∈ held -> on_bc (buf_data i) s = Ret (view (l_bc s) n) s.
Proof.
  intros Hok Hin. unfold on_bc, zoom. rewrite (buf_data_ok _ held (lo_rep _ _ _ _ _ Hok) i n Hin). by destruct s.
Qed.

Lemma tx_set_data s held bs i n d :
  log_ok s held bs -> (i, n) ∈ held ->
  wp (on_bc (set_data i d)) (fun _ s' => log_ok s' held bs /\ tx_step s s' /\
     forall m, view (l_bc s') m = if decide (m = n) then d else view (l_bc s) m) s.
Proof.
  intros Hok Hin. apply wp_zoom. wp_use (set_data_ok (l_bc s) held (lo_rep _ _ _ _ _ Hok) i n d Hin).
  intros _ b (Hrep & Hsd & Hv & Hp). split; [by apply (log_ok_cache s _ held _ bs)|]. split; [by split|done].
Qed.

Lemma tx_brelse s held bs i n :
  log_ok s ((i, n) :: held) bs -> n ∈ bs \/ view (l_bc s) n = disk_at (l_bc s) n ->
  wp (on_bc (brelse i)) (fun _ s' => log_ok s' held bs /\ tx_step s s' /\
     forall m, view (l_bc s') m = view (l_bc s) m) s.
Proof.
  intros Hok Hcl. apply wp_zoom. wp_use (brelse_ok (l_bc s) held i n (lo_rep _ _ _ _ _ Hok)).
  { destruct Hcl; [left; by apply Hok|by right]. }
  intros _ b (Hrep & Hsd & Hv & Hp). split; [by apply (log_ok_cache s _ ((i, n) :: held) _ bs)|]. split; [by split|done].
Qed.

(** The logged blocks after logging [n]. *)
Definition logged (bs : list Z) (n : Z) : list Z := if decide (n ∈ bs) then bs else bs ++ [n].

Lemma absorb_spec bs n i :
  Forall is_u32 bs -> (n ∈ bs -> exists j, bs !! j = Some n /\ absorb bs n i = i + Z.of_nat j) /\
  (n ∉ bs -> absorb bs n i = i + Z.of_nat (length bs)).
Proof.
  intros Hbs. revert i. induction Hbs as [|b bs Hb _ IH]; intros i; cbn; [split; [by intros ?%not_elem_of_nil|lia]|].
  rewrite u32_small by done. destruct (Z.eqb_spec b n) as [->|Hne].
  - split; [intros _; exists 0%nat; split; [done|lia]|]. intros []. left.
  - destruct (IH (i + 1)) as [IH1 IH2]. split.
    + intros [->|Hin]%elem_of_cons; [done|]. destruct (IH1 Hin) as (j & Hj & ->). exists (S j). split; [done|lia].
    + intros [_ Hn]%not_elem_of_cons. rewrite IH2 by done. lia.
Qed.

Lemma log_record_ok s held bs n :
  log_ok s held bs -> 1 <= lg_outstanding (l_log s) -> home start lsize (disksize (l_bc s)) n ->
  Z.of_nat (length bs) < LOGSIZE -> Z.of_nat (length bs) < lsize - 1 ->
  exists l, log_record n (l_log s) =
      Ret tt (with_n (Z.of_nat (length (logged bs n))) (with_blocks l (with_lock true (l_log s)))) /\
    length l = Z.to_nat LOGSIZE /\ take (length (logged bs n)) l = logged bs n.
Proof.
  intros Hok Hout Hn Hcap Hsz. pose proof (lo_at _ _ _ _ _ Hok) as Hla. destruct Hn as ((Hn0 & Hn1) & Hn2 & Hn3).
  pose proof (la_len _ _ _ _ Hla) as Hlb. pose proof (la_blocks _ _ _ _ Hla) as Hbl. pose proof (lo_size _ _ _ _ _ Hok) as Hls.
  pose proof (lo_lock _ _ _ _ _ Hok) as Hlk. set (g := l_log s) in *.
  assert (Forall is_u32 bs) as Hu.
  { apply Forall_forall. intros m Hm. destruct (lo_home _ _ _ _ _ Hok m Hm) as (? & ? & _). unfold is_u32. lia. }
  assert (i32 n = n) as Hin by (apply i32_small; lia).
  unfold LOGSIZE, MAXOPBLOCKS in *.
  unfold log_record, mbind, M_bind, gets, id. rewrite (la_n _ _ _ _ Hla), Hls.
  rewrite !Z.geb_leb, !(proj2 (Z.leb_gt _ _)), (proj2 (Z.ltb_ge _ _)) by (done || cbn; lia). cbn [orb].
  unfold acquire_log, mbind, M_bind, gets, modify. rewrite Hlk. rewrite Nat2Z.id, Hbl.
  destruct (absorb_spec bs n 0 Hu) as [Hab1 Hab2]. unfold logged. case_decide as E.
  - destruct (Hab1 E) as (j & Hj & ->). pose proof (lookup_lt_Some _ _ _ Hj). unfold set_lh.
    rewrite (proj2 (Z.leb_le 0 _)), (proj2 (Z.ltb_lt _ LOGSIZE)) by (unfold LOGSIZE, MAXOPBLOCKS; lia). cbn [andb].
    rewrite (proj2 (Z.eqb_neq _ _)) by lia. unfold when, mret, M_ret. rewrite Z.add_0_l, Nat2Z.id, Hin.
    exists (<[j := n]> (lh_block g)). split; [|split; [by rewrite length_insert|]].
    + unfold with_n, with_blocks, with_lock. cbn. by rewrite (la_n _ _ _ _ Hla).
    + rewrite <- Hbl in Hj. apply lookup_take_Some in Hj as [Hj _]. by rewrite list_insert_id.
  - rewrite (Hab2 E). unfold set_lh.
    rewrite (proj2 (Z.leb_le 0 _)), (proj2 (Z.ltb_lt _ LOGSIZE)) by (unfold LOGSIZE, MAXOPBLOCKS; lia). cbn [andb].
    rewrite Z.add_0_l, Z.eqb_refl, Nat2Z.id, Hin. unfold when, modify.
    exists (<[length bs := n]> (lh_block g)). split; [|split; [by rewrite length_insert|]].
    + do 2 f_equal. rewrite length_app. cbn. lia.
    + rewrite length_app. cbn. rewrite <- Hbl at 3.
      apply list_eq. intros i. destruct (decide (i < length bs + 1)%nat) as [Hi|Hi].
      * rewrite lookup_take_lt by done. destruct (decide (i = length bs)) as [->|Hne].
        -- rewrite list_lookup_insert_eq by lia. rewrite lookup_app_r by (rewrite length_take; lia).
           rewrite length_take, Nat.min_l, Nat.sub_diag by lia. done.
        -- rewrite list_lookup_insert_ne by done. rewrite lookup_app_l by (rewrite length_take; lia).
           by rewrite lookup_take_lt by lia.
      * rewrite lookup_take_ge by lia. symmetry. apply lookup_ge_None. rewrite length_app, length_take. cbn. lia.
Qed.

Lemma logged_in bs n m : m ∈ logged bs n <-> m = n \/ m ∈ bs.
Proof. unfold logged. case_decide; [naive_solver|]. rewrite elem_of_app, list_elem_of_singleton. naive_solver. Qed.
Lemma logged_length bs n : (length (logged bs n) <= length bs + 1)%nat.
Proof. unfold logged. case_decide; [lia|]. rewrite length_app. cbn. lia. Qed.

Lemma tx_log_write s held bs i n :
  log_ok s held bs -> (i, n) ∈ held -> 1 <= lg_outstanding (l_log s) ->
  home start lsize (disksize (l_bc s)) n -> n <> 1 ->
  Z.of_nat (length bs) < LOGSIZE -> Z.of_nat (length bs) < lsize - 1 ->
  wp (log_write i) (fun _ s' => log_ok s' held (logged bs n) /\ tx_step s s' /\
     forall m, view (l_bc s') m = view (l_bc s) m) s.
Proof.
  intros Hok Hin Hout Hn Hn1 Hcap Hsz. pose proof (lo_rep _ _ _ _ _ Hok) as Hrep. unfold log_write. wp_step. apply wp_zoom.
  destruct (cr_held _ _ Hrep i n Hin) as (fl & d & Hb & _). apply (wp_get_buf i _ _ _ Hb). wp_step. apply wp_zoom.
  cbn [b_blockno held_buf set_bc l_log]. destruct (log_record_ok s held bs n Hok Hout Hn Hcap Hsz) as (l & Hrun & Hl & Ht).
  unfold wp at 1. rewrite Hrun. wp_step. apply wp_zoom. cbn [l_bc set_bc set_log].
  wp_use (pin_ok (l_bc s) held Hrep i n Hin). intros _ b (Hrep' & Hsd & Hv & Hp & _).
  apply wp_zoom. cbn [l_log set_bc set_log]. unfold release_log. wp_steps. cbn [lg_lock with_n with_blocks with_lock]. wp_step.
  cbn [l_log l_bc set_bc set_log]. split; [|split; [by split|done]].
  destruct Hok as [? [? ? ? ? ? ?] ? ? ? Hpb Hhb ? ? ? ?]. pose proof (sd_disk _ _ Hsd) as Ed.
  assert (forall m, disk_at b m = disk_at (l_bc s) m) as Hd by (intros m; unfold disk_at; by rewrite Ed).
  pose proof (logged_length bs n).
  split; cbn [l_log l_bc set_bc set_log lg_size lg_lock with_lock with_n with_blocks]; rewrite ?(sd_size _ _ Hsd); try done.
  - split; try done. cbn. lia.
  - intros m. by rewrite Hp, logged_in, Hpb.
  - intros m [->|Hm]%logged_in; [done|by apply Hhb].
  - unfold logged. case_decide; [done|]. apply NoDup_app. split; [done|]. split; [|apply NoDup_singleton].
    intros x Hx ->%list_elem_of_singleton. done.
  - rewrite logged_in. naive_solver.
  - apply (log_wf_ext start lsize _ (disk_at (l_bc s))); [|done]. intros m. by rewrite Hd.
  - by rewrite Hd.
Qed.
End Tx.

(** ** Reserved space

    Any number of system calls run at the same time; each entry of [us] is the
    number of blocks a running call may still log.  A call starts with
    [MAXOPBLOCKS]. *)
Definition log_one (n : Z) : M log unit := _ ← log_record n; release_log.

Inductive lstep : log * list nat -> log * list nat -> Prop :=
| ls_begin g g' us : begin_op_log g = Ret tt g' -> lstep (g, us) (g', us ++ [Z.to_nat MAXOPBLOCKS])
| ls_write g g' us i u n :
    us !! i = Some (S u) -> log_one n g = Ret tt g' -> lstep (g, us) (g', <[i := u]> us)
| ls_end g g' us i u : us !! i = Some u -> end_op_log g = Ret false g' -> lstep (g, us) (g', delete i us)
| ls_end_last g g' us i u : us !! i = Some u -> end_op_log g = Ret true g' -> lstep (g, us) (g', delete i us)
| ls_commit g : lg_committing g = 1 -> lstep (g, []) (with_committing 0 (with_n 0 g), []).

Fixpoint sum (us : list nat) : nat := match us with [] => 0 | u :: us => u + sum us end.
Lemma sum_app us vs : sum (us ++ vs) = (sum us + sum vs)%nat.
Proof. induction us; cbn; lia. Qed.
Lemma sum_insert us i u v : us !! i = Some u -> (sum (<[i := v]> us) + u = sum us + v)%nat.
Proof.
  intros Hi. rewrite <- (take_drop_middle us i u Hi) at 2.
  rewrite insert_take_drop by by apply lookup_lt_Some in Hi. rewrite !sum_app. cbn. lia.
Qed.
Lemma sum_delete us i u : us !! i = Some u -> (sum (delete i us) + u = sum us)%nat.
Proof.
  intros Hi. rewrite <- (take_drop_middle us i u Hi) at 2. rewrite delete_take_drop, !sum_app. cbn. lia.
Qed.

Record reserved (gu : log * list nat) : Prop := {
  rv_lock : lg_lock gu.1 = false;
  rv_len : length (lh_block gu.1) = Z.to_nat LOGSIZE;
  rv_n : 0 <= lh_n gu.1;
  rv_out : lg_outstanding gu.1 = Z.of_nat (length gu.2);
  rv_each u : u ∈ gu.2 -> (u <= Z.to_nat MAXOPBLOCKS)%nat;
  rv_sum : lh_n gu.1 + Z.of_nat (sum gu.2) <= LOGSIZE;
  rv_small : (length gu.2 <= 3)%nat;
  rv_commit : lg_committing gu.1 = 0 \/ lg_committing gu.1 = 1 /\ gu.2 = []
}.

Lemma sum_le us k : (forall u, u ∈ us -> (u <= k)%nat) -> (sum us <= k * length us)%nat.
Proof.
  induction us as [|w us IH]; intros Hk; cbn; [lia|].
  pose proof (Hk w ltac:(left)). assert (sum us <= k * length us)%nat by (apply IH; intros u Hu; apply Hk; by right). lia.
Qed.

Lemma absorb_range l n i : i <= absorb l n i <= i + Z.of_nat (length l).
Proof.
  revert i. induction l as [|b l IH]; intros i; cbn; [lia|]. destruct (_ =? _); [lia|]. specialize (IH (i + 1)). lia.
Qed.

(** With room in the log, [log_write] records the block. *)
Lemma log_one_ok g n :
  lg_lock g = false -> length (lh_block g) = Z.to_nat LOGSIZE -> 0 <= lh_n g < LOGSIZE ->
  lh_n g < lg_size g - 1 -> 1 <= lg_outstanding g ->
  exists g', log_one n g = Ret tt g' /\ lg_lock g' = false /\ length (lh_block g') = Z.to_nat LOGSIZE /\
    lh_n g <= lh_n g' <= lh_n g + 1 /\ lg_outstanding g' = lg_outstanding g /\ lg_committing g' = lg_committing g /\
    lg_size g' = lg_size g.
Proof.
  intros Hlk Hlen Hn Hsz Hout. unfold log_one, log_record, mbind, M_bind, gets, id.
  rewrite !Z.geb_leb, !(proj2 (Z.leb_gt _ _)), (proj2 (Z.ltb_ge _ _)) by lia. cbn [orb].
  unfold acquire_log, mbind, M_bind, gets, modify. rewrite Hlk.
  pose proof (absorb_range (take (Z.to_nat (lh_n g)) (lh_block g)) n 0) as Hab. rewrite length_take in Hab.
  set (i := absorb _ n 0) in *. unfold LOGSIZE, MAXOPBLOCKS in *. unfold set_lh.
  rewrite (proj2 (Z.leb_le 0 i)), (proj2 (Z.ltb_lt i LOGSIZE)) by (unfold LOGSIZE, MAXOPBLOCKS; lia). cbn [andb].
  unfold when. destruct (Z.eqb_spec i (lh_n g)); unfold modify, mret, M_ret, release_log, mbind, M_bind, gets, modify; cbn;
    eexists; split; try reflexivity; cbn; rewrite ?length_insert; repeat split; done || lia.
Qed.

(** A [log_write] that returns found room. *)
Lemma log_one_room g g' n : log_one n g = Ret tt g' -> lh_n g < lg_size g - 1.
Proof.
  unfold log_one, log_record, mbind, M_bind, gets, id. rewrite !Z.geb_leb.
  destruct (Z.leb_spec LOGSIZE (lh_n g)); [done|]. by destruct (Z.leb_spec (lg_size g - 1) (lh_n g)).
Qed.

(** Without room it panics. *)
Lemma log_one_full g n : lg_size g - 1 <= lh_n g -> log_one n g = Panic "too big a transaction".
Proof.
  intros Hn. unfold log_one, log_record, mbind, M_bind, gets, id.
  by rewrite !Z.geb_leb, (proj2 (Z.leb_le (lg_size g - 1) _) Hn), orb_true_r.
Qed.

Lemma end_op_log_ok g b g' :
  lg_lock g = false -> is_i32 (lg_outstanding g - 1) -> end_op_log g = Ret b g' ->
  b = (lg_outstanding g =? 1) /\ lg_committing g = 0 /\
  g' = with_committing (if b then 1 else 0) (with_outstanding (lg_outstanding g - 1) g).
Proof.
  intros Hlk Hr He. unfold end_op_log, acquire_log, release_log, mbind, M_bind, gets, modify, id in He.
  rewrite Hlk in He. cbn in He. destruct (c_true (lg_committing g)) eqn:Ec; [done|]. apply c_false_spec in Ec.
  rewrite i32_small in He by done.
  assert ((lg_outstanding g - 1 =? 0) = (lg_outstanding g =? 1)) as Eb
    by (destruct (Z.eqb_spec (lg_outstanding g - 1) 0), (Z.eqb_spec (lg_outstanding g) 1); lia).
  rewrite Eb in He. unfold when in He. destruct (lg_outstanding g =? 1); cbn in He; injection He as <- <-;
    (split; [done|]; split; [done|]); destruct g; cbn in *; subst; done.
Qed.

Lemma reserved_step gu gu' :
  lstep gu gu' -> reserved gu -> reserved gu' /\ lg_size gu'.1 = lg_size gu.1.
Proof.
  intros Hs [Hlk Hlen Hn Hout Heach Hsum Hsm Hc].
  assert (forall g g' us i u b, gu = (g, us) -> us !! i = Some u -> end_op_log g = Ret b g' ->
    reserved (g', delete i us) /\ lg_size g' = lg_size g) as Hend.
  { intros g g' us i u b -> Hi He. cbn [fst snd] in *. pose proof (lookup_lt_Some _ _ _ Hi) as Hlt.
    pose proof (sum_delete us i u Hi) as Hsd.
    destruct (end_op_log_ok g b g') as (-> & Hc0 & ->); [done|unfold is_i32; lia|done|].
    split; [|done]. split; cbn [fst snd lg_lock lh_block lh_n lg_outstanding lg_committing with_committing with_outstanding];
      try done; try lia; rewrite ?length_delete by done; try lia.
    - intros v Hv. apply Heach. rewrite delete_take_drop in Hv.
      apply elem_of_app in Hv as [Hv|Hv]; [by apply (elem_of_submseteq (take i us) us v), submseteq_take|
        by apply (elem_of_submseteq (drop (S i) us) us v), submseteq_drop].
    - destruct (Z.eqb_spec (lg_outstanding g) 1) as [E|]; [right|by left]. split; [done|].
      apply nil_length_inv. rewrite length_delete by done. lia. }
  destruct Hs as [g g' us Hb|g g' us i u n Hi Hw|g g' us i u Hi He|g g' us i u Hi He|g Hcm];
    [| |by apply (Hend g g' us i u false)|by apply (Hend g g' us i u true)|]; clear Hend; cbn [fst snd] in *;
    unfold LOGSIZE, MAXOPBLOCKS in *.
  - unfold begin_op_log, acquire_log, release_log, mbind, M_bind, gets, modify in Hb. rewrite Hlk in Hb. cbn in Hb.
    destruct (begin_op_waits (with_lock true g)) eqn:Ew; [done|]. injection Hb as <-.
    unfold begin_op_waits in Ew. apply orb_false_iff in Ew as [Ec%c_false_spec Er]. cbn in Ec, Er.
    rewrite Z.gtb_ltb in Er. apply Z.ltb_ge in Er. unfold LOGSIZE, MAXOPBLOCKS in Er.
    pose proof (sum_le us 10 Heach).
    split; [|done]. split; cbn; try done.
    + rewrite length_app. cbn. mlia.
    + intros v [Hv|Hv%list_elem_of_singleton]%elem_of_app; [by apply Heach|subst; done].
    + rewrite sum_app. cbn [sum]. unfold LOGSIZE, MAXOPBLOCKS. change (Z.to_nat 10) with 10%nat. lia.
    + rewrite length_app. cbn. lia.
    + by left.
  - pose proof (sum_insert us i (S u) u Hi). pose proof (lookup_lt_Some _ _ _ Hi).
    pose proof (log_one_room g g' n Hw) as Hroom.
    destruct (log_one_ok g n) as (g'' & Hrun & ? & ? & ? & ? & Hc' & ?); unfold LOGSIZE, MAXOPBLOCKS; [done|done|lia|lia|lia|].
    rewrite Hw in Hrun. injection Hrun as <-.
    split; [|done]. split; cbn; rewrite ?length_insert; try done; try lia.
    + intros v [j Hj]%list_elem_of_lookup_1. destruct (decide (j = i)) as [->|Hne].
      * rewrite list_lookup_insert_eq in Hj by done. injection Hj as <-.
        pose proof (Heach (S u) ltac:(by apply list_elem_of_lookup_2 in Hi)) as Hu.
        change (Z.to_nat MAXOPBLOCKS) with 10%nat. change (Z.to_nat 10) with 10%nat in Hu. lia.
      * rewrite list_lookup_insert_ne in Hj by done. apply Heach. by apply list_elem_of_lookup_2 in Hj.
    + unfold LOGSIZE, MAXOPBLOCKS. lia.
    + rewrite Hc'. destruct Hc as [?|[_ ->]]; [by left|done].
  - split; [|done]. split; cbn; try done. by left.
Qed.

Lemma reserved_reach g us g0 :
  lg_lock g0 = false -> length (lh_block g0) = Z.to_nat LOGSIZE -> lh_n g0 = 0 -> lg_outstanding g0 = 0 ->
  lg_committing g0 = 0 -> rtc lstep (g0, []) (g, us) -> reserved (g, us) /\ lg_size g = lg_size g0.
Proof.
  intros Hlk Hlen Hn Hout Hc Hrtc.
  apply (rtc_preserves lstep (fun gu => reserved gu /\ lg_size gu.1 = lg_size g0) (g0, []) (g, us)); [|done|].
  - intros gu gu' Hst [Hr Hs]. destruct (reserved_step gu gu' Hst Hr) as [? ?]. split; [done|congruence].
  - split; [|done]. split; cbn; try done; [lia|by intros v ?%not_elem_of_nil|rewrite Hn; done|lia|by left].
Qed.


(** The log of an image made by [mkfs]: [LOGSIZE] blocks from block 2 on. *)
Definition mkfs_log : log := mkLog false 2 LOGSIZE 0 0 1 0 (replicate (Z.to_nat LOGSIZE) 0).

(** Three calls begin, and log the blocks of [l] as their reservations allow. *)
Fixpoint calls_log (l : list (nat * Z)) (gu : log * list nat) : option (log * list nat) :=
  match l with
  | [] => Some gu
  | (i, n) :: l =>
      match gu.2 !! i, log_one n gu.1 with
      | Some (S u), Ret _ g => calls_log l (g, <[i := u]> gu.2)
      | _, _ => None
      end
  end.
Lemma calls_log_steps l gu gu' : calls_log l gu = Some gu' -> rtc lstep gu gu'.
Proof.
  revert gu. induction l as [|[i n] l IH]; intros [g us] Hl; cbn in Hl; [injection Hl as <-; apply rtc_refl|].
  destruct (us !! i) as [[|u]|] eqn:Hi; [done| |done]. destruct (log_one n g) as [[] g'| | | |] eqn:Hw; try done.
  eapply rtc_l; [by eapply ls_write|]. by apply IH.
Qed.
Definition three_calls : list nat := [10; 10; 10]%nat.
Lemma three_begin : rtc lstep (mkfs_log, []) (with_outstanding 3 mkfs_log, three_calls).
Proof. do 3 (eapply rtc_l; [apply ls_begin; reflexivity|]). apply rtc_refl. Qed.

(** The exception is reached: with the log of [mkfs], three calls that
    [begin_op] admits at the same time and that log ten blocks each, as
    [MAXOPBLOCKS] allows, panic at the thirtieth block. *)
Example admitted_calls_panic : exists g,
  rtc lstep (mkfs_log, []) (g, [0; 0; 1]%nat) /\ log_one 69 g = Panic "too big a transaction".
Proof.
  destruct (calls_log (zip (replicate 10 0 ++ replicate 10 1 ++ replicate 9 2)%nat (Z.of_nat <$> seq 40 29))
              (with_outstanding 3 mkfs_log, three_calls)) as [[g us]|] eqn:E; [|vm_compute in E; discriminate].
  exists g. assert (us = [0; 0; 1]%nat) as -> by (vm_compute in E; congruence). split.
  - etransitivity; [exact three_begin|]. exact (calls_log_steps _ _ _ E).
  - vm_compute in E. injection E as <-. reflexivity.
Qed.

Definition demo_log : log := mkLog false 2 31 0 0 1 0 (replicate (Z.to_nat LOGSIZE) 0).

(** ** A transaction that updates one block *)

Definition zero_block : blk := replicate 512 0.
Definition demo_sb : blk := set_word (set_word zero_block 16 2) 12 31.
Definition demo_disk : gmap Z blk := <[1 := demo_sb]> (<[2 := zero_block]> ∅).
Definition demo_sys : lsys := mkLsys (binit 100 demo_disk) (with_outstanding 1 demo_log).
Definition demo_update : M lsys unit :=
  i ← on_bc (bread 1 40);
  _ ← on_bc (set_data i zero_block);
  _ ← log_write i;
  on_bc (brelse i).

Lemma demo_geometry : geometry 2 31 100.
Proof. split; mlia. Qed.
Lemma demo_home m : 33 <= m < 100 \/ m = 1 -> home 2 31 100 m.
Proof. intros Hm. unfold home, in_log. mlia. Qed.
Lemma demo_wf : log_wf 2 31 100 (disk_fn demo_disk) /\ head_list (disk_fn demo_disk 2) = [].
Proof.
  split; [|reflexivity]. split; try reflexivity; try done; [constructor|].
  split; [apply not_elem_of_nil|]. split; [apply demo_home; by right|]. split; reflexivity.
Qed.
Lemma demo_log_ok : log_ok 2 31 demo_sys [] [].
Proof.
  destruct (binit_rep 100 demo_disk) as [Hrep Hp]. destruct demo_wf as [Hwf Hh].
  split; try reflexivity; try done.
  - intros m. split; [intros Hm; by destruct (Hp m)|by intros ?%not_elem_of_nil].
  - by intros m ?%not_elem_of_nil.
  - constructor.
  - apply not_elem_of_nil.
Qed.
Lemma demo_logged : exists s, log_ok 2 31 s [] [40] /\ demo_update demo_sys = Ret tt s /\
  view (l_bc s) 40 = zero_block /\ disk_at (l_bc s) 40 = [].
Proof.
  assert (wp demo_update (fun _ s => log_ok 2 31 s [] [40] /\ view (l_bc s) 40 = zero_block /\ disk_at (l_bc s) 40 = []) demo_sys) as HW.
  { pose proof demo_log_ok as Hok. unfold demo_update. wp_step.
    wp_use (tx_bread 2 31 demo_sys [] [] 40 Hok); [apply not_elem_of_nil|cbn; mlia|right; cbn; unfold NBUF; lia|].
    intros i s1 (Hok1 & [[Hd1 Hs1 _] Ho1] & Hv1). wp_step.
    wp_use (tx_set_data 2 31 s1 _ _ i 40 zero_block Hok1); [left|]. intros _ s2 (Hok2 & [[Hd2 Hs2 _] Ho2] & Hv2). wp_step.
    assert (disksize (l_bc s2) = 100) as Hsz by (rewrite Hs2, Hs1; reflexivity).
    wp_use (tx_log_write 2 31 s2 _ _ i 40 Hok2); [left|rewrite Ho2, Ho1; cbn; lia|rewrite Hsz; apply demo_home; lia|done|cbn; unfold LOGSIZE, MAXOPBLOCKS; lia|cbn; lia|].
    intros _ s3 (Hok3 & [[Hd3 _ _] _] & Hv3).
    wp_use (tx_brelse 2 31 s3 [] _ i 40 Hok3); [left; left|]. intros _ s4 (Hok4 & [[Hd4 _ _] _] & Hv4).
    split; [exact Hok4|]. split; [rewrite Hv4, Hv3, Hv2; by rewrite decide_True|].
    unfold disk_at. rewrite Hd4, Hd3, Hd2, Hd1. reflexivity. }
  apply wp_Ret in HW as ([] & s & Hrun & Hok & Hv & Hd). by exists s.
Qed.

Lemma commit_crash_safe_witness : exists s s' ws, log_ok 2 31 s [] [40] /\ commit s = Ret tt s' /\
  disk_at (l_bc s') 40 = zero_block /\
  forall k, exists r, initlog 1 (mkLsys (binit (disksize (l_bc s)) (apply_writes (take k ws) (disk (l_bc s)))) demo_log) = Ret tt r.
Proof.
  destruct demo_logged as (s & Hok & Hrun & Hv & _).
  destruct (commit_crash_safe 2 31 s [40] demo_log Hok) as (s' & ws & Hc & _ & _ & Hd & Hk);
    [cbn; unfold NBUF; lia|reflexivity|].
  exists s, s', ws. split; [exact Hok|]. split; [exact Hc|]. split; [|intros k; destruct (Hk k) as (r & Hr & _); by exists r].
  rewrite Hd; [exact Hv|]. apply (lo_home _ _ _ _ _ Hok). left.
Defined.

Lemma recovery_idempotent_witness : exists r, initlog 1 (mkLsys (binit 100 demo_disk) demo_log) = Ret tt r /\
  disk_at (l_bc r) 1 = demo_sb.
Proof.
  destruct (recovery_idempotent 2 31 100 demo_disk demo_log demo_geometry (proj1 demo_wf)) as (r & Hr & Hd & _);
    [reflexivity|].
  exists r. split; [exact Hr|]. rewrite Hd by (apply demo_home; by right). reflexivity.
Defined.

(** The cache has [LOGSIZE] buffers.  With a log of one block more than [mkfs]
    makes, a transaction of [LOGSIZE] blocks, which the reservation allows, is
    recorded and pins all of them, and the commit finds no buffer for the first
    log block: enlarging the log alone does not help. *)
Fixpoint log_blocks (l : list Z) : M lsys unit :=
  match l with
  | [] => mret tt
  | n :: l => i ← on_bc (bread 1 n); _ ← log_write i; _ ← on_bc (brelse i); log_blocks l
  end.
Example full_log_panics :
  (_ ← log_blocks (Z.of_nat <$> seq 40 30); commit) demo_sys = Panic "bget: no buffers".
Proof. vm_compute. reflexivity. Qed.
