(* ===== verification/Fs.v ===== *)
(** * The file system (fs.c)

    Blocks, inodes, file contents, directories and path names over the log.
    Pointers into the inode cache are its indices; memory buffers are lists of
    bytes.  The devices behind [T_DEV] inodes are the table [devsw]. *)

From S2P Require Import Prelude Block Bio Log.
From stdpp Require Import base gmap list strings.
From Stdlib Require Import ZArith Lia.
#[local] Open Scope Z_scope.

Definition ROOTDEV : Z := 1.
Definition ROOTINO : Z := 1.
Definition NDIRECT : Z := 12.
Definition NINDIRECT : Z := BSIZE / 4.
Definition MAXFILE : Z := NDIRECT + NINDIRECT.
Definition IPB : Z := BSIZE / 64.
Definition BPB : Z := BSIZE * 8.
Definition DIRSIZ : nat := 14.
Definition NINODE : nat := 50.
Definition NDEV : Z := 10.
Definition T_DIR : Z := 1.
Definition T_FILE : Z := 2.
Definition T_DEV : Z := 3.

Definition IBLOCK (i : Z) (sb : superblock) : Z := i / IPB + sb_inodestart sb.
Definition BBLOCK (b : Z) (sb : superblock) : Z := b / BPB + sb_bmapstart sb.

Definition i16 (x : Z) : Z := (x + 32768) mod 65536 - 32768.

(** [struct inode]; the sleep lock as the running process sees it. *)
Record inode := mkInode {
  i_dev : Z; i_inum : Z; i_ref : Z; i_lock : bool; i_valid : Z;
  i_type : Z; i_major : Z; i_minor : Z; i_nlink : Z; i_size : Z; i_addrs : list Z }.
Record fsys := mkFs { fs_l : lsys; fs_sb : superblock; icache : list inode; ic_lock : bool }.

Definition set_l (l : lsys) (s : fsys) : fsys := mkFs l (fs_sb s) (icache s) (ic_lock s).
Definition set_sb (b : superblock) (s : fsys) : fsys := mkFs (fs_l s) b (icache s) (ic_lock s).
Definition set_icache (c : list inode) (s : fsys) : fsys := mkFs (fs_l s) (fs_sb s) c (ic_lock s).
Definition set_ic_lock (b : bool) (s : fsys) : fsys := mkFs (fs_l s) (fs_sb s) (icache s) b.

Definition with_ref (r : Z) (ip : inode) : inode :=
  mkInode (i_dev ip) (i_inum ip) r (i_lock ip) (i_valid ip) (i_type ip) (i_major ip) (i_minor ip)
    (i_nlink ip) (i_size ip) (i_addrs ip).
Definition with_ilock (b : bool) (ip : inode) : inode :=
  mkInode (i_dev ip) (i_inum ip) (i_ref ip) b (i_valid ip) (i_type ip) (i_major ip) (i_minor ip)
    (i_nlink ip) (i_size ip) (i_addrs ip).
Definition with_valid (v : Z) (ip : inode) : inode :=
  mkInode (i_dev ip) (i_inum ip) (i_ref ip) (i_lock ip) v (i_type ip) (i_major ip) (i_minor ip)
    (i_nlink ip) (i_size ip) (i_addrs ip).
Definition with_type (t : Z) (ip : inode) : inode :=
  mkInode (i_dev ip) (i_inum ip) (i_ref ip) (i_lock ip) (i_valid ip) t (i_major ip) (i_minor ip)
    (i_nlink ip) (i_size ip) (i_addrs ip).
Definition with_devno (major minor : Z) (ip : inode) : inode :=
  mkInode (i_dev ip) (i_inum ip) (i_ref ip) (i_lock ip) (i_valid ip) (i_type ip) major minor
    (i_nlink ip) (i_size ip) (i_addrs ip).
Definition with_nlink (n : Z) (ip : inode) : inode :=
  mkInode (i_dev ip) (i_inum ip) (i_ref ip) (i_lock ip) (i_valid ip) (i_type ip) (i_major ip) (i_minor ip)
    n (i_size ip) (i_addrs ip).
Definition with_size (z : Z) (ip : inode) : inode :=
  mkInode (i_dev ip) (i_inum ip) (i_ref ip) (i_lock ip) (i_valid ip) (i_type ip) (i_major ip) (i_minor ip)
    (i_nlink ip) z (i_addrs ip).
Definition with_addrs (a : list Z) (ip : inode) : inode :=
  mkInode (i_dev ip) (i_inum ip) (i_ref ip) (i_lock ip) (i_valid ip) (i_type ip) (i_major ip) (i_minor ip)
    (i_nlink ip) (i_size ip) a.

(** ** Calls into the log and the buffer cache *)

Definition on_l {A} (m : M lsys A) : M fsys A := zoom fs_l set_l m.
Definition fs_bread (dev n : Z) : M fsys nat := on_l (on_bc (bread dev n)).
Definition fs_data (bp : nat) : M fsys blk := on_l (on_bc (buf_data bp)).
Definition fs_set_data (bp : nat) (d : blk) : M fsys unit := on_l (on_bc (set_data bp d)).
Definition fs_log_write (bp : nat) : M fsys unit := on_l (log_write bp).
Definition fs_brelse (bp : nat) : M fsys unit := on_l (on_bc (brelse bp)).

(** ** The inode cache *)

Definition acquire_icache : M fsys unit :=
  b ← gets ic_lock; if (b : bool) then panic "acquire" else modify (set_ic_lock true).
Definition release_icache : M fsys unit :=
  b ← gets ic_lock; if (b : bool) then modify (set_ic_lock false) else panic "release".
Definition get_inode (ip : nat) : M fsys inode := fun s =>
  match icache s !! ip with Some i => Ret i s | None => Undef "inode pointer" end.
Definition upd_inode (ip : nat) (f : inode -> inode) : M fsys unit := fun s =>
  match icache s !! ip with Some i => Ret tt (set_icache (<[ip := f i]> (icache s)) s) | None => Undef "inode pointer" end.
Definition acquiresleep_i (ip : nat) : M fsys unit :=
  i ← get_inode ip; if i_lock i then blocked "inode lock" else upd_inode ip (with_ilock true).
Definition releasesleep_i (ip : nat) : M fsys unit := upd_inode ip (with_ilock false).

Definition iinit (dev : Z) : M fsys unit :=
  sb ← on_l (on_bc (readsb dev));
  modify (fun s => set_ic_lock false (set_icache ((with_ilock false) <$> icache s) (set_sb sb s))).

(** ** Blocks *)

Definition zeroes (n : nat) : list Z := replicate n 0.

Definition bzero (dev bno : Z) : M fsys unit :=
  bp ← fs_bread dev bno;
  _ ← fs_set_data bp (zeroes (Z.to_nat BSIZE));
  _ ← fs_log_write bp;
  fs_brelse bp.

Definition bit_mask (bi : Z) : Z := Z.shiftl 1 (bi mod 8).
(** The first clear bit of a bitmap block, from [bi] on and below [lim]. *)
Fixpoint find_free (k : nat) (d : blk) (bi lim : Z) : option Z :=
  match k with
  | O => None
  | S k =>
      if bi <? lim then
        if Z.land (byte_at d (bi / 8)) (bit_mask bi) =? 0 then Some bi else find_free k d (bi + 1) lim
      else None
  end.
Fixpoint balloc_loop (fuel : nat) (dev b : Z) : M fsys Z :=
  match fuel with
  | O => nofuel
  | S fuel =>
      sb ← gets fs_sb;
      if b <? sb_size sb then
        bp ← fs_bread dev (BBLOCK b sb);
        d ← fs_data bp;
        match find_free (Z.to_nat BPB) d 0 (sb_size sb - b) with
        | Some bi =>
            _ ← fs_set_data bp (set_byte d (bi / 8) (Z.lor (byte_at d (bi / 8)) (bit_mask bi)));
            _ ← fs_log_write bp;
            _ ← fs_brelse bp;
            _ ← bzero dev (b + bi);
            mret (b + bi)
        | None =>
            _ ← fs_brelse bp;
            balloc_loop fuel dev (b + BPB)
        end
      else panic "balloc: out of blocks"
  end.
Definition balloc (dev : Z) : M fsys Z :=
  sb ← gets fs_sb; balloc_loop (S (Z.to_nat (sb_size sb / BPB + 1))) dev 0.

Definition bfree (dev b : Z) : M fsys unit :=
  sb ← gets fs_sb;
  bp ← fs_bread dev (BBLOCK b sb);
  let bi := b mod BPB in
  d ← fs_data bp;
  if Z.land (byte_at d (bi / 8)) (bit_mask bi) =? 0 then panic "freeing free block"
  else
    _ ← fs_set_data bp (set_byte d (bi / 8) (Z.land (byte_at d (bi / 8)) (Z.lnot (bit_mask bi))));
    _ ← fs_log_write bp;
    fs_brelse bp.

(** ** Inodes on disk

    [struct dinode] at byte offset [o] of an inode block. *)
Definition dinode_off (inum : Z) : Z := 64 * (inum mod IPB).
Fixpoint words_at (d : blk) (o : Z) (n : nat) : list Z :=
  match n with O => [] | S n => word_at d o :: words_at d (o + 4) n end.
Fixpoint set_words (d : blk) (o : Z) (ws : list Z) : blk :=
  match ws with [] => d | w :: ws => set_words (set_word d o w) (o + 4) ws end.
Fixpoint set_bytes (d : blk) (o : Z) (bs : list Z) : blk :=
  match bs with [] => d | b :: bs => set_bytes (set_byte d o b) (o + 1) bs end.

(** [*dip = ip], field by field. *)
Definition put_dinode (d : blk) (o : Z) (ip : inode) : blk :=
  let d := set_half d o (i_type ip) in
  let d := set_half d (o + 2) (i_major ip) in
  let d := set_half d (o + 4) (i_minor ip) in
  let d := set_half d (o + 6) (i_nlink ip) in
  let d := set_word d (o + 8) (i_size ip) in
  set_words d (o + 12) (i_addrs ip).
(** The fields [ilock] reads. *)
Definition get_dinode (d : blk) (o : Z) (ip : inode) : inode :=
  mkInode (i_dev ip) (i_inum ip) (i_ref ip) (i_lock ip) (i_valid ip)
    (i16 (half_at d o)) (i16 (half_at d (o + 2))) (i16 (half_at d (o + 4))) (i16 (half_at d (o + 6)))
    (word_at d (o + 8)) (words_at d (o + 12) 13).

(** The scan of [iget]: the cached entry, or the first empty slot. *)
Fixpoint iget_scan (l : list inode) (i : nat) (dev inum : Z) (empty : option nat) : nat + option nat :=
  match l with
  | [] => inr empty
  | ip :: l =>
      if (i_ref ip >? 0) && (i_dev ip =? dev) && (i_inum ip =? inum) then inl i
      else
        let empty := match empty with None => if i_ref ip =? 0 then Some i else None | Some _ => empty end in
        iget_scan l (S i) dev inum empty
  end.
Definition iget (dev inum : Z) : M fsys nat :=
  _ ← acquire_icache;
  c ← gets icache;
  match iget_scan c 0 dev inum None with
  | inl ip =>
      _ ← upd_inode ip (fun i => with_ref (i32 (i_ref i + 1)) i);
      _ ← release_icache;
      mret ip
  | inr None => panic "iget: no inodes"
  | inr (Some ip) =>
      _ ← upd_inode ip (fun i => mkInode dev inum 1 (i_lock i) 0 (i_type i) (i_major i) (i_minor i)
                                   (i_nlink i) (i_size i) (i_addrs i));
      _ ← release_icache;
      mret ip
  end.

Fixpoint ialloc_loop (fuel : nat) (dev type inum : Z) : M fsys nat :=
  match fuel with
  | O => nofuel
  | S fuel =>
      sb ← gets fs_sb;
      if inum <? sb_ninodes sb then
        bp ← fs_bread dev (IBLOCK inum sb);
        d ← fs_data bp;
        let o := dinode_off inum in
        if half_at d o =? 0 then
          _ ← fs_set_data bp (set_half (set_bytes d o (zeroes 64)) o type);
          _ ← fs_log_write bp;
          _ ← fs_brelse bp;
          iget dev inum
        else
          _ ← fs_brelse bp;
          ialloc_loop fuel dev type (inum + 1)
      else panic "ialloc: no inodes"
  end.
Definition ialloc (dev type : Z) : M fsys nat :=
  sb ← gets fs_sb; ialloc_loop (S (Z.to_nat (sb_ninodes sb))) dev type 1.

Definition iupdate (ip : nat) : M fsys unit :=
  i ← get_inode ip;
  sb ← gets fs_sb;
  bp ← fs_bread (i_dev i) (IBLOCK (i_inum i) sb);
  d ← fs_data bp;
  _ ← fs_set_data bp (put_dinode d (dinode_off (i_inum i)) i);
  _ ← fs_log_write bp;
  fs_brelse bp.

Definition idup (ip : nat) : M fsys nat :=
  _ ← acquire_icache;
  _ ← upd_inode ip (fun i => with_ref (i32 (i_ref i + 1)) i);
  _ ← release_icache;
  mret ip.

Definition ilock (ip : nat) : M fsys unit :=
  i ← get_inode ip;
  if i_ref i <? 1 then panic "ilock"
  else
    _ ← acquiresleep_i ip;
    i ← get_inode ip;
    when (i_valid i =? 0) (
      sb ← gets fs_sb;
      bp ← fs_bread (i_dev i) (IBLOCK (i_inum i) sb);
      d ← fs_data bp;
      _ ← upd_inode ip (get_dinode d (dinode_off (i_inum i)));
      _ ← fs_brelse bp;
      _ ← upd_inode ip (with_valid 1);
      i ← get_inode ip;
      if i_type i =? 0 then panic "ilock: no type" else mret tt).

Definition iunlock (ip : nat) : M fsys unit :=
  i ← get_inode ip;
  if negb (i_lock i) || (i_ref i <? 1) then panic "iunlock" else releasesleep_i ip.

(** ** File contents *)

Definition get_addr (i : inode) (k : Z) : Z := nth (Z.to_nat k) (i_addrs i) 0.
Definition set_addr (ip : nat) (k v : Z) : M fsys unit :=
  upd_inode ip (fun i => with_addrs (<[Z.to_nat k := v]> (i_addrs i)) i).

(** [ip->addrs[k]], allocated if it is zero. *)
Definition addr_or_alloc (ip : nat) (k : Z) : M fsys Z :=
  i ← get_inode ip;
  let addr := get_addr i k in
  if addr =? 0 then
    addr ← balloc (i_dev i);
    _ ← set_addr ip k addr;
    mret addr
  else mret addr.
Definition bmap (ip : nat) (bn : Z) : M fsys Z :=
  if bn <? NDIRECT then addr_or_alloc ip bn
  else
    let bn := bn - NDIRECT in
    if bn <? NINDIRECT then
      addr ← addr_or_alloc ip NDIRECT;
      i ← get_inode ip;
      bp ← fs_bread (i_dev i) addr;
      d ← fs_data bp;
      let addr := word_at d (4 * bn) in
      if addr =? 0 then
        addr ← balloc (i_dev i);
        _ ← fs_set_data bp (set_word d (4 * bn) addr);
        _ ← fs_log_write bp;
        _ ← fs_brelse bp;
        mret addr
      else
        _ ← fs_brelse bp;
        mret addr
    else panic "bmap: out of range".

Fixpoint free_direct (k : nat) (ip : nat) (i : Z) : M fsys unit :=
  match k with
  | O => mret tt
  | S k =>
      n ← get_inode ip;
      _ ← (if c_true (get_addr n i) then
             _ ← bfree (i_dev n) (get_addr n i);
             set_addr ip i 0
           else mret tt);
      free_direct k ip (i + 1)
  end.
Fixpoint free_indirect (k : nat) (dev : Z) (d : blk) (j : Z) : M fsys unit :=
  match k with
  | O => mret tt
  | S k =>
      _ ← (if c_true (word_at d (4 * j)) then bfree dev (word_at d (4 * j)) else mret tt);
      free_indirect k dev d (j + 1)
  end.
Definition itrunc (ip : nat) : M fsys unit :=
  _ ← free_direct (Z.to_nat NDIRECT) ip 0;
  i ← get_inode ip;
  _ ← (if c_true (get_addr i NDIRECT) then
         bp ← fs_bread (i_dev i) (get_addr i NDIRECT);
         d ← fs_data bp;
         _ ← free_indirect (Z.to_nat NINDIRECT) (i_dev i) d 0;
         _ ← fs_brelse bp;
         _ ← bfree (i_dev i) (get_addr i NDIRECT);
         set_addr ip NDIRECT 0
       else mret tt);
  _ ← upd_inode ip (with_size 0);
  iupdate ip.

Definition iput (ip : nat) : M fsys unit :=
  _ ← acquiresleep_i ip;
  i ← get_inode ip;
  _ ← when (c_true (i_valid i) && (i_nlink i =? 0)) (
    _ ← acquire_icache;
    i ← get_inode ip;
    let r := i_ref i in
    _ ← release_icache;
    when (r =? 1) (
      _ ← itrunc ip;
      _ ← upd_inode ip (with_type 0);
      _ ← iupdate ip;
      upd_inode ip (with_valid 0)));
  _ ← releasesleep_i ip;
  _ ← acquire_icache;
  _ ← upd_inode ip (fun i => with_ref (i32 (i_ref i - 1)) i);
  release_icache.
Definition iunlockput (ip : nat) : M fsys unit := _ ← iunlock ip; iput ip.

Record stat := mkStat { st_type : Z; st_dev : Z; st_ino : Z; st_nlink : Z; st_size : Z }.
Definition stati (ip : nat) : M fsys stat :=
  i ← get_inode ip; mret (mkStat (i_type i) (i32 (i_dev i)) (i_inum i) (i_nlink i) (i_size i)).

(** ** Reading and writing *)

(** The device functions of a major number, null or not. *)
Record devops := mkDev {
  d_read : option (nat -> Z -> M fsys (Z * list Z));
  d_write : option (nat -> list Z -> M fsys Z) }.

(** [len] bytes of a block from byte [o] on. *)
Definition bytes_at (d : blk) (o len : Z) : list Z := take (Z.to_nat len) (drop (Z.to_nat o) d).

Section Rw.
  Variable devsw : Z -> devops.

Fixpoint readi_loop (fuel : nat) (ip : nat) (off left : Z) : M fsys (list Z) :=
  match fuel with
  | O => nofuel
  | S fuel =>
      if 0 <? left then
        addr ← bmap ip (off / BSIZE);
        i ← get_inode ip;
        bp ← fs_bread (i_dev i) addr;
        let m := Z.min left (BSIZE - off mod BSIZE) in
        d ← fs_data bp;
        _ ← fs_brelse bp;
        rest ← readi_loop fuel ip (off + m) (left - m);
        mret (bytes_at d (off mod BSIZE) m ++ rest)
      else mret []
  end.
(** The return value and the bytes stored at [dst]. *)
Definition readi (ip : nat) (off n : Z) : M fsys (Z * list Z) :=
  i ← get_inode ip;
  if i_type i =? T_DEV then
    if (i_major i <? 0) || (i_major i >=? NDEV) then mret (-1, [])
    else match d_read (devsw (i_major i)) with
         | None => mret (-1, [])
         | Some read => read ip n
         end
  else if (off >? i_size i) || (u32 (off + n) <? off) then mret (-1, [])
  else
    let n := if off + n >? i_size i then i_size i - off else n in
    bs ← readi_loop (S (S (S (Z.to_nat (n / BSIZE))))) ip off n;
    mret (i32 n, bs).

Fixpoint writei_loop (fuel : nat) (ip : nat) (src : list Z) (off left : Z) : M fsys unit :=
  match fuel with
  | O => nofuel
  | S fuel =>
      if 0 <? left then
        addr ← bmap ip (off / BSIZE);
        i ← get_inode ip;
        bp ← fs_bread (i_dev i) addr;
        let m := Z.min left (BSIZE - off mod BSIZE) in
        d ← fs_data bp;
        _ ← fs_set_data bp (set_bytes d (off mod BSIZE) (take (Z.to_nat m) src));
        _ ← fs_log_write bp;
        _ ← fs_brelse bp;
        writei_loop fuel ip (drop (Z.to_nat m) src) (off + m) (left - m)
      else mret tt
  end.
(** Write the [n] bytes [src]. *)
Definition writei (ip : nat) (src : list Z) (off n : Z) : M fsys Z :=
  i ← get_inode ip;
  if i_type i =? T_DEV then
    if (i_major i <? 0) || (i_major i >=? NDEV) then mret (-1)
    else match d_write (devsw (i_major i)) with
         | None => mret (-1)
         | Some write => write ip (take (Z.to_nat n) src)
         end
  else if (off >? i_size i) || (u32 (off + n) <? off) then mret (-1)
  else if u32 (off + n) >? MAXFILE * BSIZE then mret (-1)
  else
    _ ← writei_loop (S (S (S (Z.to_nat (n / BSIZE))))) ip src off n;
    i ← get_inode ip;
    _ ← when ((n >? 0) && (off + n >? i_size i)) (
      _ ← upd_inode ip (with_size (off + n));
      iupdate ip);
    mret (i32 n).

(** ** Directories

    A name is its bytes up to a NUL, at most [DIRSIZ] of them. *)
Fixpoint strncmp_l (n : nat) (s t : list Z) : Z :=
  match n with
  | O => 0
  | S n =>
      let p := hd 0 s in
      let q := hd 0 t in
      if c_true p && (p =? q) then strncmp_l n (tl s) (tl t) else p - q
  end.
Definition namecmp (s t : list Z) : Z := strncmp_l DIRSIZ s t.

(** [struct dirent] as its 16 bytes. *)
Definition de_inum (de : list Z) : Z := half_at de 0.
Definition de_name (de : list Z) : list Z := drop 2 de.
Definition dirent_size : Z := 16.

(** The inode found, if any, and the offset of its entry. *)
Fixpoint dirlookup_loop (fuel : nat) (dp : nat) (name : list Z) (off : Z) : M fsys (option (nat * Z)) :=
  match fuel with
  | O => nofuel
  | S fuel =>
      i ← get_inode dp;
      if off <? i_size i then
        r ← readi dp off dirent_size;
        if negb (r.1 =? dirent_size) then panic "dirlookup read"
        else if de_inum r.2 =? 0 then dirlookup_loop fuel dp name (off + dirent_size)
        else if namecmp name (de_name r.2) =? 0 then
          ip ← iget (i_dev i) (de_inum r.2);
          mret (Some (ip, off))
        else dirlookup_loop fuel dp name (off + dirent_size)
      else mret None
  end.
Definition dir_fuel (i : inode) : nat := S (S (Z.to_nat (i_size i / dirent_size))).
Definition dirlookup (dp : nat) (name : list Z) : M fsys (option (nat * Z)) :=
  i ← get_inode dp;
  if negb (i_type i =? T_DIR) then panic "dirlookup not DIR"
  else dirlookup_loop (dir_fuel i) dp name 0.

(** The offset of the first empty entry, or the size. *)
Fixpoint dirlink_loop (fuel : nat) (dp : nat) (off : Z) : M fsys Z :=
  match fuel with
  | O => nofuel
  | S fuel =>
      i ← get_inode dp;
      if off <? i_size i then
        r ← readi dp off dirent_size;
        if negb (r.1 =? dirent_size) then panic "dirlink read"
        else if de_inum r.2 =? 0 then mret off
        else dirlink_loop fuel dp (off + dirent_size)
      else mret off
  end.
(** [strncpy] into a field of [n] bytes: the rest is filled with zeroes. *)
Definition strncpy_l (n : nat) (s : list Z) : list Z := take n s ++ zeroes (n - length s).
Definition make_dirent (inum : Z) (name : list Z) : list Z :=
  set_half (zeroes 2) 0 inum ++ strncpy_l DIRSIZ name.
Definition dirlink (dp : nat) (name : list Z) (inum : Z) : M fsys Z :=
  r ← dirlookup dp name;
  match r with
  | Some (ip, _) => _ ← iput ip; mret (-1)
  | None =>
      i ← get_inode dp;
      off ← dirlink_loop (dir_fuel i) dp 0;
      r ← writei dp (make_dirent inum name) off dirent_size;
      if negb (r =? dirent_size) then panic "dirlink" else mret 0
  end.

(** ** Paths

    A path is its bytes up to the NUL. *)
Definition slash : Z := 47.
Fixpoint skip_slashes (path : list Z) : list Z :=
  match path with
  | c :: path' => if c =? slash then skip_slashes path' else path
  | [] => []
  end.
(** The element in front and what follows it. *)
Fixpoint span_elem (path : list Z) : list Z * list Z :=
  match path with
  | c :: path' => if c =? slash then ([], path) else let '(e, r) := span_elem path' in (c :: e, r)
  | [] => ([], [])
  end.
(** The rest of the path and the element, cut to [DIRSIZ] bytes. *)
Definition skipelem (path : list Z) : option (list Z * list Z) :=
  match skip_slashes path with
  | [] => None
  | path => let '(e, r) := span_elem path in Some (skip_slashes r, take DIRSIZ e)
  end.

Fixpoint namex_loop (fuel : nat) (ip : nat) (path : list Z) (nameiparent : bool) (name : list Z)
  : M fsys (option nat * list Z) :=
  match fuel with
  | O => nofuel
  | S fuel =>
      match skipelem path with
      | None =>
          if nameiparent then _ ← iput ip; mret (None, name) else mret (Some ip, name)
      | Some (path, name) =>
          _ ← ilock ip;
          i ← get_inode ip;
          if negb (i_type i =? T_DIR) then _ ← iunlockput ip; mret (None, name)
          else if nameiparent && match path with [] => true | _ => false end then
            _ ← iunlock ip; mret (Some ip, name)
          else
            next ← dirlookup ip name;
            match next with
            | None => _ ← iunlockput ip; mret (None, name)
            | Some (next, _) => _ ← iunlockput ip; namex_loop fuel next path nameiparent name
            end
      end
  end.
(** [cwd] is the current directory of the process. *)
Definition namex (cwd : nat) (path : list Z) (nameiparent : bool) : M fsys (option nat * list Z) :=
  ip ← (if hd 0 path =? slash then iget ROOTDEV ROOTINO else idup cwd);
  namex_loop (S (length path)) ip path nameiparent [].
Definition namei (cwd : nat) (path : list Z) : M fsys (option nat) :=
  r ← namex cwd path false; mret r.1.
Definition nameiparent (cwd : nat) (path : list Z) : M fsys (option nat * list Z) := namex cwd path true.
End Rw.
