(* ===== verification/FsTx.v ===== *)
(** * File system code inside a transaction

    Between [begin_op] and [end_op] the file system sees the blocks of the disk
    as the buffer cache presents them.  Reading and logging a block are the two
    patterns that the routines of fs.c are made of. *)

From S2P Require Import Prelude Block Bio Log LogCrash LogTheorems LogOps Fs.
From stdpp Require Import base gmap list strings.
From Stdlib Require Import ZArith Lia.
#[local] Open Scope Z_scope.

(** The blocks as the file system sees them. *)
Definition dv (s : fsys) : Z -> blk := view (l_bc (fs_l s)).

Section Tx.
  Variables (start lsize dsz : Z) (sb : superblock).

(** A transaction that holds the buffers [held] and has logged the blocks [bs]. *)
Record txn (s : fsys) (held : list (nat * Z)) (bs : list Z) : Prop := {
  tn_log : log_ok start lsize (fs_l s) held bs;
  tn_out : 1 <= lg_outstanding (l_log (fs_l s));
  tn_dsz : disksize (l_bc (fs_l s)) = dsz;
  tn_sb : fs_sb s = sb }.
(** The inode cache is the same in both states. *)
Definition same_ic (s s' : fsys) : Prop := icache s' = icache s /\ ic_lock s' = ic_lock s.
#[export] Instance same_ic_preorder : PreOrder same_ic.
Proof. split; [done|]. intros s1 s2 s3 [? ?] [? ?]. split; congruence. Qed.

(** Blocks that may be read, and blocks that may be logged as well. *)
Definition readable (n : Z) : Prop := 0 <= n < u32 dsz.
Definition writable (n : Z) : Prop := home start lsize dsz n /\ n <> 1.
Lemma writable_readable n : writable n -> readable n.
Proof. by intros [[? _] _]. Qed.
(** There is room for [k] more blocks in the log. *)
Definition room (bs : list Z) (k : Z) : Prop :=
  Z.of_nat (length bs) + k <= LOGSIZE - 2 /\ Z.of_nat (length bs) + k <= lsize - 1.
Lemma room_le bs k k' : room bs k -> k' <= k -> room bs k'.
Proof. unfold room. lia. Qed.
Lemma room_logged bs n k : room bs (k + 1) -> room (logged bs n) k.
Proof. unfold room. pose proof (logged_length bs n). lia. Qed.

Lemma on_l_wp {A} (m : M lsys A) Q s : wp m (fun a l => Q a (set_l l s)) (fs_l s) -> wp (on_l m) Q s.
Proof. apply wp_zoom. Qed.
Lemma txn_set s held bs held' bs' l :
  txn s held bs -> log_ok start lsize l held' bs' -> tx_step (fs_l s) l -> txn (set_l l s) held' bs'.
Proof.
  intros [H1 H2 H3 H4] Hl [Hd Ho]. split; [done|cbn; by rewrite Ho|cbn; by rewrite (sd_size _ _ Hd)|done].
Qed.

(** A buffer is given back when its block is logged or has not been changed. *)
Definition unchanged (s : fsys) (bs : list Z) (n : Z) : Prop := n ∈ bs \/ dv s n = disk_at (l_bc (fs_l s)) n.

Lemma fs_bread_ok s held bs n :
  txn s held bs -> readable n -> n ∉ held.*2 -> (length held <= 1)%nat -> room bs 0 ->
  wp (fs_bread 1 n) (fun i s' => txn s' ((i, n) :: held) bs /\ same_ic s s' /\ (forall m, dv s' m = dv s m) /\
    unchanged s' bs n) s.
Proof.
  intros Ht Hn Hh Hl [Hr _]. apply on_l_wp. unfold LOGSIZE, MAXOPBLOCKS in Hr.
  wp_use (tx_bread start lsize (fs_l s) held bs n (tn_log _ _ _ Ht) Hh).
  - rewrite (tn_dsz _ _ _ Ht). apply Hn.
  - right. unfold NBUF. lia.
  - intros i l (Hok & Hst & Hv). split; [by apply (txn_set s held bs)|]. split; [done|]. split; [exact Hv|].
    destruct (decide (n ∈ bs)) as [Hin|Hnin]; [by left|right]. unfold dv. cbn [fs_l set_l]. rewrite Hv.
    unfold disk_at. rewrite (sd_disk _ _ (ts_disk _ _ Hst)). fold (disk_at (l_bc (fs_l s)) n).
    apply (view_disk _ held); [apply (lo_rep _ _ _ _ _ (tn_log _ _ _ Ht))|done|].
    by rewrite (lo_pinned _ _ _ _ _ (tn_log _ _ _ Ht)).
Qed.
Lemma fs_data_ok s held bs i n : txn s held bs -> (i, n) ∈ held -> fs_data i s = Ret (dv s n) s.
Proof.
  intros Ht Hin. unfold fs_data, on_l, zoom. rewrite (tx_data start lsize _ held bs i n (tn_log _ _ _ Ht) Hin). by destruct s.
Qed.
Lemma fs_set_data_ok s held bs i n d :
  txn s held bs -> (i, n) ∈ held ->
  wp (fs_set_data i d) (fun _ s' => txn s' held bs /\ same_ic s s' /\
    forall m, dv s' m = if decide (m = n) then d else dv s m) s.
Proof.
  intros Ht Hin. apply on_l_wp. wp_use (tx_set_data start lsize (fs_l s) held bs i n d (tn_log _ _ _ Ht) Hin).
  intros _ l (Hok & Hst & Hv). split; [by apply (txn_set s held bs)|]. split; [done|exact Hv].
Qed.
Lemma fs_log_write_ok s held bs i n :
  txn s held bs -> (i, n) ∈ held -> writable n -> room bs 1 ->
  wp (fs_log_write i) (fun _ s' => txn s' held (logged bs n) /\ same_ic s s' /\ forall m, dv s' m = dv s m) s.
Proof.
  intros Ht Hin [Hn Hn1] [Hr1 Hr2]. apply on_l_wp.
  wp_use (tx_log_write start lsize (fs_l s) held bs i n (tn_log _ _ _ Ht) Hin (tn_out _ _ _ Ht)); [|done|lia|lia|].
  - by rewrite (tn_dsz _ _ _ Ht).
  - intros _ l (Hok & Hst & Hv). split; [by apply (txn_set s held bs)|]. split; [done|exact Hv].
Qed.
Lemma fs_brelse_ok s held bs i n :
  txn s ((i, n) :: held) bs -> unchanged s bs n ->
  wp (fs_brelse i) (fun _ s' => txn s' held bs /\ same_ic s s' /\ forall m, dv s' m = dv s m) s.
Proof.
  intros Ht Hu. apply on_l_wp. wp_use (tx_brelse start lsize (fs_l s) held bs i n (tn_log _ _ _ Ht) Hu).
  intros _ l (Hok & Hst & Hv). split; [by apply (txn_set s ((i, n) :: held) bs)|]. split; [done|exact Hv].
Qed.

(** ** The two patterns *)

Lemma read_block_ok {A} E (k : nat -> blk -> M fsys A) Q s held bs n :
  txn s held bs -> readable n -> n ∉ held.*2 -> (length held <= 1)%nat -> room bs 0 ->
  (forall i s', txn s' ((i, n) :: held) bs -> same_ic s s' -> (forall m, dv s' m = dv s m) -> unchanged s' bs n ->
    wpx E (k i (dv s n)) Q s') ->
  wpx E (bp ← fs_bread 1 n; d ← fs_data bp; k bp d) Q s.
Proof.
  intros Ht Hn Hh Hl Hr Hk. wpx_step. apply wpx_wp. wp_use (fs_bread_ok s held bs n); [done..|].
  intros i s' (Ht' & Hic & Hv & Hu). wpx_step. unfold wpx at 1. rewrite (fs_data_ok s' ((i, n) :: held) bs i n Ht' ltac:(left)).
  rewrite Hv. by apply Hk.
Qed.
Lemma release_block_ok {A} E (k : unit -> M fsys A) Q s held bs i n :
  txn s ((i, n) :: held) bs -> unchanged s bs n ->
  (forall s', txn s' held bs -> same_ic s s' -> (forall m, dv s' m = dv s m) -> wpx E (k tt) Q s') ->
  wpx E (x ← fs_brelse i; k x) Q s.
Proof.
  intros Ht Hu Hk. wpx_step. apply wpx_wp. wp_use (fs_brelse_ok s held bs i n); [done..|].
  intros [] s' (Ht' & Hic & Hv). by apply Hk.
Qed.
(** Store, log and give back. *)
Lemma put_block_ok {A} E (k : unit -> M fsys A) Q s held bs i n d :
  txn s ((i, n) :: held) bs -> writable n -> room bs 1 ->
  (forall s', txn s' held (logged bs n) -> same_ic s s' -> (forall m, dv s' m = if decide (m = n) then d else dv s m) ->
    wpx E (k tt) Q s') ->
  wpx E (_ ← fs_set_data i d; _ ← fs_log_write i; x ← fs_brelse i; k x) Q s.
Proof.
  intros Ht Hn Hr Hk. wpx_step. apply wpx_wp. wp_use (fs_set_data_ok s _ bs i n d Ht ltac:(left)).
  intros _ s1 (Ht1 & Hic1 & Hv1). wpx_step. apply wpx_wp. wp_use (fs_log_write_ok s1 _ bs i n Ht1 ltac:(left) Hn Hr).
  intros _ s2 (Ht2 & Hic2 & Hv2). apply (release_block_ok E k Q s2 held (logged bs n) i n Ht2).
  { left. apply logged_in. by left. }
  intros s3 Ht3 Hic3 Hv3. apply Hk; [done|by repeat (etrans; [eassumption|])|]. intros m. by rewrite Hv3, Hv2.
Qed.
Lemma put_block_end E (Q : unit -> fsys -> Prop) s held bs i n d :
  txn s ((i, n) :: held) bs -> writable n -> room bs 1 ->
  (forall s', txn s' held (logged bs n) -> same_ic s s' -> (forall m, dv s' m = if decide (m = n) then d else dv s m) ->
    Q tt s') ->
  wpx E (_ ← fs_set_data i d; _ ← fs_log_write i; fs_brelse i) Q s.
Proof.
  intros Ht Hn Hr HQ. pose proof (put_block_ok E (fun x => mret x) Q s held bs i n d Ht Hn Hr HQ) as Hp. revert Hp.
  unfold wpx, mbind, M_bind. destruct (fs_set_data i d s) as [? s1| | | |]; try done.
  destruct (fs_log_write i s1) as [? s2| | | |]; try done. by destruct (fs_brelse i s2).
Qed.
End Tx.
