(* ===== verification/FsAlloc.v ===== *)
(** * The free map (fs.c: balloc, bfree)

    A block is in use when its bit in the free map is set.  [balloc] returns a
    zeroed block that was free and marks it; [bfree] clears the mark. *)

From S2P Require Import Prelude Block Bio Log LogCrash LogTheorems LogOps Fs FsTx.
From stdpp Require Import base gmap list strings.
From Stdlib Require Import ZArith Lia.
#[local] Open Scope Z_scope.

(** ** Bits of a block *)

Definition bit_set (d : blk) (bi : Z) : bool := negb (Z.land (byte_at d (bi / 8)) (bit_mask bi) =? 0).

Lemma bit_set_testbit d bi : bit_set d bi = Z.testbit (byte_at d (bi / 8)) (bi mod 8).
Proof.
  assert (0 <= bi mod 8) as Hm by dlia. unfold bit_set, bit_mask. rewrite Z.shiftl_1_l.
  destruct (Z.testbit (byte_at d (bi / 8)) (bi mod 8)) eqn:E.
  - apply negb_true_iff, Z.eqb_neq. intros Hz. apply (f_equal (fun x => Z.testbit x (bi mod 8))) in Hz.
    rewrite Z.land_spec, E, Z.pow2_bits_true, Z.bits_0 in Hz by lia. done.
  - apply negb_false_iff, Z.eqb_eq. apply Z.bits_inj'. intros n Hn. rewrite Z.land_spec, Z.bits_0.
    destruct (decide (n = bi mod 8)) as [->|Hne]; [by rewrite E|]. rewrite Z.pow2_bits_false by lia. by rewrite andb_false_r.
Qed.

Lemma byte_lor_small x y : 0 <= x < 256 -> 0 <= y < 256 -> 0 <= Z.lor x y < 256.
Proof.
  intros Hx Hy. split; [apply Z.lor_nonneg; lia|].
  destruct (decide (Z.lor x y = 0)) as [->|Hn]; [lia|]. apply Z.log2_lt_pow2 with (b := 8); [apply Z.le_neq; split; [apply Z.lor_nonneg; lia|done]|].
  rewrite Z.log2_lor by lia. destruct (decide (x = 0)) as [->|]; [destruct (decide (y = 0)) as [->|]|].
  - done.
  - rewrite Z.max_r by (cbn; apply Z.log2_nonneg). apply Z.log2_lt_pow2; lia.
  - apply Z.max_lub_lt; [apply Z.log2_lt_pow2; lia|]. destruct (decide (y = 0)) as [->|]; [done|]. apply Z.log2_lt_pow2; lia.
Qed.
Lemma byte_land_small x y : 0 <= x < 256 -> 0 <= Z.land x y < 256.
Proof.
  intros Hx. assert (Z.land x y = Z.land x y mod 2 ^ 8) as ->; [|apply Z.mod_pos_bound; lia].
  rewrite <-Z.land_ones, <-Z.land_assoc, (Z.land_comm y), Z.land_assoc, Z.land_ones, (Z.mod_small x) by lia. done.
Qed.
Lemma bit_mask_range bi : 0 <= bit_mask bi < 256.
Proof.
  unfold bit_mask. rewrite Z.shiftl_1_l. assert (0 <= bi mod 8 < 8) by dlia.
  split; [lia|]. change 256 with (2 ^ 8). apply Z.pow_lt_mono_r; lia.
Qed.

(** Setting and clearing one bit. *)
Definition with_bit (d : blk) (bi : Z) : blk := set_byte d (bi / 8) (Z.lor (byte_at d (bi / 8)) (bit_mask bi)).
Definition without_bit (d : blk) (bi : Z) : blk :=
  set_byte d (bi / 8) (Z.land (byte_at d (bi / 8)) (Z.lnot (bit_mask bi))).

Lemma byte_at_with_byte d bi v j :
  length d = 512%nat -> 0 <= bi < 4096 -> 0 <= j < 4096 -> 0 <= v < 256 ->
  byte_at (set_byte d (bi / 8) v) (j / 8) = if decide (j / 8 = bi / 8) then v else byte_at d (j / 8).
Proof.
  intros Hl Hb Hj Hv. rewrite byte_at_set_byte; [|unfold in_block; rewrite Hl; dlia|dlia].
  case_decide; [|done]. by rewrite Z.mod_small.
Qed.
Lemma bit_set_with_bit d bi j :
  length d = 512%nat -> 0 <= bi < 4096 -> 0 <= j < 4096 -> bit_set (with_bit d bi) j = bool_decide (j = bi) || bit_set d j.
Proof.
  intros Hl Hb Hj. rewrite !bit_set_testbit. unfold with_bit.
  pose proof (byte_at_range d (bi / 8)). pose proof (bit_mask_range bi).
  rewrite byte_at_with_byte by (done || by apply byte_lor_small). case_decide as E; case_bool_decide as E'; cbn [orb].
  - subst j. unfold bit_mask. by rewrite Z.lor_spec, Z.shiftl_1_l, Z.pow2_bits_true, orb_true_r by dlia.
  - unfold bit_mask. rewrite Z.lor_spec, Z.shiftl_1_l, Z.pow2_bits_false, orb_false_r, E by dlia. done.
  - subst j. done.
  - done.
Qed.
Lemma bit_set_without_bit d bi j :
  length d = 512%nat -> 0 <= bi < 4096 -> 0 <= j < 4096 ->
  bit_set (without_bit d bi) j = negb (bool_decide (j = bi)) && bit_set d j.
Proof.
  intros Hl Hb Hj. rewrite !bit_set_testbit. unfold without_bit. pose proof (byte_at_range d (bi / 8)) as Hr.
  pose proof (byte_land_small _ (Z.lnot (bit_mask bi)) Hr) as Hv.
  rewrite byte_at_with_byte by done. case_decide as E; case_bool_decide as E'; cbn [negb andb].
  - subst j. unfold bit_mask. by rewrite Z.land_spec, Z.lnot_spec, Z.shiftl_1_l, Z.pow2_bits_true, andb_false_r by dlia.
  - unfold bit_mask. rewrite Z.land_spec, Z.lnot_spec, Z.shiftl_1_l, Z.pow2_bits_false, andb_true_r, E by dlia. done.
  - subst j. done.
  - done.
Qed.

Lemma find_free_spec k d bi lim :
  match find_free k d bi lim with
  | Some j => bi <= j < lim /\ j < bi + Z.of_nat k /\ bit_set d j = false /\ forall i, bi <= i < j -> bit_set d i = true
  | None => forall i, bi <= i < lim -> i < bi + Z.of_nat k -> bit_set d i = true
  end.
Proof.
  revert bi. induction k as [|k IH]; intros bi; cbn [find_free]; [lia|].
  destruct (Z.ltb_spec bi lim) as [Hlt|Hge]; [|lia].
  destruct (Z.land (byte_at d (bi / 8)) (bit_mask bi) =? 0) eqn:E.
  - assert (bit_set d bi = false) by (unfold bit_set; by rewrite E). split; [lia|]. split; [lia|]. split; [done|lia].
  - assert (bit_set d bi = true) as Hb by (unfold bit_set; by rewrite E). specialize (IH (bi + 1)).
    destruct (find_free k d (bi + 1) lim) as [j|].
    + destruct IH as (H1 & H2 & H3 & H4). split; [lia|]. split; [lia|]. split; [done|].
      intros i Hi. destruct (decide (i = bi)) as [->|]; [done|]. apply H4. lia.
    + intros i Hi Hk. destruct (decide (i = bi)) as [->|]; [done|]. apply IH; lia.
Qed.

(** ** The layout of a file system

    Boot block, super block, log, inodes, free map and data, in this order. *)
Lemma BPB_eq : BPB = 4096.
Proof. done. Qed.
Lemma IPB_eq : IPB = 8.
Proof. done. Qed.
Definition data_start (sb : superblock) : Z := sb_bmapstart sb + sb_size sb / BPB + 1.

Section Alloc.
  Variables (start lsize dsz : Z) (sb : superblock).
  Notation txn := (txn start lsize dsz sb).
  Notation writable := (writable start lsize dsz).
  Notation readable := (readable dsz).
  Notation room := (room lsize).

Record layout_ok : Prop := {
  ly_log : 2 <= start;
  ly_lsize : 0 <= lsize;
  ly_inodes : start + lsize <= sb_inodestart sb;
  ly_bmap : sb_inodestart sb + sb_ninodes sb / IPB + 1 <= sb_bmapstart sb;
  ly_ninodes : 0 <= sb_ninodes sb;
  ly_data : data_start sb <= sb_size sb;
  ly_dsz : sb_size sb <= u32 dsz;
  ly_int : sb_size sb < 2147483648 }.
Context (Hly : layout_ok).

Definition marked (V : Z -> blk) (b : Z) : bool := bit_set (V (BBLOCK b sb)) (b mod BPB).
(** Everything before the data is in use, and blocks have their size. *)
Record map_ok (V : Z -> blk) : Prop := {
  mo_meta b : 0 <= b < data_start sb -> marked V b = true;
  mo_len n : sb_inodestart sb <= n < sb_size sb -> length (V n) = 512%nat }.

Lemma layout_writable n : sb_inodestart sb <= n < sb_size sb -> writable n.
Proof.
  destruct Hly as [A1 A2 A3 A4 A5 A6 A7 A8]. intros Hn. unfold FsTx.writable, home, in_log.
  pose proof (u32_range dsz) as [? ?]. lia.
Qed.
Lemma BBLOCK_range b : 0 <= b < sb_size sb -> sb_bmapstart sb <= BBLOCK b sb < data_start sb.
Proof. intros Hb. unfold BBLOCK, data_start. rewrite BPB_eq. dlia. Qed.
Lemma bmap_start : sb_inodestart sb <= sb_bmapstart sb.
Proof. destruct Hly as [A1 A2 A3 A4 A5 A6 A7 A8]. rewrite IPB_eq in A4. dlia. Qed.
Lemma BBLOCK_meta b : 0 <= b < sb_size sb -> sb_inodestart sb <= BBLOCK b sb < sb_size sb.
Proof. intros Hb. pose proof (BBLOCK_range b Hb). pose proof bmap_start. pose proof (ly_data Hly). lia. Qed.

(** The blocks after an update of one of them. *)
Lemma map_ok_ext V V' : map_ok V -> (forall m, V' m = V m) -> map_ok V'.
Proof.
  intros [H1 H2] HV. split.
  - intros b Hb. unfold marked. rewrite HV. by apply H1.
  - intros n Hn. rewrite HV. by apply H2.
Qed.
Lemma marked_ext V V' b : V' (BBLOCK b sb) = V (BBLOCK b sb) -> marked V' b = marked V b.
Proof. unfold marked. by intros ->. Qed.

(** [b] marked and cleared with zeroes. *)
Definition alloc_view (V : Z -> blk) (b m : Z) : blk :=
  if decide (m = b) then zeroes 512 else if decide (m = BBLOCK b sb) then with_bit (V m) (b mod BPB) else V m.

Lemma alloc_view_marked V b x :
  map_ok V -> data_start sb <= b < sb_size sb -> 0 <= x < sb_size sb ->
  marked (alloc_view V b) x = bool_decide (x = b) || marked V x.
Proof.
  intros [_ Hlen] Hb Hx. unfold marked, alloc_view. pose proof (BBLOCK_range x Hx). pose proof bmap_start.
  assert (0 <= b < sb_size sb) as Hb' by (pose proof (BBLOCK_range x Hx); pose proof (ly_log Hly); pose proof (ly_lsize Hly);
    pose proof (ly_inodes Hly); lia).
  pose proof (BBLOCK_meta b Hb') as Hmb. rewrite decide_False by lia. case_decide as E.
  - rewrite E. rewrite bit_set_with_bit; [|by apply Hlen|unfold BPB, BSIZE; dlia..]. f_equal. apply bool_decide_ext.
    unfold BBLOCK in E. rewrite BPB_eq in *. split; [|by intros ->]. intros Hm. dlia.
  - rewrite bool_decide_false; [done|]. by intros ->.
Qed.
Lemma alloc_view_ok V b : map_ok V -> data_start sb <= b < sb_size sb -> map_ok (alloc_view V b).
Proof.
  intros HV Hb. split.
  - intros x Hx. rewrite alloc_view_marked by (done || pose proof (ly_data Hly); lia). rewrite (mo_meta V HV) by done. apply orb_true_r.
  - intros n Hn. unfold alloc_view. case_decide; [apply length_replicate|]. case_decide; [|by apply HV].
    unfold with_bit. rewrite length_set_byte. by apply HV.
Qed.

Lemma bzero_ok E (Q : unit -> fsys -> Prop) s held bs b :
  txn s held bs -> sb_inodestart sb <= b < sb_size sb -> b ∉ held.*2 -> (length held <= 1)%nat -> room bs 1 ->
  (forall s', txn s' held (logged bs b) -> same_ic s s' ->
    (forall m, dv s' m = if decide (m = b) then zeroes 512 else dv s m) -> Q tt s') ->
  wpx E (bzero 1 b) Q s.
Proof.
  intros Ht Hb Hh Hl Hr HQ. pose proof (layout_writable b Hb) as Hw. unfold bzero. wpx_step. apply wpx_wp.
  wp_use (fs_bread_ok start lsize dsz sb s held bs b); [done|by apply (writable_readable start lsize)|done|done|by apply (room_le lsize bs 1)|].
  intros i s1 (Ht1 & Hic1 & Hv1 & _). apply (put_block_end start lsize dsz sb E Q s1 held bs i b _ Ht1 Hw Hr).
  intros s2 Ht2 Hic2 Hv2. apply HQ; [done|by etrans|]. intros m. rewrite Hv2. case_decide; [done|apply Hv1].
Qed.

(** The buffers held while allocating are of blocks in use. *)
Definition held_used (V : Z -> blk) (held : list (nat * Z)) : Prop :=
  forall n, n ∈ held.*2 -> data_start sb <= n < sb_size sb /\ marked V n = true.
(** What [balloc] leaves when it returns [b]. *)
Record allocated (s : fsys) (held : list (nat * Z)) (bs : list Z) (b : Z) (s' : fsys) : Prop := {
  ac_range : data_start sb <= b < sb_size sb;
  ac_free : marked (dv s) b = false;
  ac_txn : txn s' held (logged (logged bs (BBLOCK b sb)) b);
  ac_ic : same_ic s s';
  ac_view m : dv s' m = alloc_view (dv s) b m }.
Definition no_blocks : string := "balloc: out of blocks".
(** How many blocks are free. *)
Definition nfree (V : Z -> blk) : Z :=
  Z.of_nat (length (filter (fun b => marked V b = false) (seqZ 0 (sb_size sb)))).
Lemma nfree_ext V V' : (forall x, 0 <= x < sb_size sb -> marked V' x = marked V x) -> nfree V' = nfree V.
Proof.
  intros HV. unfold nfree. do 2 f_equal. assert (forall x, x ∈ seqZ 0 (sb_size sb) -> marked V' x = marked V x) as Hl
    by (intros x Hx%elem_of_seqZ; apply HV; lia). clear HV. induction (seqZ 0 (sb_size sb)) as [|x l IH]; [done|].
  rewrite !filter_cons, (Hl x) by left. rewrite IH by (intros y Hy; apply Hl; by right). done.
Qed.
Lemma nfree_alloc V V' b :
  (forall x, 0 <= x < sb_size sb -> marked V' x = bool_decide (x = b) || marked V x) -> nfree V <= nfree V' + 1.
Proof.
  intros HV. unfold nfree. assert (forall l, NoDup l -> (forall x, x ∈ l -> 0 <= x < sb_size sb) ->
    (length (filter (fun x => marked V x = false) l) <=
     length (filter (fun x => marked V' x = false) l) + if decide (b ∈ l) then 1 else 0)%nat) as Hc.
  { intros l Hnd Hl. induction Hnd as [|x l Hx Hnd IH]; [cbn; case_decide; lia|].
    rewrite !filter_cons. rewrite (HV x) by (apply Hl; left). specialize (IH (fun y Hy => Hl y (list_elem_of_further _ _ _ Hy))).
    destruct (decide (x = b)) as [->|Hne].
    - rewrite decide_False in IH by done. rewrite (bool_decide_true (b = b)) by done. cbn [orb].
      rewrite (decide_False (P := true = false)) by done. rewrite (decide_True (P := b ∈ _)) by left. case_decide; cbn [length]; lia.
    - rewrite bool_decide_false by done. cbn [orb]. assert (b ∈ x :: l <-> b ∈ l) as Hiff by (rewrite elem_of_cons; naive_solver).
      rewrite (decide_ext _ _ _ _ Hiff). repeat case_decide; cbn [length]; lia. }
  specialize (Hc (seqZ 0 (sb_size sb)) (NoDup_seqZ _ _) ltac:(intros x Hx%elem_of_seqZ; lia)). case_decide; lia.
Qed.
Lemma nfree_used V : (forall b, 0 <= b < sb_size sb -> marked V b = true) -> nfree V = 0.
Proof.
  intros Hall. unfold nfree. destruct (filter _ _) as [|x l] eqn:E; [done|].
  assert (x ∈ filter (fun b => marked V b = false) (seqZ 0 (sb_size sb))) as Hx by (rewrite E; left).
  apply list_elem_of_filter in Hx as [Hf Hx%elem_of_seqZ]. rewrite Hall in Hf by lia. done.
Qed.
(** A panic because no block is free. *)
Definition all_used (V : Z -> blk) (msg : string) : Prop :=
  msg = no_blocks /\ forall b, 0 <= b < sb_size sb -> marked V b = true.

Lemma free_is_data V b : map_ok V -> 0 <= b -> marked V b = false -> data_start sb <= b.
Proof. intros HV Hb Hm. destruct (Z.le_gt_cases (data_start sb) b); [done|]. rewrite (mo_meta V HV) in Hm by lia. done. Qed.
Lemma size_pos : 0 < data_start sb /\ 0 < sb_size sb.
Proof.
  pose proof bmap_start. destruct Hly as [A1 A2 A3 A4 A5 A6 A7 A8].
  assert (0 <= sb_size sb / BPB) by (rewrite BPB_eq; unfold data_start in A6; rewrite BPB_eq in A6; dlia). unfold data_start in *. lia.
Qed.

(** One block of the free map has a clear bit [bi]. *)
Lemma balloc_found s s1 held bs i j bi :
  txn s held bs -> map_ok (dv s) -> held_used (dv s) held -> (length held <= 1)%nat -> room bs 2 ->
  txn s1 ((i, BBLOCK (BPB * j) sb) :: held) bs -> same_ic s s1 -> (forall m, dv s1 m = dv s m) -> 0 <= j ->
  0 <= bi < BPB -> BPB * j + bi < sb_size sb -> bit_set (dv s (BBLOCK (BPB * j) sb)) bi = false ->
  wpx (all_used (dv s))
    (_ ← fs_set_data i (with_bit (dv s (BBLOCK (BPB * j) sb)) bi); _ ← fs_log_write i; _ ← fs_brelse i;
     _ ← bzero 1 (BPB * j + bi); mret (BPB * j + bi)) (allocated s held bs) s1.
Proof.
  intros Ht HV Hhu Hl Hr Ht1 Hic1 Hv1 Hj Hbi Hsz Hbit. set (b := BPB * j + bi) in *.
  assert (0 <= b) as Hb0 by (subst b; rewrite BPB_eq in *; lia).
  assert (BBLOCK (BPB * j) sb = BBLOCK b sb) as Hbb by (unfold BBLOCK; subst b; rewrite BPB_eq in *; dlia).
  assert (b mod BPB = bi) as Hmod by (subst b; rewrite BPB_eq in *; dlia).
  assert (marked (dv s) b = false) as Hm by (unfold marked; by rewrite <-Hbb, Hmod).
  pose proof (free_is_data _ b HV Hb0 Hm) as Hds. pose proof (BBLOCK_meta b ltac:(lia)) as Hmeta. rewrite Hbb in *.
  pose proof (BBLOCK_range b ltac:(lia)) as Hrange. pose proof bmap_start as Hbm.
  apply (put_block_ok start lsize dsz sb _ _ _ s1 held bs i (BBLOCK b sb) _ Ht1);
    [by apply layout_writable|by apply (room_le lsize bs 2)|].
  intros s2 Ht2 Hic2 Hv2. wpx_step.
  apply (bzero_ok _ _ s2 held (logged bs (BBLOCK b sb)) b); [done|lia| |done|by apply room_logged|].
  { intros Hin. destruct (Hhu b Hin) as [_ Hmk]. congruence. }
  intros s3 Ht3 Hic3 Hv3. wpx_step. split; [lia|done|done|by repeat (etrans; [eassumption|])|].
  intros m. rewrite Hv3, Hv2, Hv1. unfold alloc_view. rewrite Hmod. case_decide; [done|]. case_decide as Em; [by rewrite Em|done].
Qed.

Lemma balloc_loop_ok k s s1 held bs j :
  txn s held bs -> map_ok (dv s) -> held_used (dv s) held -> (length held <= 1)%nat -> room bs 2 ->
  txn s1 held bs -> same_ic s s1 -> (forall m, dv s1 m = dv s m) -> 0 <= j ->
  (forall b, 0 <= b < BPB * j -> b < sb_size sb -> marked (dv s) b = true) -> sb_size sb < BPB * (j + Z.of_nat k) ->
  wpx (all_used (dv s)) (balloc_loop (S k) 1 (BPB * j)) (allocated s held bs) s1.
Proof.
  intros Ht HV Hhu Hl Hr. revert s1 j. induction k as [|k IH]; intros s1 j Ht1 Hic1 Hv1 Hj Hall Hk;
    cbn [balloc_loop]; wpx_step; wpx_step; rewrite (tn_sb _ _ _ _ _ _ _ Ht1).
  - rewrite (proj2 (Z.ltb_ge _ _)) by lia. apply wpx_panic. split; [done|]. intros b Hb. apply Hall; lia.
  - destruct (Z.ltb_spec (BPB * j) (sb_size sb)) as [Hlt|Hge].
    2: { apply wpx_panic. split; [done|]. intros b Hb. apply Hall; lia. }
    assert (0 <= BPB * j < sb_size sb) as Hbj by (rewrite BPB_eq in *; lia).
    pose proof (BBLOCK_range _ Hbj) as Hrange. pose proof (BBLOCK_meta _ Hbj) as Hmeta.
    apply (read_block_ok start lsize dsz sb _ _ _ s1 held bs (BBLOCK (BPB * j) sb) Ht1).
    { apply (writable_readable start lsize), layout_writable, Hmeta. }
    { intros Hin. destruct (Hhu _ Hin) as [? _]. lia. } { done. } { by apply (room_le lsize bs 2). }
    intros i s2 Ht2 Hic2 Hv2 Hu2. rewrite Hv1.
    pose proof (find_free_spec (Z.to_nat BPB) (dv s (BBLOCK (BPB * j) sb)) 0 (sb_size sb - BPB * j)) as Hf.
    destruct (find_free _ _ 0 _) as [bi|].
    + destruct Hf as (Hb1 & Hb2 & Hb3 & _).
      apply (balloc_found s s2 held bs i j bi); try done.
      * by etrans.
      * intros m. by rewrite Hv2, Hv1.
      * rewrite BPB_eq in *. lia.
      * lia.
    + apply (release_block_ok start lsize dsz sb _ _ _ s2 held bs i _ Ht2 Hu2). intros s3 Ht3 Hic3 Hv3.
      replace (BPB * j + BPB) with (BPB * (j + 1)) by lia. apply IH; try done.
      { by repeat (etrans; [eassumption|]). } { intros m. by rewrite Hv3, Hv2, Hv1. } { lia. }
      2: { rewrite BPB_eq in *. lia. }
      intros b Hb Hsz. destruct (decide (b < BPB * j)) as [?|?]; [apply Hall; lia|].
      assert (BBLOCK b sb = BBLOCK (BPB * j) sb) as Hbb by (unfold BBLOCK; rewrite BPB_eq in *; dlia).
      unfold marked. rewrite Hbb. apply Hf; rewrite BPB_eq in *; dlia.
Qed.

Lemma balloc_ok s held bs :
  txn s held bs -> map_ok (dv s) -> held_used (dv s) held -> (length held <= 1)%nat -> room bs 2 ->
  wpx (all_used (dv s)) (balloc 1) (allocated s held bs) s.
Proof.
  intros Ht HV Hhu Hl Hr. unfold balloc. wpx_step. wpx_step. rewrite (tn_sb _ _ _ _ _ _ _ Ht). pose proof size_pos.
  pose proof (balloc_loop_ok (Z.to_nat (sb_size sb / BPB + 1)) s s held bs 0) as Hb. rewrite Z.mul_0_r in Hb.
  apply Hb; try done; [lia|]. rewrite BPB_eq. dlia.
Qed.

(** ** bfree *)

Definition free_view (V : Z -> blk) (b m : Z) : blk :=
  if decide (m = BBLOCK b sb) then without_bit (V m) (b mod BPB) else V m.
Lemma free_view_marked V b x :
  map_ok V -> data_start sb <= b < sb_size sb -> 0 <= x < sb_size sb ->
  marked (free_view V b) x = negb (bool_decide (x = b)) && marked V x.
Proof.
  intros [_ Hlen] Hb Hx. pose proof size_pos. unfold marked, free_view. case_decide as E.
  - rewrite E. rewrite bit_set_without_bit; [|apply Hlen, BBLOCK_meta; lia|rewrite BPB_eq; dlia..]. do 2 f_equal.
    apply bool_decide_ext. unfold BBLOCK in E. rewrite BPB_eq in *. split; [|by intros ->]. intros Hm. dlia.
  - rewrite bool_decide_false; [done|]. by intros ->.
Qed.
Lemma free_view_ok V b : map_ok V -> data_start sb <= b < sb_size sb -> map_ok (free_view V b).
Proof.
  intros HV Hb. split.
  - intros x Hx. rewrite free_view_marked by (done || pose proof (ly_data Hly); lia). rewrite (mo_meta V HV) by done.
    rewrite bool_decide_false by lia. done.
  - intros n Hn. unfold free_view. case_decide; [|by apply HV]. unfold without_bit. rewrite length_set_byte. by apply HV.
Qed.

Lemma bfree_ok s held bs b :
  txn s held bs -> map_ok (dv s) -> held_used (dv s) held -> (length held <= 1)%nat -> room bs 1 ->
  data_start sb <= b < sb_size sb -> marked (dv s) b = true ->
  wp (bfree 1 b) (fun _ s' => txn s' held (logged bs (BBLOCK b sb)) /\ same_ic s s' /\
    forall m, dv s' m = free_view (dv s) b m) s.
Proof.
  intros Ht HV Hhu Hl Hr Hb Hm. pose proof size_pos as Hpos. unfold bfree. wp_step. wp_step. rewrite (tn_sb _ _ _ _ _ _ _ Ht).
  pose proof (BBLOCK_meta b ltac:(lia)) as Hmeta. pose proof (BBLOCK_range b ltac:(lia)) as Hrange. apply wpx_no_panic.
  apply (read_block_ok start lsize dsz sb _ _ _ s held bs (BBLOCK b sb) Ht).
  { apply (writable_readable start lsize), layout_writable, Hmeta. }
  { intros Hin. destruct (Hhu _ Hin) as [? _]. lia. } { done. } { by apply (room_le lsize bs 1). }
  intros i s1 Ht1 Hic1 Hv1 _. unfold marked, bit_set in Hm. apply negb_true_iff in Hm. rewrite Hm.
  apply (put_block_end start lsize dsz sb _ _ s1 held bs i (BBLOCK b sb) _ Ht1); [by apply layout_writable|done|].
  intros s2 Ht2 Hic2 Hv2. split; [done|]. split; [by etrans|]. intros m. rewrite Hv2, Hv1. unfold free_view.
  case_decide as E; [by rewrite E|done].
Qed.
End Alloc.
