(* ===== verification/FsBmap.v ===== *)
(** * The blocks of a file (fs.c: bmap)

    The addresses of a file's blocks, in the inode and in its indirect block, are
    distinct blocks in use.  [bmap] finds the block of an index and gives the file
    a new one, full of zeroes, where there is none. *)

From S2P Require Import Prelude Block Bio Log LogCrash LogTheorems LogOps Fs FsTx FsAlloc.
From stdpp Require Import base gmap list strings.
From Stdlib Require Import ZArith Lia.
#[local] Open Scope Z_scope.

Lemma MAXFILE_eq : MAXFILE = 140.
Proof. done. Qed.
Lemma NINDIRECT_eq : NINDIRECT = 128.
Proof. done. Qed.

(** The indirect block, and the block of index [bn]; zero when there is none. *)
Definition ind_addr (i : inode) : Z := get_addr i NDIRECT.
Definition block_of (V : Z -> blk) (i : inode) (bn : Z) : Z :=
  if bn <? NDIRECT then get_addr i bn
  else if ind_addr i =? 0 then 0 else word_at (V (ind_addr i)) (4 * (bn - NDIRECT)).

(** [word_at] and [get_addr] after a store. *)
Lemma word_at_zeroes o : 0 <= o -> o + 4 <= 512 -> word_at (zeroes 512) o = 0.
Proof.
  intros Ho Hb. assert (forall p, byte_at (zeroes 512) p = 0) as Hz.
  { intros p. unfold byte_at, zeroes. rewrite nth_lookup. destruct (replicate 512 0 !! Z.to_nat p) eqn:E; [|done].
    apply lookup_replicate_1 in E as [-> _]. done. }
  unfold word_at, half_at. by rewrite !Hz.
Qed.
Lemma get_addr_set i k k' v :
  length (i_addrs i) = 13%nat -> 0 <= k < 13 -> 0 <= k' < 13 ->
  get_addr (with_addrs (<[Z.to_nat k := v]> (i_addrs i)) i) k' = if decide (k' = k) then v else get_addr i k'.
Proof.
  intros Hl Hk Hk'. unfold get_addr. cbn. rewrite !nth_lookup. case_decide as E.
  - subst k'. by rewrite list_lookup_insert_eq by lia.
  - by rewrite list_lookup_insert_ne by lia.
Qed.

Section File.
  Variables (start lsize dsz : Z) (sb : superblock).
  Notation txn := (txn start lsize dsz sb).
  Notation marked := (marked sb).
  Notation map_ok := (map_ok sb).
  Context (Hly : layout_ok start lsize dsz sb).

Definition data_block (b : Z) : Prop := data_start sb <= b < sb_size sb.
(** An address: none, or a data block in use. *)
Definition addr_ok (V : Z -> blk) (b : Z) : Prop := b = 0 \/ data_block b /\ marked V b = true.

Record file_ok (V : Z -> blk) (i : inode) : Prop := {
  fo_dev : i_dev i = 1;
  fo_len : length (i_addrs i) = 13%nat;
  fo_ind : addr_ok V (ind_addr i);
  fo_addr bn : 0 <= bn < MAXFILE -> addr_ok V (block_of V i bn);
  fo_inj bn bn' : 0 <= bn < MAXFILE -> 0 <= bn' < MAXFILE -> block_of V i bn <> 0 ->
    block_of V i bn = block_of V i bn' -> bn = bn';
  fo_ind_ne bn : 0 <= bn < MAXFILE -> block_of V i bn <> 0 -> block_of V i bn <> ind_addr i }.

(** From [V], [i] to [V'], [i'] the file may have got new blocks, full of zeroes;
    nothing else that was in use has changed but the free map and the indirect
    block. *)
Record grows (V : Z -> blk) (i : inode) (V' : Z -> blk) (i' : inode) : Prop := {
  gr_inode : i' = with_addrs (i_addrs i') i;
  gr_block bn : 0 <= bn < MAXFILE -> block_of V i bn <> 0 -> block_of V' i' bn = block_of V i bn;
  gr_data bn : 0 <= bn < MAXFILE -> block_of V i bn <> 0 -> V' (block_of V i bn) = V (block_of V i bn);
  gr_new bn : 0 <= bn < MAXFILE -> block_of V i bn = 0 -> block_of V' i' bn <> 0 ->
    marked V (block_of V' i' bn) = false /\ V' (block_of V' i' bn) = zeroes 512;
  gr_marked x : 0 <= x < sb_size sb -> marked V x = true -> marked V' x = true;
  gr_ind : ind_addr i' = ind_addr i \/
    ind_addr i = 0 /\ data_block (ind_addr i') /\ marked V (ind_addr i') = false;
  gr_other m : ~ (sb_bmapstart sb <= m < data_start sb) ->
    ~ (data_block m /\ (marked V m = false \/ m = ind_addr i)) -> V' m = V m }.

Lemma data_nonzero b : data_block b -> 0 < b.
Proof. unfold data_block. pose proof (size_pos start lsize dsz sb Hly). lia. Qed.
Lemma data_range b : data_block b -> 0 <= b < sb_size sb.
Proof. intros Hb. pose proof (data_nonzero b Hb). unfold data_block in Hb. lia. Qed.
Lemma data_inodes b : data_block b -> sb_inodestart sb <= b < sb_size sb.
Proof.
  intros Hb. pose proof (bmap_start start lsize dsz sb Hly). pose proof (data_nonzero b Hb). unfold data_block, data_start in Hb.
  assert (0 <= sb_size sb / BPB) by (rewrite BPB_eq; dlia). lia.
Qed.
Lemma data_not_map b : data_block b -> ~ (sb_bmapstart sb <= b < data_start sb).
Proof. unfold data_block. lia. Qed.

Lemma grows_refl V i : grows V i V i.
Proof. split; try done; [by destruct i|]. by left. Qed.
Lemma grows_trans V1 i1 V2 i2 V3 i3 :
  (forall bn, 0 <= bn < MAXFILE -> addr_ok V2 (block_of V2 i2 bn)) ->
  (forall bn, 0 <= bn < MAXFILE -> addr_ok V3 (block_of V3 i3 bn)) ->
  grows V1 i1 V2 i2 -> grows V2 i2 V3 i3 -> grows V1 i1 V3 i3.
Proof.
  intros Ha2 Ha3 [A1 A2 A3 A4 A5 A6 A7] [B1 B2 B3 B4 B5 B6 B7].
  assert (forall x, 0 <= x < sb_size sb -> marked V2 x = false -> marked V1 x = false) as Hm.
  { intros x Hx H2. destruct (marked V1 x) eqn:E; [|done]. rewrite (A5 x Hx E) in H2. done. }
  split.
  - rewrite B1, A1. by destruct i1.
  - intros bn Hbn H1. rewrite B2 by (done || by rewrite A2). by apply A2.
  - intros bn Hbn H1. rewrite <-(A2 bn Hbn H1) at 1. rewrite B3 by (done || by rewrite A2). rewrite A2 by done. by apply A3.
  - intros bn Hbn H1 H3. destruct (decide (block_of V2 i2 bn = 0)) as [E|E].
    + destruct (B4 bn Hbn E H3) as [C1 C2]. split; [|done]. destruct (Ha3 bn Hbn) as [?|[Hd _]]; [done|].
      apply Hm; [by apply data_range|done].
    + destruct (A4 bn Hbn H1 E) as [C1 C2]. rewrite (B2 bn Hbn E) in *. split; [done|]. by rewrite B3.
  - intros x Hx H1. by apply B5, A5.
  - destruct B6 as [->|(B6 & B6' & B6'')]; [done|]. destruct A6 as [A6|(A6 & A6' & _)].
    + right. split; [congruence|]. split; [done|]. by apply Hm; [apply data_range|].
    + pose proof (data_nonzero _ A6'). lia.
  - intros m Hm1 Hm2. rewrite B7; [by apply A7|done|]. intros [Hd [Hu|Hi]]; apply Hm2; (split; [done|]).
    + left. apply Hm; [by apply data_range|done].
    + destruct A6 as [A6|(A6 & A6' & A6'')]; [right; congruence|left; congruence].
Qed.

(** ** One new block

    [b], free in [V], becomes the block of index [n0] of the file, or its indirect
    block when [n0] is negative. *)
Record gets_block (V : Z -> blk) (i : inode) (b n0 : Z) (V' : Z -> blk) (i' : inode) : Prop := {
  gb_inode : i' = with_addrs (i_addrs i') i;
  gb_len : length (i_addrs i') = 13%nat;
  gb_data : data_block b;
  gb_free : marked V b = false;
  gb_block bn : 0 <= bn < MAXFILE -> block_of V' i' bn = if decide (bn = n0) then b else block_of V i bn;
  gb_none : 0 <= n0 -> block_of V i n0 = 0;
  gb_zero : 0 <= n0 -> V' b = zeroes 512;
  gb_marked x : 0 <= x < sb_size sb -> marked V' x = bool_decide (x = b) || marked V x;
  gb_other m : ~ (sb_bmapstart sb <= m < data_start sb) -> m <> b -> ~ (m = ind_addr i /\ m <> 0) -> V' m = V m;
  gb_ind : 0 <= n0 /\ ind_addr i' = ind_addr i \/ n0 < 0 /\ ind_addr i = 0 /\ ind_addr i' = b }.

Lemma used_ne V b x : marked V b = false -> marked V x = true -> x <> b.
Proof. intros Hf Hu ->. congruence. Qed.

Lemma gets_block_file V i b n0 V' i' : file_ok V i -> gets_block V i b n0 V' i' -> file_ok V' i'.
Proof.
  intros [F1 F2 F3 F4 F5 F6] [G1 G2 G3 G4 G5 G6 G7 G8 G9 G10].
  assert (marked V' b = true) as Hb' by (rewrite G8, bool_decide_true by (done || by apply data_range); done).
  assert (forall x, addr_ok V x -> addr_ok V' x) as Hup.
  { intros x [->|[Hd Hm]]; [by left|right]. split; [done|]. rewrite G8, Hm by by apply data_range. apply orb_true_r. }
  assert (forall bn, 0 <= bn < MAXFILE -> block_of V i bn <> b) as Hnb.
  { intros bn Hbn. destruct (F4 bn Hbn) as [->|[_ Hm]]; [pose proof (data_nonzero b G3); lia|by apply (used_ne V)]. }
  split.
  - by rewrite G1.
  - done.
  - destruct G10 as [[_ ->]|(_ & _ & ->)]; [by apply Hup|by right].
  - intros bn Hbn. rewrite G5 by done. case_decide; [by right|by apply Hup, F4].
  - intros bn bn' Hbn Hbn'. rewrite !G5 by done. repeat case_decide; subst; try done.
    + intros _ Heq. by destruct (Hnb bn' Hbn').
    + intros _ Heq. by destruct (Hnb bn Hbn).
    + by apply F5.
  - intros bn Hbn. rewrite G5 by done. case_decide as E.
    + intros _. destruct G10 as [[_ ->]|(? & _ & _)]; [|lia].
      destruct F3 as [->|[_ Hm]]; [pose proof (data_nonzero b G3); lia|]. intros ->. congruence.
    + intros Hz. destruct G10 as [[_ ->]|(_ & _ & ->)]; [by apply F6|by apply Hnb].
Qed.
Lemma gets_block_grows V i b n0 V' i' : file_ok V i -> gets_block V i b n0 V' i' -> grows V i V' i'.
Proof.
  intros [F1 F2 F3 F4 F5 F6] [G1 G2 G3 G4 G5 G6 G7 G8 G9 G10]. split.
  - done.
  - intros bn Hbn Hz. rewrite G5 by done. case_decide as E; [|done]. subst n0. by rewrite G6 in Hz by lia.
  - intros bn Hbn Hz. destruct (F4 bn Hbn) as [?|[Hd Hm]]; [done|].
    apply G9; [by apply data_not_map|by apply (used_ne V)|]. intros [Hi _]. by apply (F6 bn).
  - intros bn Hbn Hz. rewrite G5 by done. case_decide as E; [|done]. intros _. split; [done|]. apply G7. lia.
  - intros x Hx Hm. by rewrite G8, Hm, orb_true_r.
  - destruct G10 as [[_ ->]|(_ & ? & ->)]; [by left|by right].
  - intros m Hm1 Hm2. apply G9; [done| |].
    + intros ->. apply Hm2. split; [done|by left].
    + intros [-> Hz]. apply Hm2. destruct F3 as [E|[Hd _]]; [done|by auto].
Qed.

(** The address [k] of the inode is set. *)
Lemma set_addr_gets V i b k :
  file_ok V i -> map_ok V -> data_block b -> marked V b = false -> 0 <= k <= NDIRECT -> get_addr i k = 0 ->
  gets_block V i b (if k <? NDIRECT then k else -1) (alloc_view sb V b) (with_addrs (<[Z.to_nat k := b]> (i_addrs i)) i).
Proof.
  intros HF HV Hb Hm Hk Hz. pose proof (fo_len _ _ HF) as Hl. unfold NDIRECT in *.
  pose proof (BBLOCK_range sb b (data_range b Hb)) as Hbb. pose proof (data_nonzero b Hb) as Hb0.
  assert (forall m, ~ (sb_bmapstart sb <= m < data_start sb) -> m <> b -> alloc_view sb V b m = V m) as Hoth.
  { intros m Hm1 Hm2. unfold alloc_view. rewrite !decide_False; [done| |done]. intros ->. lia. }
  assert (forall k', 0 <= k' < 13 -> get_addr (with_addrs (<[Z.to_nat k := b]> (i_addrs i)) i) k' =
    if decide (k' = k) then b else get_addr i k') as Hga by (intros k' Hk'; apply get_addr_set; done || lia).
  split.
  - by destruct i.
  - cbn. by rewrite length_insert.
  - done.
  - done.
  - intros bn Hbn. unfold block_of, ind_addr, NDIRECT. rewrite MAXFILE_eq in Hbn. rewrite (Hga 12) by lia.
    destruct (Z.ltb_spec bn 12) as [Hlt|Hge].
    + rewrite Hga by lia. destruct (Z.ltb_spec k 12); repeat case_decide; done || lia.
    + rewrite (decide_False (P := bn = _)) by (destruct (Z.ltb_spec k 12); lia). case_decide as E.
      * rewrite (proj2 (Z.eqb_neq b 0)) by lia. subst k. rewrite Hz. cbn [Z.eqb].
        unfold alloc_view at 1. rewrite decide_True by done. apply word_at_zeroes; lia.
      * destruct (Z.eqb_spec (get_addr i 12) 0) as [|Hi]; [done|]. f_equal. destruct (fo_ind _ _ HF) as [?|[Hd Hmi]]; [done|].
        apply Hoth; [by apply data_not_map|by apply (used_ne V)].
  - intros H0. unfold block_of, NDIRECT. destruct (Z.ltb_spec k 12); [|lia]. rewrite (proj2 (Z.ltb_lt k 12)) by lia. done.
  - intros _. unfold alloc_view. by rewrite decide_True.
  - intros x Hx. by apply (alloc_view_marked start lsize dsz sb Hly).
  - intros m Hm1 Hm2 _. by apply Hoth.
  - unfold ind_addr, NDIRECT. rewrite Hga by lia. destruct (Z.ltb_spec k 12) as [Hlt|Hge].
    + left. rewrite decide_False by lia. split; [lia|done].
    + right. assert (k = 12) as -> by lia. rewrite decide_True by done. split; [lia|done].
Qed.

(** An entry of the indirect block is set. *)
Definition put_entry (V : Z -> blk) (ind o b m : Z) : blk := if decide (m = ind) then set_word (V m) o b else V m.
Lemma put_entry_gets V i b bn :
  file_ok V i -> map_ok V -> data_block b -> marked V b = false -> NDIRECT <= bn < MAXFILE -> ind_addr i <> 0 ->
  block_of V i bn = 0 ->
  gets_block V i b bn (put_entry (alloc_view sb V b) (ind_addr i) (4 * (bn - NDIRECT)) b) i.
Proof.
  intros HF HV Hb Hm Hk Hi Hz. pose proof (fo_len _ _ HF) as Hl. unfold NDIRECT in *. rewrite MAXFILE_eq in *.
  pose proof (BBLOCK_range sb b (data_range b Hb)) as Hbb. pose proof (data_nonzero b Hb) as Hb0.
  destruct (fo_ind _ _ HF) as [?|[Hdi Hmi]]; [done|]. pose proof (used_ne V b _ Hm Hmi) as Hib.
  assert (forall m, ~ (sb_bmapstart sb <= m < data_start sb) -> m <> b -> alloc_view sb V b m = V m) as Hoth.
  { intros m Hm1 Hm2. unfold alloc_view. rewrite !decide_False; [done| |done]. intros ->. lia. }
  assert (alloc_view sb V b (ind_addr i) = V (ind_addr i)) as Hvi by (apply Hoth; [by apply data_not_map|done]).
  assert (length (V (ind_addr i)) = 512%nat) as Hlen by by apply (mo_len sb V HV), data_inodes.
  split; try done.
  - by destruct i.
  - intros bn' Hbn'. unfold block_of, NDIRECT. rewrite MAXFILE_eq in Hbn'. destruct (Z.ltb_spec bn' 12) as [Hlt|Hge].
    + by rewrite decide_False by lia.
    + rewrite (proj2 (Z.eqb_neq _ 0)) by done. unfold put_entry. rewrite decide_True, Hvi by done.
      rewrite word_at_set_word; [|unfold in_block; rewrite Hlen; lia|lia|lia].
      destruct (decide (bn' = bn)) as [->|Hne]; [|by rewrite decide_False by lia].
      rewrite decide_True by done. apply u32_small. pose proof (ly_int _ _ _ _ Hly). pose proof (data_range b Hb). lia.
  - intros _. unfold put_entry. rewrite decide_False by done. unfold alloc_view. by rewrite decide_True.
  - intros x Hx. rewrite <-(alloc_view_marked start lsize dsz sb Hly V b x HV Hb Hx). apply marked_ext. unfold put_entry.
    rewrite decide_False; [done|]. pose proof (BBLOCK_range sb x Hx). unfold data_block in Hdi. lia.
  - intros m Hm1 Hm2 Hm3. unfold put_entry. rewrite decide_False; [by apply Hoth|]. intros ->. by apply Hm3.
  - left. split; [lia|done].
Qed.
Lemma put_entry_map V ind o b : map_ok V -> data_block ind -> map_ok (put_entry V ind o b).
Proof.
  intros HV Hd. split.
  - intros x Hx. rewrite <-(mo_meta sb V HV x Hx). apply marked_ext. unfold put_entry. rewrite decide_False; [done|].
    pose proof (BBLOCK_range sb x ltac:(pose proof (ly_data _ _ _ _ Hly); lia)). unfold data_block in Hd. lia.
  - intros n Hn. unfold put_entry. case_decide; [rewrite length_set_word|]; by apply HV.
Qed.

Lemma block_of_ext V V' i bn : (forall m, V' m = V m) -> block_of V' i bn = block_of V i bn.
Proof. intros HV. unfold block_of. by rewrite HV. Qed.
Lemma gets_block_ext V i b n0 V' V'' i' :
  gets_block V i b n0 V' i' -> (forall m, V'' m = V' m) -> gets_block V i b n0 V'' i'.
Proof.
  intros [G1 G2 G3 G4 G5 G6 G7 G8 G9 G10] HV. split; try done.
  - intros bn Hbn. rewrite (block_of_ext V' V'') by done. by apply G5.
  - intros H0. rewrite HV. by apply G7.
  - intros x Hx. rewrite (marked_ext sb V' V'') by done. by apply G8.
  - intros m ? ? ?. rewrite HV. by apply G9.
Qed.
Lemma file_ok_ext V V' i : file_ok V i -> (forall m, V' m = V m) -> file_ok V' i.
Proof.
  intros [F1 F2 F3 F4 F5 F6] HV. assert (forall bn, block_of V' i bn = block_of V i bn) as HB by (intros; by apply block_of_ext).
  assert (forall x, addr_ok V x -> addr_ok V' x) as HA.
  { intros x [->|[? ?]]; [by left|right]. by rewrite (marked_ext sb V V'). }
  split; try done.
  - by apply HA.
  - intros bn Hbn. rewrite HB. by apply HA, F4.
  - intros bn bn'. rewrite !HB. apply F5.
  - intros bn. rewrite HB. apply F6.
Qed.
Lemma grows_ext V V' i : (forall m, V' m = V m) -> grows V i V' i.
Proof.
  intros HV. split; try done; [by destruct i|..].
  - intros bn _ _. by apply block_of_ext.
  - intros bn _ Hz Hn. rewrite (block_of_ext V V') in Hn by done. done.
  - intros x _ Hm. by rewrite (marked_ext sb V V').
  - by left.
Qed.

(** ** bmap *)

(** A transaction with a file in the inode cache. *)
Record fstate (s : fsys) (ip : nat) (i : inode) (bs : list Z) : Prop := {
  ft_txn : txn s [] bs;
  ft_map : map_ok (dv s);
  ft_file : file_ok (dv s) i;
  ft_ip : icache s !! ip = Some i }.
(** The file has grown, for the indices [P], and at most [n] more blocks are
    logged: of the free map, the indirect block and the blocks of these indices;
    a block that is no longer free stands for two of them. *)
Record extends (s : fsys) (ip : nat) (i : inode) (bs : list Z) (P : Z -> Prop) (n : nat)
  (s' : fsys) (i' : inode) (bs' : list Z) : Prop := {
  ex_state : fstate s' ip i' bs';
  ex_grows : grows (dv s) i (dv s') i';
  ex_icache : icache s' = <[ip := i']> (icache s);
  ex_lock : ic_lock s' = ic_lock s;
  ex_length : (length bs' <= length bs + n)%nat;
  ex_free : 2 * nfree sb (dv s) <= 2 * nfree sb (dv s') + Z.of_nat n;
  ex_logged x : x ∈ bs' -> x ∈ bs \/ sb_bmapstart sb <= x < data_start sb \/ x = ind_addr i' /\ x <> 0 \/
    exists bn, P bn /\ x = block_of (dv s') i' bn }.

Definition at_index (n0 bn : Z) : Prop := 0 <= n0 /\ bn = n0.

Lemma extends_trans s ip i bs (P P' : Z -> Prop) n s1 i1 bs1 m s2 i2 bs2 :
  (forall bn, P bn -> 0 <= bn < MAXFILE /\ block_of (dv s1) i1 bn <> 0) ->
  extends s ip i bs P n s1 i1 bs1 -> extends s1 ip i1 bs1 P' m s2 i2 bs2 ->
  extends s ip i bs (fun bn => P bn \/ P' bn) (n + m) s2 i2 bs2.
Proof.
  intros HP [A1 A2 A3 A4 A5 A7 A6] [B1 B2 B3 B4 B5 B7 B6]. split.
  - done.
  - apply (grows_trans _ _ (dv s1) i1); [apply A1|apply B1|done|done].
  - rewrite B3, A3. by rewrite list_insert_insert_eq.
  - congruence.
  - lia.
  - lia.
  - intros x Hx. destruct (B6 x Hx) as [Hx1|[?|[?|(bn & ? & ?)]]]; [|by eauto 10..]. destruct (A6 x Hx1) as [?|[?|[[-> Hnz]|(bn & Hbn & ->)]]].
    + by left.
    + by right; left.
    + destruct (gr_ind _ _ _ _ B2) as [E|[? _]]; [right; right; left; by rewrite E|done].
    + right; right; right. exists bn. split; [by left|]. destruct (HP bn Hbn). symmetry. by apply (gr_block _ _ _ _ B2).
Qed.
Lemma extends_weaken s ip i bs (P P' : Z -> Prop) n n' s' i' bs' :
  extends s ip i bs P n s' i' bs' -> (forall bn, P bn -> P' bn) -> (n <= n')%nat -> extends s ip i bs P' n' s' i' bs'.
Proof.
  intros [A1 A2 A3 A4 A5 A7 A6] HP Hn. split; try done; [lia|lia|]. intros x Hx.
  destruct (A6 x Hx) as [?|[?|[?|(bn & ? & ?)]]]; eauto 10.
Qed.
Lemma extends_same s ip i bs P s' :
  fstate s ip i bs -> txn s' [] bs -> same_ic s s' -> (forall m, dv s' m = dv s m) -> extends s ip i bs P 0 s' i bs.
Proof.
  intros [H1 H2 H3 H4] Ht [Hic Hlk] Hv. split.
  - split; [done|by apply (map_ok_ext sb (dv s))|by apply (file_ok_ext (dv s))|by rewrite Hic].
  - by apply grows_ext.
  - rewrite Hic. by rewrite list_insert_id.
  - done.
  - lia.
  - rewrite (nfree_ext sb (dv s) (dv s')); [lia|]. intros x _. by apply marked_ext.
  - by left.
Qed.
(** A block [b] added by [gets_block]. *)
Lemma extends_gets s ip i bs b n0 s' i' bs' n :
  fstate s ip i bs -> gets_block (dv s) i b n0 (dv s') i' -> map_ok (dv s') -> txn s' [] bs' ->
  icache s' = <[ip := i']> (icache s) -> ic_lock s' = ic_lock s -> (length bs' <= length bs + n)%nat -> (2 <= n)%nat ->
  (forall x, x ∈ bs' -> x ∈ bs \/ sb_bmapstart sb <= x < data_start sb \/ x = b \/ x = ind_addr i' /\ x <> 0) ->
  n0 < MAXFILE ->
  extends s ip i bs (at_index n0) n s' i' bs'.
Proof.
  intros [H1 H2 H3 H4] Hg Hm Ht Hic Hlk Hn Hn2 Hb Hn0. split; try done.
  - split; [done|done|by apply (gets_block_file (dv s) i b n0)|].
    rewrite Hic, list_lookup_insert_eq; [done|by apply lookup_lt_Some in H4].
  - by apply (gets_block_grows _ _ b n0).
  - pose proof (nfree_alloc sb (dv s) (dv s') b (gb_marked _ _ _ _ _ _ Hg)). lia.
  - intros x Hx. destruct (Hb x Hx) as [?|[?|[->|?]]]; [by left|by right; left| |by right; right; left].
    right; right. destruct (gb_ind _ _ _ _ _ _ Hg) as [[Hpos _]|(_ & _ & ->)]; [right|left].
    2: { split; [done|]. pose proof (data_nonzero b (gb_data _ _ _ _ _ _ Hg)). lia. }
    exists n0. split; [by split|]. by rewrite (gb_block _ _ _ _ _ _ Hg), decide_True by lia.
Qed.

Lemma txn_icache s held bs c : txn s held bs -> txn (set_icache c s) held bs.
Proof. by intros [? ? ? ?]. Qed.
(** A panic because fewer than [k] blocks are free. *)
Definition full (V : Z -> blk) (k : Z) (msg : string) : Prop := msg = no_blocks /\ nfree sb V < k.
Lemma all_used_full V V' k msg : 0 < k -> (forall m, V' m = V m) -> all_used sb V' msg -> full V k msg.
Proof.
  intros Hk HV [-> Ha]. split; [done|]. rewrite <-(nfree_ext sb V V') by (intros x _; by apply marked_ext).
  by rewrite nfree_used.
Qed.
Lemma full_after V k V' k' msg : nfree sb V <= nfree sb V' + (k - k') -> full V' k' msg -> full V k msg.
Proof. intros Hn [-> Hf]. split; [done|lia]. Qed.

Lemma get_inode_wpx E ip i Q s : icache s !! ip = Some i -> Q i s -> wpx E (get_inode ip) Q s.
Proof. intros Hi HQ. unfold wpx, get_inode. by rewrite Hi. Qed.
Lemma upd_inode_wpx E ip i f (Q : unit -> fsys -> Prop) s :
  icache s !! ip = Some i -> Q tt (set_icache (<[ip := f i]> (icache s)) s) -> wpx E (upd_inode ip f) Q s.
Proof. intros Hi HQ. unfold wpx, upd_inode. by rewrite Hi. Qed.

Lemma addr_or_alloc_ok s ip i bs k :
  fstate s ip i bs -> 0 <= k <= NDIRECT -> room lsize bs 2 ->
  wpx (full (dv s) 1) (addr_or_alloc ip k) (fun a s' => exists i' bs',
    extends s ip i bs (at_index (if k <? NDIRECT then k else -1)) 2 s' i' bs' /\ a = get_addr i' k /\ a <> 0) s.
Proof.
  intros Hs Hk Hr. pose proof (ft_file _ _ _ _ Hs) as HF. unfold addr_or_alloc. wpx_step.
  apply (get_inode_wpx _ ip i); [apply Hs|]. destruct (Z.eqb_spec (get_addr i k) 0) as [Hz|Hnz].
  2: { wpx_step. exists i, bs. split; [|done]. eapply extends_weaken; [by apply extends_same; [|apply Hs| |]|done|lia]. }
  rewrite (fo_dev _ _ HF). wpx_step. apply (wpx_weaken (all_used sb (dv s))); [|intros msg; by apply all_used_full].
  wpx_use (balloc_ok start lsize dsz sb Hly s [] bs (ft_txn _ _ _ _ Hs) (ft_map _ _ _ _ Hs)); [by intros n ?%not_elem_of_nil|cbn; lia|done|].
  intros b s1 [Hb Hm Ht1 [Hic1 Hlk1] Hv1]. wpx_step.
  apply (upd_inode_wpx _ ip i); [rewrite Hic1; apply Hs|]. wpx_step.
  set (i' := with_addrs (<[Z.to_nat k:=b]> (i_addrs i)) i). exists i'. eexists.
  pose proof (set_addr_gets (dv s) i b k HF (ft_map _ _ _ _ Hs) Hb Hm Hk Hz) as Hg.
  split; [|unfold NDIRECT in Hk; subst i'; rewrite get_addr_set, decide_True by (lia || done || apply HF); pose proof (data_nonzero b Hb); lia].
  eapply (extends_gets s ip i bs b); [done|by eapply gets_block_ext; [exact Hg|]| | | | | |lia| |].
  - apply (map_ok_ext sb (alloc_view sb (dv s) b)); [by apply (alloc_view_ok start lsize dsz sb Hly); [apply Hs|]|done].
  - by apply txn_icache.
  - cbn. by rewrite Hic1.
  - done.
  - pose proof (logged_length bs (BBLOCK b sb)). pose proof (logged_length (logged bs (BBLOCK b sb)) b). lia.
  - intros x [->|[->|?]%logged_in]%logged_in; [by auto| |by auto]. right; left. apply BBLOCK_range, data_range, Hb.
  - rewrite MAXFILE_eq. unfold NDIRECT in *. destruct (Z.ltb_spec k 12); lia.
Qed.

(** The entry [bn] of the indirect block, allocated if it is zero. *)
Lemma bmap_entry_ok s ip i bs bn :
  fstate s ip i bs -> NDIRECT <= bn < MAXFILE -> ind_addr i <> 0 -> room lsize bs 3 ->
  wpx (full (dv s) 1)
    (bp ← fs_bread 1 (ind_addr i);
     d ← fs_data bp;
     let addr := word_at d (4 * (bn - NDIRECT)) in
     if addr =? 0 then
       addr ← balloc 1;
       _ ← fs_set_data bp (set_word d (4 * (bn - NDIRECT)) addr);
       _ ← fs_log_write bp;
       _ ← fs_brelse bp;
       mret addr
     else
       _ ← fs_brelse bp;
       mret addr) (fun a s' => exists bs', extends s ip i bs (at_index bn) 3 s' i bs' /\
         a = block_of (dv s') i bn /\ a <> 0) s.
Proof.
  intros Hs Hbn Hi Hr. destruct Hs as [Ht HV HF Hip]. pose proof (Build_fstate _ _ _ _ Ht HV HF Hip) as Hs.
  destruct (fo_ind _ _ HF) as [?|[Hdi Hmi]]; [done|].
  assert (block_of (dv s) i bn = word_at (dv s (ind_addr i)) (4 * (bn - NDIRECT))) as Hbo.
  { unfold block_of. rewrite (proj2 (Z.ltb_ge _ _)), (proj2 (Z.eqb_neq _ 0)) by (done || lia). done. }
  apply (read_block_ok start lsize dsz sb _ _ _ s [] bs (ind_addr i) Ht).
  { apply (writable_readable start lsize), (layout_writable start lsize dsz sb Hly), data_inodes, Hdi. }
  { apply not_elem_of_nil. } { cbn; lia. } { by apply (room_le lsize bs 3). }
  intros bp s1 Ht1 [Hic1 Hlk1] Hv1 Hu1. cbv zeta. rewrite <-Hbo.
  destruct (Z.eqb_spec (block_of (dv s) i bn) 0) as [Hz|Hnz].
  2: { apply (release_block_ok start lsize dsz sb _ _ _ s1 [] bs bp _ Ht1 Hu1). intros s2 Ht2 [Hic2 Hlk2] Hv2. wpx_step. exists bs.
       assert (forall m, dv s2 m = dv s m) as Hv by (intros m; by rewrite Hv2, Hv1).
       split; [|split; [symmetry; by apply block_of_ext|done]].
       eapply extends_weaken; [apply (extends_same s ip i bs (at_index bn) s2 Hs Ht2); [split; congruence|done]|done|lia]. }
  wpx_step. apply (wpx_weaken (all_used sb (dv s1))); [|intros msg; by apply all_used_full].
  wpx_use (balloc_ok start lsize dsz sb Hly s1 [(bp, ind_addr i)] bs Ht1).
  { by apply (map_ok_ext sb (dv s)). }
  { intros n Hn%list_elem_of_singleton. cbn in Hn. subst n. split; [done|]. by rewrite (marked_ext sb (dv s)). }
  { cbn; lia. } { by apply (room_le lsize bs 3). }
  intros b s2 [Hb Hm Ht2 [Hic2 Hlk2] Hv2]. rewrite (marked_ext sb (dv s)) in Hm by done.
  apply (put_block_ok start lsize dsz sb _ _ _ s2 [] _ bp (ind_addr i) _ Ht2).
  { by apply (layout_writable start lsize dsz sb Hly), data_inodes. } { do 2 apply room_logged. done. }
  intros s3 Ht3 [Hic3 Hlk3] Hv3. wpx_step. eexists. pose proof (put_entry_gets (dv s) i b bn HF HV Hb Hm Hbn Hi Hz) as Hg.
  assert (forall m, dv s3 m = put_entry (alloc_view sb (dv s) b) (ind_addr i) (4 * (bn - NDIRECT)) b m) as Hv.
  { intros m. rewrite Hv3. unfold put_entry. pose proof (used_ne _ _ _ Hm Hmi) as Hne.
    assert (forall x, alloc_view sb (dv s1) b x = alloc_view sb (dv s) b x) as Ha by (intros x; unfold alloc_view; by rewrite Hv1).
    case_decide as E; [|by rewrite Hv2, Ha]. subst m. f_equal. unfold alloc_view. rewrite !decide_False; [done| |done].
    intros E. pose proof (BBLOCK_range sb b (data_range b Hb)). unfold data_block in Hdi. lia. }
  pose proof (gets_block_ext _ _ _ _ _ (dv s3) _ Hg Hv) as Hg3.
  split; [|rewrite (gb_block _ _ _ _ _ _ Hg3), decide_True by (unfold NDIRECT in Hbn; lia || done); pose proof (data_nonzero b Hb); lia].
  eapply (extends_gets s ip i bs b bn); [done|done| |exact Ht3| | | |lia| |lia].
  - eapply map_ok_ext; [|exact Hv]. apply put_entry_map; [|done]. by apply (alloc_view_ok start lsize dsz sb Hly).
  - rewrite Hic3, Hic2, Hic1. by rewrite list_insert_id.
  - congruence.
  - pose proof (logged_length bs (BBLOCK b sb)). pose proof (logged_length (logged bs (BBLOCK b sb)) b).
    pose proof (logged_length (logged (logged bs (BBLOCK b sb)) b) (ind_addr i)). lia.
  - intros x [->|[->|[->|?]%logged_in]%logged_in]%logged_in; [by auto..| |by auto]. right; left. by apply BBLOCK_range, data_range.
Qed.

Lemma bmap_ok s ip i bs bn :
  fstate s ip i bs -> 0 <= bn < MAXFILE -> room lsize bs 5 ->
  wpx (full (dv s) 2) (bmap ip bn) (fun a s' => exists i' bs',
    extends s ip i bs (at_index bn) 5 s' i' bs' /\ a = block_of (dv s') i' bn /\ a <> 0) s.
Proof.
  intros Hs Hbn Hr. unfold bmap. destruct (Z.ltb_spec bn NDIRECT) as [Hlt|Hge].
  - apply (wpx_weaken (full (dv s) 1)); [|intros msg; apply full_after; lia]. wpx_use (addr_or_alloc_ok s ip i bs bn Hs); [lia|by apply (room_le lsize bs 5)|].
    intros a s' (i' & bs' & Hex & -> & Hnz). rewrite (proj2 (Z.ltb_lt _ _)) in Hex by done. exists i', bs'.
    split; [by eapply extends_weaken; [exact Hex|done|lia]|]. split; [|done]. unfold block_of. by rewrite (proj2 (Z.ltb_lt _ _)).
  - rewrite (proj2 (Z.ltb_lt (bn - NDIRECT) NINDIRECT)) by (rewrite NINDIRECT_eq, MAXFILE_eq in *; unfold NDIRECT; lia).
    wpx_step. apply (wpx_weaken (full (dv s) 1)); [|intros msg; apply full_after; lia].
    wpx_use (addr_or_alloc_ok s ip i bs NDIRECT Hs); [unfold NDIRECT; lia|by apply (room_le lsize bs 5)|].
    intros a s1 (i1 & bs1 & Hex1 & -> & Hnz1). fold (ind_addr i1) in *. pose proof (ex_state _ _ _ _ _ _ _ _ _ Hex1) as Hs1.
    wpx_step. apply (get_inode_wpx _ ip i1); [apply Hs1|]. rewrite (fo_dev _ _ (ft_file _ _ _ _ Hs1)).
    apply (wpx_weaken (full (dv s1) 1)); [|intros msg; apply full_after; pose proof (ex_free _ _ _ _ _ _ _ _ _ Hex1); lia].
    wpx_use (bmap_entry_ok s1 ip i1 bs1 bn Hs1); [lia|done|pose proof (ex_length _ _ _ _ _ _ _ _ _ Hex1); unfold room in *; lia|].
    intros a s2 (bs2 & Hex2 & -> & Hnz2). exists i1, bs2. split; [|done].
    eapply extends_weaken; [eapply (extends_trans s ip i bs _ _ 2 s1 i1 bs1 3 s2); [|exact Hex1|exact Hex2]| |lia].
    + intros bn' [Hneg _]. by rewrite (proj2 (Z.ltb_ge NDIRECT NDIRECT)) in Hneg.
    + intros bn' [[Hneg _]|Hat]; [by rewrite (proj2 (Z.ltb_ge NDIRECT NDIRECT)) in Hneg|done].
Qed.
End File.
