(* ===== verification/FsFile.v ===== *)
(** * Reading and writing files (fs.c: readi, writei)

    The contents of a file as a function from offsets to bytes.  [readi] returns
    them, and [writei] replaces a range of them and grows the file. *)

From S2P Require Import Prelude Block Bio Log LogCrash LogTheorems LogOps Fs FsTx FsAlloc FsBmap.
From stdpp Require Import base gmap list strings.
From Stdlib Require Import ZArith Lia.
#[local] Open Scope Z_scope.

(** The byte at offset [k]; a hole reads as zero. *)
Definition fbyte (V : Z -> blk) (i : inode) (k : Z) : Z :=
  let b := block_of V i (k / 512) in
  if b =? 0 then 0 else nth (Z.to_nat (k mod 512)) (V b) 0.
Definition fbytes (V : Z -> blk) (i : inode) (off n : Z) : list Z := fbyte V i <$> seqZ off n.

(** Every block up to the size is there. *)
Record dense (V : Z -> blk) (i : inode) : Prop := {
  de_size : 0 <= i_size i <= MAXFILE * BSIZE;
  de_block bn : 0 <= bn -> bn * 512 < i_size i -> block_of V i bn <> 0 }.

(** ** Blocks as lists of bytes *)

Lemma bytes_at_seqZ d o n :
  0 <= o -> 0 <= n -> o + n <= Z.of_nat (length d) -> bytes_at d o n = (fun k => nth (Z.to_nat k) d 0) <$> seqZ o n.
Proof.
  intros Ho Hn Hl. unfold bytes_at. apply list_eq. intros j. rewrite list_lookup_fmap.
  destruct (decide (j < Z.to_nat n)%nat) as [Hj|Hj].
  - rewrite lookup_take_lt, lookup_drop by done. rewrite lookup_seqZ_lt by lia. cbn. rewrite nth_lookup.
    replace (Z.to_nat (o + Z.of_nat j)) with (Z.to_nat o + j)%nat by lia.
    destruct (lookup_lt_is_Some_2 d (Z.to_nat o + j)) as [x Hx]; [lia|]. by rewrite Hx.
  - rewrite lookup_take_ge by lia. by rewrite lookup_seqZ_ge by lia.
Qed.
Lemma nth_zeroes k n : nth k (zeroes n) 0 = 0.
Proof. unfold zeroes. rewrite nth_lookup. destruct (replicate n 0 !! k) eqn:E; [|done]. by apply lookup_replicate_1 in E as [-> _]. Qed.
Lemma length_set_bytes d o bs : length (set_bytes d o bs) = length d.
Proof. revert d o. induction bs as [|b bs IH]; intros d o; cbn; [done|]. by rewrite IH, length_set_byte. Qed.
(** Bytes that fit in a [uchar]. *)
Definition is_bytes (bs : list Z) : Prop := Forall (fun b => 0 <= b < 256) bs.
Lemma nth_set_bytes d o bs k :
  is_bytes bs -> 0 <= o -> 0 <= k -> o + Z.of_nat (length bs) <= Z.of_nat (length d) ->
  nth (Z.to_nat k) (set_bytes d o bs) 0 =
    if decide (o <= k < o + Z.of_nat (length bs)) then nth (Z.to_nat (k - o)) bs 0 else nth (Z.to_nat k) d 0.
Proof.
  intros Hbs Ho Hk. revert d o Ho. induction Hbs as [|b bs Hb Hbs IH]; intros d o Ho Hl; cbn [set_bytes length] in *.
  - by rewrite decide_False by lia.
  - rewrite IH by (rewrite ?length_set_byte; lia). unfold set_byte. rewrite Z.mod_small by done.
    repeat case_decide; try lia.
    + replace (Z.to_nat (k - o)) with (S (Z.to_nat (k - (o + 1)))) by lia. done.
    + assert (k = o) as -> by lia. rewrite Z.sub_diag. cbn. rewrite nth_lookup, list_lookup_insert_eq by lia. done.
    + rewrite !nth_lookup. by rewrite list_lookup_insert_ne by lia.
Qed.
Lemma fbytes_app V i off n m : 0 <= n -> 0 <= m -> fbytes V i off (n + m) = fbytes V i off n ++ fbytes V i (off + n) m.
Proof. intros Hn Hm. unfold fbytes. by rewrite seqZ_app, fmap_app by done. Qed.
Lemma fbytes_ext V i V' i' off n :
  (forall k, off <= k < off + n -> fbyte V' i' k = fbyte V i k) -> fbytes V' i' off n = fbytes V i off n.
Proof.
  intros Hb. unfold fbytes. apply list_fmap_ext. intros j k Hk. apply lookup_seqZ in Hk as [-> Hj]. apply Hb. lia.
Qed.

Section Rw.
  Variables (start lsize dsz : Z) (sb : superblock) (devsw : Z -> devops).
  Notation txn := (txn start lsize dsz sb).
  Notation marked := (marked sb).
  Notation map_ok := (map_ok sb).
  Notation file_ok := (file_ok sb).
  Notation fstate := (fstate start lsize dsz sb).
  Context (Hly : layout_ok start lsize dsz sb).

(** ** readi *)

(** A state that differs only in which blocks are cached. *)
Definition quiet (s : fsys) (bs : list Z) (s' : fsys) : Prop :=
  txn s' [] bs /\ same_ic s s' /\ forall m, dv s' m = dv s m.
Lemma quiet_trans s bs s1 s2 : quiet s bs s1 -> quiet s1 bs s2 -> quiet s bs s2.
Proof. intros (A1 & A2 & A3) (B1 & B2 & B3). split; [done|]. split; [by etrans|]. intros m. by rewrite B3. Qed.
Lemma quiet_fstate s ip i bs s' : fstate s ip i bs -> quiet s bs s' -> fstate s' ip i bs.
Proof.
  intros [H1 H2 H3 H4] (A1 & [A2 _] & A3). split; [done|by apply (map_ok_ext sb (dv s))|by apply (file_ok_ext sb (dv s))|by rewrite A2].
Qed.

Lemma bmap_found s ip i bs bn :
  fstate s ip i bs -> 0 <= bn < MAXFILE -> block_of (dv s) i bn <> 0 -> room lsize bs 0 ->
  wp (bmap ip bn) (fun a s' => a = block_of (dv s) i bn /\ quiet s bs s') s.
Proof.
  intros [Ht HV HF Hip] Hbn Hnz Hr. unfold block_of in *. unfold bmap, addr_or_alloc. apply wpx_no_panic.
  destruct (Z.ltb_spec bn NDIRECT) as [Hlt|Hge].
  - wpx_step. apply (get_inode_wpx _ ip i _ _ Hip). rewrite (proj2 (Z.eqb_neq _ 0)) by done. wpx_step. done.
  - rewrite (proj2 (Z.ltb_lt (bn - NDIRECT) NINDIRECT)) by (rewrite NINDIRECT_eq, MAXFILE_eq in *; unfold NDIRECT; lia).
    destruct (Z.eqb_spec (ind_addr i) 0) as [Hz|Hi]; [done|]. destruct (fo_ind _ _ _ HF) as [?|[Hdi _]]; [done|].
    wpx_step. wpx_step. apply (get_inode_wpx _ ip i _ _ Hip). fold (ind_addr i). rewrite (proj2 (Z.eqb_neq _ 0)) by done. wpx_step.
    wpx_step. apply (get_inode_wpx _ ip i _ _ Hip). rewrite (fo_dev _ _ _ HF).
    apply (read_block_ok start lsize dsz sb _ _ _ s [] bs (ind_addr i) Ht).
    { apply (writable_readable start lsize), (layout_writable start lsize dsz sb Hly), (data_inodes start lsize dsz sb Hly), Hdi. }
    { apply not_elem_of_nil. } { cbn; lia. } { done. }
    intros bp s1 Ht1 Hic1 Hv1 Hu1. cbv zeta. rewrite (proj2 (Z.eqb_neq _ 0)) by done.
    apply (release_block_ok start lsize dsz sb _ _ _ s1 [] bs bp _ Ht1 Hu1). intros s2 Ht2 Hic2 Hv2. wpx_step.
    split; [done|]. split; [done|]. split; [by etrans|]. intros m. by rewrite Hv2.
Qed.

(** The slice of one block. *)
Lemma fbytes_block V i off m :
  0 <= off -> 0 <= m <= 512 - off mod 512 -> block_of V i (off / 512) <> 0 -> length (V (block_of V i (off / 512))) = 512%nat ->
  bytes_at (V (block_of V i (off / 512))) (off mod 512) m = fbytes V i off m.
Proof.
  intros Ho Hm Hnz Hl. rewrite bytes_at_seqZ by (rewrite ?Hl; dlia). unfold fbytes. apply list_eq. intros j. rewrite !list_lookup_fmap.
  destruct (decide (Z.of_nat j < m)) as [Hj|Hj]; [|by rewrite !lookup_seqZ_ge by lia].
  rewrite !lookup_seqZ_lt by lia. cbn. f_equal. unfold fbyte.
  replace ((off + Z.of_nat j) / 512) with (off / 512) by dlia. rewrite (proj2 (Z.eqb_neq _ 0)) by done.
  f_equal. f_equal. dlia.
Qed.
Lemma data_length V b : map_ok V -> data_block sb b -> length (V b) = 512%nat.
Proof. intros HV Hb. by apply (mo_len sb V HV), (data_inodes start lsize dsz sb Hly). Qed.

Lemma readi_loop_ok fuel s ip i bs off left :
  fstate s ip i bs -> room lsize bs 0 -> dense (dv s) i -> 0 <= off -> 0 <= left -> off + left <= i_size i ->
  0 < Z.of_nat fuel /\ (0 < left -> off mod 512 + left <= 512 * (Z.of_nat fuel - 1)) ->
  wp (readi_loop fuel ip off left) (fun r s' => r = fbytes (dv s) i off left /\ quiet s bs s') s.
Proof.
  intros Hs Hr Hd. revert s off left Hs Hd. induction fuel as [|fuel IH]; intros s off left Hs Hd Ho Hleft Hsz [Hf1 Hf]; [lia|].
  cbn [readi_loop]. destruct (Z.ltb_spec 0 left) as [Hlt|Hge].
  2: { assert (left = 0) as -> by lia. wp_step. split; [done|]. split; [apply Hs|]. done. }
  pose proof (de_size _ _ Hd) as Hsize. rewrite MAXFILE_eq in Hsize. unfold BSIZE in *.
  assert (block_of (dv s) i (off / 512) <> 0) as Hnz by (apply (de_block _ _ Hd); dlia).
  assert (0 <= off / 512 < MAXFILE) as Hbn by (rewrite MAXFILE_eq; dlia).
  destruct (fo_addr _ _ _ (ft_file _ _ _ _ _ _ _ _ Hs) _ Hbn) as [?|[Hdb _]]; [done|].
  wp_step. wp_use (bmap_found s ip i bs (off / 512) Hs Hbn Hnz Hr). intros a s1 [-> Hq1].
  pose proof (quiet_fstate _ _ _ _ _ Hs Hq1) as Hs1. apply wpx_no_panic. wpx_step. apply (get_inode_wpx _ ip i); [apply Hs1|].
  rewrite (fo_dev _ _ _ (ft_file _ _ _ _ _ _ _ _ Hs)). set (m := Z.min left (512 - off mod 512)).
  set (b := block_of (dv s) i (off / 512)) in *.
  apply (read_block_ok start lsize dsz sb _ _ _ s1 [] bs b (proj1 Hq1)).
  { apply (writable_readable start lsize), (layout_writable start lsize dsz sb Hly), (data_inodes start lsize dsz sb Hly), Hdb. }
  { apply not_elem_of_nil. } { cbn; lia. } { done. }
  intros bp s2 Ht2 Hic2 Hv2 Hu2. apply (release_block_ok start lsize dsz sb _ _ _ s2 [] bs bp _ Ht2 Hu2). intros s3 Ht3 Hic3 Hv3.
  assert (quiet s bs s3) as Hq3.
  { apply (quiet_trans s bs s1); [done|]. split; [done|]. split; [by etrans|]. intros x. by rewrite Hv3. }
  wpx_step. apply wpx_wp. destruct Hq1 as (_ & _ & Hv1). destruct (Hq3) as (_ & _ & Hv).
  assert (forall x, fbyte (dv s3) i x = fbyte (dv s) i x) as Hfb.
  { intros x. unfold fbyte. by rewrite (block_of_ext (dv s) (dv s3)), Hv. }
  wp_use (IH s3 (off + m) (left - m)); [by apply (quiet_fstate s)| |subst m; dlia..|].
  { destruct Hd as [D1 D2]. split; [done|]. intros bn' ? ?. rewrite (block_of_ext (dv s)) by done. by apply D2. }
  intros r s4 [-> Hq4]. apply wpx_ret. split; [|by apply (quiet_trans s bs s3)].
  rewrite Hv1. subst b. rewrite fbytes_block; [|lia|subst m; dlia|done|by apply data_length; [apply Hs|]].
  rewrite (fbytes_ext (dv s) i (dv s3) i) by (intros; apply Hfb). rewrite <-fbytes_app by (subst m; dlia). f_equal. lia.
Qed.

Lemma readi_ok s ip i bs off n :
  fstate s ip i bs -> room lsize bs 0 -> dense (dv s) i -> i_type i <> T_DEV -> 0 <= off <= i_size i -> 0 <= n < 2147483648 ->
  wp (readi devsw ip off n) (fun r s' =>
    r = (Z.min n (i_size i - off), fbytes (dv s) i off (Z.min n (i_size i - off))) /\ quiet s bs s') s.
Proof.
  intros Hs Hr Hd Hty Ho Hn. pose proof (de_size _ _ Hd) as Hsize. rewrite MAXFILE_eq in Hsize. unfold BSIZE in Hsize.
  unfold readi. wp_step. apply wpx_no_panic, (get_inode_wpx _ ip i); [apply Hs|]. apply wpx_wp.
  rewrite (proj2 (Z.eqb_neq _ _)) by done. rewrite Z.gtb_ltb, (proj2 (Z.ltb_ge _ _)) by lia.
  rewrite u32_small, (proj2 (Z.ltb_ge (off + n) off)) by lia. cbn [orb]. rewrite Z.gtb_ltb.
  assert ((if i_size i <? off + n then i_size i - off else n) = Z.min n (i_size i - off)) as ->
    by (destruct (Z.ltb_spec (i_size i) (off + n)); lia).
  wp_step. wp_use (readi_loop_ok _ s ip i bs off (Z.min n (i_size i - off)) Hs Hr Hd); [lia..|unfold BSIZE; dlia|].
  intros r s' [-> Hq]. wp_step. by rewrite i32_small by lia.
Qed.
End Rw.
