(* ===== verification/FsWrite.v ===== *)
(** * Writing files (fs.c: writei)

    [writei] replaces the bytes of a range, grows the file when the range ends
    behind it, and leaves every other block in use alone. *)

From S2P Require Import Prelude Block Bio Log LogCrash LogTheorems LogOps Fs FsTx FsAlloc FsBmap FsFile.
From stdpp Require Import base gmap list strings.
From Stdlib Require Import ZArith Lia.
#[local] Open Scope Z_scope.

Section Write.
  Variables (start lsize dsz : Z) (sb : superblock) (devsw : Z -> devops).
  Notation txn := (txn start lsize dsz sb).
  Notation marked := (marked sb).
  Notation map_ok := (map_ok sb).
  Notation file_ok := (file_ok sb).
  Notation fstate := (fstate start lsize dsz sb).
  Notation grows := (grows sb).
  Context (Hly : layout_ok start lsize dsz sb).

(** [src] written at [off]. *)
Record written (V : Z -> blk) (i : inode) (off : Z) (src : list Z) (V' : Z -> blk) (i' : inode) : Prop := {
  wr_inode : i' = with_addrs (i_addrs i') i;
  wr_block bn : 0 <= bn < MAXFILE -> block_of V i bn <> 0 -> block_of V' i' bn = block_of V i bn;
  wr_range bn : src <> [] -> off / 512 <= bn -> bn * 512 < off + Z.of_nat (length src) -> block_of V' i' bn <> 0;
  wr_byte k : 0 <= k < MAXFILE * BSIZE ->
    fbyte V' i' k = if decide (off <= k < off + Z.of_nat (length src)) then nth (Z.to_nat (k - off)) src 0 else fbyte V i k;
  wr_new bn : 0 <= bn < MAXFILE -> block_of V i bn = 0 -> block_of V' i' bn <> 0 -> marked V (block_of V' i' bn) = false;
  wr_marked x : 0 <= x < sb_size sb -> marked V x = true -> marked V' x = true;
  wr_ind : ind_addr i' = ind_addr i \/
    ind_addr i = 0 /\ data_block sb (ind_addr i') /\ marked V (ind_addr i') = false;
  wr_other m : ~ (sb_bmapstart sb <= m < data_start sb) ->
    ~ (data_block sb m /\ (marked V m = false \/ m = ind_addr i \/ exists bn, 0 <= bn < MAXFILE /\ m = block_of V i bn)) -> V' m = V m }.

Lemma grows_written V i V' i' off : file_ok V i -> grows V i V' i' -> written V i off [] V' i'.
Proof.
  intros HF [A1 A2 A3 A4 A5 A6 A7]. split; try done.
  - intros k Hk. rewrite decide_False by (cbn; lia). unfold fbyte. rewrite MAXFILE_eq in Hk. unfold BSIZE in Hk.
    assert (0 <= k / 512 < MAXFILE) as Hbn by (rewrite MAXFILE_eq; dlia).
    destruct (Z.eqb_spec (block_of V i (k / 512)) 0) as [Hz|Hnz].
    + destruct (Z.eqb_spec (block_of V' i' (k / 512)) 0) as [|Hnz']; [done|].
      destruct (A4 _ Hbn Hz Hnz') as [_ ->]. apply nth_zeroes.
    + rewrite A2, A3 by done. by rewrite (proj2 (Z.eqb_neq _ 0)).
  - intros bn Hbn Hz Hnz. by apply A4.
  - intros m Hm1 Hm2. apply A7; [done|]. intros [? [?|?]]; apply Hm2; eauto.
Qed.

Lemma written_trans V1 i1 off src1 V2 i2 src2 V3 i3 :
  file_ok V2 i2 -> file_ok V3 i3 -> 0 <= off -> off + Z.of_nat (length src1 + length src2) <= MAXFILE * BSIZE ->
  written V1 i1 off src1 V2 i2 -> written V2 i2 (off + Z.of_nat (length src1)) src2 V3 i3 -> written V1 i1 off (src1 ++ src2) V3 i3.
Proof.
  intros HF2 HF3 Hoff Hmax [A1 A2 A3 A4 A5 A6 A7 A8] [B1 B2 B3 B4 B5 B6 B7 B8]. rewrite MAXFILE_eq in Hmax. unfold BSIZE in Hmax.
  assert (forall x, 0 <= x < sb_size sb -> marked V2 x = false -> marked V1 x = false) as Hm.
  { intros x Hx H2. destruct (marked V1 x) eqn:E; [|done]. rewrite (A6 x Hx E) in H2. done. }
  assert (forall b, data_block sb b -> 0 <= b < sb_size sb) as Hdr by (intros b; apply (data_range start lsize dsz sb Hly)).
  split.
  - rewrite B1, A1. by destruct i1.
  - intros bn Hbn H1. rewrite B2 by (done || by rewrite A2). by apply A2.
  - intros bn Hne Hbn1 Hbn2. rewrite length_app in Hbn2.
    destruct (decide (src1 = [])) as [->|Hne1]; [cbn in *; apply B3; [done|dlia..]|].
    destruct (decide (bn * 512 < off + Z.of_nat (length src1))) as [Hlt|Hge].
    + rewrite B2; [by apply A3|rewrite MAXFILE_eq; dlia|by apply A3].
    + apply B3; [intros ->; cbn in *; lia|dlia..].
  - intros k Hk. rewrite B4, A4, length_app by done. repeat case_decide; try lia.
    + rewrite app_nth2 by lia. f_equal. lia.
    + by rewrite app_nth1 by lia.
  - intros bn Hbn H1 H3. destruct (decide (block_of V2 i2 bn = 0)) as [E|E].
    + destruct (fo_addr _ _ _ HF3 bn Hbn) as [?|[Hd _]]; [done|]. apply Hm; [by apply Hdr|by apply B5].
    + rewrite B2 in * by done. by apply A5.
  - intros x Hx H1. by apply B6, A6.
  - destruct B7 as [->|(B7 & B7' & B7'')]; [done|]. destruct A7 as [A7|(A7 & A7' & _)].
    + right. split; [congruence|]. split; [done|]. by apply Hm; [apply Hdr|].
    + pose proof (data_nonzero start lsize dsz sb Hly _ A7'). lia.
  - intros m Hm1 Hm2. rewrite B8; [by apply A8|done|]. intros [Hd [Hu|[Hi|(bn & Hbn & Hb)]]]; apply Hm2; (split; [done|]).
    + left. by apply Hm; [apply Hdr|].
    + destruct A7 as [A7|(A7 & A7' & A7'')]; [right; left; congruence|left; congruence].
    + destruct (decide (block_of V1 i1 bn = 0)) as [E|E]; [|right; right; exists bn; by rewrite Hb, A2].
      left. rewrite Hb. apply A5; [done|done|]. rewrite <-Hb. pose proof (data_nonzero start lsize dsz sb Hly _ Hd). lia.
Qed.

Lemma fbyte_ext V V' i k : (forall m, V' m = V m) -> fbyte V' i k = fbyte V i k.
Proof. intros HV. unfold fbyte. by rewrite (block_of_ext V V'), HV. Qed.
Lemma written_ext V i off src V' V'' i' :
  written V i off src V' i' -> (forall m, V'' m = V' m) -> written V i off src V'' i'.
Proof.
  intros [A1 A2 A3 A4 A5 A6 A7 A8] HV. assert (forall bn, block_of V'' i' bn = block_of V' i' bn) as HB by (intros; by apply block_of_ext).
  split; try done.
  - intros bn ? ?. rewrite HB. by apply A2.
  - intros bn ? ? ?. rewrite HB. by apply A3.
  - intros k Hk. rewrite (fbyte_ext V' V'') by done. by apply A4.
  - intros bn ? ?. rewrite HB. by apply A5.
  - intros x ? ?. rewrite (marked_ext sb V' V'') by done. by apply A6.
  - intros m ? ?. rewrite HV. by apply A8.
Qed.

(** ** One block *)

Definition put_data (V : Z -> blk) (a : Z) (d : blk) (m : Z) : blk := if decide (m = a) then d else V m.
Section Put.
  Variables (V : Z -> blk) (i : inode) (bn : Z) (d : blk).
  Context (HF : file_ok V i) (HV : map_ok V) (Hbn : 0 <= bn < MAXFILE) (Hnz : block_of V i bn <> 0).
  Notation a := (block_of V i bn).
  Notation V' := (put_data V a d).

Lemma put_data_block : data_block sb a.
Proof. by destruct (fo_addr _ _ _ HF bn Hbn) as [?|[? _]]. Qed.
Lemma put_block_of bn' : 0 <= bn' < MAXFILE -> block_of V' i bn' = block_of V i bn'.
Proof.
  intros Hbn'. pose proof (fo_ind_ne _ _ _ HF bn Hbn Hnz) as Hne. revert Hne. generalize a. intros b Hne. unfold block_of.
  destruct (bn' <? NDIRECT); [done|]. destruct (Z.eqb_spec (ind_addr i) 0); [done|].
  unfold put_data. by rewrite decide_False.
Qed.
Lemma put_marked x : 0 <= x < sb_size sb -> marked V' x = marked V x.
Proof.
  intros Hx. apply marked_ext. unfold put_data. rewrite decide_False; [done|]. pose proof (BBLOCK_range sb x Hx).
  pose proof put_data_block as [? ?]. lia.
Qed.
Lemma put_map_ok : length d = 512%nat -> map_ok V'.
Proof.
  intros Hd. split.
  - intros b Hb. rewrite put_marked by (pose proof (ly_data _ _ _ _ Hly); lia). by apply HV.
  - intros n Hn. unfold put_data. case_decide; [done|by apply HV].
Qed.
Lemma put_file_ok : file_ok V' i.
Proof.
  assert (forall x, addr_ok sb V x -> addr_ok sb V' x) as Hup.
  { intros x [->|[Hx Hm]]; [by left|right]. split; [done|]. rewrite put_marked; [done|by apply (data_range start lsize dsz sb Hly)]. }
  destruct HF as [F1 F2 F3 F4 F5 F6]. split; try done.
  - by apply Hup.
  - intros bn' Hbn'. rewrite put_block_of by done. by apply Hup, F4.
  - intros b1 b2 H1 H2. rewrite !put_block_of by done. by apply F5.
  - intros b1 H1. rewrite put_block_of by done. by apply F6.
Qed.
Lemma put_fbyte k :
  0 <= k < MAXFILE * BSIZE -> fbyte V' i k = if decide (k / 512 = bn) then nth (Z.to_nat (k mod 512)) d 0 else fbyte V i k.
Proof.
  intros Hk. rewrite MAXFILE_eq in Hk. unfold BSIZE in Hk. assert (0 <= k / 512 < MAXFILE) as Hkb by (rewrite MAXFILE_eq; dlia).
  unfold fbyte. rewrite put_block_of by done. case_decide as E.
  - rewrite E. rewrite (proj2 (Z.eqb_neq _ 0)) by done. unfold put_data. by rewrite decide_True.
  - destruct (Z.eqb_spec (block_of V i (k / 512)) 0) as [|Hnk]; [done|]. unfold put_data. rewrite decide_False; [done|].
    intros Heq. by apply E, (fo_inj _ _ _ HF (k / 512) bn).
Qed.
End Put.

(** The part of a write that falls into one block. *)
Lemma put_written V i off src :
  file_ok V i -> map_ok V -> 0 <= off -> off / 512 < MAXFILE -> block_of V i (off / 512) <> 0 -> is_bytes src ->
  off mod 512 + Z.of_nat (length src) <= 512 ->
  written V i off src
    (put_data V (block_of V i (off / 512)) (set_bytes (V (block_of V i (off / 512))) (off mod 512) src)) i.
Proof.
  intros HF HV Hoff Hmax Hnz Hsrc Hfit. assert (0 <= off / 512 < MAXFILE) as Hbn by dlia.
  pose proof (put_data_block V i (off / 512) HF Hbn Hnz) as Hdb.
  assert (length (V (block_of V i (off / 512))) = 512%nat) as Hlen by by apply (data_length start lsize dsz sb Hly).
  split.
  - by destruct i.
  - intros bn' H' _. by apply put_block_of.
  - intros bn' _ H1 H2. assert (bn' = off / 512) as -> by dlia. by rewrite put_block_of.
  - intros k Hk. rewrite (put_fbyte V i (off / 512) _ HF Hbn Hnz k Hk). rewrite nth_set_bytes; [|done|dlia|dlia|rewrite Hlen; lia].
    destruct (decide (k / 512 = off / 512)) as [E|E]; [|by rewrite decide_False by dlia].
    repeat case_decide; try dlia; [f_equal; f_equal; dlia|].
    unfold fbyte. by rewrite E, (proj2 (Z.eqb_neq _ 0)).
  - intros bn' H' Hz. by rewrite put_block_of by done.
  - intros x Hx Hm. rewrite put_marked; [done|done|done|done|done].
  - by left.
  - intros m Hm1 Hm2. unfold put_data. rewrite decide_False; [done|]. intros ->. apply Hm2. split; [done|]. right; right. by exists (off / 512).
Qed.

(** ** The loop *)

(** How many blocks a range touches. *)
Definition nblocks (off n : Z) : Z := if decide (n <= 0) then 0 else (off mod 512 + n + 511) / 512.
Lemma nblocks_app off a b :
  0 < a -> 0 <= b -> (0 < b -> (off + a) mod 512 = 0) -> nblocks off a + nblocks (off + a) b <= nblocks off (a + b).
Proof. intros Ha Hb Hal. unfold nblocks. repeat case_decide; try dlia. Qed.

Record wrote (s : fsys) (ip : nat) (i : inode) (bs : list Z) (off : Z) (src : list Z)
  (s' : fsys) (i' : inode) (bs' : list Z) : Prop := {
  wo_state : fstate s' ip i' bs';
  wo_written : written (dv s) i off src (dv s') i';
  wo_icache : icache s' = <[ip := i']> (icache s);
  wo_lock : ic_lock s' = ic_lock s;
  wo_free : nfree sb (dv s) <= nfree sb (dv s') + 2 * nblocks off (Z.of_nat (length src));
  wo_length : Z.of_nat (length bs') <= Z.of_nat (length bs) + 6 * nblocks off (Z.of_nat (length src));
  wo_logged x : x ∈ bs' -> x ∈ bs \/ sb_bmapstart sb <= x < data_start sb \/ x = ind_addr i' /\ x <> 0 \/
    exists bn, off / 512 <= bn /\ bn * 512 < off + Z.of_nat (length src) /\ x = block_of (dv s') i' bn }.

Lemma wrote_nil s ip i bs off : fstate s ip i bs -> wrote s ip i bs off [] s i bs.
Proof.
  intros Hs. split; [done|apply grows_written; [apply Hs|apply grows_refl]|by rewrite list_insert_id by apply Hs|done| | |by left].
  all: unfold nblocks; rewrite decide_True by (cbn; lia); lia.
Qed.
Lemma wrote_app s ip i bs off src1 s1 i1 bs1 src2 s2 i2 bs2 :
  0 <= off -> off + Z.of_nat (length src1 + length src2) <= MAXFILE * BSIZE -> src1 <> [] ->
  (src2 <> [] -> (off + Z.of_nat (length src1)) mod 512 = 0) ->
  wrote s ip i bs off src1 s1 i1 bs1 -> wrote s1 ip i1 bs1 (off + Z.of_nat (length src1)) src2 s2 i2 bs2 ->
  wrote s ip i bs off (src1 ++ src2) s2 i2 bs2.
Proof.
  intros Hoff Hmax Hne Hal [A1 A2 A3 A4 A7 A5 A6] [B1 B2 B3 B4 B7 B5 B6]. rewrite MAXFILE_eq in Hmax. unfold BSIZE in Hmax.
  pose proof (nblocks_app off (Z.of_nat (length src1)) (Z.of_nat (length src2))) as Hnb.
  specialize (Hnb ltac:(destruct src1; [done|cbn; lia]) ltac:(lia) ltac:(intros ?; apply Hal; destruct src2; [cbn in *; lia|done])). split.
  - done.
  - apply (written_trans _ _ _ _ (dv s1) i1); try done; [apply A1|apply B1].
  - rewrite B3, A3. by rewrite list_insert_insert_eq.
  - congruence.
  - rewrite length_app, Nat2Z.inj_add. lia.
  - rewrite length_app, Nat2Z.inj_add. lia.
  - intros x Hx. rewrite length_app. destruct (B6 x Hx) as [Hx1|[?|[?|(bn & H1 & H2 & ->)]]]; [|by eauto..|].
    + destruct (A6 x Hx1) as [?|[?|[[-> Hnz]|(bn & H1 & H2 & ->)]]]; [by eauto..| |].
      * destruct (wr_ind _ _ _ _ _ _ B2) as [E|[? _]]; [right; right; left; by rewrite E|done].
      * right; right; right. exists bn. split; [done|]. split; [lia|]. symmetry.
        apply (wr_block _ _ _ _ _ _ B2); [rewrite MAXFILE_eq; dlia|]. by apply (wr_range _ _ _ _ _ _ A2).
    + right; right; right. exists bn. split; [dlia|]. split; [lia|done].
Qed.

(** One pass: the block is found or allocated, changed and logged. *)
Lemma writei_step {A} E (k : unit -> M fsys A) Q s ip i bs off part :
  (forall msg, full sb (dv s) 2 msg -> E msg) ->
  fstate s ip i bs -> 0 <= off -> part <> [] -> off mod 512 + Z.of_nat (length part) <= 512 -> off / 512 < MAXFILE ->
  is_bytes part -> room lsize bs 6 ->
  (forall s' i' bs', wrote s ip i bs off part s' i' bs' -> wpx E (k tt) Q s') ->
  wpx E (addr ← bmap ip (off / 512);
         i ← get_inode ip;
         bp ← fs_bread (i_dev i) addr;
         d ← fs_data bp;
         _ ← fs_set_data bp (set_bytes d (off mod 512) part);
         _ ← fs_log_write bp;
         x ← fs_brelse bp;
         k x) Q s.
Proof.
  intros HE Hs Hoff Hne Hfit Hmax Hbytes Hr Hk. assert (0 <= off / 512 < MAXFILE) as Hbn by dlia.
  wpx_step. apply (wpx_weaken (full sb (dv s) 2)); [|done]. wpx_use (bmap_ok start lsize dsz sb Hly s ip i bs (off / 512) Hs Hbn); [by apply (room_le lsize bs 6)|].
  intros a s1 (i1 & bs1 & Hex & -> & Hnz). pose proof (ex_state _ _ _ _ _ _ _ _ _ _ _ _ _ Hex) as Hs1.
  pose proof (ft_file _ _ _ _ _ _ _ _ Hs1) as HF1. pose proof (ft_map _ _ _ _ _ _ _ _ Hs1) as HV1.
  destruct (fo_addr _ _ _ HF1 _ Hbn) as [?|[Hdb _]]; [done|]. set (a := block_of (dv s1) i1 (off / 512)) in *.
  assert (room lsize bs1 1) as Hr1 by (pose proof (ex_length _ _ _ _ _ _ _ _ _ _ _ _ _ Hex); unfold room in *; lia).
  pose proof (layout_writable start lsize dsz sb Hly a (data_inodes start lsize dsz sb Hly a Hdb)) as Hw.
  wpx_step. apply (get_inode_wpx _ ip i1); [apply Hs1|]. rewrite (fo_dev _ _ _ HF1).
  apply (read_block_ok start lsize dsz sb _ _ _ s1 [] bs1 a (ft_txn _ _ _ _ _ _ _ _ Hs1)).
  { by apply (writable_readable start lsize). } { apply not_elem_of_nil. } { cbn; lia. } { by apply (room_le lsize bs1 1). }
  intros bp s2 Ht2 [Hic2 Hlk2] Hv2 _. apply (put_block_ok start lsize dsz sb _ _ _ s2 [] bs1 bp a _ Ht2 Hw Hr1).
  intros s3 Ht3 [Hic3 Hlk3] Hv3. pose proof (put_written (dv s1) i1 off part HF1 HV1 Hoff Hmax Hnz Hbytes Hfit) as Hwr. fold a in Hwr.
  set (d := set_bytes (dv s1 a) (off mod 512) part) in *.
  assert (forall m, dv s3 m = put_data (dv s1) a d m) as Hv by (intros m; rewrite Hv3; unfold put_data; by rewrite Hv2).
  assert (length d = 512%nat) as Hld by (subst d; rewrite length_set_bytes; by apply (data_length start lsize dsz sb Hly)).
  pose proof (put_file_ok (dv s1) i1 (off / 512) d HF1 Hbn Hnz) as HF3. pose proof (put_map_ok (dv s1) i1 (off / 512) d HF1 HV1 Hbn Hnz Hld) as HV3.
  fold a in HF3, HV3. apply (Hk s3 i1 (logged bs1 a)). pose proof (ex_icache _ _ _ _ _ _ _ _ _ _ _ _ _ Hex) as Hic1.
  assert (fstate s3 ip i1 (logged bs1 a)) as Hs3.
  { split; [done|by apply (map_ok_ext sb (put_data (dv s1) a d))|by apply (file_ok_ext sb (put_data (dv s1) a d))|].
    rewrite Hic3, Hic2. apply Hs1. }
  split.
  - done.
  - apply (written_trans _ _ off [] (dv s1) i1 part); [done|apply Hs3|done| | |].
    + cbn. rewrite MAXFILE_eq in *. unfold BSIZE. dlia.
    + apply grows_written; [apply Hs|apply Hex].
    + cbn. rewrite Z.add_0_r. by apply (written_ext _ _ _ _ (put_data (dv s1) a d)).
  - by rewrite Hic3, Hic2.
  - rewrite Hlk3, Hlk2. apply Hex.
  - assert (nfree sb (dv s3) = nfree sb (dv s1)) as ->.
    { apply nfree_ext. intros x Hx. rewrite (marked_ext sb (put_data (dv s1) a d) (dv s3)) by done. by apply put_marked. }
    pose proof (ex_free _ _ _ _ _ _ _ _ _ _ _ _ _ Hex). unfold nblocks. destruct part as [|c part]; [done|]. cbn [length] in *.
    rewrite decide_False by lia. dlia.
  - pose proof (logged_length bs1 a). pose proof (ex_length _ _ _ _ _ _ _ _ _ _ _ _ _ Hex). unfold nblocks.
    destruct part as [|c part]; [done|]. cbn [length] in *. rewrite decide_False by lia. dlia.
  - assert (0 < Z.of_nat (length part)) as Hpos by (destruct part; [done|cbn; lia]).
    assert (a = block_of (dv s3) i1 (off / 512)) as Ha.
    { rewrite (block_of_ext (put_data (dv s1) a d) (dv s3)) by done. symmetry. by apply put_block_of. }
    intros x [->|Hx]%logged_in; [right; right; right; exists (off / 512); split; [done|]; split; [dlia|done]|].
    destruct (ex_logged _ _ _ _ _ _ _ _ _ _ _ _ _ Hex x Hx) as [?|[?|[?|(bn & [_ ->] & ->)]]]; [by eauto..|].
    right; right; right. exists (off / 512). split; [done|]. split; [dlia|done].
Qed.

Lemma writei_loop_ok fuel s ip i bs off src :
  fstate s ip i bs -> 0 <= off -> off + Z.of_nat (length src) <= MAXFILE * BSIZE -> is_bytes src ->
  room lsize bs (6 * nblocks off (Z.of_nat (length src))) ->
  0 < Z.of_nat fuel /\ (src <> [] -> off mod 512 + Z.of_nat (length src) <= 512 * (Z.of_nat fuel - 1)) ->
  wpx (full sb (dv s) (2 * nblocks off (Z.of_nat (length src)))) (writei_loop fuel ip src off (Z.of_nat (length src)))
    (fun _ s' => exists i' bs', wrote s ip i bs off src s' i' bs') s.
Proof.
  revert s i bs off src. induction fuel as [|fuel IH]; intros s i bs off src Hs Hoff Hmax Hb Hr [Hf1 Hf]; [lia|].
  rewrite MAXFILE_eq in Hmax. unfold BSIZE in Hmax.
  cbn [writei_loop]. destruct (Z.ltb_spec 0 (Z.of_nat (length src))) as [Hlt|Hge].
  2: { destruct src; [|cbn in Hge; lia]. wpx_step. exists i, bs. by apply wrote_nil. }
  assert (src <> []) as Hne by (intros ->; cbn in Hlt; lia). specialize (Hf Hne). unfold BSIZE.
  set (m := Z.min (Z.of_nat (length src)) (512 - off mod 512)). assert (0 < m <= Z.of_nat (length src)) as Hm by (subst m; dlia).
  assert (off mod 512 + m <= 512) as Hm' by (subst m; dlia).
  assert (Z.of_nat (length (take (Z.to_nat m) src)) = m) as Hlt1 by (rewrite length_take; lia).
  assert (Z.of_nat (length (drop (Z.to_nat m) src)) = Z.of_nat (length src) - m) as Hlt2 by (rewrite length_drop; lia).
  assert (1 <= nblocks off (Z.of_nat (length src))) as Hnb by (unfold nblocks; case_decide; dlia).
  apply (writei_step _ _ _ s ip i bs off (take (Z.to_nat m) src)); try done.
  { intros msg. apply full_after. lia. } { intros E. rewrite E in Hlt1. cbn in Hlt1. lia. } { by rewrite Hlt1. } { rewrite MAXFILE_eq. dlia. }
  { by apply Forall_take. } { unfold room in *. lia. }
  intros s1 i1 bs1 Hw1. rewrite <-Hlt2. assert (drop (Z.to_nat m) src <> [] -> (off + m) mod 512 = 0) as Hal.
  { intros Hd. assert (0 < Z.of_nat (length (drop (Z.to_nat m) src))) by (destruct (drop (Z.to_nat m) src); [done|cbn; lia]).
    subst m. dlia. }
  assert (nblocks off m + nblocks (off + m) (Z.of_nat (length (drop (Z.to_nat m) src))) <= nblocks off (Z.of_nat (length src))) as Hsum.
  { rewrite Hlt2. etrans; [apply nblocks_app; [lia..|]|by replace (m + (Z.of_nat (length src) - m)) with (Z.of_nat (length src)) by lia].
    intros ?. apply Hal. intros E. rewrite E in Hlt2. cbn in Hlt2. lia. }
  apply (wpx_weaken (full sb (dv s1) (2 * nblocks (off + m) (Z.of_nat (length (drop (Z.to_nat m) src)))))).
  2: { intros msg. apply full_after. pose proof (wo_free _ _ _ _ _ _ _ _ _ Hw1) as Hfr. rewrite Hlt1 in Hfr. lia. }
  wpx_use (IH s1 i1 bs1 (off + m) (drop (Z.to_nat m) src)); [apply Hw1|lia|rewrite MAXFILE_eq; unfold BSIZE; lia|by apply Forall_drop| | |].
  - pose proof (wo_length _ _ _ _ _ _ _ _ _ Hw1) as Hl1. rewrite Hlt1 in Hl1. unfold room in *. lia.
  - split; [subst m; dlia|]. intros Hd. specialize (Hal Hd). rewrite Hal, Hlt2. subst m. dlia.
  - intros _ s2 (i2 & bs2 & Hw2). exists i2, bs2. rewrite <-(take_drop (Z.to_nat m) src).
    eapply (wrote_app s ip i bs off _ s1 i1 bs1); [done| | | |done|by rewrite Hlt1].
    + rewrite MAXFILE_eq. unfold BSIZE. lia.
    + intros E. rewrite E in Hlt1. cbn in Hlt1. lia.
    + by rewrite Hlt1.
Qed.

(** ** iupdate *)

Lemma length_put_dinode d o i : length (put_dinode d o i) = length d.
Proof.
  unfold put_dinode. assert (forall ws d o, length (set_words d o ws) = length d) as Hw.
  { intros ws. induction ws as [|w ws IH]; intros d0 o0; cbn; [done|]. by rewrite IH, length_set_word. }
  by rewrite Hw, length_set_word, !length_set_half.
Qed.
Lemma IBLOCK_range inum : 0 <= inum < sb_ninodes sb -> sb_inodestart sb <= IBLOCK inum sb < sb_bmapstart sb.
Proof. intros Hi. pose proof (ly_bmap _ _ _ _ Hly) as Hb. unfold IBLOCK. rewrite IPB_eq in *. dlia. Qed.

(** Blocks of inodes are not looked at by the free map or by files. *)
Section Ino.
  Variables (V V' : Z -> blk) (b : Z).
  Context (Hb : sb_inodestart sb <= b < sb_bmapstart sb) (HV' : forall m, m <> b -> V' m = V m).

Lemma ino_marked x : 0 <= x < sb_size sb -> marked V' x = marked V x.
Proof. intros Hx. apply marked_ext, HV'. pose proof (BBLOCK_range sb x Hx). lia. Qed.
Lemma ino_map_ok : map_ok V -> length (V' b) = 512%nat -> map_ok V'.
Proof.
  intros HV Hl. split.
  - intros x Hx. rewrite ino_marked; [by apply HV|pose proof (ly_data _ _ _ _ Hly); lia].
  - intros n Hn. destruct (decide (n = b)) as [->|Hne]; [done|]. rewrite HV' by done. by apply HV.
Qed.
Lemma data_after a : data_block sb a -> a <> b.
Proof.
  intros [Ha _]. pose proof (size_pos start lsize dsz sb Hly) as [_ Hs]. unfold data_start in Ha.
  assert (0 <= sb_size sb / BPB) by (rewrite BPB_eq; dlia). lia.
Qed.
Lemma ino_block_of i bn : file_ok V i -> block_of V' i bn = block_of V i bn.
Proof.
  intros HF. unfold block_of. destruct (bn <? NDIRECT); [done|]. destruct (Z.eqb_spec (ind_addr i) 0); [done|].
  rewrite HV'; [done|]. destruct (fo_ind _ _ _ HF) as [?|[Hd _]]; [done|by apply data_after].
Qed.
Lemma ino_file_ok i : file_ok V i -> file_ok V' i.
Proof.
  intros HF. assert (forall x, addr_ok sb V x -> addr_ok sb V' x) as Hup.
  { intros x [->|[Hx Hm]]; [by left|right]. split; [done|]. rewrite ino_marked; [done|by apply (data_range start lsize dsz sb Hly)]. }
  split; try apply HF.
  - apply Hup, HF.
  - intros bn Hbn. rewrite ino_block_of by done. by apply Hup, HF.
  - intros b1 b2. rewrite !ino_block_of by done. apply HF.
  - intros b1. rewrite ino_block_of by done. apply HF.
Qed.
Lemma ino_fbyte i k : file_ok V i -> 0 <= k < MAXFILE * BSIZE -> fbyte V' i k = fbyte V i k.
Proof.
  intros HF Hk. rewrite MAXFILE_eq in Hk. unfold BSIZE in Hk. unfold fbyte. rewrite ino_block_of by done.
  destruct (Z.eqb_spec (block_of V i (k / 512)) 0); [done|]. rewrite HV'; [done|].
  destruct (fo_addr _ _ _ HF (k / 512)) as [?|[Hd _]]; [rewrite MAXFILE_eq; dlia|done|by apply data_after].
Qed.
End Ino.

Lemma iupdate_ok s ip i bs :
  fstate s ip i bs -> 0 <= i_inum i < sb_ninodes sb -> room lsize bs 1 ->
  wp (iupdate ip) (fun _ s' => txn s' [] (logged bs (IBLOCK (i_inum i) sb)) /\ same_ic s s' /\
    forall m, dv s' m = put_data (dv s) (IBLOCK (i_inum i) sb) (put_dinode (dv s (IBLOCK (i_inum i) sb)) (dinode_off (i_inum i)) i) m) s.
Proof.
  intros Hs Hn Hr. pose proof (IBLOCK_range _ Hn) as Hb. unfold iupdate. apply wpx_no_panic. wpx_step.
  apply (get_inode_wpx _ ip i); [apply Hs|]. wpx_step. wpx_step. rewrite (tn_sb _ _ _ _ _ _ _ (ft_txn _ _ _ _ _ _ _ _ Hs)).
  rewrite (fo_dev _ _ _ (ft_file _ _ _ _ _ _ _ _ Hs)).
  assert (writable start lsize dsz (IBLOCK (i_inum i) sb)) as Hw.
  { apply (layout_writable start lsize dsz sb Hly). pose proof (size_pos start lsize dsz sb Hly). pose proof (ly_data _ _ _ _ Hly).
    unfold data_start in *. assert (0 <= sb_size sb / BPB) by (rewrite BPB_eq; dlia). lia. }
  apply (read_block_ok start lsize dsz sb _ _ _ s [] bs _ (ft_txn _ _ _ _ _ _ _ _ Hs)).
  { by apply (writable_readable start lsize). } { apply not_elem_of_nil. } { cbn; lia. } { by apply (room_le lsize bs 1). }
  intros bp s1 Ht1 Hic1 Hv1 _. apply (put_block_end start lsize dsz sb _ _ s1 [] bs bp _ _ Ht1 Hw Hr).
  intros s2 Ht2 Hic2 Hv2. split; [done|]. split; [by etrans|]. intros m. rewrite Hv2. unfold put_data. case_decide; [done|apply Hv1].
Qed.

(** ** writei *)

(** The file after a write: its size and bytes, and what else may have changed. *)
Record wrote_file (s : fsys) (ip : nat) (i : inode) (bs : list Z) (off : Z) (src : list Z) (s' : fsys) : Prop := {
  wf_state : exists i' bs', fstate s' ip i' bs' /\ dense (dv s') i' /\
    Z.of_nat (length bs') <= Z.of_nat (length bs) + 6 * nblocks off (Z.of_nat (length src)) + 1 /\
    (forall x, x ∈ bs' -> x ∈ bs \/ sb_bmapstart sb <= x < data_start sb \/ x = ind_addr i' \/ x = IBLOCK (i_inum i) sb \/
      exists bn, off / 512 <= bn /\ bn * 512 < off + Z.of_nat (length src) /\ x = block_of (dv s') i' bn) /\
    i_size i' = Z.max (i_size i) (off + Z.of_nat (length src)) /\ i_type i' = i_type i /\ i_inum i' = i_inum i /\
    (i_ref i' = i_ref i /\ icache s' = <[ip := i']> (icache s) /\ ic_lock s' = ic_lock s) /\
    (forall k, 0 <= k < MAXFILE * BSIZE ->
      fbyte (dv s') i' k = if decide (off <= k < off + Z.of_nat (length src)) then nth (Z.to_nat (k - off)) src 0 else fbyte (dv s) i k);
  wf_other m : ~ (sb_bmapstart sb <= m < data_start sb) -> m <> IBLOCK (i_inum i) sb ->
    ~ (data_block sb m /\ (marked (dv s) m = false \/ m = ind_addr i \/ exists bn, 0 <= bn < MAXFILE /\ m = block_of (dv s) i bn)) ->
    dv s' m = dv s m }.

Lemma file_ok_size V i z : file_ok V i -> file_ok V (with_size z i).
Proof. intros [F1 F2 F3 F4 F5 F6]. by split. Qed.
Lemma written_dense V i off src V' i' :
  0 <= off <= i_size i -> off + Z.of_nat (length src) <= MAXFILE * BSIZE -> dense V i -> written V i off src V' i' ->
  dense V' (with_size (Z.max (i_size i) (off + Z.of_nat (length src))) i').
Proof.
  intros Hoff Hmax [D1 D2] Hw. split; [cbn; lia|]. cbn [i_size with_size]. intros bn Hbn Hlt.
  change (block_of V' (with_size _ i') bn) with (block_of V' i' bn). rewrite MAXFILE_eq in *. unfold BSIZE in *.
  destruct (decide (bn * 512 < i_size i)) as [Hin|Hout].
  - rewrite (wr_block _ _ _ _ _ _ Hw); [by apply D2|rewrite MAXFILE_eq; lia|by apply D2].
  - apply (wr_range _ _ _ _ _ _ Hw); [intros ->; cbn in *; lia|dlia|lia].
Qed.

Lemma writei_ok s ip i bs off src :
  fstate s ip i bs -> dense (dv s) i -> i_type i <> T_DEV -> 0 <= i_inum i < sb_ninodes sb ->
  0 <= off <= i_size i -> off + Z.of_nat (length src) <= MAXFILE * BSIZE -> is_bytes src ->
  room lsize bs (6 * nblocks off (Z.of_nat (length src)) + 1) ->
  wpx (full sb (dv s) (2 * nblocks off (Z.of_nat (length src)))) (writei devsw ip src off (Z.of_nat (length src)))
    (fun r s' => r = Z.of_nat (length src) /\ wrote_file s ip i bs off src s') s.
Proof.
  intros Hs Hd Hty Hinum Hoff Hmax Hb Hr. pose proof (de_size _ _ Hd) as Hsize. set (n := Z.of_nat (length src)) in *.
  unfold writei. wpx_step. apply (get_inode_wpx _ ip i); [apply Hs|]. rewrite (proj2 (Z.eqb_neq _ _)) by done.
  assert (MAXFILE * BSIZE = 71680) as Hc by done.
  rewrite Z.gtb_ltb, (proj2 (Z.ltb_ge _ _)) by lia. rewrite u32_small by lia. rewrite (proj2 (Z.ltb_ge _ _)) by lia. cbn [orb].
  rewrite Z.gtb_ltb, (proj2 (Z.ltb_ge _ _)) by lia. wpx_step.
  wpx_use (writei_loop_ok _ s ip i bs off src Hs); [lia|done|done|by eapply room_le; [exact Hr|fold n; lia]|unfold BSIZE; fold n; dlia|].
  intros _ s1 (i1 & bs1 & Hw1). pose proof (wo_state _ _ _ _ _ _ _ _ _ Hw1) as Hs1. pose proof (wo_written _ _ _ _ _ _ _ _ _ Hw1) as Hwr.
  pose proof (written_dense _ _ _ _ _ _ Hoff Hmax Hd Hwr) as Hd1. fold n in Hd1.
  assert (i_size i1 = i_size i /\ i_type i1 = i_type i /\ i_inum i1 = i_inum i /\ i_ref i1 = i_ref i) as (Hsz1 & Hty1 & Hin1 & Href1) by by rewrite (wr_inode _ _ _ _ _ _ Hwr).
  wpx_step. apply (get_inode_wpx _ ip i1); [apply Hs1|]. rewrite Hsz1, !Z.gtb_ltb. wpx_step.
  destruct ((0 <? n) && (i_size i <? off + n)) eqn:E; cbn [when].
  2: { wpx_step. wpx_step. split; [apply i32_small; lia|]. assert (Z.max (i_size i) (off + n) = i_size i) as Hmx.
       { apply andb_false_iff in E as [E%Z.ltb_ge|E%Z.ltb_ge]; lia. }
       rewrite Hmx in Hd1. assert (with_size (i_size i) i1 = i1) as Hws by (rewrite <-Hsz1; by destruct i1). rewrite Hws in Hd1.
       split.
       - exists i1, bs1. split; [done|]. split; [done|]. split; [pose proof (wo_length _ _ _ _ _ _ _ _ _ Hw1); lia|].
         split; [intros x Hx; destruct (wo_logged _ _ _ _ _ _ _ _ _ Hw1 x Hx) as [?|[?|[[? _]|?]]]; by auto 10|]. split; [fold n; lia|]. split; [done|]. split; [done|]. split; [split; [done|split; apply Hw1]|]. apply Hwr.
       - intros m Hm1 _ Hm2. by apply (wr_other _ _ _ _ _ _ Hwr). }
  apply andb_prop in E as [E1%Z.ltb_lt E2%Z.ltb_lt]. assert (Z.max (i_size i) (off + n) = off + n) as Hmx by lia. rewrite Hmx in Hd1.
  wpx_step. apply (upd_inode_wpx _ ip i1); [apply Hs1|]. set (i2 := with_size (off + n) i1) in *. set (s2 := set_icache _ s1).
  assert (fstate s2 ip i2 bs1) as Hs2.
  { destruct Hs1 as [T1 T2 T3 T4]. split; [by apply txn_icache|done|by apply file_ok_size|].
    cbn. rewrite list_lookup_insert_eq; [done|by apply lookup_lt_Some in T4]. }
  apply wpx_wp. assert (0 <= i_inum i2 < sb_ninodes sb) as Hin2 by (cbn; by rewrite Hin1).
  wp_use (iupdate_ok s2 ip i2 bs1 Hs2 Hin2); [pose proof (wo_length _ _ _ _ _ _ _ _ _ Hw1) as Hlen; unfold room in *; fold n in Hlen; lia|].
  intros _ s3 (Ht3 & [Hic3 Hlk3] & Hv3). wpx_step. split; [apply i32_small; lia|].
  assert (i_inum i2 = i_inum i) as Hinum2 by (cbn; by rewrite Hin1). rewrite Hinum2 in *.
  pose proof (IBLOCK_range _ Hinum) as Hblk. set (ib := IBLOCK (i_inum i) sb) in *.
  assert (forall m, m <> ib -> dv s3 m = dv s1 m) as Hne by (intros m Hm; rewrite Hv3; unfold put_data; by rewrite decide_False).
  pose proof (ft_file _ _ _ _ _ _ _ _ Hs2) as HF2. split.
  - exists i2, (logged bs1 ib). split; [|split; [|split; [|split; [|split; [fold n; cbn; lia|split; [done|split; [done|split; [split; [done|split]|]]]]]]]].
    + split; [done| |by apply (ino_file_ok (dv s1) (dv s3) ib)|].
      * apply (ino_map_ok (dv s1) (dv s3) ib); [done|done|apply Hs1|]. rewrite Hv3. unfold put_data. rewrite decide_True by done.
        rewrite length_put_dinode. apply Hs1. pose proof (ly_data _ _ _ _ Hly). unfold data_start in *.
        pose proof (size_pos start lsize dsz sb Hly). assert (0 <= sb_size sb / BPB) by (rewrite BPB_eq; dlia). lia.
      * rewrite Hic3. apply Hs2.
    + destruct Hd1 as [D1 D2]. split; [done|]. intros bn ? ?. rewrite (ino_block_of (dv s1) (dv s3) ib) by done. by apply D2.
    + pose proof (wo_length _ _ _ _ _ _ _ _ _ Hw1). pose proof (logged_length bs1 ib). lia.
    + intros x [->|Hx]%logged_in; [by auto 10|].
      destruct (wo_logged _ _ _ _ _ _ _ _ _ Hw1 x Hx) as [?|[?|[[? _]|(bn & ? & ? & ->)]]]; [by auto 10..|].
      do 4 right. exists bn. split; [done|]. split; [done|]. symmetry. by rewrite (ino_block_of (dv s1) (dv s3) ib).
    + rewrite Hic3. cbn. by rewrite (wo_icache _ _ _ _ _ _ _ _ _ Hw1), list_insert_insert_eq.
    + rewrite Hlk3. cbn. apply Hw1.
    + intros k Hk. rewrite (ino_fbyte (dv s1) (dv s3) ib) by done. by apply Hwr.
  - intros m Hm1 Hm2 Hm3. rewrite Hne by done. by apply (wr_other _ _ _ _ _ _ Hwr).
Qed.
End Write.
