(* ===== verification/FsTheorems.v ===== *)
(** * The contracts of the block allocator and of file reads and writes *)

From S2P Require Import Prelude Block Bio Log LogCrash LogTheorems LogOps Fs FsTx FsAlloc FsBmap FsFile FsWrite.
From stdpp Require Import base gmap list strings.
From Stdlib Require Import ZArith Lia.
#[local] Open Scope Z_scope.

(** ** The contract of the allocator *)

(** C31: [balloc] returns a block of the data area that was free, now marked and
    full of zeroes, and no other mark and no other block outside the free map
    changes; it panics only when every block is in use. *)
Theorem balloc_allocates start lsize dsz sb s bs :
  layout_ok start lsize dsz sb -> txn start lsize dsz sb s [] bs -> map_ok sb (dv s) -> room lsize bs 2 ->
  match balloc 1 s with
  | Ret b s' =>
      data_start sb <= b < sb_size sb /\ marked sb (dv s) b = false /\ dv s' b = zeroes 512 /\
      (forall x, 0 <= x < sb_size sb -> marked sb (dv s') x = bool_decide (x = b) || marked sb (dv s) x) /\
      (forall m, m <> b -> m <> BBLOCK b sb -> dv s' m = dv s m) /\ map_ok sb (dv s') /\
      txn start lsize dsz sb s' [] (logged (logged bs (BBLOCK b sb)) b)
  | Panic msg => msg = "balloc: out of blocks"%string /\ forall b, 0 <= b < sb_size sb -> marked sb (dv s) b = true
  | _ => False
  end.
Proof.
  intros Hly Ht HV Hr. pose proof (balloc_ok start lsize dsz sb Hly s [] bs Ht HV) as Hw. unfold wpx in Hw.
  specialize (Hw ltac:(by intros n ?%not_elem_of_nil) ltac:(cbn; lia) Hr). destruct (balloc 1 s) as [b s'| | | |]; try done.
  destruct Hw as [Hb Hf Ht' Hic Hv]. split; [done|]. split; [done|]. pose proof (alloc_view_ok start lsize dsz sb Hly _ b HV Hb) as HV'.
  split; [rewrite Hv; unfold alloc_view; by rewrite decide_True|]. split; [|split; [|split; [|done]]].
  - intros x Hx. rewrite <-(alloc_view_marked start lsize dsz sb Hly _ b x HV Hb Hx). apply marked_ext, Hv.
  - intros m Hm1 Hm2. rewrite Hv. unfold alloc_view. by rewrite !decide_False.
  - by apply (map_ok_ext sb (alloc_view sb (dv s) b)).
Qed.

(** ** The contract of writei *)

(** What a caller of [writei] has to have: a transaction with a locked file whose
    blocks are allocated up to its size, data that fits in the file and in the
    log, and free blocks for it. *)
Record may_write (start lsize dsz : Z) (sb : superblock) (s : fsys) (ip : nat) (i : inode) (bs : list Z)
  (off : Z) (src : list Z) : Prop := {
  mw_layout : layout_ok start lsize dsz sb;
  mw_state : fstate start lsize dsz sb s ip i bs;
  mw_dense : dense (dv s) i;
  mw_type : i_type i <> T_DEV;
  mw_inum : 0 <= i_inum i < sb_ninodes sb;
  mw_off : 0 <= off <= i_size i;
  mw_max : off + Z.of_nat (length src) <= MAXFILE * BSIZE;
  mw_bytes : is_bytes src;
  mw_room : room lsize bs (6 * nblocks off (Z.of_nat (length src)) + 1);
  mw_free : 2 * nblocks off (Z.of_nat (length src)) <= nfree sb (dv s) }.

Lemma writei_wp start lsize dsz sb devsw s ip i bs off src :
  may_write start lsize dsz sb s ip i bs off src ->
  wp (writei devsw ip src off (Z.of_nat (length src)))
    (fun r s' => r = Z.of_nat (length src) /\ wrote_file start lsize dsz sb s ip i bs off src s') s.
Proof.
  intros [Hly Hs Hd Hty Hin Hoff Hmax Hb Hr Hf].
  pose proof (writei_ok start lsize dsz sb devsw Hly s ip i bs off src Hs Hd Hty Hin Hoff Hmax Hb Hr) as Hw.
  apply wpx_no_panic. eapply wpx_weaken; [exact Hw|]. intros msg [_ Hn]. lia.
Qed.

(** C4: [writei] writes all of its data: the size becomes the larger of the old
    one and the end of the data, the bytes written are the data, every other
    byte of the file and every block of other files is as before. *)
Theorem writei_writes start lsize dsz sb devsw s ip i bs off src :
  may_write start lsize dsz sb s ip i bs off src ->
  exists s', writei devsw ip src off (Z.of_nat (length src)) s = Ret (Z.of_nat (length src)) s' /\
    wrote_file start lsize dsz sb s ip i bs off src s'.
Proof.
  intros Hm. pose proof (writei_wp start lsize dsz sb devsw s ip i bs off src Hm) as (r & s' & Hrun & -> & Hw)%wp_Ret. by exists s'.
Qed.

(** C16: reading back what was just written gives the data. *)
Theorem writei_readi start lsize dsz sb devsw s ip i bs off src :
  may_write start lsize dsz sb s ip i bs off src ->
  exists s', (_ ← writei devsw ip src off (Z.of_nat (length src)); readi devsw ip off (Z.of_nat (length src))) s =
    Ret (Z.of_nat (length src), src) s'.
Proof.
  intros Hm. pose proof (mw_layout _ _ _ _ _ _ _ _ _ _ Hm) as Hly. pose proof (mw_off _ _ _ _ _ _ _ _ _ _ Hm) as Hoff.
  pose proof (mw_max _ _ _ _ _ _ _ _ _ _ Hm) as Hmax. assert (MAXFILE * BSIZE = 71680) as Hc by done.
  assert (wp (_ ← writei devsw ip src off (Z.of_nat (length src)); readi devsw ip off (Z.of_nat (length src)))
    (fun r _ => r = (Z.of_nat (length src), src)) s) as Hw; [|apply wp_Ret in Hw as (r & s' & Hrun & ->); by exists s'].
  wp_step. wp_use (writei_wp start lsize dsz sb devsw s ip i bs off src Hm). intros r s1 [_ Hw].
  destruct (wf_state _ _ _ _ _ _ _ _ _ _ _ Hw) as (i1 & bs1 & Hs1 & Hd1 & Hlen & _ & Hsz & Hty & _ & _ & Hby).
  wp_use (readi_ok start lsize dsz sb devsw Hly s1 ip i1 bs1 off (Z.of_nat (length src)) Hs1); try done.
  - pose proof (mw_room _ _ _ _ _ _ _ _ _ _ Hm). unfold room in *. lia.
  - rewrite Hty. apply Hm.
  - lia.
  - lia.
  - intros r' s2 [-> _]. rewrite Hsz, Z.min_l by lia. f_equal. unfold fbytes. apply list_eq. intros j. rewrite list_lookup_fmap.
    destruct (decide (j < length src)%nat) as [Hj|Hj].
    + rewrite lookup_seqZ_lt by lia. cbn. rewrite Hby by lia. rewrite decide_True by lia.
      replace (Z.to_nat (off + Z.of_nat j - off)) with j by lia. rewrite nth_lookup. by destruct (lookup_lt_is_Some_2 src j Hj) as [v ->].
    + rewrite lookup_seqZ_ge by lia. symmetry. apply lookup_ge_None. lia.
Qed.

(** The blocks a write may log: the inode, the indirect block, the free map and
    the blocks it touches. *)
Lemma logged_bound (bs : list Z) (bm ind ib a n : Z) (f : Z -> Z) :
  NoDup bs -> 0 <= n ->
  (forall x, x ∈ bs -> x = bm \/ x = ind \/ x = ib \/ exists bn, a <= bn < a + n /\ x = f bn) ->
  Z.of_nat (length bs) <= n + 3.
Proof.
  intros Hnd Hn Hb. assert (bs ⊆+ bm :: ind :: ib :: (f <$> seqZ a n)) as Hs.
  { apply NoDup_submseteq; [done|]. intros x Hx. destruct (Hb x Hx) as [->|[->|[->|(bn & Hbn & ->)]]].
    - left.
    - right; left.
    - right; right; left.
    - do 3 right. apply list_elem_of_fmap. exists bn. split; [done|]. apply elem_of_seqZ. lia. }
  apply submseteq_length in Hs. cbn [length] in Hs. rewrite length_fmap, length_seqZ in Hs. lia.
Qed.

(** a write of at most three blocks' worth of bytes, the chunk [filewrite]
    uses, logs no more blocks than a transaction reserves, when one block holds
    the free map. *)
Theorem writei_fits start lsize dsz sb devsw s ip i off src :
  may_write start lsize dsz sb s ip i [] off src -> sb_size sb < BPB ->
  Z.of_nat (length src) <= (MAXOPBLOCKS - 1 - 1 - 2) / 2 * 512 ->
  exists s' bs', writei devsw ip src off (Z.of_nat (length src)) s = Ret (Z.of_nat (length src)) s' /\
    txn start lsize dsz sb s' [] bs' /\ Z.of_nat (length bs') <= MAXOPBLOCKS.
Proof.
  intros Hm Hone Hn. pose proof (writei_wp start lsize dsz sb devsw s ip i [] off src Hm) as (r & s' & Hrun & -> & Hw)%wp_Ret.
  destruct (wf_state _ _ _ _ _ _ _ _ _ _ _ Hw) as (i1 & bs1 & Hs1 & _ & _ & Hlog & _).
  exists s', bs1. split; [done|]. split; [apply Hs1|]. pose proof (mw_off _ _ _ _ _ _ _ _ _ _ Hm) as Hoff.
  assert (MAXOPBLOCKS = 10) as HM by done. rewrite HM in *. change ((10 - 1 - 1 - 2) / 2 * 512) with 1536 in Hn.
  assert (data_start sb = sb_bmapstart sb + 1) as Hds.
  { unfold data_start. rewrite Z.div_small; [lia|]. pose proof (size_pos _ _ _ _ (mw_layout _ _ _ _ _ _ _ _ _ _ Hm)). lia. }
  pose proof (logged_bound bs1 (sb_bmapstart sb) (ind_addr i1) (IBLOCK (i_inum i) sb) (off / 512) 4 (block_of (dv s') i1)) as Hb.
  assert (Z.of_nat (length bs1) <= 4 + 3); [|lia]. apply Hb; [apply (tn_log _ _ _ _ _ _ _ (ft_txn _ _ _ _ _ _ _ _ Hs1))|lia|].
  intros x Hx. destruct (Hlog x Hx) as [Hx0|[Hbm|[->|[->|(bn & H1 & H2 & ->)]]]]; [by apply not_elem_of_nil in Hx0|left; lia|by auto..|].
  do 3 right. exists bn. split; [dlia|done].
Qed.

(** ** A small file system

    Blocks 33 to 49 of a disk of 100: one of inodes, the free map, and the data;
    the file of inode 1 has one block, 35, and ten bytes. *)
Definition tiny_sb : superblock := mkSb 50 15 7 31 2 33 34.
Definition tiny_map : blk := [255; 255; 255; 255; 15] ++ replicate 507 0.
Definition tiny_disk : gmap Z blk :=
  <[34 := tiny_map]> (foldr (fun n d => <[n := zero_block]> d) demo_disk (seqZ 33 17)).
Definition tiny_inode : inode := mkInode 1 1 1 true 1 T_FILE 0 0 1 10 (35 :: replicate 12 0).
Definition tiny_fs : fsys := mkFs (mkLsys (binit 100 tiny_disk) (with_outstanding 1 demo_log)) tiny_sb [tiny_inode] false.

Lemma tiny_view n : dv tiny_fs n = default [] (tiny_disk !! n).
Proof.
  destruct (binit_rep 100 tiny_disk) as [Hrep Hp]. unfold dv. cbn [tiny_fs fs_l l_bc].
  by rewrite (view_disk _ [] n Hrep (not_elem_of_nil _) (Hp n)).
Qed.
Lemma tiny_layout : layout_ok 2 31 100 tiny_sb.
Proof. split; cbn; by vm_compute. Qed.
Lemma tiny_txn : txn 2 31 100 tiny_sb tiny_fs [] [].
Proof.
  destruct (binit_rep 100 tiny_disk) as [Hrep Hp]. split; [|by vm_compute|reflexivity|reflexivity].
  split; try reflexivity; try done.
  - intros m. split; [intros Hm; by destruct (Hp m)|by intros ?%not_elem_of_nil].
  - by intros m ?%not_elem_of_nil.
  - constructor.
  - apply not_elem_of_nil.
  - split; try reflexivity; try done; [constructor|].
    split; [apply not_elem_of_nil|]. split; [apply demo_home; by right|]. split; reflexivity.
Qed.
Lemma range_check a n (f : Z -> bool) : forallb f (seqZ a n) = true -> forall x, a <= x < a + n -> f x = true.
Proof. intros Hf x Hx. rewrite List.forallb_forall in Hf. apply Hf, list_elem_of_In, elem_of_seqZ. lia. Qed.

Lemma tiny_map_ok : map_ok tiny_sb (dv tiny_fs).
Proof.
  split.
  - intros b Hb. change (data_start tiny_sb) with 35 in Hb. unfold marked. rewrite tiny_view.
    apply (range_check 0 35 (fun b => bit_set (default [] (tiny_disk !! BBLOCK b tiny_sb)) (b mod BPB))); [reflexivity|lia].
  - intros n Hn. cbn in Hn. rewrite tiny_view. apply Nat.eqb_eq.
    apply (range_check 33 17 (fun n => Nat.eqb (length (default [] (tiny_disk !! n))) 512)); [reflexivity|lia].
Qed.
Lemma tiny_block bn : block_of (dv tiny_fs) tiny_inode bn = if decide (bn < 1) then get_addr tiny_inode bn else 0.
Proof.
  unfold block_of. change (ind_addr tiny_inode) with 0. unfold NDIRECT. destruct (Z.ltb_spec bn 12) as [Hlt|Hge].
  - case_decide; [done|]. apply Z.eqb_eq.
    apply (range_check 1 11 (fun bn => get_addr tiny_inode bn =? 0)); [reflexivity|lia].
  - by rewrite decide_False by lia.
Qed.
Lemma tiny_fstate : fstate 2 31 100 tiny_sb tiny_fs 0 tiny_inode [].
Proof.
  assert (addr_ok tiny_sb (dv tiny_fs) 35) as H35.
  { right. split; [by vm_compute|]. unfold marked. rewrite tiny_view. reflexivity. }
  split; [apply tiny_txn|apply tiny_map_ok| |reflexivity]. split; try reflexivity.
  - by left.
  - intros bn Hbn. rewrite tiny_block. case_decide; [|by left]. assert (bn = 0) as -> by lia. exact H35.
  - intros bn bn' Hbn Hbn'. rewrite !tiny_block. destruct (decide (bn < 1)), (decide (bn' < 1)); try done. lia.
  - intros bn Hbn. rewrite tiny_block. by case_decide.
Qed.

Definition tiny_src : list Z := [104; 101; 108; 108; 111].
Lemma tiny_may_write : may_write 2 31 100 tiny_sb tiny_fs 0 tiny_inode [] 8 tiny_src.
Proof.
  split.
  - apply tiny_layout.
  - apply tiny_fstate.
  - split; [done|]. intros bn Hbn Hlt. cbn in Hlt. rewrite tiny_block, decide_True by lia. assert (bn = 0) as -> by lia. done.
  - done.
  - done.
  - done.
  - done.
  - repeat constructor; done.
  - by split; vm_compute.
  - rewrite (nfree_ext tiny_sb (fun n => default [] (tiny_disk !! n))) by (intros x _; by apply marked_ext, tiny_view).
    by vm_compute.
Qed.

Lemma balloc_allocates_witness : exists b s', balloc 1 tiny_fs = Ret b s' /\ 35 <= b < 50 /\ dv s' b = zeroes 512.
Proof.
  pose proof (balloc_allocates 2 31 100 tiny_sb tiny_fs [] tiny_layout tiny_txn tiny_map_ok) as HB.
  destruct (balloc 1 tiny_fs) as [b s'|msg|w|c|].
  - specialize (HB ltac:(by split; vm_compute)). exists b, s'. split; [reflexivity|]. by destruct HB as (Hb & _ & Hz & _).
  - destruct (HB ltac:(by split; vm_compute)) as [_ Hall]. specialize (Hall 36 ltac:(by vm_compute)). unfold marked in Hall.
    rewrite tiny_view in Hall. discriminate Hall.
  - destruct (HB ltac:(by split; vm_compute)).
  - destruct (HB ltac:(by split; vm_compute)).
  - destruct (HB ltac:(by split; vm_compute)).
Defined.
Lemma writei_writes_witness : exists s', writei (fun _ => mkDev None None) 0 tiny_src 8 5 tiny_fs = Ret 5 s' /\
  wrote_file 2 31 100 tiny_sb tiny_fs 0 tiny_inode [] 8 tiny_src s'.
Proof. exact (writei_writes 2 31 100 tiny_sb _ tiny_fs 0 tiny_inode [] 8 tiny_src tiny_may_write). Defined.
Lemma writei_readi_witness : exists s',
  (_ ← writei (fun _ => mkDev None None) 0 tiny_src 8 5; readi (fun _ => mkDev None None) 0 8 5) tiny_fs = Ret (5, tiny_src) s'.
Proof. exact (writei_readi 2 31 100 tiny_sb _ tiny_fs 0 tiny_inode [] 8 tiny_src tiny_may_write). Defined.
Lemma writei_fits_witness : exists s' bs', writei (fun _ => mkDev None None) 0 tiny_src 8 5 tiny_fs = Ret 5 s' /\
  txn 2 31 100 tiny_sb s' [] bs' /\ Z.of_nat (length bs') <= MAXOPBLOCKS.
Proof. apply (writei_fits 2 31 100 tiny_sb _ tiny_fs 0 tiny_inode 8 tiny_src tiny_may_write); by vm_compute. Defined.
