(* ===== verification/Dir.v ===== *)
(** * Directories (fs.c: dirlookup, dirlink)

    A directory is a file of entries of 16 bytes; to its users it is a map from
    names to inode numbers.  [dirlink] adds one name to the map, and [dirlookup]
    returns the inode that the map has. *)

From S2P Require Import Prelude Block Bio Log LogCrash LogTheorems LogOps Fs FsTx FsAlloc FsBmap FsFile FsWrite FsTheorems.
From stdpp Require Import base gmap list strings.
From Stdlib Require Import ZArith Lia.
#[local] Open Scope Z_scope.

(** ** Names *)

Lemma strncmp_l_sym n s t : strncmp_l n s t = 0 -> strncmp_l n t s = 0.
Proof.
  revert s t. induction n as [|n IH]; intros s t; cbn; [done|].
  destruct (c_true (hd 0 s)) eqn:Ec; cbn [andb]; destruct (Z.eqb_spec (hd 0 s) (hd 0 t)) as [E|E]; try lia.
  - rewrite <-E, Ec, Z.eqb_refl. cbn. apply IH.
  - rewrite <-E, Ec. cbn. lia.
Qed.
Lemma strncmp_l_trans n s t u : strncmp_l n s t = 0 -> strncmp_l n t u = 0 -> strncmp_l n s u = 0.
Proof.
  revert s t u. induction n as [|n IH]; intros s t u; cbn; [done|].
  destruct (Z.eqb_spec (hd 0 s) (hd 0 t)) as [E|E]; [|rewrite andb_false_r; lia]. rewrite E.
  destruct (c_true (hd 0 t)) eqn:Ec; cbn [andb]; [|lia]. destruct (Z.eqb_spec (hd 0 t) (hd 0 u)); [apply IH|lia].
Qed.
Lemma namecmp_same n a b : namecmp n a = 0 -> namecmp n b = 0 <-> namecmp a b = 0.
Proof. intros Ha. split; [apply strncmp_l_trans, strncmp_l_sym, Ha|by apply strncmp_l_trans]. Qed.
(** The field of an entry stands for the name it was copied from. *)
Lemma strncmp_l_copy n m s t : (n <= m)%nat -> strncmp_l n s (strncpy_l m t) = strncmp_l n s t.
Proof.
  revert m s t. induction n as [|n IH]; intros m s t Hm; [done|]. destruct m as [|m]; [lia|].
  assert (hd 0 (strncpy_l (S m) t) = hd 0 t /\ tl (strncpy_l (S m) t) = strncpy_l m (tl t)) as [E1 E2].
  { destruct t as [|c t]; [|done]. split; [done|]. unfold strncpy_l, zeroes. cbn. by rewrite take_nil, Nat.sub_0_r. }
  cbn [strncmp_l]. rewrite E1, E2, IH by lia. done.
Qed.

(** ** The map that a directory stands for *)

Definition entry (V : Z -> blk) (i : inode) (k : Z) : list Z := fbytes V i (16 * k) 16.
Definition entries (V : Z -> blk) (i : inode) : list (list Z) := entry V i <$> seqZ 0 (i_size i / 16).

Definition is_named (name de : list Z) : bool := negb (de_inum de =? 0) && (namecmp name (de_name de) =? 0).
Fixpoint find_name (name : list Z) (es : list (list Z)) : option (nat * Z) :=
  match es with
  | [] => None
  | de :: es => if is_named name de then Some (O, de_inum de) else prod_map S id <$> find_name name es
  end.
Definition dir_map (es : list (list Z)) (name : list Z) : option Z := snd <$> find_name name es.

(** The entry [dirlink] uses: the first empty one or a new one. *)
Fixpoint free_slot (es : list (list Z)) : nat :=
  match es with [] => O | de :: es => if de_inum de =? 0 then O else S (free_slot es) end.
Definition set_entry (k : nat) (de : list Z) (es : list (list Z)) : list (list Z) :=
  if decide (k < length es)%nat then <[k := de]> es else es ++ [de].

Lemma free_slot_le es : (free_slot es <= length es)%nat.
Proof. induction es as [|de es IH]; cbn; [lia|]. destruct (de_inum de =? 0); lia. Qed.
Lemma set_entry_S k de e es : set_entry (S k) de (e :: es) = e :: set_entry k de es.
Proof. unfold set_entry. cbn. repeat case_decide; try lia; done. Qed.
Lemma dir_map_cons de es name : dir_map (de :: es) name = if is_named name de then Some (de_inum de) else dir_map es name.
Proof. unfold dir_map. cbn. destruct (is_named name de); [done|]. by destruct (find_name name es) as [[]|]. Qed.

Lemma dir_map_same es n name : namecmp n name = 0 -> dir_map es n = dir_map es name.
Proof.
  intros Hn. induction es as [|de es IH]; [done|]. rewrite !dir_map_cons, IH. unfold is_named.
  assert ((namecmp n (de_name de) =? 0) = (namecmp name (de_name de) =? 0)) as ->; [|done].
  apply eq_true_iff_eq. rewrite !Z.eqb_eq. by apply namecmp_same.
Qed.
Lemma dir_map_set es de n :
  de_inum de <> 0 -> (namecmp n (de_name de) = 0 -> dir_map es n = None) ->
  dir_map (set_entry (free_slot es) de es) n = if namecmp n (de_name de) =? 0 then Some (de_inum de) else dir_map es n.
Proof.
  intros Hde Habs. assert (is_named n de = (namecmp n (de_name de) =? 0)) as Hn by (unfold is_named; by rewrite (proj2 (Z.eqb_neq _ _) Hde)).
  rewrite <-Hn. assert (is_named n de = true -> dir_map es n = None) as Ha by (rewrite Hn; by intros ?%Z.eqb_eq; apply Habs). clear Habs.
  induction es as [|e es IH]; cbn [free_slot].
  - unfold set_entry. rewrite decide_False by (cbn; lia). by rewrite app_nil_l, dir_map_cons.
  - destruct (Z.eqb_spec (de_inum e) 0) as [He|He].
    + unfold set_entry. rewrite decide_True by (cbn; lia). change (<[0%nat := de]> (e :: es)) with (de :: es). rewrite !dir_map_cons.
      assert (is_named n e = false) as E by (unfold is_named; by rewrite He). by rewrite E.
    + rewrite set_entry_S, !dir_map_cons in *. destruct (is_named n e) eqn:E.
      * destruct (is_named n de); [by discriminate Ha|done].
      * by apply IH.
Qed.

Lemma make_dirent_ok inum name :
  0 < inum < 65536 -> is_bytes name ->
  length (make_dirent inum name) = 16%nat /\ is_bytes (make_dirent inum name) /\ de_inum (make_dirent inum name) = inum /\
  forall n, namecmp n (de_name (make_dirent inum name)) = namecmp n name.
Proof.
  intros Hi Hn. assert (set_half (zeroes 2) 0 inum = [inum mod 256; inum / 256 mod 256]) as E by done.
  assert (length (strncpy_l DIRSIZ name) = 14%nat) as Hl.
  { unfold strncpy_l, zeroes. rewrite length_app, length_take, length_replicate. unfold DIRSIZ. lia. }
  unfold make_dirent. rewrite E. split; [by rewrite length_app, Hl|]. split; [|split].
  - constructor; [dlia|]. constructor; [dlia|]. unfold strncpy_l. apply Forall_app. split; [by apply Forall_take|].
    unfold zeroes. apply Forall_replicate. lia.
  - unfold de_inum, half_at, byte_at. change (Z.to_nat 0) with 0%nat. change (Z.to_nat (0 + 1)) with 1%nat. cbn [nth app]. dlia.
  - intros n. unfold de_name, namecmp. rewrite skipn_app, drop_ge by done. cbn [length Nat.sub app]. rewrite drop_0. by apply strncmp_l_copy.
Qed.

(** ** The inode cache *)

Lemma iget_scan_ok l k dev inum e :
  match iget_scan l k dev inum e with
  | inl ip => exists j, (k <= ip)%nat /\ l !! (ip - k)%nat = Some j /\ i_inum j = inum
  | inr (Some ip) => e = Some ip \/ exists j, (k <= ip)%nat /\ l !! (ip - k)%nat = Some j
  | inr None => e = None /\ forall n j, l !! n = Some j -> i_ref j <> 0
  end.
Proof.
  revert k e. induction l as [|x l IH]; intros k e; cbn [iget_scan]; [destruct e; [by left|done]|].
  destruct ((i_ref x >? 0) && (i_dev x =? dev) && (i_inum x =? inum)) eqn:E.
  { apply andb_prop in E as [_ E%Z.eqb_eq]. exists x. by rewrite Nat.sub_diag. }
  set (e' := match e with None => _ | Some _ => _ end). specialize (IH (S k) e').
  assert (forall ip j, (S k <= ip)%nat -> l !! (ip - S k)%nat = Some j -> (k <= ip)%nat /\ (x :: l) !! (ip - k)%nat = Some j) as Hs.
  { intros ip j Hip Hj. split; [lia|]. replace (ip - k)%nat with (S (ip - S k)) by lia. done. }
  destruct (iget_scan l (S k) dev inum e') as [ip|[ip|]].
  - destruct IH as (j & H1 & H2 & H3). destruct (Hs ip j H1 H2). by exists j.
  - destruct IH as [He|(j & H1 & H2)]; [|destruct (Hs ip j H1 H2); right; by exists j].
    subst e'. destruct e; [by left|]. destruct (i_ref x =? 0); [|done]. injection He as <-. right. exists x. by rewrite Nat.sub_diag.
  - destruct IH as [He Hl]. subst e'. destruct e; [done|]. split; [done|]. destruct (Z.eqb_spec (i_ref x) 0) as [|Hx]; [done|].
    intros [|m] j; [by intros [= <-]|]. apply Hl.
Qed.
Definition has_slot (s : fsys) : Prop := exists k j, icache s !! k = Some j /\ i_ref j = 0.
Lemma iget_ok s dev inum :
  ic_lock s = false -> has_slot s -> wp (iget dev inum) (fun ip s' => i_inum <$> icache s' !! ip = Some inum) s.
Proof.
  intros Hlk (k & j & Hk & Hj). unfold iget, acquire_icache, release_icache. do 3 wp_step. rewrite Hlk. cbv iota. do 3 wp_step. cbn [icache set_ic_lock].
  pose proof (iget_scan_ok (icache s) 0 dev inum None) as Hs.
  destruct (iget_scan (icache s) 0 dev inum None) as [ip|[ip|]].
  - destruct Hs as (x & _ & Hx & Hi). rewrite Nat.sub_0_r in Hx. wp_step. apply wpx_no_panic, (upd_inode_wpx _ ip x); [done|]. apply wpx_wp. do 3 wp_step. cbn [ic_lock set_ic_lock set_icache]. do 2 wp_step.
    cbn [icache set_ic_lock set_icache]. rewrite list_lookup_insert_eq by (by apply lookup_lt_Some in Hx). cbn. by rewrite Hi.
  - destruct Hs as [|(x & _ & Hx)]; [done|]. rewrite Nat.sub_0_r in Hx. wp_step. apply wpx_no_panic, (upd_inode_wpx _ ip x); [done|]. apply wpx_wp. do 3 wp_step. cbn [ic_lock set_ic_lock set_icache]. do 2 wp_step.
    cbn [icache set_ic_lock set_icache]. by rewrite list_lookup_insert_eq by (by apply lookup_lt_Some in Hx).
  - destruct Hs as [_ Hs]. by destruct (Hs k j Hk).
Qed.

Section Dir.
  Variables (start lsize dsz : Z) (sb : superblock) (devsw : Z -> devops).
  Notation fstate := (fstate start lsize dsz sb).
  Notation quiet := (quiet start lsize dsz sb).
  Context (Hly : layout_ok start lsize dsz sb).

(** A directory in a transaction. *)
Record dstate (s : fsys) (dp : nat) (i : inode) (bs : list Z) : Prop := {
  ds_file : fstate s dp i bs;
  ds_dense : dense (dv s) i;
  ds_type : i_type i = T_DIR;
  ds_size : i_size i mod 16 = 0;
  ds_room : room lsize bs 0 }.
Lemma quiet_entries s bs s' i : quiet s bs s' -> entries (dv s') i = entries (dv s) i.
Proof using.
  intros (_ & _ & Hv). unfold entries. apply list_fmap_ext. intros _ k _. apply fbytes_ext. intros x _.
  unfold fbyte. by rewrite (block_of_ext (dv s) (dv s')), Hv.
Qed.
Lemma quiet_dstate s dp i bs s' : dstate s dp i bs -> quiet s bs s' -> dstate s' dp i bs.
Proof using.
  intros [H1 [D1 D2] H3 H4 H5] Hq. split; [by apply (quiet_fstate _ _ _ _ s)| |done..]. split; [done|].
  destruct Hq as (_ & _ & Hv). intros bn ? ?. rewrite (block_of_ext (dv s)) by done. by apply D2.
Qed.
Lemma length_entries V i : length (entries V i) = Z.to_nat (i_size i / 16).
Proof using. unfold entries. by rewrite length_fmap, length_seqZ. Qed.
Lemma drop_entries V i k :
  (k < length (entries V i))%nat -> drop k (entries V i) = entry V i (Z.of_nat k) :: drop (S k) (entries V i).
Proof using.
  intros Hk. assert (entries V i !! k = Some (entry V i (Z.of_nat k))) as E; [|by apply drop_S].
  unfold entries. rewrite list_lookup_fmap, lookup_seqZ_lt by (rewrite length_entries in Hk; lia). done.
Qed.

(** Reading entry [k]. *)
Lemma read_entry s dp i bs k :
  dstate s dp i bs -> (k < length (entries (dv s) i))%nat ->
  wp (readi devsw dp (16 * Z.of_nat k) dirent_size) (fun r s' => r = (16, entry (dv s) i (Z.of_nat k)) /\ quiet s bs s') s.
Proof.
  intros [H1 H2 H3 H4 H5] Hk. rewrite length_entries in Hk. pose proof (de_size _ _ H2).
  wp_use (readi_ok start lsize dsz sb devsw Hly s dp i bs (16 * Z.of_nat k) dirent_size H1 H5 H2); unfold dirent_size in *.
  - by rewrite H3.
  - dlia.
  - lia.
  - intros r s' [-> Hq]. split; [|done]. rewrite Z.min_l by dlia. done.
Qed.

Lemma dirlookup_loop_ok fuel s dp i bs name k (Q : option (nat * Z) -> fsys -> Prop) :
  dstate s dp i bs -> (k <= length (entries (dv s) i) < k + fuel)%nat ->
  match find_name name (drop k (entries (dv s) i)) with
  | None => forall s', quiet s bs s' -> Q None s'
  | Some (j, inum) => forall s', quiet s bs s' -> wp (iget (i_dev i) inum) (fun ip => Q (Some (ip, 16 * Z.of_nat (k + j)))) s'
  end ->
  wp (dirlookup_loop devsw fuel dp name (16 * Z.of_nat k)) Q s.
Proof.
  revert s k Q. induction fuel as [|fuel IH]; intros s k Q Hs Hk HQ; [lia|]. cbn [dirlookup_loop]. wp_step.
  apply wpx_no_panic, (get_inode_wpx _ dp i); [apply Hs|]. apply wpx_wp.
  pose proof (length_entries (dv s) i) as Hl. pose proof (ds_size _ _ _ _ Hs) as Hsz.
  destruct (Z.ltb_spec (16 * Z.of_nat k) (i_size i)) as [Hlt|Hge].
  2: { wp_step. rewrite drop_ge in HQ by (rewrite Hl; dlia). apply HQ. split; [apply Hs|]. split; done. }
  assert (k < length (entries (dv s) i))%nat as Hk' by (rewrite Hl; dlia). rewrite drop_entries in HQ by done. cbn [find_name] in HQ.
  wp_step. wp_use (read_entry s dp i bs k Hs Hk'). intros r s1 [-> Hq]. cbn [fst snd]. change (negb (16 =? dirent_size)) with false. cbv iota.
  assert (wp (dirlookup_loop devsw fuel dp name (16 * Z.of_nat k + dirent_size)) Q s1 <->
    wp (dirlookup_loop devsw fuel dp name (16 * Z.of_nat (S k))) Q s1) as Hnext.
  { replace (16 * Z.of_nat k + dirent_size) with (16 * Z.of_nat (S k)) by (unfold dirent_size; lia). done. }
  set (de := entry (dv s) i (Z.of_nat k)) in *.
  assert (is_named name de = false -> wp (dirlookup_loop devsw fuel dp name (16 * Z.of_nat (S k))) Q s1) as Hskip.
  { intros En. rewrite En in HQ. apply IH; [by apply (quiet_dstate s)|rewrite (quiet_entries s bs) by done; lia|].
    rewrite (quiet_entries s bs) by done. destruct (find_name name (drop (S k) (entries (dv s) i))) as [[j inum]|]; cbn in HQ.
    - intros s' Hq'. replace (S k + j)%nat with (k + S j)%nat by lia. apply HQ. by apply (quiet_trans _ _ _ _ s _ s1).
    - intros s' Hq'. apply HQ. by apply (quiet_trans _ _ _ _ s _ s1). }
  unfold is_named in *. destruct (de_inum de =? 0); [by apply Hnext, Hskip|].
  destruct (namecmp name (de_name de) =? 0); [|by apply Hnext, Hskip]. cbn in HQ. wp_step.
  eapply wp_mono; [by apply HQ|]. intros ip s' H. wp_step. by rewrite Nat.add_0_r in H.
Qed.
Lemma dir_fuel_enough V i : 0 <= i_size i -> (0 <= length (entries V i) < 0 + dir_fuel i)%nat.
Proof using. intros H. rewrite length_entries. unfold dir_fuel, dirent_size. lia. Qed.
Lemma dirlookup_ok s dp i bs name (Q : option (nat * Z) -> fsys -> Prop) :
  dstate s dp i bs ->
  match find_name name (entries (dv s) i) with
  | None => forall s', quiet s bs s' -> Q None s'
  | Some (j, inum) => forall s', quiet s bs s' -> wp (iget (i_dev i) inum) (fun ip => Q (Some (ip, 16 * Z.of_nat j))) s'
  end ->
  wp (dirlookup devsw dp name) Q s.
Proof.
  intros Hs HQ. unfold dirlookup. wp_step. apply wpx_no_panic, (get_inode_wpx _ dp i); [apply Hs|]. apply wpx_wp.
  rewrite (ds_type _ _ _ _ Hs), Z.eqb_refl. cbn [negb]. apply (dirlookup_loop_ok _ s dp i bs name 0); [done| |by rewrite drop_0].
  apply dir_fuel_enough. apply (de_size _ _ (ds_dense _ _ _ _ Hs)).
Qed.

Lemma dirlink_loop_ok fuel s dp i bs k :
  dstate s dp i bs -> (k <= length (entries (dv s) i) < k + fuel)%nat ->
  wp (dirlink_loop devsw fuel dp (16 * Z.of_nat k))
    (fun off s' => off = 16 * Z.of_nat (k + free_slot (drop k (entries (dv s) i))) /\ quiet s bs s') s.
Proof.
  revert s k. induction fuel as [|fuel IH]; intros s k Hs Hk; [lia|]. cbn [dirlink_loop]. wp_step.
  apply wpx_no_panic, (get_inode_wpx _ dp i); [apply Hs|]. apply wpx_wp.
  pose proof (length_entries (dv s) i) as Hl. pose proof (ds_size _ _ _ _ Hs) as Hsz.
  destruct (Z.ltb_spec (16 * Z.of_nat k) (i_size i)) as [Hlt|Hge].
  2: { wp_step. rewrite drop_ge by (rewrite Hl; dlia). cbn. split; [lia|]. split; [apply Hs|]. split; done. }
  assert (k < length (entries (dv s) i))%nat as Hk' by (rewrite Hl; dlia). rewrite drop_entries by done. cbn [free_slot].
  wp_step. wp_use (read_entry s dp i bs k Hs Hk'). intros r s1 [-> Hq]. cbn [fst snd]. change (negb (16 =? dirent_size)) with false. cbv iota.
  set (de := entry (dv s) i (Z.of_nat k)) in *. destruct (de_inum de =? 0); [wp_step; split; [lia|done]|].
  replace (16 * Z.of_nat k + dirent_size) with (16 * Z.of_nat (S k)) by (unfold dirent_size; lia).
  wp_use (IH s1 (S k)); [by apply (quiet_dstate s)|rewrite (quiet_entries s bs) by done; lia|].
  intros off s2 [-> Hq2]. rewrite (quiet_entries s bs) by done. split; [lia|]. by apply (quiet_trans _ _ _ _ s _ s1).
Qed.

(** ** Writing an entry *)

Lemma entry_wrote V i V' i' k src k' :
  (forall x, 0 <= x < MAXFILE * BSIZE ->
    fbyte V' i' x = if decide (16 * k <= x < 16 * k + Z.of_nat (length src)) then nth (Z.to_nat (x - 16 * k)) src 0 else fbyte V i x) ->
  length src = 16%nat -> 0 <= k' -> 16 * k' + 16 <= MAXFILE * BSIZE -> entry V' i' k' = if decide (k' = k) then src else entry V i k'.
Proof using.
  intros Hb Hl Hk0 Hk1. unfold entry, fbytes. apply list_eq. intros j. rewrite list_lookup_fmap.
  destruct (decide (j < 16)%nat) as [Hj|Hj].
  - rewrite lookup_seqZ_lt by lia. cbn [fmap option_fmap option_map]. rewrite Hb, Hl by lia. case_decide as E1; case_decide as E2; try lia.
    + subst k'. replace (Z.to_nat (16 * k + Z.of_nat j - 16 * k)) with j by lia. symmetry. rewrite nth_lookup. destruct (lookup_lt_is_Some_2 src j) as [v ->]; [lia|done].
    + rewrite list_lookup_fmap, lookup_seqZ_lt by lia. done.
  - rewrite lookup_seqZ_ge by lia. cbn. symmetry. apply lookup_ge_None. case_decide; [lia|]. rewrite length_fmap, length_seqZ. lia.
Qed.
Lemma entries_wrote s dp i bs k de s' :
  dstate s dp i bs -> wrote_file start lsize dsz sb s dp i bs (16 * Z.of_nat k) de s' -> length de = 16%nat ->
  (k <= length (entries (dv s) i))%nat -> i_size i + 16 <= MAXFILE * BSIZE -> room lsize bs 7 ->
  exists i' bs', dstate s' dp i' bs' /\ entries (dv s') i' = set_entry k de (entries (dv s) i) /\
    i_ref i' = i_ref i /\ icache s' = <[dp := i']> (icache s) /\ ic_lock s' = ic_lock s.
Proof using.
  clear devsw Hly.
  intros Hs Hw Hl Hk Hmax Hr. destruct (wf_state _ _ _ _ _ _ _ _ _ _ _ Hw) as (i' & bs' & Hs' & Hd' & Hlen & _ & Hsz & Hty & _ & Hic & Hby).
  pose proof (ds_size _ _ _ _ Hs) as H16. pose proof (length_entries (dv s) i) as Hle. pose proof (length_entries (dv s') i') as Hle'.
  rewrite Hl in Hsz, Hlen. change (Z.of_nat 16) with 16 in *. pose proof (de_size _ _ (ds_dense _ _ _ _ Hs)) as Hs0.
  exists i', bs'. split; [|split; [|done]].
  - split; [done|done|rewrite Hty; by apply (ds_type _ _ _ _ Hs)|rewrite Hsz; dlia|].
    assert (nblocks (16 * Z.of_nat k) 16 = 1) as Hnb by (unfold nblocks; rewrite decide_False by lia; dlia). unfold room in *. lia.
  - apply list_eq. intros j. unfold set_entry. destruct (decide (j < length (entries (dv s') i'))%nat) as [Hj|Hj].
    + unfold entries at 1. rewrite list_lookup_fmap, lookup_seqZ_lt by lia. cbn [fmap option_fmap option_map].
      rewrite (entry_wrote (dv s) i _ _ (Z.of_nat k) de) by (done || dlia || lia). rewrite Z.add_0_l. rewrite Hle', Hsz in Hj.
      assert ((j < length (entries (dv s) i))%nat -> entries (dv s) i !! j = Some (entry (dv s) i (Z.of_nat j))) as He.
      { intros Hj'. unfold entries. rewrite list_lookup_fmap, lookup_seqZ_lt by lia. done. }
      destruct (decide (k < length (entries (dv s) i))%nat) as [Hin|Hout].
      * destruct (decide (j = k)) as [->|Hne]; [by rewrite list_lookup_insert_eq, decide_True|].
        rewrite list_lookup_insert_ne, decide_False by lia. symmetry. apply He. dlia.
      * destruct (decide (j = k)) as [->|Hne].
        -- rewrite decide_True, lookup_app_r by lia. assert (k - length (entries (dv s) i) = 0)%nat as -> by lia. done.
        -- rewrite decide_False, lookup_app_l by dlia. symmetry. apply He. dlia.
    + rewrite lookup_ge_None_2 by lia. symmetry. apply lookup_ge_None_2. rewrite Hle', Hsz in Hj.
      case_decide; rewrite ?length_insert, ?length_app; cbn; dlia.
Qed.
End Dir.

(** ** The contract of dirlink and dirlookup *)

(** What a caller of [dirlink] has to have: a transaction with a locked directory,
    a place in the cache for one more inode, and free blocks. *)
Record may_link (start lsize dsz : Z) (sb : superblock) (s : fsys) (dp : nat) (i : inode) (bs : list Z)
  (name : list Z) (inum : Z) : Prop := {
  ml_layout : layout_ok start lsize dsz sb;
  ml_dir : dstate start lsize dsz sb s dp i bs;
  ml_max : i_size i + 16 <= MAXFILE * BSIZE;
  ml_inum : 0 <= i_inum i < sb_ninodes sb;
  ml_ref : 0 < i_ref i;
  ml_lock : ic_lock s = false;
  ml_slot : has_slot s;
  ml_room : room lsize bs 7;
  ml_free : 2 <= nfree sb (dv s);
  ml_name : is_bytes name;
  ml_new : 0 < inum < 65536 }.

Lemma has_slot_upd s s' dp i i' :
  icache s !! dp = Some i -> 0 < i_ref i -> icache s' = <[dp := i']> (icache s) -> has_slot s -> has_slot s'.
Proof.
  intros Hi Hr He (k & j & Hk & Hj). exists k, j. split; [|done]. rewrite He. rewrite list_lookup_insert_ne; [done|].
  intros ->. rewrite Hi in Hk. injection Hk as ->. lia.
Qed.
Lemma quiet_slot start lsize dsz sb s bs s' : quiet start lsize dsz sb s bs s' -> ic_lock s = false -> has_slot s -> ic_lock s' = false /\ has_slot s'.
Proof. intros (_ & [E1 E2] & _) Hl (k & j & Hk). split; [congruence|]. exists k, j. by rewrite E1. Qed.

Lemma dirlink_ok start lsize dsz sb devsw s dp i bs name inum :
  may_link start lsize dsz sb s dp i bs name inum -> dir_map (entries (dv s) i) name = None ->
  wp (dirlink devsw dp name inum) (fun r s' => r = 0 /\ ic_lock s' = false /\ has_slot s' /\
    exists i' bs', dstate start lsize dsz sb s' dp i' bs' /\ entries (dv s') i' =
      set_entry (free_slot (entries (dv s) i)) (make_dirent inum name) (entries (dv s) i)) s.
Proof.
  intros [Hly Hs Hmax Hino Href Hlk Hsl Hr Hf Hnm Hnew] Hno. destruct (make_dirent_ok inum name Hnew Hnm) as (Hdl & Hdb & _).
  assert (find_name name (entries (dv s) i) = None) as Hn by (unfold dir_map in Hno; by destruct (find_name name _)).
  pose proof (de_size _ _ (ds_dense _ _ _ _ _ _ _ _ Hs)) as Hs0.
  unfold dirlink. wp_step. apply (dirlookup_ok start lsize dsz sb devsw Hly s dp i bs); [done|]. rewrite Hn. intros s1 Hq1.
  pose proof (quiet_dstate _ _ _ _ _ _ _ _ _ Hs Hq1) as Hs1. cbv iota. wp_step.
  apply wpx_no_panic, (get_inode_wpx _ dp i); [apply Hs1|]. apply wpx_wp. wp_step.
  wp_use (dirlink_loop_ok start lsize dsz sb devsw Hly (dir_fuel i) s1 dp i bs 0 Hs1); [apply dir_fuel_enough; lia|].
  intros off s2 [-> Hq2]. pose proof (quiet_trans _ _ _ _ _ _ _ _ Hq1 Hq2) as Hq. rewrite drop_0, Nat.add_0_l, (quiet_entries _ _ _ _ s bs s1 i Hq1).
  pose proof (quiet_dstate _ _ _ _ _ _ _ _ _ Hs Hq) as Hs2. pose proof (quiet_entries _ _ _ _ _ _ _ i Hq) as He.
  set (k := free_slot (entries (dv s) i)). assert (k <= length (entries (dv s) i))%nat as Hk by apply free_slot_le.
  pose proof (length_entries (dv s) i) as Hle. pose proof (ds_size _ _ _ _ _ _ _ _ Hs) as H16.
  assert (nblocks (16 * Z.of_nat k) 16 = 1) as Hnb by (unfold nblocks; rewrite decide_False by lia; dlia).
  assert (may_write start lsize dsz sb s2 dp i bs (16 * Z.of_nat k) (make_dirent inum name)) as Hmw.
  { split; rewrite ?Hdl; change (Z.of_nat 16) with 16; rewrite ?Hnb; try done; [apply Hs2|apply Hs2| |dlia|dlia|].
    - by rewrite (ds_type _ _ _ _ _ _ _ _ Hs).
    - rewrite (nfree_ext sb (dv s) (dv s2)); [lia|]. intros x _. apply marked_ext, Hq. }
  wp_step. pose proof (writei_wp start lsize dsz sb devsw s2 dp i bs _ _ Hmw) as Hw. rewrite Hdl in Hw. wp_use Hw.
  intros r s3 [-> Hw3]. change (negb (Z.of_nat 16 =? dirent_size)) with false. cbv iota. wp_step. split; [done|].
  rewrite <-He in Hk. destruct (entries_wrote start lsize dsz sb s2 dp i bs k _ s3 Hs2 Hw3 Hdl Hk Hmax Hr) as (i' & bs' & Hs' & He' & Href' & Hic & Hlk').
  destruct (quiet_slot _ _ _ _ _ _ _ Hq Hlk Hsl) as [Hlk2 Hsl2]. split; [congruence|].
  split; [apply (has_slot_upd s2 s3 dp i i'); [apply Hs2|done..]|]. exists i', bs'. split; [done|]. by rewrite He', He.
Qed.

(** C21: [dirlink] adds a name: afterwards [dirlookup] returns, for that name, the
    inode that was linked, and for every other name what it would have before. *)
Theorem dirlink_dirlookup start lsize dsz sb devsw s dp i bs name inum :
  may_link start lsize dsz sb s dp i bs name inum -> dir_map (entries (dv s) i) name = None ->
  exists s1, dirlink devsw dp name inum s = Ret 0 s1 /\
    forall n, exists r s2, dirlookup devsw dp n s1 = Ret r s2 /\
      (r ≫= fun x => i_inum <$> icache s2 !! x.1) =
      if namecmp n name =? 0 then Some inum else dir_map (entries (dv s) i) n.
Proof.
  intros Hm Hno. pose proof (dirlink_ok start lsize dsz sb devsw s dp i bs name inum Hm Hno) as Hw.
  apply wp_Ret in Hw as (r & s1 & Hrun & -> & Hlk & Hsl & i1 & bs1 & Hs1 & He). exists s1. split; [done|]. intros n.
  destruct (make_dirent_ok inum name (ml_new _ _ _ _ _ _ _ _ _ _ Hm) (ml_name _ _ _ _ _ _ _ _ _ _ Hm)) as (_ & _ & Hdi & Hdn).
  pose proof (dir_map_set (entries (dv s) i) (make_dirent inum name) n) as Hset. rewrite Hdi, Hdn, <-He in Hset.
  rewrite <-Hset; [|pose proof (ml_new _ _ _ _ _ _ _ _ _ _ Hm); lia|intros E; by rewrite (dir_map_same _ n name E)]. apply wp_Ret.
  apply (dirlookup_ok start lsize dsz sb devsw (ml_layout _ _ _ _ _ _ _ _ _ _ Hm) s1 dp i1 bs1); [done|]. unfold dir_map.
  destruct (find_name n (entries (dv s1) i1)) as [[j x]|]; [|done]. intros s2 Hq.
  destruct (quiet_slot _ _ _ _ _ _ _ Hq Hlk Hsl) as [Hlk2 Hsl2]. wp_use (iget_ok s2 (i_dev i1) x Hlk2 Hsl2). done.
Qed.

(** A directory with one empty entry, in the file system of [FsTheorems]. *)
Definition tiny_dir : inode := mkInode 1 1 1 true 1 T_DIR 0 0 1 16 (35 :: replicate 12 0).
Definition tiny_dir_fs : fsys := set_icache [tiny_dir; mkInode 0 0 0 false 0 0 0 0 0 0 []] tiny_fs.
Lemma tiny_may_link : may_link 2 31 100 tiny_sb tiny_dir_fs 0 tiny_dir [] [97; 98] 7.
Proof.
  pose proof tiny_may_write as [L1 [T1 T2 [F1 F2 F3 F4 F5 F6] T4] _ _ _ _ _ _ _ L2]. split; try done.
  - split; [|split; [done|]|done|done|by split].
    + split; [by apply txn_icache|done|by split|done].
    + intros bn Hbn Hlt. change (i_size tiny_dir) with 16 in Hlt. assert (bn = 0) as -> by lia. done.
  - by exists 1%nat, (mkInode 0 0 0 false 0 0 0 0 0 0 []).
  - repeat constructor; done.
Qed.
Lemma tiny_entries : entries (dv tiny_dir_fs) tiny_dir = [zeroes 16].
Proof.
  unfold entries. change (seqZ 0 (i_size tiny_dir / 16)) with [0]. cbn [fmap list_fmap]. apply (f_equal (fun e => [e])).
  assert (forall k, 0 <= k < 16 -> fbyte (dv tiny_dir_fs) tiny_dir k = 0) as Hb.
  { intros k Hk. unfold fbyte. change (dv tiny_dir_fs) with (dv tiny_fs). change (block_of (dv tiny_fs) tiny_dir) with (block_of (dv tiny_fs) tiny_inode).
    rewrite tiny_block, decide_True by dlia. replace (k / 512) with 0 by dlia. change (get_addr tiny_inode 0) with 35. cbv iota beta.
    rewrite tiny_view. assert (tiny_disk !! 35 = Some zero_block) as -> by reflexivity. apply (nth_zeroes _ 512). }
  unfold entry, fbytes. apply list_eq. intros j. rewrite list_lookup_fmap. unfold zeroes. destruct (decide (j < 16)%nat) as [Hj|Hj].
  - rewrite lookup_seqZ_lt, lookup_replicate_2 by lia. cbn [fmap option_fmap option_map]. by rewrite Hb by lia.
  - rewrite lookup_seqZ_ge by lia. symmetry. apply lookup_ge_None_2. rewrite length_replicate. lia.
Qed.
Lemma dirlink_dirlookup_witness : exists s1 s2 ip off,
  dirlink (fun _ => mkDev None None) 0 [97; 98] 7 tiny_dir_fs = Ret 0 s1 /\
  dirlookup (fun _ => mkDev None None) 0 [97; 98] s1 = Ret (Some (ip, off)) s2 /\ i_inum <$> icache s2 !! ip = Some 7.
Proof.
  destruct (dirlink_dirlookup 2 31 100 tiny_sb (fun _ => mkDev None None) tiny_dir_fs 0 tiny_dir [] [97; 98] 7 tiny_may_link) as (s1 & Hrun & Hl).
  - rewrite tiny_entries. reflexivity.
  - destruct (Hl [97; 98]) as (r & s2 & Hrun2 & Hi). change (namecmp [97; 98] [97; 98] =? 0) with true in Hi. cbv iota in Hi.
    destruct r as [[ip off]|]; [|discriminate Hi]. exists s1, s2, ip, off. split; [exact Hrun|]. split; [exact Hrun2|exact Hi].
Defined.

(** A name that the directory has for itself, as it has ".", makes [dirlink] wait
    for the lock that its caller holds. *)
Lemma dirlink_own_name_blocks start lsize dsz sb devsw s dp i bs name inum j :
  layout_ok start lsize dsz sb -> dstate start lsize dsz sb s dp i bs -> ic_lock s = false -> i_lock i = true ->
  find_name name (entries (dv s) i) = Some (j, i_inum i) -> iget_scan (icache s) 0 (i_dev i) (i_inum i) None = inl dp ->
  dirlink devsw dp name inum s = Blocked "inode lock".
Proof.
  intros Hly Hs Hlk Hil Hfind Hscan.
  assert (wp (dirlookup devsw dp name) (fun r s' => (exists off, r = Some (dp, off)) /\ i_lock <$> icache s' !! dp = Some true) s) as Hw.
  { apply (dirlookup_ok start lsize dsz sb devsw Hly s dp i bs); [done|]. rewrite Hfind. intros s1 (_ & [E1 E2] & _).
    unfold iget, acquire_icache, release_icache. do 3 wp_step. rewrite E2, Hlk. cbv iota. do 3 wp_step. cbn [icache set_ic_lock].
    rewrite E1, Hscan. wp_step. apply wpx_no_panic, (upd_inode_wpx _ dp i); [cbn; rewrite E1; apply Hs|]. apply wpx_wp.
    do 3 wp_step. cbn [ic_lock set_ic_lock set_icache]. do 2 wp_step. split; [by eexists|]. cbn [icache set_ic_lock set_icache].
    rewrite list_lookup_insert_eq; [cbn; by rewrite Hil|]. rewrite E1. eapply lookup_lt_Some, (ft_ip _ _ _ _ _ _ _ _ (ds_file _ _ _ _ _ _ _ _ Hs)). }
  apply wp_Ret in Hw as (r & s1 & Hrun & [off ->] & Hl). destruct (icache s1 !! dp) as [i1|] eqn:Hi1; [|done]. injection Hl as Hl.
  unfold dirlink, mbind, M_bind. rewrite Hrun. unfold iput, acquiresleep_i, get_inode, mbind, M_bind. by rewrite Hi1, Hl.
Qed.
