(* ===== verification/Dinode.v ===== *)
(** * Inodes on disk (fs.h: struct dinode)

    An inode written into its slot of an inode block is read back from there, and
    the other slots of the block keep their inodes. *)

From S2P Require Import Prelude Block Bio Log Fs FsAlloc FsFile FsWrite.
From stdpp Require Import base gmap list strings.
From Stdlib Require Import ZArith Lia.
#[local] Open Scope Z_scope.

Lemma length_set_words ws d o : length (set_words d o ws) = length d.
Proof. revert d o. induction ws as [|w ws IH]; intros d o; cbn; [done|]. by rewrite IH, length_set_word. Qed.
Lemma half_at_set_words ws d o p :
  in_block d o (4 * Z.of_nat (length ws)) -> 0 <= p -> p + 2 <= o \/ o + 4 * Z.of_nat (length ws) <= p ->
  half_at (set_words d o ws) p = half_at d p.
Proof.
  revert d o. induction ws as [|w ws IH]; intros d o [Ho Hl] Hp Hd; cbn [set_words length] in *; [done|].
  rewrite IH by (unfold in_block; rewrite ?length_set_word; lia). rewrite half_at_set_word by (unfold in_block; lia).
  by rewrite !decide_False by lia.
Qed.
Lemma word_at_set_words ws d o p :
  in_block d o (4 * Z.of_nat (length ws)) -> 0 <= p -> p + 4 <= o \/ o + 4 * Z.of_nat (length ws) <= p ->
  word_at (set_words d o ws) p = word_at d p.
Proof. intros Hb Hp Hd. unfold word_at. by rewrite !half_at_set_words by (done || lia). Qed.
Lemma words_at_set_words ws d o :
  in_block d o (4 * Z.of_nat (length ws)) -> words_at (set_words d o ws) o (length ws) = u32 <$> ws.
Proof.
  revert d o. induction ws as [|w ws IH]; intros d o [Ho Hl]; cbn [set_words length words_at fmap list_fmap] in *; [done|].
  f_equal; [|apply IH; unfold in_block; rewrite length_set_word; lia].
  rewrite word_at_set_words by (unfold in_block; rewrite ?length_set_word; lia).
  rewrite word_at_set_word by (unfold in_block; lia). by rewrite decide_True.
Qed.
Lemma words_at_ext d d' o n : (forall k, 0 <= k < Z.of_nat n -> word_at d' (o + 4 * k) = word_at d (o + 4 * k)) -> words_at d' o n = words_at d o n.
Proof.
  revert o. induction n as [|n IH]; intros o Hw; [done|]. cbn. f_equal.
  - specialize (Hw 0). rewrite Z.mul_0_r, Z.add_0_r in Hw. apply Hw. lia.
  - apply IH. intros k Hk. replace (o + 4 + 4 * k) with (o + 4 * (k + 1)) by lia. apply Hw. lia.
Qed.

(** The disk fields of an inode. *)
Definition same_dinode (i i' : inode) : Prop :=
  i_type i' = i_type i /\ i_major i' = i_major i /\ i_minor i' = i_minor i /\ i_nlink i' = i_nlink i /\
  i_size i' = i_size i /\ i_addrs i' = i_addrs i.
Record dinode_range (i : inode) : Prop := {
  dr_type : -32768 <= i_type i < 32768;
  dr_major : -32768 <= i_major i < 32768;
  dr_minor : -32768 <= i_minor i < 32768;
  dr_nlink : -32768 <= i_nlink i < 32768;
  dr_size : is_u32 (i_size i);
  dr_len : length (i_addrs i) = 13%nat;
  dr_addrs : Forall is_u32 (i_addrs i) }.

Lemma i16_half x : -32768 <= x < 32768 -> i16 (x mod 65536) = x.
Proof. unfold i16. intros H. dlia. Qed.

Lemma put_dinode_half d o i p :
  in_block d o 64 -> length (i_addrs i) = 13%nat -> 0 <= p -> p + 2 <= o + 12 \/ o + 64 <= p ->
  half_at (put_dinode d o i) p = half_at (set_word (set_half (set_half (set_half (set_half d o (i_type i)) (o + 2) (i_major i))
    (o + 4) (i_minor i)) (o + 6) (i_nlink i)) (o + 8) (i_size i)) p.
Proof.
  intros [Ho Hl] Hn Hp Hd. unfold put_dinode. rewrite half_at_set_words; [done| |done|rewrite Hn; lia].
  unfold in_block. rewrite length_set_word, !length_set_half, Hn. lia.
Qed.
Ltac in_blk := unfold in_block in *; rewrite ?length_set_word, ?length_set_half; lia.
Lemma put_dinode_far d o i p :
  in_block d o 64 -> length (i_addrs i) = 13%nat -> 0 <= p -> p + 2 <= o \/ o + 64 <= p -> half_at (put_dinode d o i) p = half_at d p.
Proof.
  intros Hb Hn Hp Hd. rewrite put_dinode_half by (done || lia). rewrite half_at_set_word by in_blk.
  rewrite !decide_False by lia. rewrite !half_at_set_half by in_blk. by rewrite !decide_False by lia.
Qed.

(** What is written is read back. *)
Lemma get_put_dinode d o i i0 :
  in_block d o 64 -> dinode_range i -> same_dinode i (get_dinode (put_dinode d o i) o i0).
Proof.
  intros Hb [R1 R2 R3 R4 R5 R6 R7]. pose proof Hb as [Ho Hl].
  assert (forall p v, half_at (put_dinode d o i) p = v mod 65536 -> -32768 <= v < 32768 -> i16 (half_at (put_dinode d o i) p) = v) as Hh
    by (intros p v -> Hv; by apply i16_half).
  assert (word_at (put_dinode d o i) (o + 8) = u32 (i_size i)) as Hsz.
  { unfold word_at. rewrite !put_dinode_half by (done || lia). rewrite !half_at_set_word by in_blk. repeat case_decide; try lia. unfold u32. dlia. }
  assert (forall k v, 0 <= k < 4 -> v = nth (Z.to_nat k) [i_type i; i_major i; i_minor i; i_nlink i] 0 ->
    half_at (put_dinode d o i) (o + 2 * k) = v mod 65536) as Hf.
  { intros k v Hk ->. rewrite put_dinode_half by (done || lia). rewrite half_at_set_word by in_blk. rewrite !decide_False by lia.
    rewrite !half_at_set_half by in_blk. assert (k = 0 \/ k = 1 \/ k = 2 \/ k = 3) as [->|[->|[->| ->]]] by lia; cbn [nth Z.to_nat Pos.to_nat Pos.iter_op Nat.add];
      repeat case_decide; lia || done. }
  split; [|split; [|split; [|split; [|split]]]]; cbn [get_dinode i_type i_major i_minor i_nlink i_size i_addrs].
  - apply Hh; [|done]. rewrite <-(Z.add_0_r o) at 2. apply (Hf 0); [lia|done].
  - apply Hh; [|done]. apply (Hf 1); [lia|done].
  - apply Hh; [|done]. apply (Hf 2); [lia|done].
  - apply Hh; [|done]. apply (Hf 3); [lia|done].
  - rewrite Hsz. apply u32_small, R5.
  - unfold put_dinode. rewrite <-R6. rewrite words_at_set_words by in_blk. rewrite <-(list_fmap_id (i_addrs i)) at 2.
    apply list_fmap_ext. intros k x Hx. apply u32_small. by apply (Forall_lookup_1 _ _ _ _ R7 Hx).
Qed.
(** Another slot of the block. *)
Lemma get_put_other d o o' i i0 :
  in_block d o 64 -> in_block d o' 64 -> length (i_addrs i) = 13%nat -> o + 64 <= o' \/ o' + 64 <= o ->
  get_dinode (put_dinode d o i) o' i0 = get_dinode d o' i0.
Proof.
  intros Hb [Ho' Hl'] Hn Hd. unfold get_dinode, word_at. f_equal.
  1-4: by rewrite put_dinode_far by (done || lia).
  - by rewrite !put_dinode_far by (done || lia).
  - apply words_at_ext. intros k Hk. unfold word_at. by rewrite !put_dinode_far by (done || lia).
Qed.
