(* ===== verification/Mkfs.v ===== *)
(** * Making a file system (mkfs.c)

    The program that builds the disk image on the host: super block, inodes, the
    root directory, the files and the free map.  Calls of the host that fail end
    it; here they succeed, but for reads behind the end of the image.  The invariant says which block belongs to which index
    of which inode. *)

From S2P Require Import Prelude Block Bio Ide Log Fs FsAlloc FsBmap FsFile FsWrite Dir Dinode.
From stdpp Require Import base gmap list strings.
From Stdlib Require Import ZArith Lia.
#[local] Open Scope Z_scope.

Definition NINODES : Z := 200.
Definition nbitmap : Z := FSSIZE / (BSIZE * 8) + 1.
Definition ninodeblocks : Z := NINODES / IPB + 1.
Definition nlog : Z := LOGSIZE.
Definition nmeta : Z := 2 + nlog + ninodeblocks + nbitmap.
Definition mk_sb : superblock :=
  mkSb FSSIZE (FSSIZE - nmeta) NINODES nlog 2 (2 + nlog) (2 + nlog + ninodeblocks).

Record mk := mkMk { img : Z -> blk; freeinode : Z; freeblock : Z }.
Definition set_img (V : Z -> blk) (s : mk) : mk := mkMk V (freeinode s) (freeblock s).

(** The image has [FSSIZE] blocks; a read behind its end fails, and the program
    with it. *)
Definition rsect (sec : Z) : M mk blk :=
  if (0 <=? sec) && (sec <? FSSIZE) then gets (fun s => img s sec) else panic "read".
Definition wsect (sec : Z) (buf : blk) : M mk unit := modify (fun s => set_img (put_data (img s) sec buf) s).
(** The fields of [struct inode] that the disk does not have. *)
Definition in_memory (inum : Z) : inode := mkInode 1 inum 0 false 0 0 0 0 0 0 [].
Definition rinode (inum : Z) : M mk inode :=
  d ← rsect (IBLOCK inum mk_sb); mret (get_dinode d (dinode_off inum) (in_memory inum)).
Definition winode (inum : Z) (din : inode) : M mk unit :=
  d ← rsect (IBLOCK inum mk_sb); wsect (IBLOCK inum mk_sb) (put_dinode d (dinode_off inum) din).

Definition mk_ialloc (type : Z) : M mk Z :=
  inum ← gets freeinode;
  _ ← modify (fun s => mkMk (img s) (inum + 1) (freeblock s));
  _ ← winode inum (mkInode 1 inum 0 false 0 type 0 0 1 0 (replicate 13 0));
  mret inum.
Definition mk_balloc (used : Z) : M mk unit :=
  if used <? BSIZE * 8 then wsect (sb_bmapstart mk_sb) (foldl with_bit (zeroes 512) (seqZ 0 used))
  else panic "assert".

(** [freeblock++] *)
Definition new_block : M mk Z :=
  b ← gets freeblock; _ ← modify (fun s => mkMk (img s) (freeinode s) (b + 1)); mret b.
Definition mk_addr (din : inode) (k : Z) : M mk inode :=
  if get_addr din k =? 0 then b ← new_block; mret (with_addrs (<[Z.to_nat k := b]> (i_addrs din)) din) else mret din.
(** The block of index [fbn], allocated if there is none. *)
Definition file_block (din : inode) (fbn : Z) : M mk (inode * Z) :=
  if fbn <? NDIRECT then din ← mk_addr din fbn; mret (din, get_addr din fbn)
  else
    din ← mk_addr din NDIRECT;
    indirect ← rsect (get_addr din NDIRECT);
    let x := word_at indirect (4 * (fbn - NDIRECT)) in
    if x =? 0 then
      b ← new_block;
      _ ← wsect (get_addr din NDIRECT) (set_word indirect (4 * (fbn - NDIRECT)) b);
      mret (din, b)
    else mret (din, x).
Fixpoint iappend_loop (fuel : nat) (din : inode) (off : Z) (p : list Z) : M mk (inode * Z) :=
  match fuel, p with
  | O, _ => nofuel
  | S _, [] => mret (din, off)
  | S fuel, _ =>
      let fbn := off / BSIZE in
      if fbn >=? MAXFILE then panic "assert"
      else
        r ← file_block din fbn;
        let n1 := Z.min (Z.of_nat (length p)) ((fbn + 1) * BSIZE - off) in
        buf ← rsect r.2;
        _ ← wsect r.2 (set_bytes buf (off - fbn * BSIZE) (take (Z.to_nat n1) p));
        iappend_loop fuel r.1 (off + n1) (drop (Z.to_nat n1) p)
  end.
Definition iappend (inum : Z) (p : list Z) : M mk unit :=
  din ← rinode inum;
  r ← iappend_loop (S (length p)) din (i_size din) p;
  winode inum (with_size r.2 r.1).

(** ** main *)

Fixpoint clear (n : nat) : M mk unit :=
  match n with O => mret tt | S n => _ ← clear n; wsect (Z.of_nat n) (zeroes 512) end.
Fixpoint iappend_all (inum : Z) (bufs : list (list Z)) : M mk unit :=
  match bufs with [] => mret tt | b :: bufs => _ ← iappend inum b; iappend_all inum bufs end.
(** A file of the command line: its name and what [read] returns of it. *)
Definition strip (name : list Z) : list Z := if hd 0 name =? 95 then tl name else name.
Definition add_file (f : list Z * list (list Z)) : M mk unit :=
  if existsb (Z.eqb slash) f.1 then panic "assert"
  else
    inum ← mk_ialloc T_FILE;
    _ ← iappend ROOTINO (make_dirent inum (strip f.1));
    iappend_all inum f.2.
Fixpoint add_files (fs : list (list Z * list (list Z))) : M mk unit :=
  match fs with [] => mret tt | f :: fs => _ ← add_file f; add_files fs end.
Definition fix_root : M mk unit :=
  din ← rinode ROOTINO;
  winode ROOTINO (with_size ((i_size din / BSIZE + 1) * BSIZE) din).
Definition mkfs (fs : list (list Z * list (list Z))) : M mk unit :=
  _ ← modify (fun s => mkMk (img s) (freeinode s) nmeta);
  _ ← clear (Z.to_nat FSSIZE);
  _ ← wsect 1 (set_words (zeroes 512) 0 [FSSIZE; FSSIZE - nmeta; NINODES; nlog; 2; 2 + nlog; 2 + nlog + ninodeblocks]);
  rootino ← mk_ialloc T_DIR;
  if negb (rootino =? ROOTINO) then panic "assert"
  else
    _ ← iappend rootino (make_dirent rootino [46]);
    _ ← iappend rootino (make_dirent rootino [46; 46]);
    _ ← add_files fs;
    _ ← fix_root;
    used ← gets freeblock;
    mk_balloc used.
Definition mkfs_start (V : Z -> blk) : mk := mkMk V 1 0.

(** ** Blocks and their owners *)

Lemma nmeta_eq : nmeta = 59.
Proof. done. Qed.
Lemma FSSIZE_eq : FSSIZE = 1000.
Proof. done. Qed.

(** [own b] is the inode, and the index in it, that block [b] belongs to; index
    [MAXFILE] stands for the indirect block.  [ino] has the inodes, as they are on
    the disk or about to be written. *)
Record mk_ok (V : Z -> blk) (fb fi : Z) (own : Z -> option (Z * Z)) (ino : Z -> inode) : Prop := {
  ok_len n : 0 <= n < FSSIZE -> length (V n) = 512%nat;
  ok_fb : nmeta <= fb <= FSSIZE;
  ok_fresh b : fb <= b < FSSIZE -> V b = zeroes 512;
  ok_own b x : own b = Some x -> nmeta <= b < fb;
  ok_block j bn : 1 <= j < fi -> 0 <= bn < MAXFILE ->
    block_of V (ino j) bn = 0 \/ own (block_of V (ino j) bn) = Some (j, bn);
  ok_ind j : 1 <= j < fi -> ind_addr (ino j) = 0 \/ own (ind_addr (ino j)) = Some (j, MAXFILE);
  ok_ind_iff j : 1 <= j < fi -> ind_addr (ino j) <> 0 <-> 6144 < i_size (ino j);
  ok_dense j bn : 1 <= j < fi -> 0 <= bn < MAXFILE -> block_of V (ino j) bn <> 0 <-> bn * 512 < i_size (ino j);
  ok_size j : 1 <= j < fi -> 0 <= i_size (ino j) <= MAXFILE * BSIZE;
  ok_zero j k : 1 <= j < fi -> i_size (ino j) <= k < MAXFILE * BSIZE -> fbyte V (ino j) k = 0;
  ok_addrs j : 1 <= j < fi -> length (i_addrs (ino j)) = 13%nat }.

Definition upd (ino : Z -> inode) (j : Z) (i : inode) : Z -> inode := fun k => if decide (k = j) then i else ino k.
(** The blocks that a file of [sz] bytes takes. *)
Definition nblk (sz : Z) : Z := (sz + 511) / 512 + (if 6144 <? sz then 1 else 0).
Definition too_big (blocks : Z) (msg : string) : Prop := msg = "read"%string /\ FSSIZE < blocks.

Lemma own_nz V fb fi own ino b x : mk_ok V fb fi own ino -> own b = Some x -> b <> 0.
Proof. intros Hok Hb ->. pose proof (ok_own _ _ _ _ _ Hok _ _ Hb). rewrite nmeta_eq in *. lia. Qed.

(** Changing blocks of one inode does not touch the files of others. *)
Lemma other_block V V' fb fi own own' ino cur j bn :
  mk_ok V fb fi own ino -> (forall b y, own b = Some y -> own' b = Some y) ->
  (forall m, V' m = V m \/ exists n, own' m = Some (cur, n)) -> 1 <= j < fi -> j <> cur ->
  block_of V' (ino j) bn = block_of V (ino j) bn.
Proof.
  intros Hok Hext HV Hj Hne. unfold block_of. destruct (bn <? NDIRECT); [done|]. destruct (Z.eqb_spec (ind_addr (ino j)) 0) as [|Hnz]; [done|].
  destruct (ok_ind _ _ _ _ _ Hok j Hj) as [|Hi]; [done|]. destruct (HV (ind_addr (ino j))) as [->|[n Hn]]; [done|].
  rewrite (Hext _ _ Hi) in Hn. injection Hn as -> _. done.
Qed.
Lemma other_byte V V' fb fi own own' ino cur j k :
  mk_ok V fb fi own ino -> (forall b y, own b = Some y -> own' b = Some y) ->
  (forall m, V' m = V m \/ exists n, own' m = Some (cur, n)) -> 1 <= j < fi -> j <> cur -> 0 <= k < MAXFILE * BSIZE ->
  fbyte V' (ino j) k = fbyte V (ino j) k.
Proof.
  intros Hok Hext HV Hj Hne Hk. unfold fbyte. rewrite (other_block V V' fb fi own own' ino cur) by done.
  destruct (Z.eqb_spec (block_of V (ino j) (k / 512)) 0) as [|Hnz]; [done|].
  destruct (ok_block _ _ _ _ _ Hok j (k / 512) Hj) as [|Hb]; [rewrite MAXFILE_eq in *; unfold BSIZE in Hk; dlia|done|].
  destruct (HV (block_of V (ino j) (k / 512))) as [->|[n Hn]]; [done|]. rewrite (Hext _ _ Hb) in Hn. injection Hn as -> _. done.
Qed.

(** ** Finding or allocating a block *)

Definition own_at (own : Z -> option (Z * Z)) (b : Z) (x : Z * Z) : Z -> option (Z * Z) := fun c => if decide (c = b) then Some x else own c.

Record found (V : Z -> blk) (own : Z -> option (Z * Z)) (cur : Z) (din : inode) (fbn : Z)
  (V' : Z -> blk) (fb' : Z) (own' : Z -> option (Z * Z)) (din' : inode) (x : Z) : Prop := {
  fd_x : own' x = Some (cur, fbn);
  fd_din : exists a, din' = with_addrs a din /\ length a = 13%nat;
  fd_block bn : 0 <= bn < MAXFILE -> block_of V' din' bn = if decide (bn = fbn) then x else block_of V din bn;
  fd_ind : ind_addr din' = 0 \/ own' (ind_addr din') = Some (cur, MAXFILE);
  fd_ind_iff : ind_addr din' <> 0 <-> ind_addr din <> 0 \/ 12 <= fbn;
  fd_V m : V' m = V m \/ m = ind_addr din' /\ m <> 0;
  fd_Vx : V' x = V x;
  fd_old : block_of V din fbn <> 0 -> x = block_of V din fbn;
  fd_new : block_of V din fbn = 0 -> V x = zeroes 512;
  fd_len n : 0 <= n < FSSIZE -> length (V' n) = 512%nat;
  fd_fresh b : fb' <= b < FSSIZE -> V' b = zeroes 512;
  fd_ext b y : own b = Some y -> own' b = Some y;
  fd_own b y : own' b = Some y -> nmeta <= b < fb' }.

Lemma nblk_within off : 0 <= off -> off mod 512 <> 0 -> nblk (off + 1) = nblk off.
Proof. intros H0 Hm. unfold nblk. destruct (Z.ltb_spec 6144 (off + 1)), (Z.ltb_spec 6144 off); dlia. Qed.
Lemma nblk_next off : 0 <= off -> off mod 512 = 0 -> nblk (off + 1) = nblk off + (if decide (off = 6144) then 2 else 1).
Proof. intros H0 Hm. unfold nblk. case_decide; destruct (Z.ltb_spec 6144 (off + 1)), (Z.ltb_spec 6144 off); dlia. Qed.
Lemma rsect_wpx E sec s (Q : blk -> mk -> Prop) :
  (0 <= sec < FSSIZE -> Q (img s sec) s) -> (FSSIZE <= sec -> E "read"%string) -> 0 <= sec -> wpx E (rsect sec) Q s.
Proof.
  intros HQ HE H0. unfold rsect. rewrite (proj2 (Z.leb_le 0 sec)) by done. cbn [andb].
  destruct (Z.ltb_spec sec FSSIZE); [apply wpx_gets, HQ; lia|apply wpx_panic, HE; lia].
Qed.

Section Found.
  Variables (V : Z -> blk) (fb fi : Z) (own : Z -> option (Z * Z)) (ino : Z -> inode) (cur off : Z) (din : inode).
  Context (Hok : mk_ok V fb fi own ino) (Hcur : 1 <= cur < fi) (Hino : ino cur = with_size off din) (Hoff : 0 <= off < MAXFILE * BSIZE).
  Notation fbn := (off / 512).

Lemma fbn_range : 0 <= fbn < MAXFILE.
Proof. rewrite MAXFILE_eq in *. unfold BSIZE in Hoff. dlia. Qed.
Lemma din_addrs : length (i_addrs din) = 13%nat.
Proof. pose proof (ok_addrs _ _ _ _ _ Hok cur Hcur) as H. by rewrite Hino in H. Qed.
Lemma din_block bn : 0 <= bn < MAXFILE -> block_of V din bn = 0 \/ own (block_of V din bn) = Some (cur, bn).
Proof. intros Hb. pose proof (ok_block _ _ _ _ _ Hok cur bn Hcur Hb) as H. by rewrite Hino in H. Qed.
Lemma din_dense bn : 0 <= bn < MAXFILE -> block_of V din bn <> 0 <-> bn * 512 < off.
Proof. intros Hb. pose proof (ok_dense _ _ _ _ _ Hok cur bn Hcur Hb) as H. by rewrite Hino in H. Qed.
Lemma din_ind : ind_addr din = 0 \/ own (ind_addr din) = Some (cur, MAXFILE).
Proof. pose proof (ok_ind _ _ _ _ _ Hok cur Hcur) as H. by rewrite Hino in H. Qed.
Lemma din_ind_iff : ind_addr din <> 0 <-> 6144 < off.
Proof. pose proof (ok_ind_iff _ _ _ _ _ Hok cur Hcur) as H. by rewrite Hino in H. Qed.

(** The index has a block. *)
Lemma found_same : block_of V din fbn <> 0 -> found V own cur din fbn V fb own din (block_of V din fbn).
Proof.
  intros Hnz. pose proof fbn_range as Hr. assert (12 <= fbn -> ind_addr din <> 0) as Hi.
  { intros Hf E. apply Hnz. unfold block_of. rewrite (proj2 (Z.ltb_ge _ _)) by (unfold NDIRECT; lia). by rewrite E. }
  split; try done.
  - by destruct (din_block fbn Hr).
  - exists (i_addrs din). split; [by destruct din|apply din_addrs].
  - intros bn Hbn. by case_decide; subst.
  - apply din_ind.
  - split; [by left|]. intros [?|?]; auto.
  - by left.
  - apply Hok.
  - apply Hok.
  - apply Hok.
Qed.
Lemma fresh_unowned b x : fb <= b -> own b = Some x -> False.
Proof. intros Hb Ho. apply (ok_own _ _ _ _ _ Hok) in Ho. lia. Qed.

(** A direct block is allocated. *)
Lemma found_direct :
  block_of V din fbn = 0 -> fbn < 12 -> fb + 1 <= FSSIZE ->
  found V own cur din fbn V (fb + 1) (own_at own fb (cur, fbn)) (with_addrs (<[Z.to_nat fbn := fb]> (i_addrs din)) din) fb.
Proof.
  intros Hz Hd Hfit. pose proof fbn_range as Hr. pose proof din_addrs as Hl. pose proof (ok_fb _ _ _ _ _ Hok) as Hfb.
  set (din' := with_addrs _ din). assert (forall k, 0 <= k < 13 -> get_addr din' k = if decide (k = fbn) then fb else get_addr din k) as Hg
    by (intros k Hk; apply get_addr_set; [done|lia|done]).
  assert (ind_addr din' = ind_addr din) as Hi by (unfold ind_addr, NDIRECT; rewrite Hg by lia; by rewrite decide_False by lia).
  split; unfold own_at.
  - by rewrite decide_True.
  - eexists. split; [done|]. by rewrite length_insert.
  - intros bn Hbn. unfold block_of. rewrite Hi. unfold NDIRECT. destruct (Z.ltb_spec bn 12) as [Hlt|Hge]; [apply Hg; lia|by rewrite decide_False by lia].
  - rewrite Hi. destruct din_ind as [|Ho]; [by left|right]. rewrite decide_False; [done|]. intros E. by apply (fresh_unowned (ind_addr din) _ ltac:(lia) Ho).
  - rewrite Hi. split; [by left|]. intros [?|?]; [done|lia].
  - by left.
  - done.
  - done.
  - intros _. apply Hok. lia.
  - apply Hok.
  - intros b Hb. apply Hok. lia.
  - intros b y Ho. rewrite decide_False; [done|]. intros ->. by apply (fresh_unowned fb y).
  - intros b y. case_decide as E; [subst; lia|]. intros Ho%(ok_own _ _ _ _ _ Hok). lia.
Qed.

(** An entry of the indirect block is allocated; the indirect block itself, at
    [ia], may be new. *)
Lemma found_indirect ia own1 din1 :
  block_of V din fbn = 0 -> 12 <= fbn -> fb + 1 <= FSSIZE -> ind_addr din1 = ia -> ia <> 0 ->
  (forall k, 0 <= k < 12 -> get_addr din1 k = get_addr din k) ->
  (forall bn, 12 <= bn < MAXFILE -> word_at (V ia) (4 * (bn - 12)) = block_of V din bn) ->
  (exists a, din1 = with_addrs a din /\ length a = 13%nat) -> own1 ia = Some (cur, MAXFILE) -> length (V ia) = 512%nat ->
  (forall b y, own b = Some y -> own1 b = Some y) -> (forall b y, own1 b = Some y -> nmeta <= b < fb) ->
  found V own cur din fbn (put_data V ia (set_word (V ia) (4 * (fbn - NDIRECT)) fb)) (fb + 1) (own_at own1 fb (cur, fbn)) din1 fb.
Proof.
  intros Hz Hd Hfit Hia Hnz Hg Hw Hdin Hoi Hlen Hext Hown. pose proof fbn_range as Hr. pose proof (ok_fb _ _ _ _ _ Hok) as Hfb.
  pose proof (Hown _ _ Hoi) as Hiar. rewrite nmeta_eq, FSSIZE_eq, MAXFILE_eq in *. unfold NDIRECT.
  assert (forall bn, 12 <= bn < 140 -> word_at (set_word (V ia) (4 * (fbn - 12)) fb) (4 * (bn - 12)) = if decide (bn = fbn) then fb else block_of V din bn) as Hsw.
  { intros bn Hbn. rewrite word_at_set_word by (unfold in_block; rewrite ?Hlen; lia). rewrite <-Hw by lia.
    repeat case_decide; try lia; try done; apply u32_small; lia. }
  split; unfold own_at, put_data.
  - by rewrite decide_True.
  - done.
  - intros bn Hbn. rewrite MAXFILE_eq in Hbn. unfold block_of at 1. unfold NDIRECT. destruct (Z.ltb_spec bn 12) as [Hlt|Hge].
    + rewrite decide_False by lia. rewrite Hg by lia. unfold block_of, NDIRECT. by rewrite (proj2 (Z.ltb_lt _ _)) by lia.
    + rewrite Hia, (proj2 (Z.eqb_neq _ _)) by done. rewrite decide_True by done. apply Hsw. lia.
  - right. rewrite Hia, decide_False by lia. by rewrite MAXFILE_eq.
  - rewrite Hia. split; [by right|done].
  - intros m. case_decide as E; [subst m; right; by rewrite Hia|by left].
  - by rewrite decide_False by lia.
  - done.
  - intros _. apply Hok. rewrite FSSIZE_eq. lia.
  - intros n Hn. case_decide; [by rewrite length_set_word|]. by apply Hok.
  - intros b Hb. rewrite FSSIZE_eq in Hb. rewrite decide_False by lia. apply Hok. rewrite FSSIZE_eq. lia.
  - intros b y Ho. rewrite decide_False; [by apply Hext|]. intros ->. by apply (fresh_unowned fb y).
  - intros b y. rewrite nmeta_eq. case_decide as E; [lia|]. intros Ho%Hown. lia.
Qed.

Notation need := (fb + nblk (off + 1) - nblk off).
Definition block_result (r : inode * Z) (s' : mk) : Prop :=
  exists V' fb' own', s' = mkMk V' fi fb' /\ fb' = need /\
    (fb' <= FSSIZE /\ found V own cur din fbn V' fb' own' r.1 r.2 \/ FSSIZE < fb' /\ FSSIZE <= r.2).

Lemma same_result : block_of V din fbn <> 0 -> block_result (din, block_of V din fbn) (mkMk V fi fb).
Proof.
  intros Hnz. exists V, fb, own. split; [done|]. pose proof (proj1 (din_dense fbn fbn_range) Hnz).
  rewrite nblk_within by dlia. split; [lia|]. left. split; [apply Hok|by apply found_same].
Qed.
Lemma missing_next : block_of V din fbn = 0 -> need = fb + (if decide (off = 6144) then 2 else 1) /\ off mod 512 = 0.
Proof.
  intros Hz. assert (~ fbn * 512 < off) as H by (intros H; by apply (din_dense fbn fbn_range) in H). rewrite nblk_next by dlia. split; [lia|dlia].
Qed.
Lemma direct_result : block_of V din fbn = 0 -> fbn < 12 ->
  block_result (with_addrs (<[Z.to_nat fbn := fb]> (i_addrs din)) din, fb) (mkMk V fi (fb + 1)).
Proof.
  intros Hz Hd. destruct (missing_next Hz) as [Hn Hm]. rewrite decide_False in Hn by (intros ->; done).
  exists V, (fb + 1), (own_at own fb (cur, fbn)). split; [done|]. split; [lia|]. pose proof (ok_fb _ _ _ _ _ Hok).
  destruct (decide (fb + 1 <= FSSIZE)); [left; split; [done|by apply found_direct]|right; cbn; lia].
Qed.
Lemma indirect_result : block_of V din fbn = 0 -> 12 <= fbn -> ind_addr din <> 0 ->
  block_result (din, fb) (mkMk (put_data V (ind_addr din) (set_word (V (ind_addr din)) (4 * (fbn - NDIRECT)) fb)) fi (fb + 1)).
Proof.
  intros Hz Hd Hnz. destruct (missing_next Hz) as [Hn Hm]. pose proof (proj1 din_ind_iff Hnz). rewrite decide_False in Hn by lia.
  destruct din_ind as [|Ho]; [done|]. pose proof (ok_own _ _ _ _ _ Hok _ _ Ho) as Hr. pose proof (ok_fb _ _ _ _ _ Hok) as Hfb.
  eexists _, (fb + 1), (own_at own fb (cur, fbn)). split; [done|]. split; [lia|].
  destruct (decide (fb + 1 <= FSSIZE)); [left; split; [done|]|right; cbn; lia]. apply found_indirect; try done.
  - intros bn Hbn. unfold block_of, NDIRECT. rewrite (proj2 (Z.ltb_ge _ _)), (proj2 (Z.eqb_neq _ _)) by (done || lia). done.
  - exists (i_addrs din). split; [by destruct din|apply din_addrs].
  - apply Hok. rewrite nmeta_eq in Hr. lia.
  - apply Hok.
Qed.
End Found.

Lemma mk_ok_fb V fb fb' fi own ino : mk_ok V fb fi own ino -> fb <= fb' <= FSSIZE -> mk_ok V fb' fi own ino.
Proof.
  intros [K1 K2 K3 K4 K5 K6 K7 K8 K9 K10 K11] Hb. split; try done; [lia|intros; apply K3; lia|]. intros b x Hx%K4. lia.
Qed.
Lemma file_block_ok V fb fi own ino cur off din :
  mk_ok V fb fi own ino -> 1 <= cur < fi -> ino cur = with_size off din -> 0 <= off < MAXFILE * BSIZE ->
  wpx (too_big (fb + nblk (off + 1) - nblk off)) (file_block din (off / 512)) (block_result V fb fi own cur off din) (mkMk V fi fb).
Proof.
  intros Hok Hcur Hino Hoff. pose proof (fbn_range off Hoff) as Hr. pose proof (din_addrs V fb fi own ino cur off din Hok Hcur Hino) as Hl.
  pose proof (ok_fb _ _ _ _ _ Hok) as Hfb. pose proof (missing_next V fb fi own ino cur off din Hok Hcur Hino Hoff) as Hmiss.
  assert (block_of V din (off / 512) = if off / 512 <? 12 then get_addr din (off / 512) else
    if ind_addr din =? 0 then 0 else word_at (V (ind_addr din)) (4 * (off / 512 - 12))) as Hbo by done.
  unfold file_block, mk_addr, new_block. unfold NDIRECT at 1. destruct (Z.ltb_spec (off / 512) 12) as [Hd|Hd].
  - wpx_step. destruct (Z.eqb_spec (get_addr din (off / 512)) 0) as [Hz|Hz]; wpx_steps.
    + cbn [freeblock img freeinode]. rewrite get_addr_set, decide_True by (done || lia). by apply (direct_result V fb fi own ino); rewrite ?Hbo.
    + rewrite <-Hbo. apply (same_result V fb fi own ino); [done..|by rewrite Hbo].
  - fold (ind_addr din). wpx_step. destruct (Z.eqb_spec (ind_addr din) 0) as [Hz|Hz]; wpx_steps.
    + destruct (Hmiss Hbo) as [Hn Hm]. assert (off = 6144) as Ho.
      { assert (~ 6144 < off); [|dlia]. intros H. by apply (din_ind_iff V fb fi own ino cur off din Hok Hcur Hino) in H. }
      rewrite decide_True in Hn by done. set (din1 := with_addrs _ din). cbn [img freeinode freeblock].
      assert (forall k, 0 <= k < 13 -> get_addr din1 k = if decide (k = 12) then fb else get_addr din k) as Hg
        by (intros k Hk; apply get_addr_set; [done|unfold NDIRECT; lia|done]).
      assert (get_addr din1 NDIRECT = fb) as Hi by (unfold NDIRECT; rewrite Hg by lia; done). rewrite Hi.
      apply rsect_wpx; [intros Hb|intros Hb; split; [done|]; rewrite Hn; lia|rewrite nmeta_eq in Hfb; lia]. cbn [img].
      rewrite (ok_fresh _ _ _ _ _ Hok fb) by lia. cbv zeta. rewrite word_at_zeroes, Z.eqb_refl by (unfold NDIRECT; rewrite MAXFILE_eq in Hr; lia).
      wpx_steps. cbn [img freeinode freeblock set_img]. rewrite <-(ok_fresh _ _ _ _ _ Hok fb) by lia.
      eexists _, (fb + 1 + 1), (own_at (own_at own fb (cur, MAXFILE)) (fb + 1) (cur, off / 512)). split; [done|]. split; [lia|]. cbn [fst snd].
      destruct (decide (fb + 1 + 1 <= FSSIZE)) as [Hfit|Hno]; [left; split; [done|]|right; lia].
      assert (mk_ok V (fb + 1) fi own ino) as Hok1 by (apply (mk_ok_fb V fb); [done|lia]).
      apply (found_indirect V (fb + 1) fi own ino cur off din Hok1 Hoff fb); try done.
      * rewrite nmeta_eq in Hfb. lia.
      * intros k Hk. rewrite Hg by lia. by rewrite decide_False by lia.
      * intros bn Hbn. rewrite (ok_fresh _ _ _ _ _ Hok fb), word_at_zeroes by (rewrite ?MAXFILE_eq in *; lia). unfold block_of, NDIRECT.
        by rewrite (proj2 (Z.ltb_ge _ _)), Hz by lia.
      * eexists. split; [done|]. by rewrite length_insert.
      * unfold own_at. by rewrite decide_True.
      * apply Hok. rewrite nmeta_eq in Hfb. lia.
      * intros b y Hb'. unfold own_at. rewrite decide_False; [done|]. intros ->. by apply (fresh_unowned V fb fi own ino Hok fb y).
      * intros b y. unfold own_at. destruct (decide (b = fb)); [intros _; lia|]. intros Hb'%(ok_own _ _ _ _ _ Hok). lia.
    + fold (ind_addr din). destruct (din_ind V fb fi own ino cur off din Hok Hcur Hino) as [|Ho]; [done|]. pose proof (ok_own _ _ _ _ _ Hok _ _ Ho) as Hir.
      apply rsect_wpx; [intros _|intros; lia|rewrite nmeta_eq in Hir; lia]. cbn [img]. cbv zeta. unfold NDIRECT at 1 3.
      destruct (Z.eqb_spec (word_at (V (ind_addr din)) (4 * (off / 512 - 12))) 0) as [Hw|Hw]; wpx_steps.
      * cbn [img freeinode freeblock set_img]. apply (indirect_result V fb fi own ino); [done..|by rewrite Hbo|done|done].
      * rewrite <-Hbo. apply (same_result V fb fi own ino); [done..|by rewrite Hbo].
Qed.

(** ** Writing the block *)

Section Append.
  Variables (V : Z -> blk) (fb fi : Z) (own : Z -> option (Z * Z)) (ino : Z -> inode) (cur off : Z) (din : inode).
  Context (Hok : mk_ok V fb fi own ino) (Hcur : 1 <= cur < fi) (Hino : ino cur = with_size off din) (Hoff : 0 <= off < MAXFILE * BSIZE).
  Variables (V1 : Z -> blk) (fb1 : Z) (own1 : Z -> option (Z * Z)) (din1 : inode) (x : Z) (c : list Z).
  Context (Hf : found V own cur din (off / 512) V1 fb1 own1 din1 x) (Hfb : fb <= fb1 <= FSSIZE).
  Context (Hc : is_bytes c) (Hne : c <> []) (Hfit : off mod 512 + Z.of_nat (length c) <= 512).
  Notation fbn := (off / 512).
  Notation V2 := (put_data V1 x (set_bytes (V1 x) (off - fbn * BSIZE) c)).
  Notation i2 := (with_size (off + Z.of_nat (length c)) din1).

Lemma x_range : nmeta <= x < fb1.
Proof. by apply (fd_own _ _ _ _ _ _ _ _ _ _ Hf _ _ (fd_x _ _ _ _ _ _ _ _ _ _ Hf)). Qed.
Lemma c_length : 0 < Z.of_nat (length c).
Proof. destruct c; [done|cbn; lia]. Qed.
Lemma append_V m : V2 m = V m \/ exists n, own1 m = Some (cur, n).
Proof.
  unfold put_data. case_decide as E; [subst m; right; eexists; apply Hf|].
  destruct (fd_V _ _ _ _ _ _ _ _ _ _ Hf m) as [?|[-> Hnz]]; [by left|]. right. exists MAXFILE. by destruct (fd_ind _ _ _ _ _ _ _ _ _ _ Hf).
Qed.
Lemma append_block bn : 0 <= bn < MAXFILE -> block_of V2 i2 bn = if decide (bn = fbn) then x else block_of V din bn.
Proof.
  intros Hbn. rewrite <-(fd_block _ _ _ _ _ _ _ _ _ _ Hf bn Hbn). change (block_of V2 i2 bn) with (block_of V2 din1 bn).
  unfold block_of. destruct (bn <? NDIRECT); [done|]. destruct (Z.eqb_spec (ind_addr din1) 0) as [|Hnz]; [done|].
  unfold put_data. rewrite decide_False; [done|]. intros E. destruct (fd_ind _ _ _ _ _ _ _ _ _ _ Hf) as [|Hi]; [done|].
  rewrite E, (fd_x _ _ _ _ _ _ _ _ _ _ Hf) in Hi. injection Hi as Hi. pose proof (fbn_range off Hoff). lia.
Qed.
Lemma append_old bn : 0 <= bn < MAXFILE -> bn <> fbn -> block_of V din bn <> 0 -> V2 (block_of V din bn) = V (block_of V din bn).
Proof.
  intros Hbn Hn Hnz. destruct (din_block V fb fi own ino cur off din Hok Hcur Hino bn Hbn) as [|Ho]; [done|].
  pose proof (fd_ext _ _ _ _ _ _ _ _ _ _ Hf _ _ Ho) as Ho1. unfold put_data. rewrite decide_False.
  - destruct (fd_V _ _ _ _ _ _ _ _ _ _ Hf (block_of V din bn)) as [?|[E _]]; [done|].
    destruct (fd_ind _ _ _ _ _ _ _ _ _ _ Hf) as [Hz|Hi]; [congruence|]. rewrite <-E, Ho1 in Hi. injection Hi as ->. lia.
  - intros E. rewrite E, (fd_x _ _ _ _ _ _ _ _ _ _ Hf) in Ho1. injection Ho1 as <-. done.
Qed.
(** The old bytes of the block that is written. *)
Lemma append_prev k : 0 <= k -> k / 512 = fbn -> nth (Z.to_nat (k mod 512)) (V1 x) 0 = fbyte V din k.
Proof.
  intros Hk E. unfold fbyte. rewrite E, (fd_Vx _ _ _ _ _ _ _ _ _ _ Hf). destruct (Z.eqb_spec (block_of V din fbn) 0) as [Hz|Hz].
  - rewrite (fd_new _ _ _ _ _ _ _ _ _ _ Hf Hz). apply nth_zeroes.
  - by rewrite (fd_old _ _ _ _ _ _ _ _ _ _ Hf Hz).
Qed.
Lemma append_byte k : 0 <= k < MAXFILE * BSIZE ->
  fbyte V2 i2 k = if decide (off <= k < off + Z.of_nat (length c)) then nth (Z.to_nat (k - off)) c 0 else fbyte V din k.
Proof.
  intros Hk. pose proof x_range as Hx. rewrite nmeta_eq in Hx. assert (0 <= k / 512 < MAXFILE) as Hr by (rewrite MAXFILE_eq in *; unfold BSIZE in Hk; dlia).
  unfold fbyte at 1. rewrite append_block by done. case_decide as E.
  - rewrite (proj2 (Z.eqb_neq x 0)) by lia. unfold put_data at 1. rewrite decide_True by done. unfold BSIZE.
    rewrite nth_set_bytes; [|done|dlia|dlia|rewrite (fd_len _ _ _ _ _ _ _ _ _ _ Hf) by lia; dlia].
    rewrite <-append_prev by lia. destruct (decide (off <= k < off + Z.of_nat (length c))).
    + rewrite decide_True by dlia. f_equal. dlia.
    + by rewrite decide_False by dlia.
  - rewrite decide_False by dlia. unfold fbyte. destruct (Z.eqb_spec (block_of V din (k / 512)) 0) as [|Hz]; [done|]. by rewrite append_old.
Qed.

Lemma append_mk_ok : mk_ok V2 fb1 fi own1 (upd ino cur i2).
Proof.
  pose proof x_range as Hx. pose proof c_length as Hcl. rewrite nmeta_eq in Hx. pose proof (fbn_range off Hoff) as Hr.
  destruct (fd_din _ _ _ _ _ _ _ _ _ _ Hf) as (a & Hdin & Hla).
  assert (i_size i2 <= MAXFILE * BSIZE) as Hmax by (cbn; rewrite MAXFILE_eq in *; unfold BSIZE in *; dlia).
  pose proof (fd_ext _ _ _ _ _ _ _ _ _ _ Hf) as Hext. split; unfold upd.
  - intros n Hn. unfold put_data. case_decide; [rewrite length_set_bytes|]; apply Hf; lia.
  - pose proof (ok_fb _ _ _ _ _ Hok). lia.
  - intros b Hb. unfold put_data. rewrite decide_False by lia. by apply Hf.
  - apply Hf.
  - intros j bn Hj Hbn. case_decide as E.
    + subst j. rewrite append_block by done. case_decide; [right; subst bn; apply Hf|].
      destruct (din_block V fb fi own ino cur off din Hok Hcur Hino bn Hbn) as [|Ho]; [by left|right; by apply Hext].
    + rewrite (other_block V _ fb fi own own1 ino cur) by (done || apply append_V). destruct (ok_block _ _ _ _ _ Hok j bn Hj Hbn); [by left|right; by apply Hext].
  - intros j Hj. case_decide as E; [subst j; apply Hf|]. destruct (ok_ind _ _ _ _ _ Hok j Hj); [by left|right; by apply Hext].
  - intros j Hj. case_decide as E; [|by apply Hok]. change (ind_addr i2) with (ind_addr din1). cbn [i_size with_size].
    rewrite (fd_ind_iff _ _ _ _ _ _ _ _ _ _ Hf), (din_ind_iff V fb fi own ino cur off din Hok Hcur Hino). split; [intros [?|?]; dlia|].
    intros H. destruct (decide (6144 < off)); [by left|right; dlia].
  - intros j bn Hj Hbn. case_decide as E.
    + rewrite append_block by done. cbn [i_size with_size]. case_decide; [split; [dlia|lia]|].
      rewrite (din_dense V fb fi own ino cur off din Hok Hcur Hino bn Hbn). dlia.
    + rewrite (other_block V _ fb fi own own1 ino cur) by (done || apply append_V). by apply Hok.
  - intros j Hj. case_decide; [cbn in *; lia|by apply Hok].
  - intros j k Hj. case_decide as E; cbn [i_size with_size]; intros Hk.
    + rewrite append_byte by lia. rewrite decide_False by lia. pose proof (ok_zero _ _ _ _ _ Hok cur k Hcur) as Hz. rewrite Hino in Hz. apply Hz. cbn. lia.
    + rewrite (other_byte V _ fb fi own own1 ino cur) by (done || apply append_V || (pose proof (ok_size _ _ _ _ _ Hok j Hj); lia)). by apply Hok.
  - intros j Hj. case_decide; [cbn; by rewrite Hdin|by apply Hok].
Qed.
End Append.

(** ** iappend *)

(** After an append: what is in the file of [cur], and that others are as before. *)
Record appended (V : Z -> blk) (own : Z -> option (Z * Z)) (cur : Z) (i : inode) (p : list Z)
  (V' : Z -> blk) (own' : Z -> option (Z * Z)) (i' : inode) : Prop := {
  ap_din : exists a, i' = with_addrs a (with_size (i_size i + Z.of_nat (length p)) i);
  ap_byte k : 0 <= k < MAXFILE * BSIZE ->
    fbyte V' i' k = if decide (i_size i <= k < i_size i + Z.of_nat (length p)) then nth (Z.to_nat (k - i_size i)) p 0 else fbyte V i k;
  ap_ext b y : own b = Some y -> own' b = Some y;
  ap_V m : V' m = V m \/ exists n, own' m = Some (cur, n) }.

Lemma appended_trans V own cur i p V1 own1 i1 q V2 own2 i2 :
  0 <= i_size i -> appended V own cur i p V1 own1 i1 -> appended V1 own1 cur i1 q V2 own2 i2 -> appended V own cur i (p ++ q) V2 own2 i2.
Proof.
  intros H0 [(a & ->) A2 A3 A4] [(b & ->) B2 B3 B4]. cbn [i_size with_addrs with_size] in *. split.
  - exists b. rewrite length_app, Nat2Z.inj_add, Z.add_assoc. done.
  - intros k Hk. rewrite B2, A2 by done. rewrite length_app, Nat2Z.inj_add. repeat case_decide; try lia.
    + rewrite app_nth2 by lia. f_equal. lia.
    + by rewrite app_nth1 by lia.
  - eauto.
  - intros m. destruct (B4 m) as [->|?]; [|by right]. destruct (A4 m) as [->|[n Hn]]; [by left|right; eauto].
Qed.

Lemma nblk_mono a b : 0 <= a <= b -> nblk a <= nblk b.
Proof. intros H. unfold nblk. destruct (Z.ltb_spec 6144 a), (Z.ltb_spec 6144 b); dlia. Qed.
Lemma nblk_chunk off n : 0 <= off -> 0 < n -> off mod 512 + n <= 512 -> nblk (off + n) = nblk (off + 1).
Proof. intros H0 Hn Hm. unfold nblk. destruct (Z.ltb_spec 6144 (off + n)), (Z.ltb_spec 6144 (off + 1)); dlia. Qed.
Lemma mk_ok_ext V fb fi own ino ino' : mk_ok V fb fi own ino -> (forall j, 1 <= j < fi -> ino' j = ino j) -> mk_ok V fb fi own ino'.
Proof.
  intros [K1 K2 K3 K4 K5 K6 K7 K8 K9 K10 K11] He.
  split; [done..| | | | | | |]; intros j; intros; rewrite He in * by done; auto.
Qed.

Lemma append_appended V fb fi own ino cur off din V1 fb1 own1 din1 x c :
  mk_ok V fb fi own ino -> 1 <= cur < fi -> ino cur = with_size off din -> 0 <= off < MAXFILE * BSIZE ->
  found V own cur din (off / 512) V1 fb1 own1 din1 x -> fb <= fb1 <= FSSIZE ->
  is_bytes c -> c <> [] -> off mod 512 + Z.of_nat (length c) <= 512 ->
  appended V own cur (with_size off din) c (put_data V1 x (set_bytes (V1 x) (off - off / 512 * BSIZE) c)) own1
    (with_size (off + Z.of_nat (length c)) din1).
Proof.
  intros Hok Hcur Hino Hoff Hf Hfb Hc Hne Hfit. split.
  - destruct (fd_din _ _ _ _ _ _ _ _ _ _ Hf) as (a & -> & _). by exists a.
  - intros k Hk. by rewrite (append_byte V fb fi own ino cur off din Hok Hcur Hino Hoff V1 fb1 own1 din1 x c) by done.
  - apply Hf.
  - intros m. by apply (append_V V own cur off din V1 fb1 own1 din1 x c Hf).
Qed.

Lemma iappend_loop_ok fuel V fb fi own ino cur off din p :
  mk_ok V fb fi own ino -> 1 <= cur < fi -> ino cur = with_size off din -> is_bytes p -> (length p < fuel)%nat ->
  0 <= off -> off + Z.of_nat (length p) <= MAXFILE * BSIZE ->
  wpx (too_big (fb + nblk (off + Z.of_nat (length p)) - nblk off)) (iappend_loop fuel din off p)
    (fun r s' => exists V' own', s' = mkMk V' fi (fb + nblk (off + Z.of_nat (length p)) - nblk off) /\ r.2 = off + Z.of_nat (length p) /\
      mk_ok V' (freeblock s') fi own' (upd ino cur (with_size r.2 r.1)) /\
      appended V own cur (with_size off din) p V' own' (with_size r.2 r.1)) (mkMk V fi fb).
Proof.
  revert V fb own ino off din p. induction fuel as [|fuel IH]; intros V fb own ino off din p Hok Hcur Hino Hp Hf H0 Hmax; [lia|].
  cbn [iappend_loop]. destruct p as [|c0 p0].
  { wpx_step. exists V, own. cbn [length Z.of_nat fst snd freeblock]. rewrite Z.add_0_r, Z.add_simpl_r. split; [done|]. split; [done|]. split.
    - apply (mk_ok_ext V fb fi own ino); [done|]. intros j _. unfold upd. case_decide; congruence.
    - split; [|intros; rewrite decide_False by (cbn; lia); done|done|by left]. exists (i_addrs din). cbn. by rewrite Z.add_0_r. }
  set (p := c0 :: p0) in *. assert (0 < Z.of_nat (length p)) as Hpl by (cbn; lia). assert (0 <= off < MAXFILE * BSIZE) as Hoff by lia.
  pose proof (fbn_range off Hoff) as Hr. change (off / BSIZE) with (off / 512). rewrite Z.geb_leb, (proj2 (Z.leb_gt _ _)) by lia.
  set (n1 := Z.min (Z.of_nat (length p)) ((off / 512 + 1) * BSIZE - off)). assert (0 < n1 <= Z.of_nat (length p) /\ off mod 512 + n1 <= 512) as [Hn1 Hn2]
    by (subst n1; unfold BSIZE; dlia).
  pose proof (nblk_chunk off n1 H0 ltac:(lia) Hn2) as Hnc. pose proof (nblk_mono (off + n1) (off + Z.of_nat (length p)) ltac:(lia)) as Hmono.
  pose proof (nblk_mono off (off + 1) ltac:(lia)) as Hmono1. assert (length (take (Z.to_nat n1) p) = Z.to_nat n1) as Hlt by (rewrite length_take; lia).
  wpx_step. eapply wpx_mono; [apply (wpx_weaken (too_big (fb + nblk (off + 1) - nblk off)))|].
  { by apply (file_block_ok V fb fi own ino cur off din). }
  { intros msg [-> Hb]. split; [done|lia]. }
  intros [din1 x] s1 (V1 & fb1 & own1 & -> & Hfb1 & Hcase). cbn [fst snd] in *. wpx_step.
  destruct Hcase as [[Hfit Hfound]|[Hover Hx]].
  2: { apply rsect_wpx; [intros; lia|intros _; split; [done|lia]|rewrite FSSIZE_eq in Hx; lia]. }
  pose proof (x_range V own cur off din V1 fb1 own1 din1 x Hfound) as Hx. rewrite nmeta_eq in Hx.
  apply rsect_wpx; [intros _|intros; lia|lia]. cbn [img]. wpx_step. unfold wsect at 1. wpx_step. cbn [img freeinode freeblock set_img].
  set (c := take (Z.to_nat n1) p) in *. assert (is_bytes c) as Hc by by apply Forall_take. assert (c <> []) as Hcn by (intros E; rewrite E in Hlt; cbn in Hlt; lia).
  assert (Z.of_nat (length c) = n1) as Hcl by lia. pose proof (ok_fb _ _ _ _ _ Hok) as Hfb.
  assert (mk_ok (put_data V1 x (set_bytes (V1 x) (off - off / 512 * BSIZE) c)) fb1 fi own1 (upd ino cur (with_size (off + n1) din1))) as Hok1.
  { rewrite <-Hcl. apply (append_mk_ok V fb fi own ino cur off din); try done; lia. }
  assert (off + n1 + Z.of_nat (length (drop (Z.to_nat n1) p)) = off + Z.of_nat (length p)) as Hrest by (rewrite length_drop; lia).
  eapply wpx_mono; [apply (wpx_weaken (too_big (fb1 + nblk (off + n1 + Z.of_nat (length (drop (Z.to_nat n1) p))) - nblk (off + n1))))|].
  { eapply (IH _ fb1 own1 (upd ino cur (with_size (off + n1) din1)) (off + n1) din1 (drop (Z.to_nat n1) p));
      [exact Hok1|done|unfold upd; by rewrite decide_True|by apply Forall_drop|rewrite length_drop; lia|lia|lia]. }
  { intros msg [-> Hb]. split; [done|]. rewrite Hrest in Hb. lia. }
  intros [din2 off2] s2 (V2 & own2 & -> & Ho2 & Hok2 & Hap). cbn [fst snd freeblock] in *. rewrite Hrest in *. exists V2, own2. split; [f_equal; lia|].
  split; [done|]. split.
  - eapply mk_ok_ext; [replace (fb + nblk (off + Z.of_nat (length p)) - nblk off) with (fb1 + nblk (off + Z.of_nat (length p)) - nblk (off + n1)) by lia; exact Hok2|].
    intros j _. unfold upd. by case_decide.
  - rewrite <-(take_drop (Z.to_nat n1) p). eapply appended_trans; [done| |exact Hap]. fold c. rewrite <-Hcl.
    apply (append_appended V fb fi own ino cur off din V1 fb1 own1 din1 x c); try done; lia.
Qed.
