(* ===== verification/MkfsImage.v ===== *)
(** * The image that mkfs builds (mkfs.c)

    Inodes and their contents between the calls of [Mkfs], the calls on them, and
    the file system that is on the disk in the end: as [Fs] and [Dir] read it. *)

From S2P Require Import Prelude Block Bio Ide Log Fs FsAlloc FsBmap FsFile FsWrite Dir Dinode Mkfs.
From stdpp Require Import base gmap list strings.
From Stdlib Require Import ZArith Lia.
#[local] Open Scope Z_scope.

(** ** Inodes in the image *)

Definition dino (V : Z -> blk) (j : Z) : inode := get_dinode (V (IBLOCK j mk_sb)) (dinode_off j) (in_memory j).
Definition mem_fields (j : Z) (i : inode) : Prop := i_dev i = 1 /\ i_inum i = j /\ i_ref i = 0 /\ i_lock i = false /\ i_valid i = 0.

Lemma IBLOCK_mk j : 0 <= j <= NINODES -> IBLOCK j mk_sb = j / 8 + 32 /\ 32 <= IBLOCK j mk_sb < 58 /\ 0 <= dinode_off j /\ dinode_off j + 64 <= 512.
Proof. intros Hj. unfold IBLOCK, dinode_off, NINODES in *. rewrite IPB_eq. change (sb_inodestart mk_sb) with 32. dlia. Qed.
Lemma dino_written V j i :
  0 <= j <= NINODES -> length (V (IBLOCK j mk_sb)) = 512%nat -> mem_fields j i -> dinode_range i ->
  dino (put_data V (IBLOCK j mk_sb) (put_dinode (V (IBLOCK j mk_sb)) (dinode_off j) i)) j = i.
Proof.
  intros Hj Hl (M1 & M2 & M3 & M4 & M5) Hr. destruct (IBLOCK_mk j Hj) as (_ & _ & H1 & H2). unfold dino, put_data. rewrite decide_True by done.
  destruct (get_put_dinode (V (IBLOCK j mk_sb)) (dinode_off j) i (in_memory j)) as (G1 & G2 & G3 & G4 & G5 & G6); [unfold in_block; rewrite Hl; lia|done|].
  set (g := get_dinode _ _ _) in *. assert (g = mkInode (i_dev g) (i_inum g) (i_ref g) (i_lock g) (i_valid g) (i_type g) (i_major g) (i_minor g) (i_nlink g) (i_size g) (i_addrs g)) as -> by done.
  rewrite G1, G2, G3, G4, G5, G6. destruct i. cbn in *. by subst.
Qed.
Lemma dino_other V j j' i :
  0 <= j <= NINODES -> 0 <= j' <= NINODES -> j' <> j -> length (V (IBLOCK j mk_sb)) = 512%nat -> length (i_addrs i) = 13%nat ->
  dino (put_data V (IBLOCK j mk_sb) (put_dinode (V (IBLOCK j mk_sb)) (dinode_off j) i)) j' = dino V j'.
Proof.
  intros Hj Hj' Hne Hl Ha. destruct (IBLOCK_mk j Hj) as (B1 & _ & H1 & H2), (IBLOCK_mk j' Hj') as (B2 & _ & H1' & H2').
  unfold dino, put_data. case_decide as E; [|done]. rewrite E. apply get_put_other; [unfold in_block; rewrite Hl; lia|unfold in_block; rewrite Hl; lia|done|].
  rewrite B1, B2 in E. unfold dinode_off. rewrite IPB_eq. dlia.
Qed.

(** Blocks before the data belong to no file. *)
Section Meta.
  Variables (V V' : Z -> blk) (fb fi : Z) (own : Z -> option (Z * Z)) (ino : Z -> inode).
  Context (Hok : mk_ok V fb fi own ino) (HV : forall m, nmeta <= m -> V' m = V m).

Lemma meta_block j bn : 1 <= j < fi -> block_of V' (ino j) bn = block_of V (ino j) bn.
Proof.
  intros Hj. unfold block_of. destruct (bn <? NDIRECT); [done|]. destruct (Z.eqb_spec (ind_addr (ino j)) 0) as [|Hnz]; [done|].
  destruct (ok_ind _ _ _ _ _ Hok j Hj) as [|Ho]; [done|]. rewrite HV; [done|]. apply (ok_own _ _ _ _ _ Hok) in Ho. lia.
Qed.
Lemma meta_byte j k : 1 <= j < fi -> 0 <= k < MAXFILE * BSIZE -> fbyte V' (ino j) k = fbyte V (ino j) k.
Proof.
  intros Hj Hk. unfold fbyte. rewrite meta_block by done. destruct (Z.eqb_spec (block_of V (ino j) (k / 512)) 0) as [|Hnz]; [done|].
  destruct (ok_block _ _ _ _ _ Hok j (k / 512) Hj) as [|Ho]; [rewrite MAXFILE_eq in *; unfold BSIZE in Hk; dlia|done|].
  rewrite HV; [done|]. apply (ok_own _ _ _ _ _ Hok) in Ho. lia.
Qed.
Lemma meta_ok : (forall n, 0 <= n < FSSIZE -> length (V' n) = 512%nat) -> mk_ok V' fb fi own ino.
Proof.
  intros Hl. pose proof Hok as [K1 K2 K3 K4 K5 K6 K7 K8 K9 K10 K11]. split; try done.
  - intros b Hb. rewrite HV by lia. by apply K3.
  - intros j bn Hj Hbn. rewrite meta_block by done. by apply K5.
  - intros j bn Hj Hbn. rewrite meta_block by done. by apply K8.
  - intros j k Hj Hk. rewrite meta_byte by (done || (pose proof (K9 j Hj); lia)). by apply K10.
Qed.
End Meta.

(** The program's state between its calls. *)
Record mk_inv (s : mk) (own : Z -> option (Z * Z)) (ino : Z -> inode) : Prop := {
  mi_ok : mk_ok (img s) (freeblock s) (freeinode s) own ino;
  mi_disk j : 1 <= j < freeinode s -> dino (img s) j = ino j;
  mi_mem j : 1 <= j < freeinode s -> mem_fields j (ino j);
  mi_fields j : 1 <= j < freeinode s -> 0 <= i_type (ino j) < 32768 /\ i_major (ino j) = 0 /\ i_minor (ino j) = 0 /\ i_nlink (ino j) = 1;
  mi_free j : freeinode s <= j <= NINODES -> i_type (dino (img s) j) = 0;
  mi_inodes : 1 <= freeinode s <= NINODES }.

Lemma ok_dinode_range V fb fi own ino j :
  mk_ok V fb fi own ino -> 1 <= j < fi -> 0 <= i_type (ino j) < 32768 /\ i_major (ino j) = 0 /\ i_minor (ino j) = 0 /\ i_nlink (ino j) = 1 ->
  dinode_range (ino j).
Proof.
  intros Hok Hj (T1 & T2 & T3 & T4). pose proof (ok_size _ _ _ _ _ Hok j Hj) as Hs. assert (MAXFILE * BSIZE = 71680) as Hc by done.
  pose proof (ok_addrs _ _ _ _ _ Hok j Hj) as Hl. pose proof (ok_fb _ _ _ _ _ Hok) as Hfb. rewrite nmeta_eq, FSSIZE_eq in Hfb.
  split; [lia..|unfold is_u32; lia|done|]. apply Forall_lookup_2. intros k a Ha. pose proof (lookup_lt_Some _ _ _ Ha) as Hk. rewrite Hl in Hk.
  assert (a = get_addr (ino j) (Z.of_nat k)) as -> by (unfold get_addr; rewrite Nat2Z.id, nth_lookup, Ha; done).
  assert (forall b x, own b = Some x -> is_u32 b) as Hu by (intros b x Hb%(ok_own _ _ _ _ _ Hok); rewrite nmeta_eq in Hb; unfold is_u32; lia).
  destruct (decide (k = 12)%nat) as [->|Hne].
  - destruct (ok_ind _ _ _ _ _ Hok j Hj) as [Hz|Ho]; [|by apply (Hu _ _ Ho)]. change (get_addr (ino j) (Z.of_nat 12)) with (ind_addr (ino j)). by rewrite Hz.
  - assert (block_of V (ino j) (Z.of_nat k) = get_addr (ino j) (Z.of_nat k)) as <- by (unfold block_of, NDIRECT; by rewrite (proj2 (Z.ltb_lt _ _)) by lia).
    destruct (ok_block _ _ _ _ _ Hok j (Z.of_nat k) Hj) as [Hz|Ho]; [rewrite MAXFILE_eq; lia|by rewrite Hz|by apply (Hu _ _ Ho)].
Qed.

Section Winode.
  Variables (s : mk) (own : Z -> option (Z * Z)) (ino : Z -> inode).

(** Writing back an inode whose blocks are already in the image. *)
Lemma winode_inv E j i :
  1 <= j < freeinode s -> 1 <= freeinode s <= NINODES ->
  mk_ok (img s) (freeblock s) (freeinode s) own (upd ino j i) ->
  (forall k, 1 <= k < freeinode s -> k <> j -> dino (img s) k = ino k) ->
  (forall k, freeinode s <= k <= NINODES -> i_type (dino (img s) k) = 0) ->
  (forall k, 1 <= k < freeinode s -> mem_fields k (upd ino j i k)) ->
  (forall k, 1 <= k < freeinode s -> 0 <= i_type (upd ino j i k) < 32768 /\ i_major (upd ino j i k) = 0 /\ i_minor (upd ino j i k) = 0 /\ i_nlink (upd ino j i k) = 1) ->
  wpx E (winode j i) (fun _ s' => mk_inv s' own (upd ino j i) /\ freeinode s' = freeinode s /\ freeblock s' = freeblock s /\
    forall m, (m < 32 \/ 58 <= m) -> img s' m = img s m) s.
Proof.
  intros Hj Hfi Hok Hd Hz Hm Hf. destruct (IBLOCK_mk j ltac:(lia)) as (_ & Hb & _). pose proof (ok_len _ _ _ _ _ Hok (IBLOCK j mk_sb)) as Hl.
  rewrite FSSIZE_eq in Hl. specialize (Hl ltac:(lia)). assert (upd ino j i j = i) as Hu by (unfold upd; by rewrite decide_True).
  pose proof (ok_dinode_range _ _ _ _ _ j Hok Hj (Hf j Hj)) as Hr. rewrite Hu in Hr. pose proof (dr_len _ Hr) as Hla.
  unfold winode. wpx_step. apply rsect_wpx; [intros _|intros; rewrite FSSIZE_eq in *; lia|lia]. unfold wsect. wpx_step. cbn [img freeinode freeblock set_img].
  assert (forall m, m < 32 \/ 58 <= m -> put_data (img s) (IBLOCK j mk_sb) (put_dinode (img s (IBLOCK j mk_sb)) (dinode_off j) i) m = img s m) as HV.
  { intros m Hm'. unfold put_data. by rewrite decide_False by lia. }
  split; [|done]. split; cbn [img freeinode freeblock set_img]; try done.
  - apply (meta_ok (img s) _ _ _ _ _ Hok); [intros m Hm'; apply HV; rewrite nmeta_eq in Hm'; lia|].
    intros n Hn. unfold put_data. case_decide; [|by apply Hok]. by rewrite length_put_dinode.
  - intros k Hk. unfold upd. case_decide as Ek.
    + subst k. apply dino_written; [lia|done| |done]. rewrite <-Hu. by apply Hm.
    + rewrite dino_other by (done || lia). by apply Hd.
  - intros k Hk. rewrite dino_other by (done || lia). by apply Hz.
Qed.
End Winode.

#[local] Arguments nblk : simpl never.
#[local] Arguments nmeta : simpl never.

(** ** Files and their contents *)

(** A file's type and bytes; the list has the files in the order of their inodes. *)
Definition holds (V : Z -> blk) (i : inode) (c : Z * list Z) : Prop :=
  i_type i = c.1 /\ i_size i = Z.of_nat (length c.2) /\ fbytes V i 0 (Z.of_nat (length c.2)) = c.2.
Fixpoint data_blocks (cs : list (Z * list Z)) : Z :=
  match cs with [] => 0 | c :: cs => nblk (Z.of_nat (length c.2)) + data_blocks cs end.
Definition blocks_of (cs : list (Z * list Z)) : Z := nmeta + data_blocks cs.
(** The blocks before the inodes: boot block, super block and an empty log. *)
Definition sb_block : blk := set_words (zeroes 512) 0 [FSSIZE; FSSIZE - nmeta; NINODES; nlog; 2; 2 + nlog; 2 + nlog + ninodeblocks].
Definition first_block (m : Z) : blk := if decide (m = 1) then sb_block else zeroes 512.

Record mk_files (s : mk) (own : Z -> option (Z * Z)) (ino : Z -> inode) (cs : list (Z * list Z)) : Prop := {
  mf_inv : mk_inv s own ino;
  mf_inodes : freeinode s = 1 + Z.of_nat (length cs);
  mf_blocks : freeblock s = blocks_of cs;
  mf_first m : 0 <= m < 32 -> img s m = first_block m;
  mf_holds n c : cs !! n = Some c -> holds (img s) (ino (1 + Z.of_nat n)) c }.
Definition files (s : mk) (cs : list (Z * list Z)) : Prop := exists own ino, mk_files s own ino cs.

Lemma blocks_insert cs n t d p :
  cs !! n = Some (t, d) ->
  blocks_of (<[n := (t, d ++ p)]> cs) = blocks_of cs + nblk (Z.of_nat (length d) + Z.of_nat (length p)) - nblk (Z.of_nat (length d)).
Proof.
  unfold blocks_of. revert n. induction cs as [|c cs IH]; intros [|n] Hn; [done..| |].
  - injection Hn as ->. cbn. rewrite length_app, Nat2Z.inj_add. lia.
  - specialize (IH n Hn). change (<[S n := (t, d ++ p)]> (c :: cs)) with (c :: <[n := (t, d ++ p)]> cs). cbn [data_blocks]. lia.
Qed.
Lemma blocks_app cs ds : blocks_of (cs ++ ds) = blocks_of cs + blocks_of ds - nmeta.
Proof. unfold blocks_of. induction cs as [|c cs IH]; cbn; lia. Qed.
Lemma holds_nth V i c : holds V i c <-> i_type i = c.1 /\ i_size i = Z.of_nat (length c.2) /\ forall k, 0 <= k < i_size i -> fbyte V i k = nth (Z.to_nat k) c.2 0.
Proof.
  unfold holds, fbytes. split; intros (H1 & H2 & H3); split_and!; try done.
  - intros k Hk. rewrite <-H3 at 1. rewrite nth_lookup, list_lookup_fmap, lookup_seqZ_lt by lia. cbn. f_equal. lia.
  - apply list_eq. intros j. rewrite list_lookup_fmap. destruct (decide (j < length c.2)%nat) as [Hj|Hj].
    + rewrite lookup_seqZ_lt by lia. cbn. rewrite Z.add_0_l, H3 by lia. destruct (lookup_lt_is_Some_2 c.2 j Hj) as [x Hx].
      rewrite Nat2Z.id, nth_lookup, Hx. done.
    + rewrite lookup_seqZ_ge by lia. symmetry. apply lookup_ge_None_2. lia.
Qed.
Lemma holds_meta V V' fb fi own ino j c :
  mk_ok V fb fi own ino -> (forall m, nmeta <= m -> V' m = V m) -> 1 <= j < fi -> holds V (ino j) c -> holds V' (ino j) c.
Proof.
  intros Hok HV Hj (H1 & H2 & H3). split; [done|]. split; [done|]. rewrite <-H3 at 2. apply fbytes_ext. intros k Hk.
  pose proof (ok_size _ _ _ _ _ Hok j Hj). apply (meta_byte V V' fb fi own ino); done || lia.
Qed.

(** A new inode. *)
Definition new_inode (type j : Z) : inode := mkInode 1 j 0 false 0 type 0 0 1 0 (replicate 13 0).
Lemma new_block_of V type j bn : 0 <= bn < MAXFILE -> block_of V (new_inode type j) bn = 0.
Proof.
  intros Hb. unfold block_of, ind_addr, get_addr, NDIRECT. destruct (Z.ltb_spec bn 12); [|done].
  cbn [new_inode i_addrs]. rewrite nth_lookup, lookup_replicate_2 by lia. done.
Qed.
Lemma mk_ok_new V fb fi own ino type : mk_ok V fb fi own ino -> 1 <= fi -> mk_ok V fb (fi + 1) own (upd ino fi (new_inode type fi)).
Proof.
  intros [K1 K2 K3 K4 K5 K6 K7 K8 K9 K10 K11] Hfi. split; try done; unfold upd.
  - intros j bn Hj Hbn. case_decide; [left; by apply new_block_of|apply K5; lia].
  - intros j Hj. case_decide; [by left|apply K6; lia].
  - intros j Hj. case_decide; [split; [by intros []|cbn; lia]|apply K7; lia].
  - intros j bn Hj Hbn. case_decide; [rewrite new_block_of by done; split; [by intros []|cbn; lia]|apply K8; lia].
  - intros j Hj. case_decide; [cbn; rewrite MAXFILE_eq; unfold BSIZE; lia|apply K9; lia].
  - intros j k Hj Hk. case_decide; [|apply K10; lia]. unfold fbyte. rewrite new_block_of; [done|]. cbn in Hk. rewrite MAXFILE_eq in *. unfold BSIZE in Hk. dlia.
  - intros j Hj. case_decide; [done|apply K11; lia].
Qed.
Lemma mk_ialloc_ok E s cs type :
  files s cs -> 1 + Z.of_nat (length cs) < NINODES -> 0 <= type < 32768 ->
  wpx E (mk_ialloc type) (fun r s' => r = 1 + Z.of_nat (length cs) /\ files s' (cs ++ [(type, [])])) s.
Proof.
  intros (own & ino & [Hinv Hfi Hfb H1 Hh]) Hlt Ht. pose proof Hinv as [Hok Hd Hm Hf Hz Hr]. unfold mk_ialloc. wpx_steps.
  set (s1 := mkMk (img s) (freeinode s + 1) (freeblock s)). fold (new_inode type (freeinode s)).
  wpx_use (winode_inv s1 own ino E (freeinode s) (new_inode type (freeinode s))).
  - cbn. lia.
  - cbn. lia.
  - cbn. apply mk_ok_new; [done|lia].
  - intros k Hk Hne. cbn in Hk. apply Hd. lia.
  - intros k Hk. cbn in *. apply Hz. lia.
  - intros k Hk. cbn in Hk. unfold upd. case_decide; [by subst|apply Hm; lia].
  - intros k Hk. cbn in Hk. unfold upd. case_decide; [by cbn|apply Hf; lia].
  - intros _ s2 (Hinv2 & Hfi2 & Hfb2 & HV). wpx_step. split; [lia|]. exists own, (upd ino (freeinode s) (new_inode type (freeinode s))).
    cbn in Hfi2, Hfb2. split; [done|rewrite length_app; cbn; lia|rewrite blocks_app; change (blocks_of [(type, [])]) with nmeta; lia| |].
    + intros m Hm'. rewrite HV by lia. by apply H1.
    + intros n c Hn. destruct (decide (n < length cs)%nat) as [Hlt'|Hge].
      * rewrite lookup_app_l in Hn by done. unfold upd. rewrite decide_False by lia.
        apply (holds_meta (img s) _ (freeblock s) (freeinode s) own ino); [done|intros m Hm'; apply HV; rewrite nmeta_eq in Hm'; lia|lia|by apply Hh].
      * apply lookup_app_Some in Hn as [Hn|[_ Hn]]; [apply lookup_lt_Some in Hn; lia|]. apply list_lookup_singleton_Some in Hn as [Hn <-].
        unfold upd. rewrite decide_True by lia. by split.
Qed.

Section Append.
  Variables (V : Z -> blk) (fb fi : Z) (own : Z -> option (Z * Z)) (ino : Z -> inode) (j : Z) (p : list Z).
  Variables (V' : Z -> blk) (fb' : Z) (own' : Z -> option (Z * Z)) (i' : inode).
  Context (Hok : mk_ok V fb fi own ino) (Hj : 1 <= j < fi).
  Context (Hok' : mk_ok V' fb' fi own' (upd ino j i')) (Hap : appended V own j (ino j) p V' own' i').

Lemma appended_meta m : m < nmeta -> V' m = V m.
Proof. intros Hm. destruct (ap_V _ _ _ _ _ _ _ _ Hap m) as [|[n Hn]]; [done|]. apply (ok_own _ _ _ _ _ Hok') in Hn. lia. Qed.
Lemma appended_holds cs n t d :
  cs !! n = Some (t, d) -> j = 1 + Z.of_nat n -> fi = 1 + Z.of_nat (length cs) ->
  (forall n c, cs !! n = Some c -> holds V (ino (1 + Z.of_nat n)) c) ->
  forall n' c, <[n := (t, d ++ p)]> cs !! n' = Some c -> holds V' (upd ino j i' (1 + Z.of_nat n')) c.
Proof.
  intros Hn Hjn Hfi Hh n' c Hc. pose proof (lookup_lt_Some _ _ _ Hn) as Hnl. unfold upd. destruct (decide (n' = n)) as [->|Hne].
  - rewrite list_lookup_insert_eq in Hc by done. injection Hc as <-. rewrite decide_True by lia.
    specialize (Hh n _ Hn). rewrite <-Hjn in Hh. apply holds_nth in Hh as (H1 & H2 & H3). cbn [fst snd] in *.
    pose proof (ok_size _ _ _ _ _ Hok' j Hj) as Hsz. unfold upd in Hsz. rewrite decide_True in Hsz by done.
    destruct (ap_din _ _ _ _ _ _ _ _ Hap) as [a Ha]. assert (i_size i' = i_size (ino j) + Z.of_nat (length p)) as Hs by (by rewrite Ha).
    apply holds_nth. cbn [fst snd]. rewrite length_app. split; [by rewrite Ha|]. split; [lia|]. intros k Hk.
    rewrite (ap_byte _ _ _ _ _ _ _ _ Hap k) by lia. case_decide as E.
    + rewrite app_nth2 by lia. f_equal. lia.
    + rewrite app_nth1 by lia. apply H3. lia.
  - rewrite list_lookup_insert_ne in Hc by done. pose proof (lookup_lt_Some _ _ _ Hc). rewrite decide_False by lia.
    destruct (Hh n' _ Hc) as (H1 & H2 & H3). split; [done|]. split; [done|]. rewrite <-H3 at 2. apply fbytes_ext. intros k Hk.
    pose proof (ok_size _ _ _ _ _ Hok (1 + Z.of_nat n') ltac:(lia)).
    apply (other_byte V V' fb fi own own' ino j); [done|apply Hap|apply Hap|lia..].
Qed.
End Append.

Lemma iappend_ok s cs n t d p :
  files s cs -> cs !! n = Some (t, d) -> is_bytes p -> Z.of_nat (length d) + Z.of_nat (length p) <= MAXFILE * BSIZE ->
  wpx (too_big (blocks_of (<[n := (t, d ++ p)]> cs))) (iappend (1 + Z.of_nat n) p) (fun _ s' => files s' (<[n := (t, d ++ p)]> cs)) s.
Proof.
  destruct s as [V fi fb]. intros (own & ino & [Hinv Hfi Hfb Hf1 Hh]) Hn Hp Hmax. pose proof Hinv as [Hok Hd Hm Hf Hz Hr].
  cbn [img freeinode freeblock] in *. set (j := 1 + Z.of_nat n) in *.
  pose proof (lookup_lt_Some _ _ _ Hn) as Hnl. assert (1 <= j < fi) as Hj by lia. destruct (Hh n _ Hn) as (Ht & Hs & Hb). fold j in Ht, Hs, Hb. cbn [fst snd] in *.
  destruct (IBLOCK_mk j ltac:(lia)) as (_ & Hib & _). assert (with_size (i_size (ino j)) (ino j) = ino j) as Heta by (by destruct (ino j)).
  unfold iappend, rinode. wpx_step. wpx_step. apply rsect_wpx; [intros _|intros; rewrite FSSIZE_eq in *; lia|lia]. wpx_step. cbn [img].
  fold (dino V j). rewrite Hd by done. wpx_step. rewrite (blocks_insert cs n t d p Hn), <-Hfb, <-Hs.
  wpx_use (iappend_loop_ok (S (length p)) V fb fi own ino j (i_size (ino j)) (ino j) p); try done; [lia..|].
  intros [din off] s1 (V1 & own1 & -> & Hoff & Hok1 & Hap). cbn [fst snd freeblock] in *. rewrite Heta in Hap.
  set (i1 := with_size off din) in *. set (fb1 := fb + _ - _) in *.
  assert (forall k, exists a sz, upd ino j i1 k = with_addrs a (with_size sz (ino k))) as Hfld.
  { intros k. unfold upd. case_decide as E; [subst k; destruct (ap_din _ _ _ _ _ _ _ _ Hap) as [a ->]; eauto|].
    exists (i_addrs (ino k)), (i_size (ino k)). by destruct (ino k). }
  assert (forall k, 0 <= k <= NINODES -> dino V1 k = dino V k) as Hsame.
  { intros k Hk. unfold dino. destruct (IBLOCK_mk k Hk) as (_ & ? & _).
    by rewrite (appended_meta V fi own ino j p V1 fb1 own1 i1 Hok1 Hap) by (rewrite nmeta_eq; lia). }
  wpx_use (winode_inv (mkMk V1 fi fb1) own1 ino (too_big fb1) j i1); try done; cbn [img freeinode freeblock].
  - intros k Hk Hne. rewrite Hsame by lia. by apply Hd.
  - intros k Hk. rewrite Hsame by lia. by apply Hz.
  - intros k Hk. destruct (Hfld k) as (a & sz & ->). apply (Hm k Hk).
  - intros k Hk. destruct (Hfld k) as (a & sz & ->). apply (Hf k Hk).
  - intros _ s2 (Hinv2 & Hfi2 & Hfb2 & HV). exists own1, (upd ino j i1). split; [done|rewrite length_insert; lia| | |].
    + rewrite (blocks_insert cs n t d p Hn), <-Hfb, <-Hs. done.
    + intros m Hm'. rewrite HV by lia. cbn [img]. rewrite (appended_meta V fi own ino j p V1 fb1 own1 i1 Hok1 Hap) by (rewrite nmeta_eq; lia). by apply Hf1.
    + intros n' c Hc. pose proof (lookup_lt_Some _ _ _ Hc) as Hl'. rewrite length_insert in Hl'.
      apply (holds_meta V1 _ fb1 fi own1); [done|intros m Hm'; apply HV; rewrite nmeta_eq in Hm'; lia|lia|].
      by apply (appended_holds V fb fi own ino j p V1 fb1 own1 i1 Hok Hj Hok1 Hap cs n t d).
Qed.

(** ** The files of the command line *)

(** The root directory: its names, with the numbers of their inodes. *)
Definition names (fs : list (list Z * list (list Z))) : list (list Z * Z) :=
  ([46], 1) :: ([46; 46], 1) :: imap (fun k f => (strip f.1, 2 + Z.of_nat k)) fs.
Definition dirents (fs : list (list Z * list (list Z))) : list (list Z) := (fun x => make_dirent x.2 x.1) <$> names fs.
Definition root_data (fs : list (list Z * list (list Z))) : list Z := concat (dirents fs).
Definition tree (fs : list (list Z * list (list Z))) : list (Z * list Z) :=
  (T_DIR, root_data fs) :: ((fun f => (T_FILE, concat f.2)) <$> fs).
Record good_file (f : list Z * list (list Z)) : Prop := {
  gf_name : is_bytes f.1;
  gf_slash : existsb (Z.eqb slash) f.1 = false;
  gf_bytes : Forall is_bytes f.2;
  gf_size : Z.of_nat (length (concat f.2)) <= MAXFILE * BSIZE }.

Lemma strip_bytes name : is_bytes name -> is_bytes (strip name).
Proof. intros H. unfold strip. destruct (hd 0 name =? 95); [|done]. destruct H; [constructor|done]. Qed.
Lemma root_data_app fs f : root_data (fs ++ [f]) = root_data fs ++ make_dirent (2 + Z.of_nat (length fs)) (strip f.1).
Proof.
  unfold root_data, dirents, names. rewrite imap_app. cbn [imap]. unfold compose. rewrite Nat.add_0_r, !app_comm_cons, fmap_app, concat_app.
  cbn [fmap list_fmap concat fst snd]. by rewrite app_nil_r.
Qed.
Lemma tree_app fs f :
  tree (fs ++ [f]) = (T_DIR, root_data fs ++ make_dirent (2 + Z.of_nat (length fs)) (strip f.1)) ::
    ((fun f => (T_FILE, concat f.2)) <$> fs) ++ [(T_FILE, concat f.2)].
Proof.
  unfold tree. rewrite fmap_app, root_data_app. done.
Qed.
Lemma length_root_data fs : Forall good_file fs -> Z.of_nat (length fs) <= 198 -> length (root_data fs) = (16 * (2 + length fs))%nat.
Proof.
  induction fs as [|f fs IH] using rev_ind; intros Hg Hl; [done|]. apply Forall_app in Hg as [Hg Hf]. apply Forall_cons in Hf as [Hf _].
  rewrite length_app in *. cbn [length] in *. rewrite root_data_app, length_app, IH by (done || lia). destruct (make_dirent_ok (2 + Z.of_nat (length fs)) (strip f.1)) as (-> & _); [lia|apply strip_bytes, Hf|]. lia.
Qed.
Lemma data_blocks_nonneg cs : 0 <= data_blocks cs.
Proof. induction cs as [|c cs IH]; cbn; [done|]. pose proof (nblk_mono 0 (Z.of_nat (length c.2)) ltac:(lia)). change (nblk 0) with 0 in *. lia. Qed.
Lemma data_blocks_app cs ds : data_blocks (cs ++ ds) = data_blocks cs + data_blocks ds.
Proof. induction cs as [|c cs IH]; [done|]. cbn. rewrite IH. lia. Qed.
Lemma blocks_tree_mono fs fs' :
  Forall good_file (fs ++ fs') -> Z.of_nat (length (fs ++ fs')) <= 198 -> blocks_of (tree fs) <= blocks_of (tree (fs ++ fs')).
Proof.
  intros Hg Hl. pose proof (proj1 (proj1 (Forall_app _ _ _) Hg)) as Hg1. rewrite length_app in Hl. unfold blocks_of, tree. cbn [data_blocks snd].
  rewrite !length_root_data by (rewrite ?length_app; (done || lia)). rewrite fmap_app, data_blocks_app, length_app.
  pose proof (data_blocks_nonneg ((fun f => (T_FILE, concat f.2)) <$> fs')).
  pose proof (nblk_mono (Z.of_nat (16 * (2 + length fs))) (Z.of_nat (16 * (2 + (length fs + length fs')))) ltac:(lia)). lia.
Qed.

Lemma iappend_all_ok s cs n t d bufs :
  files s cs -> cs !! n = Some (t, d) -> Forall is_bytes bufs -> Z.of_nat (length d) + Z.of_nat (length (concat bufs)) <= MAXFILE * BSIZE ->
  wpx (too_big (blocks_of (<[n := (t, d ++ concat bufs)]> cs))) (iappend_all (1 + Z.of_nat n) bufs)
    (fun _ s' => files s' (<[n := (t, d ++ concat bufs)]> cs)) s.
Proof.
  revert s cs d. induction bufs as [|b bufs IH]; intros s cs d Hs Hn Hb Hmax; cbn [iappend_all concat] in *.
  { wpx_step. by rewrite app_nil_r, list_insert_id. }
  apply Forall_cons in Hb as [Hb Hbs]. rewrite length_app in Hmax. pose proof (lookup_lt_Some _ _ _ Hn) as Hnl. wpx_step.
  eapply wpx_mono; [apply (wpx_weaken (too_big (blocks_of (<[n := (t, d ++ b)]> cs))))|].
  { apply (iappend_ok s cs n t d b); done || lia. }
  { intros msg [-> Hbig]. split; [done|]. rewrite blocks_insert in * by done. rewrite length_app.
    pose proof (nblk_mono (Z.of_nat (length d) + Z.of_nat (length b)) (Z.of_nat (length d) + Z.of_nat (length b + length (concat bufs))) ltac:(lia)). lia. }
  intros ? s1 Hs1. specialize (IH s1 (<[n := (t, d ++ b)]> cs) (d ++ b) Hs1). rewrite list_lookup_insert_eq, list_insert_insert_eq, <-app_assoc in IH by done.
  apply IH; [done|done|rewrite length_app; lia].
Qed.

Lemma insert_last {A} (l : list A) x y n : n = length l -> <[n := x]> (l ++ [y]) = l ++ [x].
Proof. intros ->. by induction l as [|a l IH]; [|cbn; f_equal]. Qed.
Lemma add_file_ok s fs f :
  files s (tree fs) -> Forall good_file (fs ++ [f]) -> Z.of_nat (length (fs ++ [f])) <= 198 ->
  wpx (too_big (blocks_of (tree (fs ++ [f])))) (add_file f) (fun _ s' => files s' (tree (fs ++ [f]))) s.
Proof.
  intros Hs Hg Hl. pose proof Hg as [Hg1 [Hf _]%Forall_cons]%Forall_app. rewrite length_app in Hl. cbn [length] in Hl.
  assert (length (tree fs) = S (length fs)) as Hlt by (unfold tree; cbn; by rewrite length_fmap).
  destruct (make_dirent_ok (2 + Z.of_nat (length fs)) (strip f.1)) as (D1 & D2 & _); [lia|apply strip_bytes, Hf|].
  unfold add_file. rewrite (gf_slash _ Hf). wpx_step.
  wpx_use (mk_ialloc_ok (too_big (blocks_of (tree (fs ++ [f])))) s (tree fs) T_FILE Hs); [rewrite Hlt; unfold NINODES; lia|done|].
  intros inum s1 [-> Hs1]. replace (1 + Z.of_nat (length (tree fs))) with (2 + Z.of_nat (length fs)) by lia. wpx_step.
  set (de := make_dirent _ _) in *. set (cs1 := (T_DIR, root_data fs ++ de) :: ((fun f => (T_FILE, concat f.2)) <$> fs) ++ [(T_FILE, [])]).
  assert (<[0%nat := (T_DIR, root_data fs ++ de)]> (tree fs ++ [(T_FILE, [])]) = cs1) as E1 by done.
  assert (<[S (length fs) := (T_FILE, [] ++ concat f.2)]> cs1 = tree (fs ++ [f])) as E2.
  { rewrite tree_app. fold de. subst cs1. apply (f_equal (cons _)), insert_last. by rewrite length_fmap. }
  assert (cs1 !! S (length fs) = Some (T_FILE, [])) as E3.
  { apply list_lookup_middle. by rewrite length_fmap. }
  eapply wpx_mono; [apply (wpx_weaken (too_big (blocks_of cs1)))|].
  { rewrite <-E1. apply (iappend_ok s1 (tree fs ++ [(T_FILE, [])]) 0 T_DIR (root_data fs) de); [done..|].
    rewrite length_root_data, D1 by (done || lia). change (MAXFILE * BSIZE) with 71680. lia. }
  { intros msg [-> Hb]. split; [done|]. rewrite <-E2, blocks_insert by done. change (nblk (Z.of_nat (length ([] : list Z)))) with 0.
    pose proof (nblk_mono 0 (Z.of_nat (length ([] : list Z)) + Z.of_nat (length (concat f.2))) ltac:(cbn; lia)). change (nblk 0) with 0 in *. lia. }
  intros ? s2 Hs2. rewrite E1 in Hs2. replace (2 + Z.of_nat (length fs)) with (1 + Z.of_nat (S (length fs))) by lia. rewrite <-E2.
  apply iappend_all_ok; [done|done|apply Hf|]. pose proof (gf_size _ Hf). cbn [length]. lia.
Qed.
Lemma add_files_ok s done fs :
  files s (tree done) -> Forall good_file (done ++ fs) -> Z.of_nat (length (done ++ fs)) <= 198 ->
  wpx (too_big (blocks_of (tree (done ++ fs)))) (add_files fs) (fun _ s' => files s' (tree (done ++ fs))) s.
Proof.
  revert s done. induction fs as [|f fs IH]; intros s dn Hs Hg Hl; cbn [add_files].
  { wpx_step. by rewrite app_nil_r. }
  change (f :: fs) with ([f] ++ fs) in *. rewrite app_assoc in *. wpx_step.
  eapply wpx_mono; [apply (wpx_weaken (too_big (blocks_of (tree (dn ++ [f])))))|].
  { apply add_file_ok; [done|by apply Forall_app in Hg as [Hg _]|]. rewrite length_app in Hl. lia. }
  { intros msg [-> Hb]. split; [done|]. pose proof (blocks_tree_mono (dn ++ [f]) fs Hg Hl). lia. }
  intros ? s1 Hs1. by apply IH.
Qed.

(** ** The image *)

Fixpoint look (l : list (list Z * Z)) (n : list Z) : option Z :=
  match l with [] => None | (m, inum) :: l => if namecmp n m =? 0 then Some inum else look l n end.

Record image (V : Z -> blk) (fs : list (list Z * list (list Z))) : Prop := {
  im_super : sb_of (V 1) = mk_sb;
  im_log : V 2 = zeroes 512;
  im_len m : 0 <= m < FSSIZE -> length (V m) = 512%nat;
  im_map b : 0 <= b < FSSIZE -> marked mk_sb V b = bool_decide (b < blocks_of (tree fs));
  im_file j : 1 <= j <= 1 + Z.of_nat (length fs) -> file_ok mk_sb V (dino V j) /\ i_nlink (dino V j) = 1;
  im_dense j : 1 <= j <= 1 + Z.of_nat (length fs) -> (j = 1 -> (2 + Z.of_nat (length fs)) mod 32 <> 0) -> dense V (dino V j);
  im_apart j j' bn bn' : 1 <= j <= 1 + Z.of_nat (length fs) -> 1 <= j' <= 1 + Z.of_nat (length fs) ->
    0 <= bn < MAXFILE -> 0 <= bn' < MAXFILE -> block_of V (dino V j) bn <> 0 ->
    block_of V (dino V j) bn = block_of V (dino V j') bn' -> j = j';
  im_free j : 1 + Z.of_nat (length fs) < j <= NINODES -> i_type (dino V j) = 0;
  im_root : i_type (dino V 1) = T_DIR;
  im_root_size : i_size (dino V 1) mod BSIZE = 0;
  im_dir n : dir_map (entries V (dino V 1)) n = look (names fs) n;
  im_data k f : fs !! k = Some f -> holds V (dino V (2 + Z.of_nat k)) (T_FILE, concat f.2) }.

Lemma mk_layout : layout_ok 2 nlog FSSIZE mk_sb.
Proof. by split. Qed.

Lemma dir_map_dirents l r n : (forall x, x ∈ l -> 0 < x.2 < 65536 /\ is_bytes x.1) ->
  dir_map (((fun x => make_dirent x.2 x.1) <$> l) ++ replicate r (zeroes 16)) n = look l n.
Proof.
  intros Hx. induction l as [|[m inum] l IH].
  - cbn [fmap list_fmap app look]. induction r as [|r IH]; [done|]. cbn [replicate]. by rewrite dir_map_cons.
  - cbn [fmap list_fmap app look fst snd]. rewrite dir_map_cons, IH by (intros x Hin; apply Hx; by constructor).
    destruct (Hx (m, inum)) as [H1 H2]; [by constructor|]. cbn [fst snd] in *. destruct (make_dirent_ok inum m H1 H2) as (_ & _ & D1 & D2).
    unfold is_named. rewrite D1, D2, (proj2 (Z.eqb_neq inum 0)) by lia. done.
Qed.
Lemma take_drop_concat (es : list (list Z)) k de :
  Forall (fun de => length de = 16%nat) es -> es !! k = Some de -> take 16 (drop (16 * k) (concat es)) = de.
Proof.
  revert k. induction es as [|e es IH]; intros k Hes Hk; [done|]. apply Forall_cons in Hes as [He Hes]. destruct k as [|k].
  - injection Hk as ->. cbn [concat]. rewrite Nat.mul_0_r, drop_0. by apply take_app_length'.
  - cbn [concat]. replace (16 * S k)%nat with (length e + 16 * k)%nat by lia. rewrite drop_app_add'; [by apply IH|done].
Qed.

Section Directory.
  Variables (fs : list (list Z * list (list Z))) (V : Z -> blk) (i : inode).
  Context (Hg : Forall good_file fs) (Hl : Z.of_nat (length fs) <= 198).

Lemma names_ok x : x ∈ names fs -> 0 < x.2 < 65536 /\ is_bytes x.1.
Proof.
  unfold names. rewrite !elem_of_cons. intros [->|[->|Hx]]; [split; [cbn; lia|repeat constructor; lia]..|].
  apply elem_of_lookup_imap in Hx as (k & f & -> & Hk). pose proof (lookup_lt_Some _ _ _ Hk). cbn. split; [lia|].
  apply strip_bytes. by apply (proj1 (Forall_lookup _ _) Hg k f Hk).
Qed.
Lemma dirents_16 : Forall (fun de => length de = 16%nat) (dirents fs).
Proof.
  apply Forall_fmap, Forall_forall. intros x Hx. destruct (names_ok x Hx) as [A B]. apply (make_dirent_ok x.2 x.1 A B).
Qed.
Lemma entries_image :
  let D := root_data fs in
  i_size i = (Z.of_nat (length D) / BSIZE + 1) * BSIZE ->
  (forall k, 0 <= k < i_size i -> fbyte V i k = if decide (k < Z.of_nat (length D)) then nth (Z.to_nat k) D 0 else 0) ->
  exists r, entries V i = dirents fs ++ replicate r (zeroes 16).
Proof.
  intros D Hs Hb. assert (length D = (16 * length (dirents fs))%nat) as HD.
  { subst D. rewrite length_root_data by done. unfold dirents, names. rewrite length_fmap. cbn. by rewrite length_imap. }
  unfold BSIZE in Hs. exists (Z.to_nat (i_size i / 16) - length (dirents fs))%nat. apply list_eq. intros k. unfold entries. rewrite list_lookup_fmap.
  destruct (decide (k < Z.to_nat (i_size i / 16))%nat) as [Hk|Hk].
  2: { rewrite lookup_seqZ_ge by lia. symmetry. apply lookup_ge_None_2. rewrite length_app, length_replicate. dlia. }
  rewrite lookup_seqZ_lt by lia. cbn [fmap option_fmap option_map]. rewrite Z.add_0_l.
  assert (forall x, (x < 16)%nat -> entry V i (Z.of_nat k) !! x = Some (fbyte V i (16 * Z.of_nat k + Z.of_nat x))) as He.
  { intros x Hx. unfold entry, fbytes. rewrite list_lookup_fmap, lookup_seqZ_lt by lia. done. }
  assert (length (entry V i (Z.of_nat k)) = 16%nat) as Hel by (unfold entry, fbytes; by rewrite length_fmap, length_seqZ).
  destruct (decide (k < length (dirents fs))%nat) as [Hin|Hout].
  - rewrite lookup_app_l by done. destruct (lookup_lt_is_Some_2 _ _ Hin) as [de Hde]. rewrite Hde. f_equal.
    rewrite <-(take_drop_concat _ k de dirents_16 Hde). fold (root_data fs). fold D. apply list_eq. intros x. destruct (decide (x < 16)%nat) as [Hx|Hx].
    + rewrite He, lookup_take_lt, lookup_drop by done. destruct (lookup_lt_is_Some_2 D (16 * k + x)) as [y Hy]; [lia|]. rewrite Hy, Hb by dlia.
      rewrite decide_True by lia. f_equal. replace (Z.to_nat (16 * Z.of_nat k + Z.of_nat x)) with (16 * k + x)%nat by lia. by rewrite nth_lookup, Hy.
    + rewrite lookup_ge_None_2 by lia. symmetry. apply lookup_ge_None_2. rewrite length_take. lia.
  - rewrite lookup_app_r, lookup_replicate_2 by lia. f_equal. apply list_eq. intros x. unfold zeroes. destruct (decide (x < 16)%nat) as [Hx|Hx].
    + rewrite He, lookup_replicate_2, Hb by dlia. by rewrite decide_False by lia.
    + rewrite !lookup_ge_None_2 by (rewrite ?length_replicate; lia). done.
Qed.
End Directory.

(** ** main *)

Lemma bits_set l d j :
  length d = 512%nat -> Forall (fun b => 0 <= b < 4096) l -> 0 <= j < 4096 ->
  length (foldl with_bit d l) = 512%nat /\ bit_set (foldl with_bit d l) j = bool_decide (j ∈ l) || bit_set d j.
Proof.
  revert d. induction l as [|b l IH]; intros d Hd Hl Hj; cbn [foldl]; [by rewrite bool_decide_false by apply not_elem_of_nil|].
  apply Forall_cons in Hl as [Hb Hl]. destruct (IH (with_bit d b)) as [H1 H2]; [unfold with_bit; by rewrite length_set_byte|done|done|]. split; [done|].
  rewrite H2, bit_set_with_bit by done. rewrite (bool_decide_ext (j ∈ b :: l) (j = b \/ j ∈ l)) by apply elem_of_cons.
  rewrite bool_decide_or. by destruct (bool_decide (j = b)), (bool_decide (j ∈ l)).
Qed.
Lemma zero_bits j : 0 <= j < 4096 -> bit_set (zeroes 512) j = false.
Proof. intros Hj. unfold bit_set, byte_at. by rewrite nth_zeroes. Qed.
Lemma clear_ok E n s :
  wpx E (clear n) (fun _ s' => freeinode s' = freeinode s /\ freeblock s' = freeblock s /\
    forall m, img s' m = if decide (0 <= m < Z.of_nat n) then zeroes 512 else img s m) s.
Proof.
  induction n as [|n IH]; cbn [clear].
  - wpx_step. split; [done|]. split; [done|]. intros m. by rewrite decide_False by lia.
  - wpx_step. wpx_use IH. intros _ s1 (H1 & H2 & H3). unfold wsect. wpx_step. cbn [img freeinode freeblock set_img]. split; [done|]. split; [done|].
    intros m. unfold put_data. rewrite H3. repeat case_decide; try lia; done.
Qed.
Lemma start_files s :
  freeinode s = 1 -> freeblock s = nmeta -> (forall m, 0 <= m < FSSIZE -> img s m = first_block m) -> files s [].
Proof.
  intros Hi Hb HV. exists (fun _ => None), (fun _ => new_inode 0 0). split; [split|done|done| |done].
  - split; try (intros; rewrite Hi in *; lia).
    + intros n Hn. rewrite HV by done. unfold first_block. by case_decide.
    + rewrite Hb, nmeta_eq, FSSIZE_eq. lia.
    + intros b Hb'. rewrite Hb, nmeta_eq in Hb'. rewrite HV by lia. unfold first_block. by rewrite decide_False by lia.
    + done.
  - intros j Hj. lia.
  - intros j Hj. lia.
  - intros j Hj. lia.
  - intros j Hj. destruct (IBLOCK_mk j ltac:(lia)) as (_ & H1 & H2 & H3). unfold dino. rewrite HV by (rewrite FSSIZE_eq; lia).
    unfold first_block. rewrite decide_False by lia. unfold get_dinode. cbn [i_type]. unfold half_at, byte_at. by rewrite !nth_zeroes.
  - rewrite Hi. unfold NINODES. lia.
  - intros m Hm. apply HV. rewrite FSSIZE_eq. lia.
Qed.
Lemma dot_bytes name : name = [46] \/ name = [46; 46] -> is_bytes (make_dirent 1 name).
Proof. intros Hn. apply (make_dirent_ok 1 name); [lia|]. destruct Hn as [->| ->]; repeat constructor; lia. Qed.
(** The root directory with its first two entries. *)
Lemma root_files E s (k : M mk unit) Q :
  files s [] -> (forall msg, too_big (blocks_of (tree [])) msg -> E msg) -> (forall s', files s' (tree []) -> wpx E k Q s') ->
  wpx E (rootino ← mk_ialloc T_DIR;
    if negb (rootino =? ROOTINO) then panic "assert"
    else _ ← iappend rootino (make_dirent rootino [46]); _ ← iappend rootino (make_dirent rootino [46; 46]); k) Q s.
Proof.
  intros Hs HE Hk. wpx_step. wpx_use (mk_ialloc_ok E s [] T_DIR Hs); [done..|]. intros r s1 [-> Hs1]. change (negb (_ =? ROOTINO)) with false. cbv iota.
  wpx_step. eapply wpx_mono; [apply (wpx_weaken (too_big (blocks_of (<[0%nat := (T_DIR, [] ++ make_dirent 1 [46])]> [(T_DIR, [])]))))|].
  { apply (iappend_ok s1 [(T_DIR, [])] 0 T_DIR [] (make_dirent 1 [46])); [done|done|apply dot_bytes; auto|by cbn]. }
  { intros msg [-> H]. by apply HE. }
  intros ? s2 Hs2. wpx_step. eapply wpx_mono; [apply (wpx_weaken (too_big (blocks_of (<[0%nat := (T_DIR, make_dirent 1 [46] ++ make_dirent 1 [46; 46])]> [(T_DIR, make_dirent 1 [46])]))))|].
  { apply (iappend_ok s2 [(T_DIR, make_dirent 1 [46])] 0 T_DIR (make_dirent 1 [46]) (make_dirent 1 [46; 46])); [done|done|apply dot_bytes; auto|by cbn]. }
  { intros msg [-> H]. by apply HE. }
  intros ? s3 Hs3. by apply Hk.
Qed.

Section Finish.
  Variables (fs : list (list Z * list (list Z))) (V : Z -> blk) (fi fb : Z) (own : Z -> option (Z * Z)) (ino : Z -> inode).
  Context (Hg : Forall good_file fs) (Hn : Z.of_nat (length fs) <= 198) (Hs : mk_files (mkMk V fi fb) own ino (tree fs)).
  Variable (V' : Z -> blk).
  Notation i1 := (with_size ((i_size (ino 1) / BSIZE + 1) * BSIZE) (ino 1)).
  Context (HV : forall m, m < 32 \/ 59 <= m -> V' m = V m) (Hlen : forall m, 0 <= m < FSSIZE -> length (V' m) = 512%nat).
  Context (Hd1 : dino V' 1 = i1) (Hd : forall j, 2 <= j <= NINODES -> dino V' j = dino V j).
  Context (Hmap : forall b, 0 <= b < 4096 -> bit_set (V' 58) b = bool_decide (0 <= b < fb)).

Lemma fin_inv : mk_inv (mkMk V fi fb) own ino /\ fi = 2 + Z.of_nat (length fs) /\ fb = blocks_of (tree fs).
Proof. destruct Hs as [H1 H2 H3 _ _]. cbn in *. rewrite length_fmap in H2. split; [done|]. split; [lia|done]. Qed.
Lemma fin_ok : mk_ok V fb fi own ino.
Proof. apply (mi_ok _ _ _ (proj1 fin_inv)). Qed.
Lemma fin_dino j : 1 <= j < fi -> dino V' j = if decide (j = 1) then i1 else ino j.
Proof.
  intros Hj. pose proof fin_inv as (Hi & Hf & _). pose proof (mi_disk _ _ _ Hi j) as Hdj. cbn in Hdj. unfold NINODES in *.
  case_decide; [by subst|]. rewrite Hd by lia. by apply Hdj.
Qed.
Lemma fin_block j bn : 1 <= j < fi -> block_of V' (dino V' j) bn = block_of V (ino j) bn.
Proof.
  intros Hj. rewrite fin_dino by done. rewrite <-(meta_block V V' fb fi own ino fin_ok (fun m Hm => HV m ltac:(rewrite nmeta_eq in Hm; lia)) j bn Hj).
  case_decide; [by subst|done].
Qed.
Lemma fin_byte j k : 1 <= j < fi -> 0 <= k < MAXFILE * BSIZE -> fbyte V' (dino V' j) k = fbyte V (ino j) k.
Proof.
  intros Hj Hk. rewrite <-(meta_byte V V' fb fi own ino fin_ok (fun m Hm => HV m ltac:(rewrite nmeta_eq in Hm; lia)) j k Hj Hk).
  rewrite fin_dino by done. case_decide; [by subst|done].
Qed.
Lemma fin_marked b : 0 <= b < FSSIZE -> marked mk_sb V' b = bool_decide (b < fb).
Proof.
  intros Hb. rewrite FSSIZE_eq in Hb. unfold marked, BBLOCK. rewrite BPB_eq, Z.div_small, Z.mod_small by lia. change (0 + sb_bmapstart mk_sb) with 58.
  rewrite Hmap by lia. apply bool_decide_ext. lia.
Qed.
Lemma fin_owned b x : own b = Some x -> data_block mk_sb b /\ marked mk_sb V' b = true.
Proof.
  intros Ho. pose proof (ok_own _ _ _ _ _ fin_ok _ _ Ho) as Hb. pose proof (ok_fb _ _ _ _ _ fin_ok) as Hf. rewrite nmeta_eq in Hb.
  split; [change (59 <= b < FSSIZE); lia|]. rewrite fin_marked by lia. apply bool_decide_true. lia.
Qed.
Lemma fin_file j : 1 <= j < fi -> file_ok mk_sb V' (dino V' j).
Proof.
  intros Hj. pose proof fin_ok as Hok. destruct (mi_mem _ _ _ (proj1 fin_inv) j Hj) as (M1 & _).
  assert (ind_addr (dino V' j) = ind_addr (ino j)) as Hi by (rewrite fin_dino by done; case_decide; by subst).
  split; rewrite ?Hi.
  - rewrite fin_dino by done. case_decide; by subst.
  - pose proof (ok_addrs _ _ _ _ _ Hok j Hj). rewrite fin_dino by done. case_decide; by subst.
  - destruct (ok_ind _ _ _ _ _ Hok j Hj) as [|Ho]; [by left|right]. by apply (fin_owned _ _ Ho).
  - intros bn Hbn. rewrite fin_block by done. destruct (ok_block _ _ _ _ _ Hok j bn Hj Hbn) as [|Ho]; [by left|right]. by apply (fin_owned _ _ Ho).
  - intros bn bn' Hbn Hbn'. rewrite !fin_block by done. intros Hnz E. destruct (ok_block _ _ _ _ _ Hok j bn Hj Hbn) as [|Ho]; [done|].
    destruct (ok_block _ _ _ _ _ Hok j bn' Hj Hbn') as [|Ho']; congruence.
  - intros bn Hbn. rewrite !fin_block by done. intros Hnz E. destruct (ok_block _ _ _ _ _ Hok j bn Hj Hbn) as [|Ho]; [done|].
    rewrite E in Ho. destruct (ok_ind _ _ _ _ _ Hok j Hj) as [|Ho']; [congruence|]. rewrite Ho in Ho'. injection Ho' as ->. lia.
Qed.
Lemma fin_dense j : 1 <= j < fi -> (j = 1 -> (2 + Z.of_nat (length fs)) mod 32 <> 0) -> dense V' (dino V' j).
Proof.
  intros Hj Hr. pose proof fin_ok as Hok. pose proof (ok_size _ _ _ _ _ Hok j Hj) as Hsz. change (MAXFILE * BSIZE) with 71680 in Hsz.
  assert (i_size (dino V' j) <= 71680 /\ 0 <= i_size (dino V' j) /\ (i_size (dino V' j) - 1) / 512 <= (i_size (ino j) - 1) / 512) as (H1 & H2 & H3).
  { rewrite fin_dino by done. case_decide as E; [|lia]. subst j. specialize (Hr eq_refl). cbn [i_size with_size].
    destruct (mf_holds _ _ _ _ Hs 0 _ eq_refl) as (_ & Hs0 & _). change (1 + Z.of_nat 0) with 1 in Hs0. cbn [snd] in Hs0.
    rewrite length_root_data in Hs0 by done. unfold BSIZE. dlia. }
  split; [change (MAXFILE * BSIZE) with 71680; lia|]. intros bn Hbn Hlt. rewrite fin_block by done.
  apply (ok_dense _ _ _ _ _ Hok j bn Hj); [rewrite MAXFILE_eq; lia|]. dlia.
Qed.
Lemma fin_dir n : dir_map (entries V' (dino V' 1)) n = look (names fs) n.
Proof.
  pose proof fin_inv as (Hi & Hf & _). destruct (proj1 (holds_nth _ _ _) (mf_holds _ _ _ _ Hs 0 _ eq_refl)) as (_ & H2 & H3). cbn [fst snd img] in *.
  change (1 + Z.of_nat 0) with 1 in *. pose proof (length_root_data fs Hg Hn) as HD.
  destruct (entries_image fs V' (dino V' 1) Hg Hn) as [r ->].
  - rewrite Hd1, <-H2. done.
  - rewrite Hd1. cbn [i_size with_size]. rewrite <-Hd1. intros k Hk. rewrite fin_byte by (lia || (change (MAXFILE * BSIZE) with 71680; unfold BSIZE in *; dlia)).
    case_decide; [apply H3; lia|]. apply (ok_zero _ _ _ _ _ fin_ok); [lia|]. change (MAXFILE * BSIZE) with 71680. unfold BSIZE in *. dlia.
  - apply dir_map_dirents. intros x Hx. by apply (names_ok fs).
Qed.
Lemma fin_image : image V' fs.
Proof.
  pose proof fin_inv as (Hi & Hf & Hb). pose proof fin_ok as Hok. pose proof (mf_first _ _ _ _ Hs) as H1. cbn [img] in H1. split.
  - by rewrite HV, H1 by lia.
  - by rewrite HV, H1 by lia.
  - done.
  - intros b Hb'. rewrite fin_marked by done. by rewrite Hb.
  - intros j Hj. split; [apply fin_file; lia|]. destruct (mi_fields _ _ _ Hi j) as (_ & _ & _ & N); [cbn; lia|]. rewrite fin_dino by lia. case_decide; by subst.
  - intros j Hj Hr. apply fin_dense; [lia|done].
  - intros j j' bn bn' Hj Hj' Hbn Hbn'. rewrite !fin_block by lia. intros Hnz E. destruct (ok_block _ _ _ _ _ Hok j bn ltac:(lia) Hbn) as [|Ho]; [done|].
    destruct (ok_block _ _ _ _ _ Hok j' bn' ltac:(lia) Hbn') as [|Ho']; congruence.
  - intros j Hj. rewrite Hd by lia. apply (mi_free _ _ _ Hi). cbn. lia.
  - rewrite Hd1. by destruct (mf_holds _ _ _ _ Hs 0 _ eq_refl) as (Ht & _).
  - rewrite Hd1. cbn [i_size with_size]. by apply Z.mod_mul.
  - apply fin_dir.
  - intros k f Hk. pose proof (lookup_lt_Some _ _ _ Hk). assert (tree fs !! S k = Some (T_FILE, concat f.2)) as Ht
      by (change (tree fs !! S k) with (((fun f => (T_FILE, concat f.2)) <$> fs) !! k); by rewrite list_lookup_fmap, Hk).
    destruct (mf_holds _ _ _ _ Hs _ _ Ht) as (T1 & T2 & T3). replace (1 + Z.of_nat (S k)) with (2 + Z.of_nat k) in * by lia. cbn [img] in T3.
    pose proof (ok_size _ _ _ _ _ Hok (2 + Z.of_nat k) ltac:(lia)) as Hsz.
    assert (dino V' (2 + Z.of_nat k) = ino (2 + Z.of_nat k)) as E by (rewrite fin_dino by lia; by rewrite decide_False by lia).
    split; [by rewrite E|]. split; [by rewrite E|]. rewrite <-T3 at 2. apply fbytes_ext. intros x Hx. apply fin_byte; lia.
Qed.
End Finish.

Lemma finish_ok E fs s :
  files s (tree fs) -> Forall good_file fs -> Z.of_nat (length fs) <= 198 ->
  wpx E (_ ← fix_root; used ← gets freeblock; mk_balloc used) (fun _ s' => image (img s') fs) s.
Proof.
  destruct s as [V fi fb]. intros (own & ino & Hs) Hg Hn. pose proof (fin_inv fs V fi fb own ino Hs) as (Hi & Hf & _). pose proof (mi_ok _ _ _ Hi) as Hok.
  cbn [img freeinode freeblock] in Hok. destruct (IBLOCK_mk 1 ltac:(done)) as (_ & Hb & _). pose proof (ok_len _ _ _ _ _ Hok) as Hl. pose proof (ok_fb _ _ _ _ _ Hok) as Hfb.
  rewrite FSSIZE_eq, nmeta_eq in *. pose proof (mi_disk _ _ _ Hi 1 ltac:(cbn; lia)) as Hd1. cbn [img] in Hd1.
  pose proof (ok_dinode_range _ _ _ _ _ 1 Hok ltac:(lia) (mi_fields _ _ _ Hi 1 ltac:(cbn; lia))) as [R1 R2 R3 R4 R5 R6 R7].
  pose proof (ok_size _ _ _ _ _ Hok 1 ltac:(lia)) as Hsz. change (MAXFILE * BSIZE) with 71680 in Hsz.
  unfold fix_root, rinode, winode, mk_balloc. change (IBLOCK ROOTINO mk_sb) with (IBLOCK 1 mk_sb). change ROOTINO with 1.
  wpx_steps. apply rsect_wpx; [intros _|rewrite FSSIZE_eq; lia|lia]. wpx_steps. cbn [img]. fold (dino V 1). rewrite Hd1.
  set (i1 := with_size _ (ino 1)). apply rsect_wpx; [intros _|rewrite FSSIZE_eq; lia|lia]. unfold wsect. wpx_steps. cbn [img freeblock set_img].
  rewrite (proj2 (Z.ltb_lt fb (BSIZE * 8))) by (unfold BSIZE; lia). wpx_step. cbn [img set_img]. change (sb_bmapstart mk_sb) with 58.
  set (V1 := put_data V (IBLOCK 1 mk_sb) _). set (bm := foldl with_bit (zeroes 512) (seqZ 0 fb)).
  assert (Forall (fun b => 0 <= b < 4096) (seqZ 0 fb)) as Hr by (apply Forall_forall; intros b Hb'%elem_of_seqZ; lia).
  assert (forall j, 0 <= j <= NINODES -> dino (put_data V1 58 bm) j = dino V1 j) as Hmeta.
  { intros j Hj. destruct (IBLOCK_mk j Hj) as (_ & ? & _). unfold dino, put_data at 1. by rewrite decide_False by lia. }
  apply (fin_image fs V fi fb own ino Hg Hn Hs).
  - intros m Hm. subst V1. unfold put_data. by rewrite !decide_False by lia.
  - intros m Hm. unfold put_data at 1. case_decide; [by apply (bits_set _ _ 0)|]. subst V1. unfold put_data. case_decide; [rewrite length_put_dinode|]; apply Hl; rewrite ?FSSIZE_eq in *; lia.
  - rewrite Hmeta by done. apply dino_written; [done|apply Hl; lia| |].
    + destruct (mi_mem _ _ _ Hi 1) as (? & ? & ? & ? & ?); [cbn; lia|]. by split.
    + split; try done. cbn. unfold is_u32, BSIZE in *. dlia.
  - intros j Hj. rewrite Hmeta by lia. apply dino_other; [done|lia|lia|apply Hl; lia|done].
  - intros b Hb'. unfold put_data. rewrite decide_True by done. subst bm. destruct (bits_set (seqZ 0 fb) (zeroes 512) b) as [_ ->]; [done..|].
    rewrite zero_bits, orb_false_r by done. apply bool_decide_ext. rewrite elem_of_seqZ. lia.
Qed.
Lemma mkfs_ok V0 fs :
  Forall good_file fs -> Z.of_nat (length fs) <= 198 ->
  wpx (too_big (blocks_of (tree fs))) (mkfs fs) (fun _ s => image (img s) fs) (mkfs_start V0).
Proof.
  intros Hg Hn. unfold mkfs. wpx_step. wpx_step. wpx_step. wpx_use (clear_ok (too_big (blocks_of (tree fs))) (Z.to_nat FSSIZE)).
  intros _ s1 (H1 & H2 & H3). wpx_step. unfold wsect at 1. wpx_step. fold sb_block.
  set (s2 := set_img _ s1). assert (files s2 []) as Hs2.
  { apply start_files; [done|done|]. intros m Hm. subst s2. cbn. unfold put_data, first_block. case_decide; [done|]. rewrite H3. by rewrite decide_True by lia. }
  apply root_files; [done| |].
  { intros msg [-> H]. split; [done|]. pose proof (blocks_tree_mono [] fs Hg Hn). cbn [app] in *. lia. }
  intros s3 Hs3. wpx_step. wpx_use (add_files_ok s3 [] fs Hs3 Hg Hn). intros ? s4 Hs4. by apply finish_ok.
Qed.

Lemma mkfs_fits V0 fs :
  Forall good_file fs -> Z.of_nat (length fs) <= 198 -> blocks_of (tree fs) <= FSSIZE ->
  wp (mkfs fs) (fun _ s => image (img s) fs) (mkfs_start V0).
Proof. intros Hg Hn Hb. apply wpx_no_panic. eapply wpx_weaken; [by apply mkfs_ok|]. intros msg [_ H]. lia. Qed.

(** C26: If its files fit on the disk [mkfs] builds a file system: super block and
    free map describe the image, no block is used twice, the root directory maps
    the names of the files (and "." and "..") to their inodes, and each file has
    its bytes. *)
Theorem mkfs_image V0 fs :
  Forall good_file fs -> Z.of_nat (length fs) <= 198 -> blocks_of (tree fs) <= FSSIZE ->
  exists s, mkfs fs (mkfs_start V0) = Ret tt s /\ image (img s) fs.
Proof.
  intros Hg Hn Hb. pose proof (mkfs_fits V0 fs Hg Hn Hb) as Hw.
  destruct (proj1 (wp_Ret (mkfs fs) (fun _ s => image (img s) fs) (mkfs_start V0)) Hw) as ([] & s & Hrun & Hi). exists s. split; [exact Hrun|exact Hi].
Qed.
(** "_a" with the bytes of "hi", and "b", which is empty. *)
Lemma mkfs_image_witness : exists s,
  mkfs [([95; 97], [[104; 105]]); ([98], [])] (mkfs_start (fun _ => [])) = Ret tt s /\
  fbytes (img s) (dino (img s) 2) 0 2 = [104; 105] /\ dir_map (entries (img s) (dino (img s) 1)) [98] = Some 3.
Proof.
  destruct (mkfs_image (fun _ => []) [([95; 97], [[104; 105]]); ([98], [])]) as (s & Hrun & Hi).
  - repeat constructor; cbn; (done || lia).
  - done.
  - vm_compute. done.
  - exists s. split; [exact Hrun|]. split; [apply (im_data _ _ Hi 0%nat _ eq_refl)|]. by rewrite (im_dir _ _ Hi).
Defined.
