(* ===== verification/Mount.v ===== *)
(** * From an image of mkfs to the bytes of a file

    The kernel is started on a disk that [Mkfs] has made: it reads the super block,
    recovers the log, looks a path up and reads the file.  What it reads is what
    was given to mkfs: the two programs agree on the layout of the disk. *)

From S2P Require Import Prelude Block Bio Ide Log LogCrash LogTheorems LogOps Fs FsTx FsAlloc FsBmap FsFile FsWrite Dir Dinode Mkfs MkfsImage.
From stdpp Require Import base gmap list strings.
From Stdlib Require Import ZArith Lia.
#[local] Open Scope Z_scope.

(** ** The inode cache *)

(** An inode that is not in the cache gets an entry that nobody uses. *)
Lemma iget_scan_new l k dev inum e :
  (forall n j, l !! n = Some j -> 0 < i_ref j -> i_dev j = dev -> i_inum j <> inum) ->
  match iget_scan l k dev inum e with
  | inl _ => False
  | inr (Some ip) => e = Some ip \/ exists j, (k <= ip)%nat /\ l !! (ip - k)%nat = Some j /\ i_ref j = 0
  | inr None => e = None /\ forall n j, l !! n = Some j -> i_ref j <> 0
  end.
Proof.
  revert k e. induction l as [|x l IH]; intros k e Hno; cbn [iget_scan]; [destruct e; [by left|done]|].
  destruct ((i_ref x >? 0) && (i_dev x =? dev) && (i_inum x =? inum)) eqn:E.
  { apply andb_prop in E as [[E1 E2%Z.eqb_eq]%andb_prop E3%Z.eqb_eq]. apply (Hno 0%nat x); [done|lia|done|done]. }
  set (e' := match e with None => _ | Some _ => _ end). specialize (IH (S k) e' (fun n j Hn => Hno (S n) j Hn)).
  destruct (iget_scan l (S k) dev inum e') as [ip|[ip|]]; [done| |].
  - destruct IH as [He|(j & H1 & H2 & H3)]; [|right; exists j; split; [lia|]; by replace (ip - k)%nat with (S (ip - S k)) by lia].
    subst e'. destruct e; [by left|]. destruct (Z.eqb_spec (i_ref x) 0); [|done]. injection He as <-. right. exists x. by rewrite Nat.sub_diag.
  - destruct IH as [He Hl]. subst e'. destruct e; [done|]. split; [done|]. destruct (Z.eqb_spec (i_ref x) 0) as [|Hx]; [done|].
    intros [|m] j; [by intros [= <-]|]. apply Hl.
Qed.
Definition got (dev inum : Z) (i : inode) : inode :=
  mkInode dev inum 1 (i_lock i) 0 (i_type i) (i_major i) (i_minor i) (i_nlink i) (i_size i) (i_addrs i).
Lemma iget_new s dev inum :
  ic_lock s = false -> has_slot s -> (forall n j, icache s !! n = Some j -> 0 < i_ref j -> i_dev j = dev -> i_inum j <> inum) ->
  wp (iget dev inum) (fun ip s' => exists j, icache s !! ip = Some j /\ i_ref j = 0 /\
    s' = set_icache (<[ip := got dev inum j]> (icache s)) s) s.
Proof.
  intros Hlk (k & j & Hk & Hj) Hno. unfold iget, acquire_icache, release_icache. do 3 wp_step. rewrite Hlk. cbv iota. do 3 wp_step. cbn [icache set_ic_lock].
  pose proof (iget_scan_new (icache s) 0 dev inum None Hno) as Hs.
  destruct (iget_scan (icache s) 0 dev inum None) as [ip|[ip|]]; [done| |destruct Hs as [_ Hs]; by destruct (Hs k j Hk)].
  destruct Hs as [|(x & _ & Hx & Hr)]; [done|]. rewrite Nat.sub_0_r in Hx. wp_step. apply wpx_no_panic, (upd_inode_wpx _ ip x); [done|]. apply wpx_wp.
  do 3 wp_step. cbn [ic_lock set_ic_lock set_icache]. do 2 wp_step. exists x. split; [done|]. split; [done|].
  unfold set_icache, set_ic_lock. cbn. by rewrite Hlk.
Qed.

Section Cached.
  Variables (start lsize dsz : Z) (sb : superblock).
  Notation txn := (txn start lsize dsz sb).

(** [ilock] of an entry that is not loaded yet. *)
Lemma ilock_loads s ip i :
  txn s [] [] -> 1 <= lsize -> icache s !! ip = Some i -> 1 <= i_ref i -> i_lock i = false -> i_valid i = 0 -> i_dev i = 1 ->
  let b := IBLOCK (i_inum i) sb in
  readable dsz b -> i_type (get_dinode (dv s b) (dinode_off (i_inum i)) i) <> 0 ->
  wp (ilock ip) (fun _ s' => txn s' [] [] /\ (forall m, dv s' m = dv s m) /\ ic_lock s' = ic_lock s /\
    icache s' = <[ip := with_valid 1 (with_ilock true (get_dinode (dv s b) (dinode_off (i_inum i)) i))]> (icache s)) s.
Proof.
  intros Ht Hls Hi Hr Hlk Hv Hd b Hb Hty. pose proof (lookup_lt_Some _ _ _ Hi) as Hlt. apply wpx_no_panic. unfold ilock. wpx_step.
  apply (get_inode_wpx _ ip i); [done|]. rewrite (proj2 (Z.ltb_ge _ _)) by lia. wpx_step. unfold acquiresleep_i. wpx_step.
  apply (get_inode_wpx _ ip i); [done|]. rewrite Hlk. apply (upd_inode_wpx _ ip i); [done|]. set (s1 := set_icache _ s).
  assert (icache s1 !! ip = Some (with_ilock true i)) as Hi1 by (cbn; by rewrite list_lookup_insert_eq).
  wpx_step. apply (get_inode_wpx _ ip _ _ s1 Hi1). cbn [i_valid with_ilock i_dev i_inum]. rewrite Hv. cbn [when Z.eqb]. do 2 wpx_step.
  rewrite Hd. assert (txn s1 [] []) as Ht1 by by apply txn_icache. rewrite (tn_sb _ _ _ _ _ _ _ Ht1). fold b.
  apply (read_block_ok start lsize dsz sb _ _ _ s1 [] [] b Ht1 Hb); [apply not_elem_of_nil|cbn; lia|unfold room, LOGSIZE, MAXOPBLOCKS; cbn; lia|].
  intros bp s2 Ht2 [Hic2 Hl2] Hv2 Hu2. wpx_step. apply (upd_inode_wpx _ ip (with_ilock true i)); [by rewrite Hic2|].
  set (s3 := set_icache _ s2). assert (txn s3 [(bp, b)] []) as Ht3 by by apply txn_icache.
  apply (release_block_ok start lsize dsz sb _ _ _ s3 [] [] bp b Ht3); [exact Hu2|]. intros s4 Ht4 [Hic4 Hl4] Hv4. wpx_step.
  set (i4 := get_dinode (dv s1 b) (dinode_off (i_inum i)) (with_ilock true i)).
  assert (icache s4 !! ip = Some i4) as Hi4 by (rewrite Hic4; cbn; by rewrite list_lookup_insert_eq by by rewrite Hic2; cbn; rewrite length_insert).
  apply (upd_inode_wpx _ ip i4); [done|]. wpx_step. apply (get_inode_wpx _ ip (with_valid 1 i4)).
  { cbn. rewrite list_lookup_insert_eq; [done|]. by apply lookup_lt_Some in Hi4. }
  change (i_type (with_valid 1 i4)) with (i_type (get_dinode (dv s b) (dinode_off (i_inum i)) i)). rewrite (proj2 (Z.eqb_neq _ _)) by done.
  wpx_step. split; [by apply txn_icache|]. split; [intros m; cbn; etrans; [apply Hv4|apply Hv2]|]. cbn [ic_lock icache set_icache].
  split; [rewrite Hl4; cbn; by rewrite Hl2|]. rewrite Hic4. cbn [icache set_icache s3]. rewrite Hic2. cbn [icache set_icache s1]. by rewrite !list_insert_insert_eq.
Qed.

(** [iunlockput] of an inode that has links. *)
Lemma iunlockput_ok s ip i :
  icache s !! ip = Some i -> i_lock i = true -> 1 <= i_ref i < 2147483648 -> i_nlink i <> 0 -> ic_lock s = false ->
  wp (iunlockput ip) (fun _ s' => s' = set_icache (<[ip := with_ref (i_ref i - 1) (with_ilock false i)]> (icache s)) s) s.
Proof.
  intros Hi Hlk Hr Hn Hic. pose proof (lookup_lt_Some _ _ _ Hi) as Hlt. apply wpx_no_panic. unfold iunlockput, iunlock, iput, acquiresleep_i, releasesleep_i.
  do 2 wpx_step. apply (get_inode_wpx _ ip i); [done|]. rewrite Hlk, (proj2 (Z.ltb_ge _ _)) by lia. cbn [negb orb].
  apply (upd_inode_wpx _ ip i); [done|]. do 2 wpx_step. apply (get_inode_wpx _ ip (with_ilock false i)); [cbn; by rewrite list_lookup_insert_eq|].
  cbn [i_lock with_ilock]. apply (upd_inode_wpx _ ip (with_ilock false i)); [cbn; by rewrite list_lookup_insert_eq|]. wpx_step.
  cbn [icache set_icache]. rewrite list_insert_insert_eq. set (j := with_ilock true (with_ilock false i)).
  apply (get_inode_wpx _ ip j); [cbn; by rewrite list_lookup_insert_eq|]. wpx_step. change (i_nlink j) with (i_nlink i).
  rewrite (proj2 (Z.eqb_neq _ _)) by done. rewrite andb_false_r. cbn [when]. wpx_step. wpx_step.
  apply (upd_inode_wpx _ ip j); [cbn; by rewrite list_lookup_insert_eq|]. unfold acquire_icache, release_icache. do 3 wpx_step. cbn [ic_lock set_icache].
  rewrite Hic. cbv iota. do 2 wpx_step. cbn [icache set_icache set_ic_lock]. rewrite list_insert_insert_eq.
  apply (upd_inode_wpx _ ip (with_ilock false j)); [cbn; by rewrite list_lookup_insert_eq|]. do 2 wpx_step. cbn [ic_lock set_ic_lock set_icache]. wpx_step.
  cbn [icache set_icache set_ic_lock]. rewrite list_insert_insert_eq. unfold set_icache, set_ic_lock. cbn. rewrite Hic. by rewrite i32_small by lia.
Qed.
End Cached.

(** ** A path in the root directory *)

Section Image.
  Variables (V : Z -> blk) (fs : list (list Z * list (list Z))) (devsw : Z -> devops).
  Context (Him : image V fs) (Hround : (2 + Z.of_nat (length fs)) mod 32 <> 0) (Hlen : Z.of_nat (length fs) <= 198).
  Notation txn := (txn 2 nlog FSSIZE mk_sb).

(** The kernel with the image on its disk and no inode in use. *)
Record mounted (s : fsys) : Prop := {
  mt_txn : txn s [] [];
  mt_view m : dv s m = V m;
  mt_lock : ic_lock s = false;
  mt_free i : i ∈ icache s -> i_ref i = 0 /\ i_lock i = false;
  mt_size : (2 <= length (icache s))%nat }.

Lemma image_map : map_ok mk_sb V.
Proof.
  split.
  - intros b Hb. change (data_start mk_sb) with 59 in Hb. rewrite (im_map _ _ Him) by (rewrite FSSIZE_eq; lia).
    apply bool_decide_true. unfold blocks_of. rewrite nmeta_eq. pose proof (data_blocks_nonneg (tree fs)). lia.
  - intros n Hn. change (32 <= n < 1000) in Hn. apply (im_len _ _ Him). rewrite FSSIZE_eq. lia.
Qed.
Lemma dinode_loaded V' j i0 : (forall m, V' m = V m) -> i_inum i0 = j ->
  get_dinode (V' (IBLOCK (i_inum i0) mk_sb)) (dinode_off (i_inum i0)) i0 =
  mkInode (i_dev i0) (i_inum i0) (i_ref i0) (i_lock i0) (i_valid i0) (i_type (dino V j)) (i_major (dino V j)) (i_minor (dino V j))
    (i_nlink (dino V j)) (i_size (dino V j)) (i_addrs (dino V j)).
Proof. intros HV <-. rewrite HV. done. Qed.
(** An inode with the disk fields of [j], in a transaction. *)
Lemma loaded_file s ip i j :
  txn s [] [] -> (forall m, dv s m = V m) -> 1 <= j <= 1 + Z.of_nat (length fs) -> icache s !! ip = Some i -> i_dev i = 1 ->
  i_addrs i = i_addrs (dino V j) -> fstate 2 nlog FSSIZE mk_sb s ip i [].
Proof.
  intros Ht Hv Hj Hi Hd Ha. destruct (im_file _ _ Him j Hj) as [HF _]. split; [done|by apply (map_ok_ext mk_sb V); [apply image_map|]| |done].
  apply (file_ok_ext mk_sb V); [|done]. destruct HF as [F1 F2 F3 F4 F5 F6].
  assert (forall bn, block_of V i bn = block_of V (dino V j) bn) as Hb by (intros bn; unfold block_of, ind_addr, get_addr; by rewrite Ha).
  assert (ind_addr i = ind_addr (dino V j)) as Hia by (unfold ind_addr, get_addr; by rewrite Ha).
  split; [done|by rewrite Ha|by rewrite Hia|intros bn; rewrite Hb; apply F4|intros bn bn'; rewrite !Hb; apply F5|intros bn; rewrite Hb, Hia; apply F6].
Qed.
Lemma same_dense V' i j : (forall m, V' m = V m) -> dense V (dino V j) -> i_size i = i_size (dino V j) -> i_addrs i = i_addrs (dino V j) -> dense V' i.
Proof.
  intros HV [D1 D2] Hs Ha. split; [by rewrite Hs|]. intros bn Hbn. rewrite Hs. intros Hlt. specialize (D2 bn Hbn Hlt).
  unfold block_of, ind_addr, get_addr in *. rewrite Ha, HV. done.
Qed.
Lemma same_fbytes V' i j off n : (forall m, V' m = V m) -> i_addrs i = i_addrs (dino V j) -> fbytes V' i off n = fbytes V (dino V j) off n.
Proof.
  intros HV Ha. apply fbytes_ext. intros k _. unfold fbyte, block_of, ind_addr, get_addr. rewrite Ha, HV.
  destruct (k / 512 <? NDIRECT); by rewrite ?HV.
Qed.

Lemma skipelem_name n : n <> [] -> existsb (Z.eqb slash) n = false -> (length n <= 14)%nat -> skipelem (slash :: n) = Some ([], n).
Proof using.
  intros Hn Hs Hl. assert (forall n, existsb (Z.eqb slash) n = false -> span_elem n = (n, [])) as Hspan.
  { clear. intros n. induction n as [|c n IH]; [done|]. cbn [existsb]. intros [H1 H2]%orb_false_iff. cbn [span_elem]. rewrite Z.eqb_sym, H1, IH by done. done. }
  unfold skipelem. change (skip_slashes (slash :: n)) with (skip_slashes n).
  destruct n as [|c n]; [done|]. pose proof Hs as Hs'. cbn [existsb] in Hs'. apply orb_false_iff in Hs' as [H1 H2].
  assert (skip_slashes (c :: n) = c :: n) as -> by (cbn; by rewrite Z.eqb_sym, H1). rewrite Hspan by done. by rewrite take_ge.
Qed.

Lemma readable_inode j : 0 <= j <= NINODES -> readable FSSIZE (IBLOCK j mk_sb).
Proof using. clear. intros Hj. destruct (IBLOCK_mk j Hj) as (_ & H & _). unfold readable. change (u32 FSSIZE) with 1000. lia. Qed.
Lemma dir_looks V' i n : (forall m, V' m = V m) -> i_size i = i_size (dino V 1) -> i_addrs i = i_addrs (dino V 1) ->
  dir_map (entries V' i) n = look (names fs) n.
Proof.
  intros HV Hs Ha. rewrite <-(im_dir _ _ Him n). f_equal. unfold entries. rewrite Hs. apply list_fmap_ext. intros _ k _. by apply (same_fbytes V' i 1).
Qed.

(** The root directory is locked, in slot [a]; its other inodes are unused. *)
Record at_root (s : fsys) (a : nat) (i : inode) : Prop := {
  ar_txn : txn s [] [];
  ar_view m : dv s m = V m;
  ar_lock : ic_lock s = false;
  ar_slot : icache s !! a = Some i;
  ar_inode : i_dev i = 1 /\ i_inum i = 1 /\ i_ref i = 1 /\ i_lock i = true /\ i_type i = T_DIR /\ i_nlink i = 1;
  ar_disk : i_size i = i_size (dino V 1) /\ i_addrs i = i_addrs (dino V 1);
  ar_free n j : icache s !! n = Some j -> n <> a -> i_ref j = 0 /\ i_lock j = false;
  ar_size : (2 <= length (icache s))%nat }.
Lemma root_locked {A} (k k' : nat -> M fsys A) Q s :
  mounted s -> (forall ip, k' ip = (_ ← ilock ip; k ip)) -> (forall a i s', at_root s' a i -> wp (k a) Q s') ->
  wp (ip ← iget ROOTDEV ROOTINO; k' ip) Q s.
Proof.
  intros [Ht Hv Hlk Hfree Hsz] Hk' Hk. assert (forall n j, icache s !! n = Some j -> i_ref j = 0 /\ i_lock j = false) as Hf.
  { intros n j Hn. apply Hfree. by eapply list_elem_of_lookup_2. }
  wp_step. wp_use (iget_new s ROOTDEV ROOTINO Hlk).
  { destruct (lookup_lt_is_Some_2 (icache s) 0) as [j Hj]; [lia|]. exists 0%nat, j. split; [done|]. by apply (Hf 0%nat). }
  { intros n j Hn Hr. destruct (Hf n j Hn). lia. }
  intros a s1 (j & Ha & Hr & ->). pose proof (lookup_lt_Some _ _ _ Ha) as Hal. destruct (Hf a j Ha) as [_ Hjl]. set (s1 := set_icache _ s).
  assert (icache s1 !! a = Some (got 1 1 j)) as Ha1 by (cbn; by rewrite list_lookup_insert_eq).
  pose proof (dinode_loaded (dv s1) 1 (got 1 1 j) Hv eq_refl) as Hload. rewrite Hk'. wp_step.
  wp_use (ilock_loads 2 nlog FSSIZE mk_sb s1 a (got 1 1 j)); [by apply txn_icache|done|done|done|done|done|done|by apply readable_inode| |].
  { rewrite Hload. cbn [i_type]. by rewrite (im_root _ _ Him). }
  cbv zeta. rewrite Hload. intros _ s2 (Ht2 & Hv2 & Hl2 & Hic2). eapply Hk. split; [done|intros m; rewrite Hv2; apply Hv|rewrite Hl2; exact Hlk| | | | |].
  - rewrite Hic2. apply list_lookup_insert_eq. cbn. by rewrite length_insert.
  - destruct (im_file _ _ Him 1 ltac:(lia)) as [_ N]. split_and!; [done..|exact (im_root _ _ Him)|exact N].
  - done.
  - intros n x Hn Hne. rewrite Hic2 in Hn. cbn in Hn. rewrite !list_lookup_insert_ne in Hn by done. by apply (Hf n).
  - rewrite Hic2. cbn. by rewrite !length_insert.
Qed.

(** Looking a name up in it, and giving it back. *)
Lemma name_found s a i n k :
  at_root s a i -> look (names fs) n = Some (2 + Z.of_nat k) -> (k < length fs)%nat ->
  wp (dirlookup devsw a n) (fun r s' => exists ip off j, r = Some (ip, off) /\ ip <> a /\ at_root (set_icache (<[ip := j]> (icache s')) s') a i /\
    icache s' !! ip = Some (got 1 (2 + Z.of_nat k) j) /\ txn s' [] [] /\ forall m, dv s' m = V m) s.
Proof.
  intros Hs Hn Hk. pose proof Hs as [Ht Hv Hlk Ha (I1 & I2 & I3 & I4 & I5 & I6) [D1 D2] Hf Hsz].
  assert (dstate 2 nlog FSSIZE mk_sb s a i []) as Hds.
  { split; [apply (loaded_file s a i 1); (done || lia)| |done| |by split].
    - apply (same_dense (dv s) i 1); [done| |done|done]. apply (im_dense _ _ Him); [lia|done].
    - rewrite D1. pose proof (im_root_size _ _ Him) as Hz. unfold BSIZE in Hz. dlia. }
  pose proof (dir_looks (dv s) i n Hv D1 D2) as Hmap. unfold dir_map in Hmap. rewrite Hn in Hmap.
  apply (dirlookup_ok 2 nlog FSSIZE mk_sb devsw mk_layout s a i [] n _ Hds).
  destruct (find_name n (entries (dv s) i)) as [[j0 inum]|]; [|done]. injection Hmap as ->. intros s1 (Ht1 & [Hic1 Hl1] & Hv1). rewrite I1.
  wp_use (iget_new s1 1 (2 + Z.of_nat k)); [congruence| | |].
  - destruct (lookup_lt_is_Some_2 (icache s) (if decide (a = 0%nat) then 1%nat else 0%nat)) as [j Hj]; [case_decide; lia|].
    eexists _, j. rewrite Hic1. split; [exact Hj|]. apply (Hf _ _ Hj). case_decide; lia.
  - intros m j Hm Hr _. rewrite Hic1 in Hm. destruct (decide (m = a)) as [->|Hne]; [|destruct (Hf m j Hm Hne); lia].
    rewrite Ha in Hm. injection Hm as <-. rewrite I2. lia.
  - intros ip s2 (j & Hj & Hr & ->). rewrite Hic1 in Hj. assert (ip <> a) as Hne by (intros ->; rewrite Ha in Hj; injection Hj as <-; lia).
    pose proof (lookup_lt_Some _ _ _ Hj) as Hlt. eexists ip, _, j. split; [done|]. split; [done|]. cbn [icache set_icache].
    rewrite Hic1, list_insert_insert_eq, (list_insert_id _ _ _ Hj). split; [|split; [by rewrite list_lookup_insert_eq|]].
    + split; try done; [by do 2 apply txn_icache|intros m; cbn; etrans; [apply Hv1|apply Hv]|cbn; congruence].
    + split; [by apply txn_icache|]. intros m. cbn. etrans; [apply Hv1|apply Hv].
Qed.

Lemma namei_ok s cwd n k :
  mounted s -> look (names fs) n = Some (2 + Z.of_nat k) -> (k < length fs)%nat -> n <> [] -> existsb (Z.eqb slash) n = false -> (length n <= 14)%nat ->
  wp (namei devsw cwd (slash :: n)) (fun r s' => exists ip j, r = Some ip /\ icache s' !! ip = Some (got 1 (2 + Z.of_nat k) j) /\ i_lock j = false /\
    txn s' [] [] /\ forall m, dv s' m = V m) s.
Proof.
  intros Hs Hn Hk Hne Hsl Hl. unfold namei, namex. cbn [hd]. rewrite Z.eqb_refl. wp_step. cbn [length].
  eapply (root_locked _ _ _ s Hs); [intros ip; cbn [namex_loop]; by rewrite (skipelem_name n)|]. intros a i s1 Hs1. cbn beta.
  pose proof Hs1 as [Ht Hv Hlk Ha (I1 & I2 & I3 & I4 & I5 & I6) _ Hf Hsz]. wp_step. apply wpx_no_panic, (get_inode_wpx _ a i); [done|]. apply wpx_wp.
  rewrite I5, Z.eqb_refl. cbn [negb andb]. wp_step. wp_use (name_found s1 a i n k Hs1 Hn Hk).
  intros r s2 (ip & off & j & -> & Hip & Hroot & Hi & Ht2 & Hv2). pose proof Hroot as [_ _ Hlk2 Ha2 _ _ Hf2 _]. cbn [icache set_icache ic_lock] in *.
  rewrite list_lookup_insert_ne in Ha2 by done. pose proof (lookup_lt_Some _ _ _ Hi) as Hlt.
  destruct (Hf2 ip j) as [_ Hj]; [by rewrite list_lookup_insert_eq|done|].
  wp_step. wp_use (iunlockput_ok s2 a i Ha2); [done|lia|lia|done|]. intros _ s3 ->. cbn [namex_loop length]. change (skipelem []) with (@None (list Z * list Z)). cbv iota.
  do 2 wp_step. exists ip, j. cbn [fst]. split; [done|]. cbn [icache set_icache]. rewrite list_lookup_insert_ne by done.
  split; [done|]. split; [done|]. split; [by apply txn_icache|done].
Qed.
(** The program that opens a file and reads all of it, as the calls [open] and
    [read] do. *)
Definition read_path (cwd : nat) (path : list Z) (n : Z) : M fsys (Z * list Z) :=
  r ← namei devsw cwd path;
  match r with None => panic "no such file" | Some ip => _ ← ilock ip; readi devsw ip 0 n end.
Lemma read_path_ok s cwd n k f :
  mounted s -> look (names fs) n = Some (2 + Z.of_nat k) -> fs !! k = Some f -> n <> [] -> existsb (Z.eqb slash) n = false -> (length n <= 14)%nat ->
  let len := Z.of_nat (length (concat f.2)) in
  wp (read_path cwd (slash :: n) len) (fun r _ => r = (len, concat f.2)) s.
Proof.
  intros Hs Hn Hf Hne Hsl Hl len. pose proof (lookup_lt_Some _ _ _ Hf) as Hk. unfold read_path. wp_step. wp_use (namei_ok s cwd n k Hs Hn Hk Hne Hsl Hl).
  intros r s1 (ip & j & -> & Hi & Hj & Ht & Hv). pose proof (lookup_lt_Some _ _ _ Hi) as Hlt. set (num := 2 + Z.of_nat k) in *.
  assert (1 <= num <= 1 + Z.of_nat (length fs)) as Hnum by lia. destruct (im_data _ _ Him k f Hf) as (T1 & T2 & T3). fold num in T1, T2, T3. cbn [fst snd] in *.
  assert (0 <= num <= NINODES) as Hin by (unfold NINODES; lia).
  pose proof (dinode_loaded (dv s1) num (got 1 num j) Hv eq_refl) as Hload. wp_step.
  wp_use (ilock_loads 2 nlog FSSIZE mk_sb s1 ip (got 1 num j)); [done..|by apply readable_inode|rewrite Hload; cbn [i_type]; by rewrite T1|].
  cbv zeta. rewrite Hload. intros _ s2 (Ht2 & Hv2 & Hl2 & Hic2). set (i2 := with_valid 1 _) in *.
  assert (forall m, dv s2 m = V m) as HV by (intros m; by rewrite Hv2).
  assert (i_size i2 = len) as Hsz by exact T2. pose proof (de_size _ _ (im_dense _ _ Him num Hnum ltac:(lia))) as Hmax. rewrite T2 in Hmax. change (MAXFILE * BSIZE) with 71680 in Hmax.
  wp_use (readi_ok 2 nlog FSSIZE mk_sb devsw mk_layout s2 ip i2 [] 0 len).
  - apply (loaded_file s2 ip i2 num); try done. rewrite Hic2. by apply list_lookup_insert_eq.
  - by split.
  - apply (same_dense (dv s2) i2 num); [done| |done|done]. apply (im_dense _ _ Him); [done|lia].
  - change (i_type (dino V num) <> T_DEV). by rewrite T1.
  - rewrite Hsz. lia.
  - lia.
  - intros r s3 [-> _]. rewrite Hsz, Z.sub_0_r, Z.min_id. fold len in T3. by rewrite (same_fbytes (dv s2) i2 num), T3.
Qed.
End Image.

(** ** Starting the kernel *)

Definition power_on (d : gmap Z blk) : fsys :=
  mkFs (mkLsys (binit FSSIZE d) (mkLog false 0 0 0 0 0 0 (replicate (Z.to_nat LOGSIZE) 0))) (mkSb 0 0 0 0 0 0 0)
    (replicate NINODE (mkInode 0 0 0 false 0 0 0 0 0 0 (replicate 13 0))) false.

Section Start.
  Variables (d : gmap Z blk) (fs : list (list Z * list (list Z))).
  Context (Him : image (disk_fn d) fs).

Lemma image_geometry : geometry 2 nlog FSSIZE.
Proof using. by split. Qed.
Lemma image_log_wf V : (forall m, V m = disk_fn d m) -> log_wf 2 nlog FSSIZE V.
Proof.
  intros HV. pose proof (im_super _ _ Him) as Hsb. pose proof (im_log _ _ Him) as Hl.
  split; rewrite ?HV, ?Hl; try done; [constructor|]. split; [apply not_elem_of_nil|].
  split; [unfold home, in_log; change (u32 FSSIZE) with 1000; lia|].
  split; [by apply (f_equal sb_logstart) in Hsb|by apply (f_equal sb_nlog) in Hsb].
Qed.
Lemma empty_head g : head_block (with_n 0 g) (zeroes 512) = zeroes 512.
Proof using. done. Qed.

Lemma mount_ok : wp (_ ← iinit ROOTDEV; _ ← on_l (initlog ROOTDEV); on_l begin_op) (fun _ => mounted (disk_fn d)) (power_on d).
Proof.
  assert (idle (binit FSSIZE d)) as Hid by apply binit_rep. assert (forall m, view (binit FSSIZE d) m = disk_fn d m) as Hv by (intros m; by apply idle_view).
  unfold iinit. do 2 wp_step. apply on_l_wp, wp_zoom. unfold readsb. wp_step. wp_use (bread_ok (binit FSSIZE d) [] (proj1 Hid) 1);
    [apply not_elem_of_nil|right; by apply idle_clean|done|].
  intros i b1 (Hrep1 & [Hd1 Hs1 Hw1] & Hv1 & Hp1). wp_step. unfold wp at 1. rewrite (buf_data_ok b1 _ Hrep1 i 1) by left. rewrite Hv1, Hv, (im_super _ _ Him). wp_step.
  wp_use (brelse_ok b1 [] i 1); [done|right; rewrite Hv1, Hv; unfold disk_at; by rewrite Hd1|].
  intros _ b2 (Hrep2 & [Hd2 Hs2 Hw2] & Hv2 & Hp2). wp_step. wp_step. wp_step. apply on_l_wp.
  assert (idle b2) as Hid2 by (split; [done|]; intros m; rewrite Hp2, Hp1; by apply Hid).
  assert (forall m, view b2 m = disk_fn d m) as Hvb by (intros m; by rewrite Hv2, Hv1, Hv).
  set (s2 := set_sb _ _). wp_use (initlog_ok 2 nlog (fs_l s2) FSSIZE); [done|apply image_geometry|by transitivity (disksize b2); [|rewrite Hs2, Hs1]|by apply image_log_wf|done|].
  intros _ l' (g & Hef & lb & Hl & Hll). change (l_bc (fs_l s2)) with b2 in Hef. cbn [lg_outstanding lg_committing fs_l l_log s2 set_sb set_l set_bc power_on] in Hl.
  assert (recover_writes 2 g (view b2) = [(2, zeroes 512)]) as Hrw by (unfold recover_writes; by rewrite Hvb, (im_log _ _ Him)).
  rewrite Hrw in Hef. pose proof (idle_effect _ _ _ Hid2 Hef) as Hid3.
  assert (forall m, view (l_bc l') m = disk_fn d m) as Hv3.
  { intros m. rewrite (ef_view _ _ _ Hef). unfold wview. cbn. case_decide; [subst; by rewrite (im_log _ _ Him)|apply Hvb]. }
  assert (begin_op_log (l_log l') = Ret tt (mkLog false 2 nlog 1 0 1 0 lb)) as Hbeg by (rewrite Hl; reflexivity).
  apply on_l_wp. unfold begin_op, on_log. apply wp_zoom. unfold wp. cbn [fs_l set_l]. rewrite Hbeg.
  assert (forall m, pinned (l_bc l') m <-> m ∈ ([] : list Z)) as Hpin.
  { intros m. split; [intros Hm; by destruct (proj2 Hid3 m)|by intros ?%not_elem_of_nil]. }
  assert (disksize (l_bc l') = FSSIZE) as Hds by (rewrite (ef_size _ _ _ Hef), Hs2, Hs1; done).
  assert (forall m, disk_at (l_bc l') m = disk_fn d m) as Hda by (intros m; by rewrite <-idle_view by done).
  split; [split; [split| |exact Hds|done]| |done| |]; cbn [fs_l set_l l_bc l_log set_log]; rewrite ?Hds.
  - apply image_geometry.
  - by split.
  - done.
  - done.
  - apply Hid3.
  - done.
  - by intros m ?%not_elem_of_nil.
  - constructor.
  - apply not_elem_of_nil.
  - by apply image_log_wf.
  - by rewrite Hda, (im_log _ _ Him).
  - done.
  - intros m. apply Hv3.
  - intros i0 Hi0. assert (icache s2 = replicate NINODE (mkInode 0 0 0 false 0 0 0 0 0 0 (replicate 13 0))) as E by reflexivity.
    change (i0 ∈ icache s2) in Hi0. rewrite E in Hi0. apply elem_of_replicate_inv in Hi0 as ->. done.
  - cbn. lia.
Qed.
End Start.

(** ** The disk that mkfs wrote *)

(** An image is a matter of its first [FSSIZE] blocks. *)
Section Extend.
  Variables (V V' : Z -> blk) (fs : list (list Z * list (list Z))).
  Context (Him : image V fs) (Hlen : Z.of_nat (length fs) <= 198) (Hround : (2 + Z.of_nat (length fs)) mod 32 <> 0).
  Context (HV : forall m, 0 <= m < FSSIZE -> V' m = V m).

Lemma ext_dino j : 0 <= j <= NINODES -> dino V' j = dino V j.
Proof. intros Hj. destruct (IBLOCK_mk j Hj) as (_ & H & _). unfold dino. by rewrite HV by (rewrite FSSIZE_eq; lia). Qed.
Lemma addr_range b : addr_ok mk_sb V b -> b <> 0 -> 0 <= b < FSSIZE.
Proof using. clear. intros [|[[H1 H2] _]] Hb; [done|]. change (59 <= b) in H1. change (b < FSSIZE) in H2. lia. Qed.
Lemma ext_block j bn : 1 <= j <= 1 + Z.of_nat (length fs) -> block_of V' (dino V j) bn = block_of V (dino V j) bn.
Proof.
  intros Hj. destruct (im_file _ _ Him j Hj) as [HF _]. unfold block_of. destruct (bn <? NDIRECT); [done|].
  destruct (Z.eqb_spec (ind_addr (dino V j)) 0) as [|Hnz]; [done|]. rewrite HV; [done|]. apply addr_range; [apply HF|done].
Qed.
Lemma ext_byte j k : 1 <= j <= 1 + Z.of_nat (length fs) -> 0 <= k < MAXFILE * BSIZE -> fbyte V' (dino V j) k = fbyte V (dino V j) k.
Proof.
  intros Hj Hk. destruct (im_file _ _ Him j Hj) as [HF _]. unfold fbyte. rewrite ext_block by done.
  destruct (Z.eqb_spec (block_of V (dino V j) (k / 512)) 0) as [|Hnz]; [done|]. rewrite HV; [done|].
  apply addr_range; [|done]. apply HF. change (MAXFILE * BSIZE) with 71680 in Hk. rewrite MAXFILE_eq. dlia.
Qed.
Lemma ext_marked b : 0 <= b < FSSIZE -> marked mk_sb V' b = marked mk_sb V b.
Proof.
  intros Hb. apply marked_ext. pose proof (BBLOCK_meta 2 nlog FSSIZE mk_sb mk_layout b Hb) as H. change (32 <= BBLOCK b mk_sb < FSSIZE) in H. apply HV. lia.
Qed.
Lemma ext_file j : 1 <= j <= 1 + Z.of_nat (length fs) -> file_ok mk_sb V' (dino V j).
Proof.
  intros Hj. destruct (im_file _ _ Him j Hj) as [[F1 F2 F3 F4 F5 F6] _].
  assert (forall b, addr_ok mk_sb V b -> addr_ok mk_sb V' b) as Ha.
  { intros b [|[H1 H2]]; [by left|right]. split; [done|]. rewrite ext_marked; [done|]. apply addr_range; [by right|]. destruct H1 as [H1 _]. change (59 <= b) in H1. lia. }
  split; [done|done|by apply Ha|intros bn Hbn; rewrite ext_block by done; by apply Ha, F4| |].
  - intros bn bn'. rewrite !ext_block by done. apply F5.
  - intros bn. rewrite ext_block by done. apply F6.
Qed.
Lemma root_small : i_size (dino V 1) <= MAXFILE * BSIZE.
Proof. apply (de_size V), (im_dense _ _ Him); [lia|done]. Qed.
Lemma image_ext : image V' fs.
Proof.
  pose proof Him as [K1 K2 K3 K4 K5 K6 K7 K8 K9 K10 K11 K12]. assert (forall j, 1 <= j <= 1 + Z.of_nat (length fs) -> dino V' j = dino V j) as Hd.
  { intros j Hj. apply ext_dino. unfold NINODES. lia. }
  split.
  - by rewrite HV.
  - by rewrite HV.
  - intros m Hm. rewrite HV by done. by apply K3.
  - intros b Hb. rewrite ext_marked by done. by apply K4.
  - intros j Hj. rewrite Hd by done. split; [by apply ext_file|by apply K5].
  - intros j Hj Hr. rewrite Hd by done. destruct (K6 j Hj Hr) as [D1 D2]. split; [done|]. intros bn. rewrite ext_block by done. apply D2.
  - intros j j' bn bn' Hj Hj'. rewrite !Hd, !ext_block by done. by apply K7.
  - intros j Hj. rewrite ext_dino by lia. by apply K8.
  - by rewrite Hd by lia.
  - by rewrite Hd by lia.
  - intros n. rewrite Hd by lia. rewrite <-K11. f_equal. unfold entries. apply list_fmap_ext. intros x k Hk. apply fbytes_ext. intros y Hy.
    apply lookup_seqZ in Hk as [-> Hx]. apply ext_byte; [lia|]. pose proof root_small. dlia.
  - intros k f Hk. pose proof (lookup_lt_Some _ _ _ Hk). rewrite Hd by lia. destruct (K12 k f Hk) as (T1 & T2 & T3). split; [done|]. split; [done|].
    rewrite <-T3 at 2. apply fbytes_ext. intros x Hx. apply ext_byte; [lia|].
    destruct (K6 (2 + Z.of_nat k)) as [[_ D] _]; [lia|lia|]. cbn [snd] in *. lia.
Qed.
End Extend.

Definition image_disk (V : Z -> blk) : gmap Z blk := list_to_map ((fun m => (m, V m)) <$> seqZ 0 FSSIZE).
Lemma image_disk_fn V m : 0 <= m < FSSIZE -> disk_fn (image_disk V) m = V m.
Proof.
  intros Hm. unfold disk_fn, image_disk. rewrite (elem_of_list_to_map_1 _ m (V m)); [done| |].
  - rewrite <-list_fmap_compose. unfold compose. cbn. rewrite list_fmap_id. apply NoDup_seqZ.
  - apply list_elem_of_fmap. exists m. split; [done|]. apply elem_of_seqZ. lia.
Qed.

(** C6: What mkfs stores the kernel reads.  The kernel, started on the image that
    mkfs made of some files, finds each of them under its name in the root
    directory and reads the bytes that mkfs was given.  The number of files must
    not be one for which the root directory fills its blocks exactly. *)
Theorem mkfs_then_read V0 devsw fs k f :
  Forall good_file fs -> Z.of_nat (length fs) <= 198 -> blocks_of (tree fs) <= FSSIZE -> (2 + Z.of_nat (length fs)) mod 32 <> 0 ->
  fs !! k = Some f -> strip f.1 <> [] -> (length (strip f.1) <= 14)%nat -> look (names fs) (strip f.1) = Some (2 + Z.of_nat k) ->
  let len := Z.of_nat (length (concat f.2)) in
  exists m s s', mkfs fs (mkfs_start V0) = Ret tt m /\
    (_ ← iinit ROOTDEV; _ ← on_l (initlog ROOTDEV); on_l begin_op) (power_on (image_disk (img m))) = Ret tt s /\
    read_path devsw 0 (slash :: strip f.1) len s = Ret (len, concat f.2) s'.
Proof.
  intros Hg Hn Hb Hr Hf Hne Hl Hk len. pose proof (mkfs_fits V0 fs Hg Hn Hb) as Hw.
  destruct (proj1 (wp_Ret (mkfs fs) (fun _ s => image (img s) fs) (mkfs_start V0)) Hw) as ([] & m & Hrun & Him). exists m.
  assert (image (disk_fn (image_disk (img m))) fs) as Him'.
  { apply (image_ext (img m)); [done..|]. intros x Hx. by apply image_disk_fn. }
  pose proof (mount_ok (image_disk (img m)) fs Him') as Hmount.
  destruct (proj1 (wp_Ret _ _ _) Hmount) as ([] & s & Hs & Hmt).
  assert (existsb (Z.eqb slash) (strip f.1) = false) as Hsl.
  { pose proof (gf_slash _ (proj1 (Forall_lookup _ _) Hg k f Hf)) as H. unfold strip. destruct (hd 0 f.1 =? 95); [|done].
    destruct (f.1) as [|c n]; [done|]. cbn in *. by apply orb_false_iff in H as [_ H]. }
  pose proof (read_path_ok (disk_fn (image_disk (img m))) fs devsw Him' Hr Hn s 0 (strip f.1) k f Hmt Hk Hf Hne Hsl Hl) as Hread.
  destruct (proj1 (wp_Ret _ _ _) Hread) as (r & s' & Hrd & ->). exists s, s'. split; [exact Hrun|]. split; [exact Hs|exact Hrd].
Qed.
Lemma mkfs_then_read_witness : exists m s s',
  mkfs [([95; 97], [[104; 105]]); ([98], [])] (mkfs_start (fun _ => [])) = Ret tt m /\
  (_ ← iinit ROOTDEV; _ ← on_l (initlog ROOTDEV); on_l begin_op) (power_on (image_disk (img m))) = Ret tt s /\
  read_path (fun _ => mkDev None None) 0 [47; 97] 2 s = Ret (2, [104; 105]) s'.
Proof.
  apply (mkfs_then_read (fun _ => []) (fun _ => mkDev None None) [([95; 97], [[104; 105]]); ([98], [])] 0 ([95; 97], [[104; 105]])).
  - repeat constructor; cbn; (done || lia).
  - done.
  - by vm_compute.
  - done.
  - done.
  - done.
  - cbn. lia.
  - done.
Defined.
