(* ===== verification/Kernel.v ===== *)
(** * The kernel's state (proc.h, file.h)

    What system calls work on: physical memory with its allocator, the file
    system, open files and pipes, the process table and the clock, as one CPU
    sees them.  [k_cur] is the process that is running.  A [struct file *] is a
    number: zero for null, [f + 1] for entry [f] of the table. *)

From S2P Require Import Prelude Mmu Mem PageAlloc Kalloc Vm Wmap Wunmap Block Bio Log Fs Pipe.
From stdpp Require Import base gmap list strings.
From Stdlib Require Import ZArith Lia.
#[local] Open Scope Z_scope.

Definition NPROC : nat := 64.
Definition NOFILE : nat := 16.
Definition NFILE : nat := 100.

(** ** Files *)

Inductive ftype := FD_NONE | FD_PIPE | FD_INODE.
#[export] Instance ftype_eq : EqDecision ftype.
Proof. solve_decision. Defined.
Record file := mkFile {
  f_type : ftype; f_ref : Z; f_readable : Z; f_writable : Z; f_pipe : Z; f_ip : option nat; f_off : Z }.

(** ** Processes *)

Inductive procstate := UNUSED | EMBRYO | SLEEPING | RUNNABLE | RUNNING | ZOMBIE.
#[export] Instance procstate_eq : EqDecision procstate.
Proof. solve_decision. Defined.

(** What a process can sleep on. *)
Inductive channel :=
  ChProc (p : nat) | ChTicks | ChLog | ChPipeRead (p : Z) | ChPipeWrite (p : Z) | ChBuf (b : nat) | ChInode (ip : nat) | ChInput.
#[export] Instance channel_eq : EqDecision channel.
Proof. solve_decision. Defined.

(** The registers of [struct trapframe] the kernel's C code uses. *)
Record trapframe := mkTf {
  tf_eax : Z; tf_esp : Z; tf_eip : Z; tf_cs : Z; tf_ds : Z; tf_es : Z; tf_ss : Z; tf_eflags : Z;
  tf_trapno : Z; tf_err : Z; tf_regs : list Z }.

(** [struct proc].  [p_tab] is the mapping table; [p_wpage] and [p_arrpages] are
    the pages that hold its parts. *)
Record proc := mkProc {
  p_sz : Z; p_pgdir : Z; p_kstack : Z; p_state : procstate; p_pid : Z; p_parent : option nat;
  p_tf : trapframe; p_chan : option channel; p_killed : Z; p_ofile : list Z; p_cwd : option nat;
  p_name : list Z; p_tab : wtab; p_wpage : Z; p_arrpages : list Z }.

Record kst := mkKst {
  k_km : kmem; k_fs : fsys; k_pipes : gmap Z pipe; k_ftable : list file; k_ftlock : bool;
  k_ptable : list proc; k_ptlock : bool; k_cur : nat; k_nextpid : Z; k_initproc : option nat; k_ticks : Z }.

Definition set_km (x : kmem) (k : kst) : kst :=
  mkKst x (k_fs k) (k_pipes k) (k_ftable k) (k_ftlock k) (k_ptable k) (k_ptlock k) (k_cur k) (k_nextpid k) (k_initproc k) (k_ticks k).
Definition set_fs (x : fsys) (k : kst) : kst :=
  mkKst (k_km k) x (k_pipes k) (k_ftable k) (k_ftlock k) (k_ptable k) (k_ptlock k) (k_cur k) (k_nextpid k) (k_initproc k) (k_ticks k).
Definition set_pipes (x : gmap Z pipe) (k : kst) : kst :=
  mkKst (k_km k) (k_fs k) x (k_ftable k) (k_ftlock k) (k_ptable k) (k_ptlock k) (k_cur k) (k_nextpid k) (k_initproc k) (k_ticks k).
Definition set_ftable (x : list file) (k : kst) : kst :=
  mkKst (k_km k) (k_fs k) (k_pipes k) x (k_ftlock k) (k_ptable k) (k_ptlock k) (k_cur k) (k_nextpid k) (k_initproc k) (k_ticks k).
Definition set_ftlock (x : bool) (k : kst) : kst :=
  mkKst (k_km k) (k_fs k) (k_pipes k) (k_ftable k) x (k_ptable k) (k_ptlock k) (k_cur k) (k_nextpid k) (k_initproc k) (k_ticks k).
Definition set_ptable (x : list proc) (k : kst) : kst :=
  mkKst (k_km k) (k_fs k) (k_pipes k) (k_ftable k) (k_ftlock k) x (k_ptlock k) (k_cur k) (k_nextpid k) (k_initproc k) (k_ticks k).
Definition set_ptlock (x : bool) (k : kst) : kst :=
  mkKst (k_km k) (k_fs k) (k_pipes k) (k_ftable k) (k_ftlock k) (k_ptable k) x (k_cur k) (k_nextpid k) (k_initproc k) (k_ticks k).
Definition set_cur (x : nat) (k : kst) : kst :=
  mkKst (k_km k) (k_fs k) (k_pipes k) (k_ftable k) (k_ftlock k) (k_ptable k) (k_ptlock k) x (k_nextpid k) (k_initproc k) (k_ticks k).
Definition set_nextpid (x : Z) (k : kst) : kst :=
  mkKst (k_km k) (k_fs k) (k_pipes k) (k_ftable k) (k_ftlock k) (k_ptable k) (k_ptlock k) (k_cur k) x (k_initproc k) (k_ticks k).
Definition set_initproc (x : option nat) (k : kst) : kst :=
  mkKst (k_km k) (k_fs k) (k_pipes k) (k_ftable k) (k_ftlock k) (k_ptable k) (k_ptlock k) (k_cur k) (k_nextpid k) x (k_ticks k).
Definition set_ticks (x : Z) (k : kst) : kst :=
  mkKst (k_km k) (k_fs k) (k_pipes k) (k_ftable k) (k_ftlock k) (k_ptable k) (k_ptlock k) (k_cur k) (k_nextpid k) (k_initproc k) x.

(** ** Fields of a process *)

Definition with_sz (x : Z) (p : proc) : proc :=
  mkProc x (p_pgdir p) (p_kstack p) (p_state p) (p_pid p) (p_parent p) (p_tf p) (p_chan p) (p_killed p) (p_ofile p) (p_cwd p) (p_name p) (p_tab p) (p_wpage p) (p_arrpages p).
Definition with_pgdir (x : Z) (p : proc) : proc :=
  mkProc (p_sz p) x (p_kstack p) (p_state p) (p_pid p) (p_parent p) (p_tf p) (p_chan p) (p_killed p) (p_ofile p) (p_cwd p) (p_name p) (p_tab p) (p_wpage p) (p_arrpages p).
Definition with_kstack (x : Z) (p : proc) : proc :=
  mkProc (p_sz p) (p_pgdir p) x (p_state p) (p_pid p) (p_parent p) (p_tf p) (p_chan p) (p_killed p) (p_ofile p) (p_cwd p) (p_name p) (p_tab p) (p_wpage p) (p_arrpages p).
Definition with_state (x : procstate) (p : proc) : proc :=
  mkProc (p_sz p) (p_pgdir p) (p_kstack p) x (p_pid p) (p_parent p) (p_tf p) (p_chan p) (p_killed p) (p_ofile p) (p_cwd p) (p_name p) (p_tab p) (p_wpage p) (p_arrpages p).
Definition with_pid (x : Z) (p : proc) : proc :=
  mkProc (p_sz p) (p_pgdir p) (p_kstack p) (p_state p) x (p_parent p) (p_tf p) (p_chan p) (p_killed p) (p_ofile p) (p_cwd p) (p_name p) (p_tab p) (p_wpage p) (p_arrpages p).
Definition with_parent (x : option nat) (p : proc) : proc :=
  mkProc (p_sz p) (p_pgdir p) (p_kstack p) (p_state p) (p_pid p) x (p_tf p) (p_chan p) (p_killed p) (p_ofile p) (p_cwd p) (p_name p) (p_tab p) (p_wpage p) (p_arrpages p).
Definition with_tf (x : trapframe) (p : proc) : proc :=
  mkProc (p_sz p) (p_pgdir p) (p_kstack p) (p_state p) (p_pid p) (p_parent p) x (p_chan p) (p_killed p) (p_ofile p) (p_cwd p) (p_name p) (p_tab p) (p_wpage p) (p_arrpages p).
Definition with_chan (x : option channel) (p : proc) : proc :=
  mkProc (p_sz p) (p_pgdir p) (p_kstack p) (p_state p) (p_pid p) (p_parent p) (p_tf p) x (p_killed p) (p_ofile p) (p_cwd p) (p_name p) (p_tab p) (p_wpage p) (p_arrpages p).
Definition with_killed (x : Z) (p : proc) : proc :=
  mkProc (p_sz p) (p_pgdir p) (p_kstack p) (p_state p) (p_pid p) (p_parent p) (p_tf p) (p_chan p) x (p_ofile p) (p_cwd p) (p_name p) (p_tab p) (p_wpage p) (p_arrpages p).
Definition with_ofile (x : list Z) (p : proc) : proc :=
  mkProc (p_sz p) (p_pgdir p) (p_kstack p) (p_state p) (p_pid p) (p_parent p) (p_tf p) (p_chan p) (p_killed p) x (p_cwd p) (p_name p) (p_tab p) (p_wpage p) (p_arrpages p).
Definition with_cwd (x : option nat) (p : proc) : proc :=
  mkProc (p_sz p) (p_pgdir p) (p_kstack p) (p_state p) (p_pid p) (p_parent p) (p_tf p) (p_chan p) (p_killed p) (p_ofile p) x (p_name p) (p_tab p) (p_wpage p) (p_arrpages p).
Definition with_name (x : list Z) (p : proc) : proc :=
  mkProc (p_sz p) (p_pgdir p) (p_kstack p) (p_state p) (p_pid p) (p_parent p) (p_tf p) (p_chan p) (p_killed p) (p_ofile p) (p_cwd p) x (p_tab p) (p_wpage p) (p_arrpages p).
Definition with_tab (x : wtab) (p : proc) : proc :=
  mkProc (p_sz p) (p_pgdir p) (p_kstack p) (p_state p) (p_pid p) (p_parent p) (p_tf p) (p_chan p) (p_killed p) (p_ofile p) (p_cwd p) (p_name p) x (p_wpage p) (p_arrpages p).
Definition with_pages (w : Z) (a : list Z) (p : proc) : proc :=
  mkProc (p_sz p) (p_pgdir p) (p_kstack p) (p_state p) (p_pid p) (p_parent p) (p_tf p) (p_chan p) (p_killed p) (p_ofile p) (p_cwd p) (p_name p) (p_tab p) w a.

(** ** Running code of a component on the whole state *)

Definition on_km {A} (m : M kmem A) : M kst A := zoom k_km set_km m.
Definition on_fs {A} (m : M fsys A) : M kst A := zoom k_fs set_fs m.

Definition get_proc (i : nat) : M kst proc := fun k =>
  match k_ptable k !! i with Some p => Ret p k | None => Undef "proc pointer" end.
Definition upd_proc (i : nat) (f : proc -> proc) : M kst unit := fun k =>
  match k_ptable k !! i with
  | Some p => Ret tt (set_ptable (<[i := f p]> (k_ptable k)) k)
  | None => Undef "proc pointer"
  end.
Definition myproc : M kst proc := i ← gets k_cur; get_proc i.
Definition upd_me (f : proc -> proc) : M kst unit := i ← gets k_cur; upd_proc i f.

Definition acquire_ptable : M kst unit :=
  b ← gets k_ptlock; if (b : bool) then panic "acquire" else modify (set_ptlock true).
Definition release_ptable : M kst unit :=
  b ← gets k_ptlock; if (b : bool) then modify (set_ptlock false) else panic "release".

(** The mapping calls run on the current process. *)
#[export] Instance kst_PageAlloc `{LinkerSymbols} : PageAlloc kst := {
  pa_mem k := kmem_mem (k_km k);
  pa_set_mem m k := set_km (set_kmem_mem m (k_km k)) k;
  pa_kalloc := on_km kalloc;
  pa_kfree v := on_km (kfree v);
  free_pages k l := kmem_free (k_km k) l;
  same_rest k k' := k' = set_km (k_km k') k /\ use_lock (k_km k') = use_lock (k_km k)
}.
Definition me (k : kst) : option proc := k_ptable k !! k_cur k.
#[export] Instance kst_WmapProc : WmapProc kst := {
  w_tab k := match me k with Some p => p_tab p | None => init_wtab end;
  w_set_tab t k := match me k with
                   | Some p => set_ptable (<[k_cur k := with_tab t p]> (k_ptable k)) k
                   | None => k
                   end;
  w_pgdir k := match me k with Some p => p_pgdir p | None => 0 end;
  w_ofile k := match me k with Some p => p_ofile p | None => [] end
}.
