(* ===== verification/Sched.v ===== *)
(** * Scheduling, sleeping and killing (proc.c)

    The part of proc.c that changes process states: [sleep], [wakeup], [yield],
    [kill] and the choice the scheduler makes.  A context switch ends the run of
    the current process: a process that sleeps or yields stops there and goes on,
    when it is chosen again, with [sleep_return]. *)

From S2P Require Import Prelude Mmu Mem PageAlloc Kalloc Wmap Bio Log LogOps Fs Pipe Kernel.
From stdpp Require Import base gmap list strings relations.
From Stdlib Require Import ZArith Lia.
#[local] Open Scope Z_scope.

(** ** Wakeup *)

Definition wake1 (chan : option channel) (p : proc) : proc :=
  if bool_decide (p_state p = SLEEPING) && bool_decide (p_chan p = chan) then with_state RUNNABLE p else p.
Definition wakeup1 (chan : option channel) : M kst unit :=
  modify (fun k => set_ptable (wake1 chan <$> k_ptable k) k).
Definition wakeup (chan : channel) : M kst unit :=
  _ ← acquire_ptable; _ ← wakeup1 (Some chan); release_ptable.

(** ** Giving up the CPU *)

(** [mycpu()->ncli], which counts the spin locks the processor holds: here those
    of the components of the state.  The interrupts are off while it is not zero
    (Spinlock.v). *)
Definition ncli (k : kst) : Z :=
  let held (b : bool) := if b then 1 else 0 in
  held (lock (k_km k)) + held (bc_lock (l_bc (fs_l (k_fs k)))) + held (lg_lock (l_log (fs_l (k_fs k)))) +
  held (ic_lock (k_fs k)) + held (k_ftlock k) + held (k_ptlock k).
Definition fl_if (k : kst) : bool := ncli k =? 0.

(** The checks of [sched] before the switch. *)
Definition sched : M kst unit :=
  p ← myproc;
  k ← gets id;
  if negb (k_ptlock k) then panic "sched ptable.lock"
  else if negb (ncli k =? 1) then panic "sched locks"
  else if bool_decide (p_state p = RUNNING) then panic "sched running"
  else if fl_if k then panic "sched interruptible"
  else mret tt.

(** [sleep] up to the switch; [ptable_held] when the lock passed to it is
    [ptable.lock].  The other lock is released by the caller's component. *)
Definition sleep (chan : channel) (ptable_held : bool) : M kst unit :=
  _ ← when (negb ptable_held) acquire_ptable;
  _ ← upd_me (with_chan (Some chan));
  _ ← upd_me (with_state SLEEPING);
  sched.
(** [sleep] after the process has been chosen again. *)
Definition sleep_return (ptable_held : bool) : M kst unit :=
  _ ← upd_me (with_chan None);
  when (negb ptable_held) release_ptable.

(** [yield] up to the switch. *)
Definition yield : M kst unit :=
  _ ← acquire_ptable;
  _ ← upd_me (with_state RUNNABLE);
  sched.

(** The checks of [switchuvm]; the registers it loads are not represented. *)
Definition switchuvm (p : proc) : M kst unit :=
  if p_kstack p =? 0 then panic "switchuvm: no kstack"
  else if p_pgdir p =? 0 then panic "switchuvm: no pgdir"
  else mret tt.

(** ** The scheduler

    [pick l i] is the first RUNNABLE process of [l], whose first element has
    index [i]. *)
Fixpoint pick (l : list proc) (i : nat) : option nat :=
  match l with
  | [] => None
  | p :: l => if bool_decide (p_state p = RUNNABLE) then Some i else pick l (S i)
  end.
(** One turn of the loop over the table from position [pos]: the process that
    runs next, or none when the pass ends.  [c->proc] is [k_cur]; that it is null
    while the scheduler itself runs is not represented, nothing reads it there. *)
Definition scheduler_turn (pos : nat) : M kst (option nat) :=
  t ← gets k_ptable;
  match pick (drop pos t) pos with
  | None => mret None
  | Some i =>
      _ ← modify (set_cur i);
      p ← get_proc i;
      _ ← switchuvm p;
      _ ← upd_proc i (with_state RUNNING);
      mret (Some i)
  end.

(** ** Kill *)

Fixpoint find_pid (l : list proc) (i : nat) (pid : Z) : option nat :=
  match l with
  | [] => None
  | p :: l => if p_pid p =? pid then Some i else find_pid l (S i) pid
  end.
Definition kill (pid : Z) : M kst Z :=
  _ ← acquire_ptable;
  t ← gets k_ptable;
  match find_pid t 0 pid with
  | Some i =>
      _ ← upd_proc i (with_killed 1);
      _ ← upd_proc i (fun p => if bool_decide (p_state p = SLEEPING) then with_state RUNNABLE p else p);
      _ ← release_ptable;
      mret 0
  | None => _ ← release_ptable; mret (-1)
  end.

(** ** The scheduler is fair

    The scheduler's loop, started with [ptable.lock] held at position [pos] of
    the table, for [n + 1] turns.  A process it has chosen runs, does what it
    likes and comes back with the lock held: [runs j].  At the end of a pass the
    lock is free for a while and interrupts come: [idle]. *)
Section Scheduler.
  Variables (runs : nat -> M kst unit) (idle : M kst unit).
Fixpoint scheduler (n pos : nat) : M kst (list (option nat)) :=
  r ← scheduler_turn pos;
  match n with
  | O => mret [r]
  | S n =>
      _ ← (match r with
           | Some j => runs j
           | None => _ ← release_ptable; _ ← idle; acquire_ptable
           end);
      rs ← scheduler n (match r with Some j => S j | None => 0%nat end);
      mret (r :: rs)
  end.
End Scheduler.

(** Process [i] is RUNNABLE, and what runs or is to run has a stack and a page
    table. *)
Record schedulable (i : nat) (k : kst) : Prop := {
  sb_length : length (k_ptable k) = NPROC;
  sb_runnable : p_state <$> k_ptable k !! i = Some RUNNABLE;
  sb_ready j p : k_ptable k !! j = Some p -> p_state p = RUNNABLE \/ p_state p = RUNNING -> p_kstack p <> 0 /\ p_pgdir p <> 0 }.

Lemma pick_Some l i j :
  pick l i = Some j -> (i <= j < i + length l)%nat /\ p_state <$> l !! (j - i)%nat = Some RUNNABLE /\
  forall k, (i <= k < j)%nat -> p_state <$> l !! (k - i)%nat <> Some RUNNABLE.
Proof.
  revert i. induction l as [|p l IH]; intros i; cbn; [done|]. case_bool_decide as E.
  - intros [= <-]. rewrite Nat.sub_diag. cbn. rewrite E. split; [lia|]. split; [done|intros; lia].
  - intros (Hr & Hs & Hk)%IH. split; [lia|]. replace (j - i)%nat with (S (j - S i)) by lia. split; [done|].
    intros k Hk'. destruct (decide (k = i)) as [->|Hne]; [rewrite Nat.sub_diag; cbn; congruence|].
    replace (k - i)%nat with (S (k - S i)) by lia. apply Hk. lia.
Qed.
Lemma pick_None l i k : pick l i = None -> p_state <$> l !! k <> Some RUNNABLE.
Proof.
  revert i k. induction l as [|p l IH]; intros i k; cbn; [done|]. case_bool_decide as E; [done|].
  intros Hn. destruct k as [|k]; cbn; [congruence|]. by apply (IH (S i)).
Qed.

(** What a turn does to the table. *)
Lemma scheduler_turn_eq i k pos :
  schedulable i k ->
  match pick (drop pos (k_ptable k)) pos with
  | None => scheduler_turn pos k = Ret None k
  | Some j => exists p, k_ptable k !! j = Some p /\ p_state p = RUNNABLE /\
      scheduler_turn pos k = Ret (Some j) (set_ptable (<[j := with_state RUNNING p]> (k_ptable k)) (set_cur j k))
  end.
Proof.
  intros Hk. unfold scheduler_turn, mbind, M_bind, gets. destruct (pick _ _) as [j|] eqn:E; [|done].
  apply pick_Some in E as (Hj & Hs & _). rewrite lookup_drop in Hs. replace (pos + (j - pos))%nat with j in Hs by lia.
  destruct (k_ptable k !! j) as [p|] eqn:Hp; [|done]. injection Hs as Hs. destruct (sb_ready i k Hk j p Hp (or_introl Hs)) as [H1 H2].
  exists p. split; [done|]. split; [done|]. unfold modify, get_proc, upd_proc, switchuvm. cbn [k_ptable set_cur]. rewrite Hp.
  apply Z.eqb_neq in H1, H2. rewrite H1, H2. cbn [k_ptable set_cur mret M_ret]. unfold mret, M_ret. cbn [k_ptable set_cur].
  by rewrite Hp.
Qed.
Lemma schedulable_upd i j k p st :
  schedulable i k -> j <> i -> k_ptable k !! j = Some p -> p_state p = RUNNABLE \/ p_state p = RUNNING ->
  schedulable i (set_ptable (<[j := with_state st p]> (k_ptable k)) k).
Proof.
  intros [A1 A2 A3] Hne Hp Hs. split; cbn.
  - by rewrite length_insert.
  - by rewrite list_lookup_insert_ne.
  - intros h q Hq Hr. destruct (decide (h = j)) as [->|Hh].
    + rewrite list_lookup_insert_eq in Hq by by apply lookup_lt_Some in Hp. injection Hq as <-. by apply (A3 j p).
    + rewrite list_lookup_insert_ne in Hq by done. by apply (A3 h).
Qed.

(** How many turns, and how many choices of other processes, can come before
    process [i] from position [pos]. *)
Definition turn_bound (i pos : nat) : nat := if decide (pos <= i)%nat then i - pos else NPROC - pos + 1 + i.
Definition choice_bound (i pos : nat) : nat := if decide (pos <= i)%nat then i - pos else NPROC - pos + i.

Lemma pick_before i k pos :
  schedulable i k -> (pos <= NPROC)%nat ->
  match pick (drop pos (k_ptable k)) pos with
  | Some j => (S j <= NPROC)%nat /\ (j <> i -> (turn_bound i (S j) < turn_bound i pos)%nat /\ (choice_bound i (S j) < choice_bound i pos)%nat)
  | None => (turn_bound i 0 < turn_bound i pos)%nat /\ (choice_bound i 0 <= choice_bound i pos)%nat
  end.
Proof.
  intros [Hlen Hr _] Hpos.
  assert ((i < NPROC)%nat) as Hi by (rewrite <-Hlen; destruct (k_ptable k !! i) eqn:E; [by apply lookup_lt_Some in E|done]).
  assert ((pos <= i)%nat -> p_state <$> drop pos (k_ptable k) !! (i - pos)%nat = Some RUNNABLE) as Hd.
  { intros Hle. rewrite lookup_drop. by replace (pos + (i - pos))%nat with i by lia. }
  unfold turn_bound, choice_bound. destruct (pick _ _) as [j|] eqn:E.
  - apply pick_Some in E as (Hj & _ & Hk). rewrite length_drop in Hj. split; [lia|]. intros Hne.
    assert (~ (pos <= i < j)%nat) as Hni by (intros Hin; apply (Hk i Hin), Hd; lia).
    split; repeat case_decide; lia.
  - assert (~ (pos <= i)%nat) as Hni by (intros Hle; by apply (pick_None _ _ (i - pos) E), Hd).
    split; repeat case_decide; lia.
Qed.

(** What is asked of the rest of the system while process [i] waits. *)
Record waits (i : nat) (runs : nat -> M kst unit) (idle : M kst unit) : Prop := {
  wt_runs j k : j <> i -> k_cur k = j -> p_state <$> k_ptable k !! j = Some RUNNING -> schedulable i k -> k_ptlock k = true ->
    wp (runs j) (fun _ k' => schedulable i k' /\ k_ptlock k' = true) k;
  wt_idle k : schedulable i k -> k_ptlock k = false ->
    wp idle (fun _ k' => schedulable i k' /\ k_ptlock k' = false) k }.

Lemma scheduler_reaches i runs idle b pos k :
  waits i runs idle -> schedulable i k -> k_ptlock k = true -> (pos <= NPROC)%nat -> (turn_bound i pos <= b)%nat ->
  exists n rs k', (n <= turn_bound i pos)%nat /\ scheduler runs idle n pos k = Ret (rs ++ [Some i]) k' /\ Some i ∉ rs /\
    (length (omap id rs) <= choice_bound i pos)%nat /\ k_cur k' = i /\ p_state <$> k_ptable k' !! i = Some RUNNING.
Proof.
  intros [Hruns Hidle]. revert pos k. induction b as [|b IH]; intros pos k Hk Hl Hpos Hb;
    pose proof (scheduler_turn_eq i k pos Hk) as Ht; pose proof (pick_before i k pos Hk Hpos) as Hp;
    (destruct (pick _ _) as [j|] eqn:E; [destruct Ht as (p & Hj & Hs & Ht); destruct Hp as [Hp0 Hp]; destruct (decide (j = i)) as [->|Hne]|]).
  1, 4: exists 0%nat, []; eexists; split; [lia|]; split; [cbn; unfold mbind, M_bind; rewrite Ht; done|];
    split; [apply not_elem_of_nil|]; split; [cbn; lia|]; split; [done|]; cbn; rewrite list_lookup_insert_eq by (by apply lookup_lt_Some in Hj); done.
  1: destruct (Hp Hne); lia.
  1: lia.
  - destruct (Hp Hne) as [Hp1 Hp2]. set (k1 := set_ptable _ (set_cur j k)) in Ht.
    assert (schedulable i k1) as Hk1.
    { apply (schedulable_upd i j (set_cur j k) p); [destruct Hk; by split|done|done|by left]. }
    assert (p_state <$> k_ptable k1 !! j = Some RUNNING) as Hj1.
    { cbn. by rewrite list_lookup_insert_eq by (by apply lookup_lt_Some in Hj). }
    destruct (proj1 (wp_Ret _ _ _) (Hruns j k1 Hne eq_refl Hj1 Hk1 Hl)) as ([] & k2 & Hr2 & Hk2 & Hl2).
    destruct (IH (S j) k2 Hk2 Hl2 Hp0 ltac:(lia)) as (n & rs & k' & Hn & Hrun & Hrs & Hc & Hend).
    exists (S n), (Some j :: rs), k'. split; [lia|]. split.
    { cbn [scheduler]. unfold mbind, M_bind. rewrite Ht, Hr2. unfold mbind, M_bind in Hrun. by rewrite Hrun. }
    split; [apply not_elem_of_cons; split; [congruence|done]|]. split; [cbn; lia|done].
  - destruct Hp as [Hp1 Hp2].
    assert (schedulable i (set_ptlock false k)) as Hk1 by (destruct Hk; by split).
    destruct (proj1 (wp_Ret _ _ _) (Hidle _ Hk1 eq_refl)) as ([] & k2 & Hr2 & Hk2 & Hl2).
    assert (schedulable i (set_ptlock true k2)) as Hk3 by (destruct Hk2; by split).
    destruct (IH 0%nat (set_ptlock true k2) Hk3 eq_refl ltac:(lia) ltac:(lia)) as (n & rs & k' & Hn & Hrun & Hrs & Hc & Hend).
    exists (S n), (None :: rs), k'. split; [lia|]. split.
    { cbn [scheduler]. unfold mbind, M_bind. rewrite Ht. unfold release_ptable, acquire_ptable, mbind, M_bind, gets, modify.
      rewrite Hl, Hr2, Hl2. unfold mbind, M_bind in Hrun. by rewrite Hrun. }
    split; [apply not_elem_of_cons; split; [congruence|done]|]. split; [cbn; lia|done].
Qed.

(** C37: the scheduler is fair: wherever its scan of the process table stands, a
    process that stays RUNNABLE is chosen and set running after at most [NPROC]
    turns, among which fewer than [NPROC] choose other processes.  Those
    processes, and what happens between two passes, may change everything else;
    they give the processor back, leave the process RUNNABLE, and make nothing
    RUNNABLE that has no stack or page table. *)
Theorem scheduler_fair i runs idle pos k :
  waits i runs idle -> schedulable i k -> k_ptlock k = true -> (pos <= NPROC)%nat ->
  exists n rs k', (n <= NPROC)%nat /\ scheduler runs idle n pos k = Ret (rs ++ [Some i]) k' /\ Some i ∉ rs /\
    (length (omap id rs) < NPROC)%nat /\ k_cur k' = i /\ p_state <$> k_ptable k' !! i = Some RUNNING.
Proof.
  intros Hw Hk Hl Hpos. destruct (scheduler_reaches i runs idle _ pos k Hw Hk Hl Hpos (le_n _)) as (n & rs & k' & Hn & Hr & Hi & Hc & Hend).
  assert ((i < NPROC)%nat) as Hi'
    by (destruct Hk as [<- Hr' _]; destruct (k_ptable k !! i) eqn:E; [by apply lookup_lt_Some in E|done]).
  exists n, rs, k'. unfold turn_bound, choice_bound in *. split; [case_decide; lia|]. split; [done|]. split; [done|].
  split; [case_decide; lia|done].
Qed.

Definition no_tf : trapframe := mkTf 0 0 0 0 0 0 0 0 0 0 [].
Definition unused_proc : proc :=
  mkProc 0 0 0 UNUSED 0 None no_tf None 0 (replicate NOFILE 0) None [] init_wtab 0 [].
(** A full table of processes that all yield at once. *)
Definition ready_proc : proc := with_pgdir 4096 (with_kstack 4096 (with_state RUNNABLE unused_proc)).
Definition ready_kst : kst :=
  mkKst demo (mkFs demo_sys (sb_of []) [] false) ∅ [] false (replicate NPROC ready_proc) true 0 2 None 0.
Definition yields (j : nat) : M kst unit := upd_proc j (with_state RUNNABLE).
Lemma ready_waits i : waits i yields (mret tt).
Proof.
  split; [|done]. intros j k Hne _ Hj Hk Hl. unfold wp, yields, upd_proc.
  destruct (k_ptable k !! j) as [p|] eqn:Hp; [|done]. injection Hj as Hj. split; [|done].
  apply schedulable_upd; [done|done|done|by right].
Qed.
Lemma ready_schedulable i : (i < NPROC)%nat -> schedulable i ready_kst.
Proof.
  intros Hi. split; [apply length_replicate|cbn [k_ptable ready_kst]; by rewrite lookup_replicate_2|].
  intros j p [-> _]%lookup_replicate _. done.
Qed.
Lemma scheduler_fair_witness :
  exists n rs k', scheduler yields (mret tt) n 1 ready_kst = Ret (rs ++ [Some 0%nat]) k' /\ (length (omap id rs) < NPROC)%nat.
Proof.
  destruct (scheduler_fair 0 yields (mret tt) 1 ready_kst) as (n & rs & k' & _ & Hr & _ & Hc & _);
    [apply ready_waits|apply ready_schedulable; unfold NPROC; lia|reflexivity|unfold NPROC; lia|].
  exists n, rs, k'. split; [exact Hr|exact Hc].
Defined.

(** [kill] looks at the pid only: pid 0 finds an unused slot and marks it, so
    that the next process in the slot starts out killed. *)
Example kill_zero_marks_unused k :
  k_ptlock k = false -> k_ptable k = replicate NPROC unused_proc ->
  exists k', kill 0 k = Ret 0 k' /\ p_killed <$> k_ptable k' !! 0%nat = Some 1 /\ p_state <$> k_ptable k' !! 0%nat = Some UNUSED.
Proof.
  intros Hl Ht. destruct k. cbn in Hl, Ht. subst. eexists. split; [reflexivity|]. split; reflexivity.
Qed.
