(* ===== verification/File.v ===== *)
(** * Open files (file.c) and the creation of pipes (pipe.c)

    The file table with its reference counts, and the dispatch of reads and
    writes to pipes and inodes.  Data is passed as lists of bytes.  A call that
    has to wait for another process ends [Blocked]. *)

From S2P Require Import Prelude Mmu Mem PageAlloc Kalloc Wmap Block Bio Log Fs Pipe Kernel Sched.
From stdpp Require Import base gmap list strings.
From Stdlib Require Import ZArith Lia.
#[local] Open Scope Z_scope.

Definition acquire_ftable : M kst unit :=
  b ← gets k_ftlock; if (b : bool) then panic "acquire" else modify (set_ftlock true).
Definition release_ftable : M kst unit :=
  b ← gets k_ftlock; if (b : bool) then modify (set_ftlock false) else panic "release".

(** [*f] for a file pointer. *)
Definition get_file (f : Z) : M kst file := fun k =>
  if f <=? 0 then Undef "file pointer"
  else match k_ftable k !! Z.to_nat (f - 1) with Some x => Ret x k | None => Undef "file pointer" end.
Definition upd_file (f : Z) (g : file -> file) : M kst unit := fun k =>
  if f <=? 0 then Undef "file pointer"
  else match k_ftable k !! Z.to_nat (f - 1) with
       | Some x => Ret tt (set_ftable (<[Z.to_nat (f - 1) := g x]> (k_ftable k)) k)
       | None => Undef "file pointer"
       end.
Definition with_fref (r : Z) (f : file) : file :=
  mkFile (f_type f) r (f_readable f) (f_writable f) (f_pipe f) (f_ip f) (f_off f).
Definition with_ftype (t : ftype) (f : file) : file :=
  mkFile t (f_ref f) (f_readable f) (f_writable f) (f_pipe f) (f_ip f) (f_off f).
Definition with_off (o : Z) (f : file) : file :=
  mkFile (f_type f) (f_ref f) (f_readable f) (f_writable f) (f_pipe f) (f_ip f) o.

Definition begin_op_k : M kst unit := on_fs (on_l begin_op).
Definition end_op_k : M kst unit := _ ← on_fs (on_l end_op); wakeup ChLog.

(** [f->ip], which is a valid pointer in a file of type [FD_INODE]. *)
Definition file_ip (x : file) : M kst nat :=
  match f_ip x with Some ip => mret ip | None => undef "null inode" end.
Definition get_pipe (p : Z) : M kst pipe := fun k =>
  match k_pipes k !! p with Some x => Ret x k | None => Undef "pipe pointer" end.
Definition put_pipe (p : Z) (x : pipe) : M kst unit := modify (fun k => set_pipes (<[p := x]> (k_pipes k)) k).

(** The first entry with [ref == 0]. *)
Fixpoint free_file (l : list file) (i : Z) : option Z :=
  match l with
  | [] => None
  | f :: l => if f_ref f =? 0 then Some i else free_file l (i + 1)
  end.
Definition filealloc : M kst Z :=
  _ ← acquire_ftable;
  t ← gets k_ftable;
  match free_file t 1 with
  | Some f =>
      _ ← upd_file f (with_fref 1);
      _ ← release_ftable;
      mret f
  | None => _ ← release_ftable; mret 0
  end.

Definition filedup (f : Z) : M kst Z :=
  _ ← acquire_ftable;
  x ← get_file f;
  if f_ref x <? 1 then panic "filedup"
  else
    _ ← upd_file f (with_fref (i32 (f_ref x + 1)));
    _ ← release_ftable;
    mret f.

Section Files.
  Context `{LinkerSymbols}.
  Variable devsw : Z -> devops.

(** Close one end; the page goes back when both are closed. *)
Definition pipeclose_k (p : Z) (writable : Z) : M kst unit :=
  x ← get_pipe p;
  let '(free, x) := pipeclose (c_true writable) x in
  _ ← put_pipe p x;
  _ ← wakeup (if c_true writable then ChPipeRead p else ChPipeWrite p);
  when free (
    _ ← modify (fun k => set_pipes (delete p (k_pipes k)) k);
    on_km (kfree p)).

Definition fileclose (f : Z) : M kst unit :=
  _ ← acquire_ftable;
  x ← get_file f;
  if f_ref x <? 1 then panic "fileclose"
  else
    _ ← upd_file f (with_fref (f_ref x - 1));
    if f_ref x - 1 >? 0 then release_ftable
    else
      ff ← get_file f;
      _ ← upd_file f (with_fref 0);
      _ ← upd_file f (with_ftype FD_NONE);
      _ ← release_ftable;
      match f_type ff with
      | FD_PIPE => pipeclose_k (f_pipe ff) (f_writable ff)
      | FD_INODE =>
          _ ← begin_op_k;
          ip ← file_ip ff;
          _ ← on_fs (iput ip);
          end_op_k
      | FD_NONE => mret tt
      end.

Definition filestat (f : Z) : M kst (Z * option stat) :=
  x ← get_file f;
  match f_type x with
  | FD_INODE =>
      ip ← file_ip x;
      _ ← on_fs (ilock ip);
      st ← on_fs (stati ip);
      _ ← on_fs (iunlock ip);
      mret (0, Some st)
  | _ => mret (-1, None)
  end.

(** One pass of a reader or writer through a pipe. *)
Definition piperead_k (p n : Z) : M kst (Z * list Z) :=
  x ← get_pipe p;
  q ← myproc;
  let '(r, bytes, x) := piperead n (c_true (p_killed q)) x in
  _ ← put_pipe p x;
  match r with
  | Returns r => _ ← when (negb (r =? -1)) (wakeup (ChPipeWrite p)); mret (r, bytes)
  | Sleeps => blocked "pipe"
  end.
Definition pipewrite_k (p : Z) (bytes : list Z) : M kst Z :=
  x ← get_pipe p;
  q ← myproc;
  let '(r, _, x) := pipewrite bytes (Z.of_nat (length bytes)) (c_true (p_killed q)) x in
  _ ← put_pipe p x;
  match r with
  | Returns r => _ ← when (negb (r =? -1)) (wakeup (ChPipeRead p)); mret r
  | Sleeps => _ ← wakeup (ChPipeRead p); blocked "pipe"
  end.

Definition fileread (f n : Z) : M kst (Z * list Z) :=
  x ← get_file f;
  if f_readable x =? 0 then mret (-1, [])
  else
    match f_type x with
    | FD_PIPE => piperead_k (f_pipe x) n
    | FD_INODE =>
        ip ← file_ip x;
        _ ← on_fs (ilock ip);
        r ← on_fs (readi devsw ip (f_off x) (u32 n));
        _ ← when (r.1 >? 0) (upd_file f (with_off (u32 (f_off x + r.1))));
        _ ← on_fs (iunlock ip);
        mret r
    | FD_NONE => panic "fileread"
    end.

(** The loop of [filewrite]: at most [max] bytes per transaction; [i] bytes are
    written.  The result is the final [i]. *)
Definition filewrite_max : Z := ((MAXOPBLOCKS - 1 - 1 - 2) / 2) * 512.
Fixpoint filewrite_loop (fuel : nat) (f : Z) (bytes : list Z) (i n : Z) : M kst Z :=
  match fuel with
  | O => nofuel
  | S fuel =>
      if i <? n then
        let n1 := if n - i >? filewrite_max then filewrite_max else n - i in
        x ← get_file f;
        _ ← begin_op_k;
        ip ← file_ip x;
        _ ← on_fs (ilock ip);
        r ← on_fs (writei devsw ip (drop (Z.to_nat i) bytes) (f_off x) n1);
        _ ← when (r >? 0) (upd_file f (with_off (u32 (f_off x + r))));
        _ ← on_fs (iunlock ip);
        _ ← end_op_k;
        if r <? 0 then mret i
        else if negb (r =? n1) then panic "short filewrite"
        else filewrite_loop fuel f bytes (i + r) n
      else mret i
  end.
Definition filewrite (f : Z) (bytes : list Z) (n : Z) : M kst Z :=
  x ← get_file f;
  if f_writable x =? 0 then mret (-1)
  else
    match f_type x with
    | FD_PIPE => pipewrite_k (f_pipe x) (take (Z.to_nat n) bytes)
    | FD_INODE =>
        i ← filewrite_loop (S (S (Z.to_nat (n / filewrite_max)))) f bytes 0 n;
        mret (if i =? n then n else -1)
    | FD_NONE => panic "filewrite"
    end.

(** ** Creating a pipe (pipe.c)

    The two files, or none and no page. *)
Definition pipe_bad (p f0 f1 : Z) : M kst (option (Z * Z)) :=
  _ ← when (c_true p) (on_km (kfree p));
  _ ← when (c_true f0) (fileclose f0);
  _ ← when (c_true f1) (fileclose f1);
  mret None.
Definition pipealloc : M kst (option (Z * Z)) :=
  f0 ← filealloc;
  if f0 =? 0 then pipe_bad 0 0 0
  else
    f1 ← filealloc;
    if f1 =? 0 then pipe_bad 0 f0 0
    else
      p ← on_km kalloc;
      if p =? 0 then pipe_bad 0 f0 f1
      else
        (* [data] follows the 52 bytes of the lock *)
        d ← gets (fun k => (fun a => ld8 (kmem_mem (k_km k)) (p + 52 + Z.of_nat a)) <$> seq 0 (Z.to_nat PIPESIZE));
        _ ← put_pipe p (pipe_init d);
        _ ← upd_file f0 (fun x => mkFile FD_PIPE (f_ref x) 1 0 p (f_ip x) (f_off x));
        _ ← upd_file f1 (fun x => mkFile FD_PIPE (f_ref x) 0 1 p (f_ip x) (f_off x));
        mret (Some (f0, f1)).
End Files.
