(* ===== verification/Args.v ===== *)
(** * System call arguments (syscall.c)

    The kernel reads and writes user memory through the page table of the
    current process.  An access to a page that is not present would fault inside
    the kernel; in the model it is undefined. *)

From S2P Require Import Prelude Mmu Mem PageAlloc Kalloc Vm VmSpace VmGrow Wmap Wunmap Log LogOps Fs Kernel Sched.
From stdpp Require Import base gmap list strings.
From Stdlib Require Import ZArith Lia.
#[local] Open Scope Z_scope.

Section Args.
  Context `{LinkerSymbols}.

(** ** User memory *)

Definition uload8 (va : Z) : M kst Z :=
  p ← myproc;
  m ← gets pa_mem;
  match user_byte m (p_pgdir p) va with
  | Some b => mret b
  | None => undef "page fault"
  end.
Definition ustore8 (va v : Z) : M kst unit :=
  p ← myproc;
  m ← gets pa_mem;
  match frame_of m (p_pgdir p) va with
  | Some f => upd_mem (fun m => st8 m (f + va mod 4096) v)
  | None => undef "page fault"
  end.
Fixpoint uload (va : Z) (n : nat) : M kst (list Z) :=
  match n with
  | O => mret []
  | S n => b ← uload8 va; bs ← uload (va + 1) n; mret (b :: bs)
  end.
Fixpoint ustore (va : Z) (bs : list Z) : M kst unit :=
  match bs with
  | [] => mret tt
  | b :: bs => _ ← ustore8 va b; ustore (va + 1) bs
  end.
Definition uload32 (va : Z) : M kst Z :=
  b0 ← uload8 va; b1 ← uload8 (va + 1); b2 ← uload8 (va + 2); b3 ← uload8 (va + 3);
  mret (b0 + 256 * b1 + 65536 * b2 + 16777216 * b3).
Definition ustore32 (va v : Z) : M kst unit :=
  ustore va [v mod 256; v / 256 mod 256; v / 65536 mod 256; v / 16777216 mod 256].
Definition ustore16 (va v : Z) : M kst unit := ustore va [v mod 256; v / 256 mod 256].

(** ** Fetching *)

Definition fetchint (addr : Z) : M kst (option Z) :=
  p ← myproc;
  if (addr >=? p_sz p) || (u32 (addr + 4) >? p_sz p) then mret None
  else v ← uload32 addr; mret (Some (i32 v)).

(** The string from [s] up to its NUL, when it ends before [ep]. *)
Fixpoint fetchstr_loop (fuel : nat) (s ep : Z) : M kst (option (list Z)) :=
  match fuel with
  | O => nofuel
  | S fuel =>
      if s <? ep then
        c ← uload8 s;
        if c =? 0 then mret (Some [])
        else r ← fetchstr_loop fuel (s + 1) ep; mret (cons c <$> r)
      else mret None
  end.
Definition fetchstr (addr : Z) : M kst (option (list Z)) :=
  p ← myproc;
  if addr >=? p_sz p then mret None
  else fetchstr_loop (S (Z.to_nat (p_sz p - addr))) addr (p_sz p).

Definition argint (n : Z) : M kst (option Z) :=
  p ← myproc; fetchint (u32 (tf_esp (p_tf p) + 4 + 4 * n)).
(** The pointer, when the block of [size] bytes lies inside the process. *)
Definition argptr (n size : Z) : M kst (option Z) :=
  p ← myproc;
  i ← argint n;
  match i with
  | None => mret None
  | Some i =>
      if (size <? 0) || (u32 i >=? p_sz p) || (u32 (u32 i + size) >? p_sz p) then mret None
      else mret (Some (u32 i))
  end.
Definition argstr (n : Z) : M kst (option (list Z)) :=
  addr ← argint n;
  match addr with
  | None => mret None
  | Some addr => fetchstr (u32 addr)
  end.

(** ** What the checks guarantee *)

Lemma bind_Ret {S A B} (m : M S A) (k : A -> M S B) s b s' :
  (x ← m; k x) s = Ret b s' -> exists a s1, m s = Ret a s1 /\ k a s1 = Ret b s'.
Proof. unfold mbind, M_bind. destruct (m s) as [a s1| | | |]; try done. eauto. Qed.

Lemma uload8_same va b k k' : uload8 va k = Ret b k' -> k' = k.
Proof.
  intros (p & k1 & Hp & Hb)%bind_Ret.
  assert (k1 = k) as ->.
  { unfold myproc, get_proc, mbind, M_bind, gets in Hp. destruct (k_ptable k !! k_cur k); [|done]. by injection Hp. }
  apply bind_Ret in Hb as (m & k2 & [= <- <-] & Hb). by destruct (user_byte _ _ _); [injection Hb|].
Qed.
Lemma myproc_same k p k' : myproc k = Ret p k' -> k' = k /\ me k = Some p.
Proof.
  unfold myproc, get_proc, mbind, M_bind, gets, me. destruct (k_ptable k !! k_cur k); [|done]. by intros [= -> ->].
Qed.
Lemma uload32_same va v k k' : uload32 va k = Ret v k' -> k' = k.
Proof.
  unfold uload32. intros (b0 & k0 & ->%uload8_same & Hr)%bind_Ret.
  apply bind_Ret in Hr as (b1 & k1 & ->%uload8_same & Hr). apply bind_Ret in Hr as (b2 & k2 & ->%uload8_same & Hr).
  apply bind_Ret in Hr as (b3 & k3 & ->%uload8_same & Hr). by injection Hr.
Qed.
Lemma argint_same n r k k' : argint n k = Ret r k' -> k' = k.
Proof.
  intros (p & k1 & [-> _]%myproc_same & Hf)%bind_Ret. unfold fetchint in Hf.
  apply bind_Ret in Hf as (q & k2 & [-> _]%myproc_same & Hf). destruct (_ || _); [by injection Hf|].
  apply bind_Ret in Hf as (v & k3 & ->%uload32_same & Hf). by injection Hf.
Qed.

(** a pointer argument that passes [argptr] lies inside the process with
    all its [size] bytes, and checking it changes nothing. *)
Theorem argptr_in_bounds n size k a k' p :
  me k = Some p -> 0 <= p_sz p <= KERNBASE -> size < KERNBASE -> argptr n size k = Ret (Some a) k' ->
  k' = k /\ 0 <= size /\ 0 <= a /\ a < p_sz p /\ a + size <= p_sz p.
Proof.
  intros Hme Hsz Hsize Hr. apply bind_Ret in Hr as (q & k1 & [-> Hq]%myproc_same & Hr).
  rewrite Hme in Hq. injection Hq as <-.
  apply bind_Ret in Hr as (i & k2 & ->%argint_same & Hr). destruct i as [i|]; [|done].
  destruct ((size <? 0) || (u32 i >=? p_sz p) || (u32 (u32 i + size) >? p_sz p)) eqn:E; [done|].
  injection Hr as <- <-. apply orb_false_iff in E as [[E1 E2]%orb_false_iff E3].
  apply Z.ltb_ge in E1. rewrite Z.geb_leb in E2. apply Z.leb_gt in E2. rewrite Z.gtb_ltb in E3. apply Z.ltb_ge in E3.
  pose proof (u32_range i) as [Hi0 Hi1]. unfold KERNBASE in *. split; [done|]. split; [done|]. split; [done|]. split; [done|].
  rewrite u32_small in E3 by lia. done.
Qed.
End Args.

(** ** Examples

    A process of one page whose first argument is the address 4092. *)
Definition arg_kst : kst :=
  mkKst (set_kmem_mem (st32 demo_mem (demo_frame + 4) 4092) demo) (mkFs demo_sys (sb_of []) [] false) ∅ [] false
    [with_state RUNNING (with_sz 4096 (with_pgdir demo_dir unused_proc))] false 0 2 None 0.
Lemma arg_kst_argptr size : 0 <= size <= 4 -> argptr 0 size arg_kst = Ret (Some 4092) arg_kst.
Proof.
  intros Hs. assert (argint 0 arg_kst = Ret (Some 4092) arg_kst) as Ha by (vm_compute; done).
  unfold argptr, mbind at 1, M_bind. cbn [myproc]. change (myproc arg_kst) with (Ret (S := kst)
    (with_state RUNNING (with_sz 4096 (with_pgdir demo_dir unused_proc))) arg_kst). cbv beta iota.
  unfold mbind, M_bind. rewrite Ha. cbn [p_sz with_state with_sz].
  rewrite (u32_small 4092), (u32_small (4092 + size)) by lia.
  destruct (Z.ltb_spec size 0); [lia|]. rewrite Z.gtb_ltb. by destruct (Z.ltb_spec 4096 (4092 + size)); [lia|].
Qed.
Lemma argptr_in_bounds_witness :
  argptr 0 4 arg_kst = Ret (Some 4092) arg_kst /\ 4092 + 4 <= 4096.
Proof.
  pose proof (arg_kst_argptr 4 ltac:(lia)) as Hr. split; [exact Hr|].
  destruct (argptr_in_bounds 0 4 arg_kst 4092 arg_kst
    (with_state RUNNING (with_sz 4096 (with_pgdir demo_dir unused_proc)))) as (_ & _ & _ & _ & Hb);
    [reflexivity|split; vm_compute; discriminate|reflexivity|exact Hr|exact Hb].
Defined.

(** [sys_getwmapinfo] and [sys_getpgdirinfo] ask [argptr] for the four bytes of a
    pointer: a structure of 260 bytes that reaches beyond the process passes. *)
Example info_pointer_unchecked : argptr 0 4 arg_kst = Ret (Some 4092) arg_kst /\ 4092 + 260 > 4096.
Proof. split; [apply arg_kst_argptr; lia|lia]. Qed.
