(* ===== verification/SysFile.v ===== *)
(** * File system calls (sysfile.c)

    The calls on descriptors and path names.  The mapping calls of the same
    source file are in [Wmap] and [Wunmap]. *)

From S2P Require Import Prelude Mmu Mem PageAlloc Kalloc Vm Wmap Wunmap Block Bio Log Fs Pipe Kernel Sched File Args.
From stdpp Require Import base gmap list strings.
From Stdlib Require Import ZArith Lia.
#[local] Open Scope Z_scope.

Definition O_RDONLY : Z := 0x000.
Definition O_WRONLY : Z := 0x001.
Definition O_RDWR : Z := 0x002.
Definition O_CREATE : Z := 0x200.
Definition MAXARG : nat := 32.

Section Calls.
  Context `{LinkerSymbols}.
  Variable devsw : Z -> devops.

(** ** Descriptors *)

(** The descriptor in argument [n] and its file. *)
Definition argfd (n : Z) : M kst (option (Z * Z)) :=
  fd ← argint n;
  match fd with
  | None => mret None
  | Some fd =>
      p ← myproc;
      if (fd <? 0) || (fd >=? Z.of_nat NOFILE) then mret None
      else
        let f := nth (Z.to_nat fd) (p_ofile p) 0 in
        if f =? 0 then mret None else mret (Some (fd, f))
  end.

(** The first free descriptor. *)
Fixpoint free_fd (l : list Z) (i : Z) : option Z :=
  match l with
  | [] => None
  | f :: l => if f =? 0 then Some i else free_fd l (i + 1)
  end.
Definition set_fd (fd f : Z) (p : proc) : proc := with_ofile (<[Z.to_nat fd := f]> (p_ofile p)) p.
Definition fdalloc (f : Z) : M kst Z :=
  p ← myproc;
  match free_fd (p_ofile p) 0 with
  | Some fd => _ ← upd_me (set_fd fd f); mret fd
  | None => mret (-1)
  end.

Definition sys_dup : M kst Z :=
  a ← argfd 0;
  match a with
  | None => mret (-1)
  | Some (_, f) =>
      fd ← fdalloc f;
      if fd <? 0 then mret (-1)
      else _ ← filedup f; mret fd
  end.

(** The arguments that [read] and [write] share: file, buffer and length. *)
Definition rw_args : M kst (option (Z * Z * Z)) :=
  a ← argfd 0;
  match a with
  | None => mret None
  | Some (_, f) =>
      n ← argint 2;
      match n with
      | None => mret None
      | Some n => p ← argptr 1 n; mret ((fun p => (f, p, n)) <$> p)
      end
  end.
Definition sys_read : M kst Z :=
  a ← rw_args;
  match a with
  | None => mret (-1)
  | Some (f, p, n) => r ← fileread devsw f n; _ ← ustore p r.2; mret r.1
  end.
Definition sys_write : M kst Z :=
  a ← rw_args;
  match a with
  | None => mret (-1)
  | Some (f, p, n) => bytes ← uload p (Z.to_nat n); filewrite devsw f bytes n
  end.

Definition sys_close : M kst Z :=
  a ← argfd 0;
  match a with
  | None => mret (-1)
  | Some (fd, f) =>
      _ ← upd_me (set_fd fd 0);
      _ ← fileclose f;
      mret 0
  end.

(** [struct stat] in user memory. *)
Definition store_stat (a : Z) (st : stat) : M kst unit :=
  _ ← ustore16 a (st_type st);
  _ ← ustore32 (a + 4) (st_dev st);
  _ ← ustore32 (a + 8) (st_ino st);
  _ ← ustore16 (a + 12) (st_nlink st);
  ustore32 (a + 16) (st_size st).
Definition sys_fstat : M kst Z :=
  a ← argfd 0;
  match a with
  | None => mret (-1)
  | Some (_, f) =>
      st ← argptr 1 20;
      match st with
      | None => mret (-1)
      | Some st =>
          r ← filestat f;
          _ ← (match r.2 with Some x => store_stat st x | None => mret tt end);
          mret r.1
      end
  end.

(** ** Path names *)

(** [namei] and [nameiparent] start at the current directory. *)
Definition my_cwd : M kst nat :=
  p ← myproc; match p_cwd p with Some c => mret c | None => undef "null cwd" end.
Definition namei_k (path : list Z) : M kst (option nat) := c ← my_cwd; on_fs (namei devsw c path).
Definition nameiparent_k (path : list Z) : M kst (option nat * list Z) :=
  c ← my_cwd; on_fs (nameiparent devsw c path).

Definition add_nlink (ip : nat) (d : Z) : M fsys unit := upd_inode ip (fun i => with_nlink (i16 (i_nlink i + d)) i).

(** Leave the transaction with a failure. *)
Definition fail_op : M kst Z := _ ← end_op_k; mret (-1).

Definition sys_link : M kst Z :=
  old ← argstr 0;
  match old with
  | None => mret (-1)
  | Some old =>
      new ← argstr 1;
      match new with
      | None => mret (-1)
      | Some new =>
          _ ← begin_op_k;
          ip ← namei_k old;
          match ip with
          | None => fail_op
          | Some ip =>
              _ ← on_fs (ilock ip);
              i ← on_fs (get_inode ip);
              if i_type i =? T_DIR then
                _ ← on_fs (iunlockput ip);
                fail_op
              else
                _ ← on_fs (add_nlink ip 1);
                _ ← on_fs (iupdate ip);
                _ ← on_fs (iunlock ip);
                let bad := (
                  _ ← on_fs (ilock ip);
                  _ ← on_fs (add_nlink ip (-1));
                  _ ← on_fs (iupdate ip);
                  _ ← on_fs (iunlockput ip);
                  fail_op) in
                d ← nameiparent_k new;
                match d.1 with
                | None => bad
                | Some dp =>
                    _ ← on_fs (ilock dp);
                    di ← on_fs (get_inode dp);
                    i ← on_fs (get_inode ip);
                    r ← (if negb (i_dev di =? i_dev i) then mret (-1)
                         else on_fs (dirlink devsw dp d.2 (i_inum i)));
                    if r <? 0 then
                      _ ← on_fs (iunlockput dp);
                      bad
                    else
                      _ ← on_fs (iunlockput dp);
                      _ ← on_fs (iput ip);
                      _ ← end_op_k;
                      mret 0
                end
          end
      end
  end.

Fixpoint isdirempty_loop (fuel : nat) (dp : nat) (off : Z) : M fsys bool :=
  match fuel with
  | O => nofuel
  | S fuel =>
      i ← get_inode dp;
      if off <? i_size i then
        r ← readi devsw dp off dirent_size;
        if negb (r.1 =? dirent_size) then panic "isdirempty: readi"
        else if negb (de_inum r.2 =? 0) then mret false
        else isdirempty_loop fuel dp (off + dirent_size)
      else mret true
  end.
Definition isdirempty (dp : nat) : M fsys bool :=
  i ← get_inode dp; isdirempty_loop (dir_fuel i) dp (2 * dirent_size).

Definition dot : list Z := [46].
Definition dotdot : list Z := [46; 46].

Definition sys_unlink : M kst Z :=
  path ← argstr 0;
  match path with
  | None => mret (-1)
  | Some path =>
      _ ← begin_op_k;
      d ← nameiparent_k path;
      match d.1 with
      | None => fail_op
      | Some dp =>
          let name := d.2 in
          _ ← on_fs (ilock dp);
          let bad := (_ ← on_fs (iunlockput dp); fail_op) in
          if (namecmp name dot =? 0) || (namecmp name dotdot =? 0) then bad
          else
            e ← on_fs (dirlookup devsw dp name);
            match e with
            | None => bad
            | Some (ip, off) =>
                _ ← on_fs (ilock ip);
                i ← on_fs (get_inode ip);
                if i_nlink i <? 1 then panic "unlink: nlink < 1"
                else
                  full ← (if i_type i =? T_DIR then b ← on_fs (isdirempty ip); mret (negb b) else mret false);
                  if (full : bool) then
                    _ ← on_fs (iunlockput ip);
                    bad
                  else
                    r ← on_fs (writei devsw dp (zeroes 16) off dirent_size);
                    if negb (r =? dirent_size) then panic "unlink: writei"
                    else
                      _ ← when (i_type i =? T_DIR) (
                        _ ← on_fs (add_nlink dp (-1));
                        on_fs (iupdate dp));
                      _ ← on_fs (iunlockput dp);
                      _ ← on_fs (add_nlink ip (-1));
                      _ ← on_fs (iupdate ip);
                      _ ← on_fs (iunlockput ip);
                      _ ← end_op_k;
                      mret 0
            end
      end
  end.

(** The locked inode of a new file, or of an existing one where [T_FILE] is
    asked for. *)
Definition create (path : list Z) (type major minor : Z) : M kst (option nat) :=
  d ← nameiparent_k path;
  match d.1 with
  | None => mret None
  | Some dp =>
      let name := d.2 in
      _ ← on_fs (ilock dp);
      e ← on_fs (dirlookup devsw dp name);
      match e with
      | Some (ip, _) =>
          _ ← on_fs (iunlockput dp);
          _ ← on_fs (ilock ip);
          i ← on_fs (get_inode ip);
          if (type =? T_FILE) && (i_type i =? T_FILE) then mret (Some ip)
          else _ ← on_fs (iunlockput ip); mret None
      | None =>
          di ← on_fs (get_inode dp);
          ip ← on_fs (ialloc (i_dev di) type);
          _ ← on_fs (ilock ip);
          _ ← on_fs (upd_inode ip (fun i => with_nlink 1 (with_devno major minor i)));
          _ ← on_fs (iupdate ip);
          i ← on_fs (get_inode ip);
          _ ← when (type =? T_DIR) (
            _ ← on_fs (add_nlink dp 1);
            _ ← on_fs (iupdate dp);
            r ← on_fs (dirlink devsw ip dot (i_inum i));
            if r <? 0 then panic "create dots"
            else
              r ← on_fs (dirlink devsw ip dotdot (i_inum di));
              if r <? 0 then panic "create dots" else mret tt);
          r ← on_fs (dirlink devsw dp name (i_inum i));
          if r <? 0 then panic "create: dirlink"
          else
            _ ← on_fs (iunlockput dp);
            mret (Some ip)
      end
  end.

(** The inode to open, locked. *)
Definition open_inode (path : list Z) (omode : Z) : M kst (option nat) :=
  if c_true (Z.land omode O_CREATE) then create path T_FILE 0 0
  else
    ip ← namei_k path;
    match ip with
    | None => mret None
    | Some ip =>
        _ ← on_fs (ilock ip);
        i ← on_fs (get_inode ip);
        if (i_type i =? T_DIR) && negb (omode =? O_RDONLY) then
          _ ← on_fs (iunlockput ip);
          mret None
        else mret (Some ip)
    end.
Definition c_bool (b : bool) : Z := if b then 1 else 0.
Definition sys_open : M kst Z :=
  path ← argstr 0;
  match path with
  | None => mret (-1)
  | Some path =>
      omode ← argint 1;
      match omode with
      | None => mret (-1)
      | Some omode =>
          _ ← begin_op_k;
          ip ← open_inode path omode;
          match ip with
          | None => fail_op
          | Some ip =>
              f ← filealloc;
              fd ← (if f =? 0 then mret (-1) else fdalloc f);
              if fd <? 0 then
                _ ← when (c_true f) (fileclose f);
                _ ← on_fs (iunlockput ip);
                fail_op
              else
                _ ← on_fs (iunlock ip);
                _ ← end_op_k;
                _ ← upd_file f (fun x => mkFile FD_INODE (f_ref x)
                      (c_bool (negb (c_true (Z.land omode O_WRONLY))))
                      (c_bool (c_true (Z.land omode O_WRONLY) || c_true (Z.land omode O_RDWR)))
                      (f_pipe x) (Some ip) 0);
                mret fd
          end
      end
  end.

Definition sys_mkdir : M kst Z :=
  _ ← begin_op_k;
  path ← argstr 0;
  match path with
  | None => fail_op
  | Some path =>
      ip ← create path T_DIR 0 0;
      match ip with
      | None => fail_op
      | Some ip => _ ← on_fs (iunlockput ip); _ ← end_op_k; mret 0
      end
  end.

Definition sys_mknod : M kst Z :=
  _ ← begin_op_k;
  path ← argstr 0;
  match path with
  | None => fail_op
  | Some path =>
      major ← argint 1;
      match major with
      | None => fail_op
      | Some major =>
          minor ← argint 2;
          match minor with
          | None => fail_op
          | Some minor =>
              ip ← create path T_DEV (i16 major) (i16 minor);
              match ip with
              | None => fail_op
              | Some ip => _ ← on_fs (iunlockput ip); _ ← end_op_k; mret 0
              end
          end
      end
  end.

Definition sys_chdir : M kst Z :=
  _ ← begin_op_k;
  path ← argstr 0;
  match path with
  | None => fail_op
  | Some path =>
      ip ← namei_k path;
      match ip with
      | None => fail_op
      | Some ip =>
          _ ← on_fs (ilock ip);
          i ← on_fs (get_inode ip);
          if negb (i_type i =? T_DIR) then
            _ ← on_fs (iunlockput ip);
            fail_op
          else
            _ ← on_fs (iunlock ip);
            c ← my_cwd;
            _ ← on_fs (iput c);
            _ ← end_op_k;
            _ ← upd_me (with_cwd (Some ip));
            mret 0
      end
  end.

(** The argument strings of [exec]; [None] when there are too many or one is bad. *)
Fixpoint exec_args (k : nat) (uargv i : Z) : M kst (option (list (list Z))) :=
  match k with
  | O => mret None
  | S k =>
      uarg ← fetchint (u32 (uargv + 4 * i));
      match uarg with
      | None => mret None
      | Some uarg =>
          if uarg =? 0 then mret (Some [])
          else
            s ← fetchstr (u32 uarg);
            match s with
            | None => mret None
            | Some s => rest ← exec_args k uargv (i + 1); mret (cons s <$> rest)
            end
      end
  end.
(** [exec] of exec.c. *)
Definition sys_exec (exec : list Z -> list (list Z) -> M kst Z) : M kst Z :=
  path ← argstr 0;
  match path with
  | None => mret (-1)
  | Some path =>
      uargv ← argint 1;
      match uargv with
      | None => mret (-1)
      | Some uargv =>
          argv ← exec_args MAXARG (u32 uargv) 0;
          match argv with None => mret (-1) | Some argv => exec path argv end
      end
  end.

Definition sys_pipe : M kst Z :=
  fd ← argptr 0 8;
  match fd with
  | None => mret (-1)
  | Some fd =>
      fs ← pipealloc;
      match fs with
      | None => mret (-1)
      | Some (rf, wf) =>
          fd0 ← fdalloc rf;
          fd1 ← (if fd0 <? 0 then mret (-1) else fdalloc wf);
          if fd1 <? 0 then
            _ ← when (fd0 >=? 0) (upd_me (set_fd fd0 0));
            _ ← fileclose rf;
            _ ← fileclose wf;
            mret (-1)
          else
            _ ← ustore32 fd fd0;
            _ ← ustore32 (fd + 4) fd1;
            mret 0
      end
  end.
End Calls.
