(* ===== verification/Proc.v ===== *)
(** * Creating and ending processes (proc.c)

    [allocproc], [userinit], [growproc], [fork], [exit] and [wait], and the
    helpers for memory mappings.  Messages that the code prints are left out.  The trap frame of a process
    is a field of it; the rest of its kernel stack is in memory.  [exit] ends with
    the switch to the scheduler, and so does [wait] when it has to sleep. *)

From S2P Require Import Prelude Mmu Mem PageAlloc Kalloc Vm Wmap Wunmap Block Bio Log Fs Pipe Kernel Sched File.
From stdpp Require Import base gmap list strings.
From Stdlib Require Import ZArith Lia.
#[local] Open Scope Z_scope.

Definition KSTACKSIZE : Z := 4096.
Definition SEG_UCODE : Z := 3.
Definition SEG_UDATA : Z := 4.
Definition DPL_USER : Z := 0x3.
Definition FL_IF : Z := 0x00000200.
Definition sizeof_trapframe : Z := 76.
Definition sizeof_context : Z := 20.

(** Linker addresses of code, and of the first program. *)
Class CodeSymbols := { sym_trapret : Z; sym_forkret : Z; sym_initcode : Z; sym_initcode_size : Z }.

(** [safestrcpy] into a field of [n] bytes, for a string without its NUL. *)
Definition safestrcpy_l (n : nat) (s : list Z) : list Z := take (n - 1) s.
Definition with_eax (v : Z) (t : trapframe) : trapframe :=
  mkTf v (tf_esp t) (tf_eip t) (tf_cs t) (tf_ds t) (tf_es t) (tf_ss t) (tf_eflags t) (tf_trapno t) (tf_err t) (tf_regs t).
Definition with_ref_mb (r : Z) (b : mem_block) : mem_block :=
  mkBlock (mb_start b) (mb_end b) (mb_flags b) (mb_length b) (mb_fd b) r (mb_valid b).

(** The first UNUSED process. *)
Fixpoint find_unused (l : list proc) (i : nat) : option nat :=
  match l with
  | [] => None
  | p :: l => if bool_decide (p_state p = UNUSED) then Some i else find_unused l (S i)
  end.

Section Proc.
  Context `{LinkerSymbols} `{CodeSymbols}.
  Variable devsw : Z -> devops.

(** ** allocproc *)

(** The pages of the mapping blocks. *)
Fixpoint alloc_blocks (n : nat) : M kmem (list Z) :=
  match n with
  | O => mret []
  | S n =>
      b ← kalloc;
      if b =? 0 then panic "kalloc()" else bs ← alloc_blocks n; mret (b :: bs)
  end.

(** What [allocproc] writes below the trap frame of a new kernel stack. *)
Definition init_stack (kstack : Z) (m : mem) : mem :=
  let sp := kstack + KSTACKSIZE - sizeof_trapframe - 4 in
  let context := sp - sizeof_context in
  st32 (memset (st32 m sp sym_trapret) context 0 sizeof_context) (context + 16) sym_forkret.

Definition allocproc : M kst (option nat) :=
  _ ← acquire_ptable;
  t ← gets k_ptable;
  match find_unused t 0 with
  | None => _ ← release_ptable; mret None
  | Some i =>
      _ ← upd_proc i (with_state EMBRYO);
      pid ← gets k_nextpid;
      if pid =? 2147483647 then undef "nextpid overflow"
      else
        _ ← upd_proc i (with_pid pid);
        _ ← modify (set_nextpid (pid + 1));
        _ ← release_ptable;
        kstack ← on_km kalloc;
        _ ← upd_proc i (with_kstack kstack);
        if kstack =? 0 then
          _ ← upd_proc i (with_state UNUSED);
          mret None
        else
          _ ← on_km (upd_mem (init_stack kstack));
          wmap ← on_km kalloc;
          if wmap =? 0 then panic "kalloc()"
          else
            blocks ← on_km (alloc_blocks MAX_WMMAP_INFO);
            _ ← upd_proc i (fun p => with_tab init_wtab (with_pages wmap blocks p));
            mret (Some i)
  end.

Definition init_tf : trapframe :=
  let ds := Z.lor (Z.shiftl SEG_UDATA 3) DPL_USER in
  mkTf 0 PGSIZE 0 (Z.lor (Z.shiftl SEG_UCODE 3) DPL_USER) ds ds ds FL_IF 0 0 (replicate 7 0).
Definition initcode_name : list Z := [105; 110; 105; 116; 99; 111; 100; 101].
Definition userinit : M kst unit :=
  p ← allocproc;
  _ ← modify (set_initproc p);
  match p with
  | None => undef "null process"
  | Some i =>
      pgdir ← on_km setupkvm;
      _ ← upd_proc i (with_pgdir pgdir);
      if pgdir =? 0 then panic "userinit: out of memory?"
      else
        _ ← on_km (inituvm pgdir sym_initcode sym_initcode_size);
        _ ← upd_proc i (fun p => with_name (safestrcpy_l 16 initcode_name) (with_tf init_tf (with_sz PGSIZE p)));
        (* an absolute path does not look at the current directory *)
        cwd ← on_fs (namei devsw 0 [slash]);
        _ ← upd_proc i (with_cwd cwd);
        _ ← acquire_ptable;
        _ ← upd_proc i (with_state RUNNABLE);
        release_ptable
  end.

Definition growproc (n : Z) : M kst Z :=
  p ← myproc;
  let sz := p_sz p in
  r ← (if n >? 0 then on_km (allocuvm (p_pgdir p) sz (u32 (sz + n)))
       else if n <? 0 then on_km (deallocuvm (p_pgdir p) sz (u32 (sz + n)))
       else mret sz);
  if (r =? 0) && negb (n =? 0) then mret (-1)
  else
    _ ← upd_me (with_sz r);
    p ← myproc;
    _ ← switchuvm p;
    mret 0.

(** ** fork *)

(** Give each page of a private mapping of the parent a copy in the child. *)
Fixpoint fork_private (fuel : nat) (pgdir npgdir va end_ : Z) : M kmem unit :=
  match fuel with
  | O => nofuel
  | S fuel =>
      if va <? end_ then
        mem ← kalloc;
        if mem =? 0 then panic "kalloc"
        else
          pte ← walkpgdir pgdir va 0;
          e ← deref pte;
          _ ← upd_mem (fun m => memmove m mem (P2V (PTE_ADDR e)) PGSIZE);
          r ← mappages npgdir va PGSIZE (V2P mem) (Z.lor PTE_W PTE_U);
          _ ← when (negb (r =? 0)) (kfree mem);
          fork_private fuel pgdir npgdir (u32 (va + PGSIZE)) end_
      else mret tt
  end.
(** Map each page of a shared mapping of the parent in the child. *)
Fixpoint fork_shared (fuel : nat) (pgdir npgdir va end_ : Z) : M kmem unit :=
  match fuel with
  | O => nofuel
  | S fuel =>
      if va <? end_ then
        pte ← walkpgdir pgdir va 0;
        e ← deref pte;
        r ← mappages npgdir va PGSIZE (PTE_ADDR e) (Z.lor PTE_W PTE_U);
        _ ← when (negb (r =? 0)) (kfree (PTE_ADDR e));
        fork_shared fuel pgdir npgdir (u32 (va + PGSIZE)) end_
      else mret tt
  end.
Definition map_fuel (b : mem_block) : nat := S (S (Z.to_nat ((mb_end b - mb_start b) / PGSIZE))).

(** Copy entry [i] of the parent's table to the child's. *)
Definition copy_entry (i : nat) (b : mem_block) (src : wmapinfo) (dst : wtab) : wtab :=
  let w := winfo dst in
  let cp l l' := <[i := nth i l 0]> l' in
  mkTab (<[i := b]> (arr dst))
    (mkInfo (i32 (total_mmaps w + 1)) (cp (wi_addr src) (wi_addr w)) (cp (wi_length src) (wi_length w))
       (cp (n_loaded_pages src) (n_loaded_pages w)) (cp (leftmostLoadedAddr src) (leftmostLoadedAddr w))).
Fixpoint fork_mappings (l : list mem_block) (i : nat) (pgdir npgdir : Z) (src : wmapinfo) (np : nat) : M kst unit :=
  match l with
  | [] => mret tt
  | b :: l =>
      _ ← (if mb_valid b =? 0 then mret tt
           else if c_true (Z.land (mb_flags b) MAP_PRIVATE) then
             _ ← upd_proc np (fun p => with_tab (copy_entry i b src (p_tab p)) p);
             on_km (fork_private (map_fuel b) pgdir npgdir (mb_start b) (mb_end b))
           else if c_true (Z.land (mb_flags b) MAP_SHARED) then
             _ ← upd_proc np (fun p => with_tab (copy_entry i b src (p_tab p)) p);
             on_km (fork_shared (map_fuel b) pgdir npgdir (mb_start b) (mb_end b))
           else mret tt);
      fork_mappings l (S i) pgdir npgdir src np
  end.

(** Share the open files. *)
Fixpoint fork_files (l : list Z) (i : nat) (np : nat) : M kst unit :=
  match l with
  | [] => mret tt
  | f :: l =>
      _ ← when (c_true f) (
        g ← filedup f;
        upd_proc np (fun p => with_ofile (<[i := g]> (p_ofile p)) p));
      fork_files l (S i) np
  end.

Definition fork : M kst Z :=
  cur ← gets k_cur;
  np ← allocproc;
  match np with
  | None => mret (-1)
  | Some np =>
      p ← myproc;
      pgdir ← on_km (copyuvm (p_pgdir p) (p_sz p));
      _ ← upd_proc np (with_pgdir pgdir);
      if pgdir =? 0 then
        q ← get_proc np;
        _ ← on_km (kfree (p_kstack q));
        _ ← upd_proc np (with_kstack 0);
        _ ← upd_proc np (with_state UNUSED);
        mret (-1)
      else
        _ ← upd_proc np (fun q => with_tf (with_eax 0 (p_tf p)) (with_parent (Some cur) (with_sz (p_sz p) q)));
        _ ← fork_files (p_ofile p) 0 np;
        cwd ← (match p_cwd p with Some c => on_fs (idup c) | None => undef "null cwd" end);
        _ ← upd_proc np (fun q => with_name (safestrcpy_l 16 (p_name p)) (with_cwd (Some cwd) q));
        _ ← fork_mappings (take MAX_WMMAP_INFO (arr (p_tab p))) 0 (p_pgdir p) pgdir (winfo (p_tab p)) np;
        q ← get_proc np;
        _ ← acquire_ptable;
        _ ← upd_proc np (with_state RUNNABLE);
        _ ← release_ptable;
        mret (p_pid q)
  end.

(** ** Helpers that no caller uses *)

Definition increment_mapping_ref_count (b : mem_block) : mem_block := with_ref_mb (i32 (mb_ref b + 1)) b.
(** Without a check of [kalloc]: a null result is written through. *)
Fixpoint duplicate_private_mapping (fuel : nat) (pgdir cpgdir va end_ : Z) : M kmem unit :=
  match fuel with
  | O => nofuel
  | S fuel =>
      if va <? end_ then
        pte ← walkpgdir pgdir va 0;
        mem ← kalloc;
        e ← deref pte;
        if mem =? 0 then undef "null page"
        else
          _ ← upd_mem (fun m => memmove m mem (P2V (PTE_ADDR e)) PGSIZE);
          e ← deref pte;
          _ ← mappages cpgdir va PGSIZE (V2P mem) (PTE_FLAGS e);
          duplicate_private_mapping fuel pgdir cpgdir (u32 (va + PGSIZE)) end_
      else mret tt
  end.
Fixpoint add_shared_mapping (fuel : nat) (pgdir cpgdir va end_ : Z) : M kmem unit :=
  match fuel with
  | O => nofuel
  | S fuel =>
      if va <? end_ then
        pte ← walkpgdir pgdir va 0;
        e ← deref pte;
        _ ← mappages cpgdir va PGSIZE (PTE_ADDR e) (PTE_FLAGS e);
        add_shared_mapping fuel pgdir cpgdir (u32 (va + PGSIZE)) end_
      else mret tt
  end.
Fixpoint free_physical_pages (fuel : nat) (pgdir va end_ : Z) : M kmem unit :=
  match fuel with
  | O => nofuel
  | S fuel =>
      if va <? end_ then
        pte ← walkpgdir pgdir va 0;
        _ ← (if pte =? 0 then mret tt
             else
               e ← rd32 pte;
               if c_true (Z.land e PTE_P) then
                 _ ← kfree (P2V (PTE_ADDR e));
                 wr32 pte 0
               else mret tt);
        free_physical_pages fuel pgdir (u32 (va + PGSIZE)) end_
      else mret tt
  end.
(** The mapping with one reference less. *)
Definition cleanup_shared_mapping (pgdir : Z) (b : mem_block) : M kmem mem_block :=
  let b := with_ref_mb (i32 (mb_ref b - 1)) b in
  _ ← when (mb_ref b =? 0) (free_physical_pages (map_fuel b) pgdir (mb_start b) (mb_end b));
  mret b.

(** [arr[i] = 0] clears the pointer; the block it pointed to is gone. *)
Fixpoint cleanup_blocks (n i : nat) (p : nat) : M kst unit :=
  match n with
  | O => mret tt
  | S n =>
      q ← get_proc p;
      match arr (p_tab q) !! i, p_arrpages q !! i with
      | Some b, Some page =>
          _ ← (if page =? 0 then mret tt
               else
                 b ← (if c_true (Z.land (mb_flags b) MAP_SHARED) then on_km (cleanup_shared_mapping (p_pgdir q) b)
                      else if c_true (Z.land (mb_flags b) MAP_PRIVATE) then
                        _ ← on_km (free_physical_pages (map_fuel b) (p_pgdir q) (mb_start b) (mb_end b));
                        mret b
                      else mret b);
                 _ ← upd_proc p (fun q => with_tab (mkTab (<[i := b]> (arr (p_tab q))) (winfo (p_tab q))) q);
                 _ ← on_km (kfree page);
                 upd_proc p (fun q => with_pages (p_wpage q) (<[i := 0]> (p_arrpages q)) q));
          cleanup_blocks n (S i) p
      | _, _ => undef "arr index"
      end
  end.
Definition cleanup_wmapinfo (p : nat) : M kst unit :=
  q ← get_proc p;
  _ ← cleanup_blocks (Z.to_nat (total_mmaps (winfo (p_tab q)))) 0 p;
  upd_proc p (fun q =>
    let w := winfo (p_tab q) in
    with_tab (mkTab (arr (p_tab q)) (mkInfo 0 (wi_addr w) (wi_length w) (n_loaded_pages w) (leftmostLoadedAddr w))) q).

(** ** exit *)

Fixpoint close_files (l : list Z) (i : nat) : M kst unit :=
  match l with
  | [] => mret tt
  | f :: l =>
      _ ← when (c_true f) (
        _ ← fileclose f;
        upd_me (fun p => with_ofile (<[i := 0]> (p_ofile p)) p));
      close_files l (S i)
  end.

(** Pass the children of [cur] to init, from slot [i] of the [n] that remain. *)
Fixpoint reparent (n : nat) (i cur : nat) : M kst unit :=
  match n with
  | O => mret tt
  | S n =>
      p ← get_proc i;
      _ ← when (bool_decide (p_parent p = Some cur)) (
        init ← gets k_initproc;
        _ ← upd_proc i (with_parent init);
        when (bool_decide (p_state p = ZOMBIE)) (wakeup1 (ChProc <$> init)));
      reparent n (S i) cur
  end.

(** Free the mapping blocks nobody else counts, and count one reference less in
    every block of the parent. *)
Fixpoint exit_blocks (l : list (mem_block * Z)) (i : nat) (parent : nat) : M kst unit :=
  match l with
  | [] => mret tt
  | (b, page) :: l =>
      _ ← when ((mb_valid b =? 1) && (mb_ref b =? 1)) (on_km (kfree page));
      _ ← upd_proc parent (fun q =>
            with_tab (mkTab (alter (fun c => with_ref_mb (i32 (mb_ref c - 1)) c) i (arr (p_tab q))) (winfo (p_tab q))) q);
      exit_blocks l (S i) parent
  end.

Definition exit : M kst unit :=
  cur ← gets k_cur;
  init ← gets k_initproc;
  if bool_decide (init = Some cur) then panic "init exiting"
  else
    p ← myproc;
    _ ← close_files (p_ofile p) 0;
    _ ← begin_op_k;
    _ ← (match p_cwd p with Some c => on_fs (iput c) | None => undef "null cwd" end);
    _ ← end_op_k;
    _ ← upd_me (with_cwd None);
    _ ← acquire_ptable;
    p ← myproc;
    _ ← wakeup1 (ChProc <$> p_parent p);
    _ ← reparent NPROC 0 cur;
    p ← myproc;
    _ ← on_km (kfree (p_wpage p));
    _ ← (match p_parent p with
         | Some parent => exit_blocks (zip (arr (p_tab p)) (p_arrpages p)) 0 parent
         | None => undef "null parent"
         end);
    _ ← on_km (deallocuvm (p_pgdir p) (p_sz p) 0);
    _ ← upd_me (with_state ZOMBIE);
    sched.

(** ** wait *)

(** The first child in state ZOMBIE, and whether there are children. *)
Fixpoint find_zombie (l : list proc) (i cur : nat) (havekids : bool) : option nat * bool :=
  match l with
  | [] => (None, havekids)
  | p :: l =>
      if bool_decide (p_parent p = Some cur) then
        if bool_decide (p_state p = ZOMBIE) then (Some i, true) else find_zombie l (S i) cur true
      else find_zombie l (S i) cur havekids
  end.
(** Free the resources of a dead child. *)
Definition reap (i : nat) : M kst Z :=
  p ← get_proc i;
  let pid := p_pid p in
  _ ← on_km (kfree (p_kstack p));
  _ ← upd_proc i (with_kstack 0);
  _ ← on_km (freevm (p_pgdir p));
  _ ← upd_proc i (fun p => with_killed 0 (with_name [] (with_parent None (with_pid 0 p))));
  _ ← upd_proc i (with_state UNUSED);
  mret pid.
(** One pass of the loop of [wait], which ends by returning or going to sleep. *)
Definition wait_pass : M kst pass :=
  cur ← gets k_cur;
  t ← gets k_ptable;
  p ← myproc;
  match find_zombie t 0 cur false with
  | (Some i, _) =>
      pid ← reap i;
      _ ← release_ptable;
      mret (Returns pid)
  | (None, havekids) =>
      if negb havekids || c_true (p_killed p) then
        _ ← release_ptable;
        mret (Returns (-1))
      else
        _ ← sleep (ChProc cur) true;
        mret Sleeps
  end.
Definition wait : M kst pass := _ ← acquire_ptable; wait_pass.
(** [wait] after it has been woken. *)
Definition wait_again : M kst pass := _ ← sleep_return true; wait_pass.

(** The first run of a new process, with [ptable.lock] held by the scheduler. *)
Definition forkret (first : bool) : M kst unit :=
  _ ← release_ptable;
  when first (
    _ ← on_fs (iinit ROOTDEV);
    on_fs (on_l (initlog ROOTDEV))).
End Proc.
