(* ===== verification/ProcInv.v ===== *)
(** * The process table: identifiers, the process tree and waiting (proc.c)

    Process identifiers stay unique, and a parent that sleeps in [wait] has no
    dead child: whatever the order of forks, exits, waits, kills, sleeps and
    context switches. *)

From S2P Require Import Prelude Mmu Mem PageAlloc Kalloc Vm Wmap Wunmap Block Bio Log LogOps Fs Pipe Kernel Sched File Proc.
From stdpp Require Import base gmap list strings relations.
From Stdlib Require Import ZArith Lia.
#[local] Open Scope Z_scope.

(** ** Calm steps

    Most of the kernel leaves the identity of processes alone: it changes other
    fields and wakes processes up. *)

Record calm_proc (p q : proc) : Prop := {
  cp_pid : p_pid q = p_pid p;
  cp_parent : p_parent q = p_parent p;
  cp_chan : p_chan q = p_chan p;
  cp_state : p_state q = p_state p \/ p_state p = SLEEPING /\ p_state q = RUNNABLE }.
Record calm (k k' : kst) : Prop := {
  ca_table : Forall2 calm_proc (k_ptable k) (k_ptable k');
  ca_nextpid : k_nextpid k' = k_nextpid k;
  ca_initproc : k_initproc k' = k_initproc k;
  ca_cur : k_cur k' = k_cur k }.

#[export] Instance calm_proc_preorder : PreOrder calm_proc.
Proof.
  split; [by intros p; split; auto|]. intros p q r [H1 H2 H3 H4] [G1 G2 G3 G4]. split; [congruence..|].
  destruct H4 as [H4|[H4 H4']], G4 as [G4|[G4 G4']]; [left; congruence|right; split; congruence..].
Qed.
#[export] Instance calm_preorder : PreOrder calm.
Proof.
  split; [intros k; split; reflexivity|].
  intros k1 k2 k3 [H1 H2 H3 H4] [G1 G2 G3 G4]. split; [by etrans|congruence..].
Qed.

Lemma calm_lookup k k' i q :
  calm k k' -> k_ptable k' !! i = Some q -> exists p, k_ptable k !! i = Some p /\ calm_proc p q.
Proof. intros [Ht _ _ _] Hq. destruct (Forall2_lookup_r _ _ _ _ _ Ht Hq) as (p & Hp & Hc). eauto. Qed.
Lemma calm_lookup_l k k' i p :
  calm k k' -> k_ptable k !! i = Some p -> exists q, k_ptable k' !! i = Some q /\ calm_proc p q.
Proof. intros [Ht _ _ _] Hp. destruct (Forall2_lookup_l _ _ _ _ _ Ht Hp) as (q & Hq & Hc). eauto. Qed.
Lemma calm_same k k' :
  k_ptable k' = k_ptable k -> k_nextpid k' = k_nextpid k -> k_initproc k' = k_initproc k -> k_cur k' = k_cur k ->
  calm k k'.
Proof. intros Ht Hn Hi Hc. split; [by rewrite Ht|done..]. Qed.
Lemma calm_map f k : (forall p, calm_proc p (f p)) -> calm k (set_ptable (f <$> k_ptable k) k).
Proof. intros Hf. split; [|done..]. cbn. apply Forall2_fmap_r, Forall_Forall2_diag, Forall_forall. intros p _. apply Hf. Qed.
Lemma calm_insert k i p q :
  k_ptable k !! i = Some p -> calm_proc p q -> calm k (set_ptable (<[i := q]> (k_ptable k)) k).
Proof.
  intros Hp Hc. split; [|done..]. cbn. rewrite <-(list_insert_id _ _ _ Hp) at 1. by apply Forall2_insert.
Qed.

Lemma calm_wake1 c p : calm_proc p (wake1 c p).
Proof.
  unfold wake1. destruct (_ && _) eqn:E; [|done]. apply andb_prop in E as [E%bool_decide_eq_true _]. split; auto.
Qed.

Lemma steps_get_proc i : steps_by calm (get_proc i).
Proof. intros k p k'. unfold get_proc. destruct (_ !! _); [|done]. by intros [= _ <-]. Qed.
Lemma steps_upd_proc i f : (forall p, calm_proc p (f p)) -> steps_by calm (upd_proc i f).
Proof.
  intros Hf k a k'. unfold upd_proc. destruct (_ !! _) as [p|] eqn:E; [|done]. intros [= _ <-].
  by apply (calm_insert _ _ p).
Qed.
Lemma steps_upd_me f : (forall p, calm_proc p (f p)) -> steps_by calm (upd_me f).
Proof. intros Hf. unfold upd_me. apply steps_bind; [apply _|apply steps_gets, _|]. intros i. by apply steps_upd_proc. Qed.
Lemma steps_myproc : steps_by calm myproc.
Proof. apply steps_bind; [apply _|apply steps_gets, _|]. apply steps_get_proc. Qed.
Lemma steps_on_km {A} (m : M kmem A) : steps_by calm (on_km m).
Proof. apply steps_zoom. intros k x. by apply calm_same. Qed.
Lemma steps_on_fs {A} (m : M fsys A) : steps_by calm (on_fs m).
Proof. apply steps_zoom. intros k x. by apply calm_same. Qed.
Lemma steps_acquire_ptable : steps_by calm acquire_ptable.
Proof. unfold acquire_ptable. steps_by_text. apply steps_modify. intros k. by apply calm_same. Qed.
Lemma steps_release_ptable : steps_by calm release_ptable.
Proof. unfold release_ptable. steps_by_text. apply steps_modify. intros k. by apply calm_same. Qed.
Lemma steps_wakeup1 c : steps_by calm (wakeup1 c).
Proof. apply steps_modify. intros k. apply calm_map, calm_wake1. Qed.
#[export] Hint Resolve steps_get_proc steps_myproc steps_on_km steps_on_fs steps_acquire_ptable steps_release_ptable
  steps_wakeup1 : steps.
#[export] Hint Extern 5 (steps_by calm (upd_proc _ _)) => apply steps_upd_proc; intros ?; split; auto : steps.
#[export] Hint Extern 5 (steps_by calm (upd_me _)) => apply steps_upd_me; intros ?; split; auto : steps.
#[export] Hint Extern 5 (steps_by calm (modify _)) => apply steps_modify; intros ?; by apply calm_same : steps.

Lemma steps_wakeup c : steps_by calm (wakeup c).
Proof. unfold wakeup. steps_by_text. Qed.
Lemma steps_get_file f : steps_by calm (get_file f).
Proof.
  intros k x k'. unfold get_file. destruct (f <=? 0); [done|]. destruct (_ !! _); [|done]. by intros [= _ <-].
Qed.
Lemma steps_upd_file f g : steps_by calm (upd_file f g).
Proof.
  intros k x k'. unfold upd_file. destruct (f <=? 0); [done|]. destruct (_ !! _); [|done]. intros [= _ <-].
  by apply calm_same.
Qed.
Lemma steps_get_pipe p : steps_by calm (get_pipe p).
Proof. intros k x k'. unfold get_pipe. destruct (_ !! _); [|done]. by intros [= _ <-]. Qed.
#[export] Hint Resolve steps_wakeup steps_get_file steps_upd_file steps_get_pipe : steps.

Lemma steps_sched : steps_by calm sched.
Proof. unfold sched. steps_by_text. Qed.
Lemma steps_kill pid : steps_by calm (kill pid).
Proof.
  unfold kill. steps_by_text. apply steps_upd_proc. intros p. case_bool_decide; [|done]. split; auto.
Qed.

Section Files.
  Context `{LinkerSymbols}.

Lemma steps_filedup f : steps_by calm (filedup f).
Proof. unfold filedup, acquire_ftable, release_ftable. steps_by_text. Qed.
Lemma steps_begin_op : steps_by calm begin_op_k.
Proof. apply steps_on_fs. Qed.
Lemma steps_end_op : steps_by calm end_op_k.
Proof. unfold end_op_k. steps_by_text. Qed.
Lemma steps_pipeclose p w : steps_by calm (pipeclose_k p w).
Proof.
  unfold pipeclose_k, put_pipe. apply steps_bind; [apply _|apply steps_get_pipe|]. intros x.
  destruct (pipeclose _ _) as [free y]. steps_by_text.
Qed.
Hint Resolve steps_begin_op steps_end_op steps_pipeclose : steps.
Lemma steps_fileclose f : steps_by calm (fileclose f).
Proof. unfold fileclose, acquire_ftable, release_ftable, file_ip. steps_by_text. Qed.
End Files.
#[export] Hint Resolve steps_sched steps_filedup steps_begin_op steps_end_op steps_fileclose : steps.

(** ** The invariant *)

Notation used p := (p_state p <> UNUSED).
(** Process [i], in state [p], sleeps in [wait]. *)
Definition waiting (i : nat) (p : proc) : Prop := p_state p = SLEEPING /\ p_chan p = Some (ChProc i).

Record pinv (k : kst) : Prop := {
  pi_next : 1 <= k_nextpid k;
  pi_pid i p : k_ptable k !! i = Some p -> used p -> 1 <= p_pid p < k_nextpid k;
  pi_uniq i j p q : k_ptable k !! i = Some p -> k_ptable k !! j = Some q -> used p -> used q ->
    p_pid p = p_pid q -> i = j;
  pi_self i p : k_ptable k !! i = Some p -> p_parent p <> Some i;
  pi_init i : k_initproc k = Some i -> exists p, k_ptable k !! i = Some p /\ used p /\ p_parent p = None;
  pi_wait i j p q : k_ptable k !! i = Some p -> k_ptable k !! j = Some q -> waiting i p ->
    p_parent q = Some i -> p_state q <> ZOMBIE }.

Lemma calm_used p q : calm_proc p q -> used q <-> used p.
Proof. intros [_ _ _ [->|[-> ->]]]; done. Qed.
Lemma calm_waiting i p q : calm_proc p q -> waiting i q -> waiting i p.
Proof. intros [_ _ Hc [Hs|[_ Hs]]] [H1 H2]; split; congruence. Qed.

Lemma pinv_calm k k' : pinv k -> calm k k' -> pinv k'.
Proof.
  intros [H0 H1 H2 H3 H4 H5] Hc. split.
  - by rewrite (ca_nextpid _ _ Hc).
  - intros i q Hq Hu. destruct (calm_lookup _ _ _ _ Hc Hq) as (p & Hp & Hpq). rewrite (cp_pid _ _ Hpq), (ca_nextpid _ _ Hc).
    apply (H1 i p Hp). by apply (calm_used p q Hpq).
  - intros i j q1 q2 Hq1 Hq2 Hu1 Hu2 Heq.
    destruct (calm_lookup _ _ _ _ Hc Hq1) as (p1 & Hp1 & Hpq1), (calm_lookup _ _ _ _ Hc Hq2) as (p2 & Hp2 & Hpq2).
    apply (H2 i j p1 p2 Hp1 Hp2); [by apply (calm_used p1 q1 Hpq1)|by apply (calm_used p2 q2 Hpq2)|].
    rewrite <-(cp_pid _ _ Hpq1), <-(cp_pid _ _ Hpq2). done.
  - intros i q Hq. destruct (calm_lookup _ _ _ _ Hc Hq) as (p & Hp & Hpq). rewrite (cp_parent _ _ Hpq). by apply H3.
  - intros i Hi. rewrite (ca_initproc _ _ Hc) in Hi. destruct (H4 i Hi) as (p & Hp & Hu & Hn).
    destruct (calm_lookup_l _ _ _ _ Hc Hp) as (q & Hq & Hpq). exists q. rewrite (cp_parent _ _ Hpq), (calm_used p q Hpq). done.
  - intros i j q1 q2 Hq1 Hq2 Hw Hpar.
    destruct (calm_lookup _ _ _ _ Hc Hq1) as (p1 & Hp1 & Hpq1), (calm_lookup _ _ _ _ Hc Hq2) as (p2 & Hp2 & Hpq2).
    rewrite (cp_parent _ _ Hpq2) in Hpar. specialize (H5 i j p1 p2 Hp1 Hp2 (calm_waiting _ _ _ Hpq1 Hw) Hpar).
    destruct (cp_state _ _ Hpq2) as [->|[_ ->]]; done.
Qed.

(** What a new value [q] of slot [i] has to satisfy. *)
Record fits (k : kst) (i : nat) (q : proc) : Prop := {
  fi_pid : used q -> 1 <= p_pid q < k_nextpid k;
  fi_uniq j r : j <> i -> k_ptable k !! j = Some r -> used q -> used r -> p_pid r <> p_pid q;
  fi_self : p_parent q <> Some i;
  fi_init : k_initproc k = Some i -> used q /\ p_parent q = None;
  fi_wait j r : waiting i q -> j <> i -> k_ptable k !! j = Some r -> p_parent r = Some i -> p_state r <> ZOMBIE;
  fi_zombie j r : p_state q = ZOMBIE -> p_parent q = Some j -> j <> i -> k_ptable k !! j = Some r -> ~ waiting j r }.

Lemma pinv_insert k i p q :
  pinv k -> k_ptable k !! i = Some p -> fits k i q -> pinv (set_ptable (<[i := q]> (k_ptable k)) k).
Proof.
  intros [H0 H1 H2 H3 H4 H5] Hp [F1 F2 F3 F4 F5 F6].
  assert (forall j r, <[i := q]> (k_ptable k) !! j = Some r -> j = i /\ r = q \/ j <> i /\ k_ptable k !! j = Some r) as Hl.
  { intros j r. destruct (decide (j = i)) as [->|Hne]; [|rewrite list_lookup_insert_ne by done; auto].
    rewrite list_lookup_insert_eq by (by apply lookup_lt_Some in Hp). intros [= ->]. auto. }
  split; cbn; [done|..].
  - intros j r [[-> ->]|[Hne Hr]]%Hl Hu; [auto|by apply (H1 j)].
  - intros j j' r r' [[-> ->]|[Hne Hr]]%Hl [[-> ->]|[Hne' Hr']]%Hl Hu Hu' Heq; [done| | |by apply (H2 j j' r r')].
    + exfalso. by apply (F2 j' r' Hne' Hr').
    + exfalso. by apply (F2 j r Hne Hr).
  - intros j r [[-> ->]|[Hne Hr]]%Hl; [done|by apply H3].
  - intros j Hj. destruct (decide (j = i)) as [->|Hne].
    + exists q. rewrite list_lookup_insert_eq by (by apply lookup_lt_Some in Hp). by destruct (F4 Hj).
    + rewrite list_lookup_insert_ne by done. auto.
  - intros j j' r r' [[-> ->]|[Hne Hr]]%Hl [[-> ->]|[Hne' Hr']]%Hl Hw Hpar; [done|by apply (F5 j' r')| |by apply (H5 j j' r r')].
    intros Hz. by apply (F6 j r Hz Hpar Hne Hr).
Qed.

(** Changes of the state alone, to a state that is neither UNUSED nor ZOMBIE. *)
Lemma fits_state k i p st :
  pinv k -> k_ptable k !! i = Some p -> used p -> st <> UNUSED -> st <> ZOMBIE -> st <> SLEEPING ->
  fits k i (with_state st p).
Proof.
  intros [_ H1 H2 H3 H4 H5] Hp Hu Hnu Hnz Hns. split; cbn.
  - intros _. by apply (H1 i).
  - intros j r Hne Hr _ Hur Heq. by apply Hne, (H2 j i r p).
  - by apply H3.
  - intros Hi. destruct (H4 i Hi) as (p' & Hp' & _ & Hn). rewrite Hp in Hp'. by injection Hp' as <-.
  - intros j r [? _]. done.
  - intros j r ?. done.
Qed.
(** A new parent of a process other than init; the parent of a dead process must
    not be waiting. *)
Lemma fits_parent k i p q :
  pinv k -> k_ptable k !! i = Some p -> k_initproc k <> Some i -> p_pid q = p_pid p -> p_state q = p_state p ->
  p_chan q = p_chan p -> p_parent q <> Some i ->
  (p_state p = ZOMBIE -> forall j r, p_parent q = Some j -> k_ptable k !! j = Some r -> ~ waiting j r) -> fits k i q.
Proof.
  intros [_ H1 H2 H3 H4 H5] Hp Hi Hpid Hst Hch Hpar Hz. split; rewrite ?Hpid, ?Hst; try done.
  - intros Hu. by apply (H1 i).
  - intros j r Hne Hr Hu Hur Heq. by apply Hne, (H2 j i r p).
  - intros j r [Hs Hc] Hne Hr. apply (H5 i j p r); [done|done|]. split; congruence.
  - intros j r Hs Hpq _. by apply Hz.
Qed.
(** A slot that becomes UNUSED. *)
Lemma fits_unused k i q :
  k_initproc k <> Some i -> p_state q = UNUSED -> p_parent q <> Some i -> fits k i q.
Proof.
  intros Hi Hs Hp. split; cbn; rewrite ?Hs; try done. intros j r [Hs' _]. congruence.
Qed.

Lemma get_proc_wlp i Q k : (forall p, k_ptable k !! i = Some p -> Q p k) -> wlp (get_proc i) Q k.
Proof. unfold wlp, get_proc. destruct (_ !! _); auto. Qed.
Lemma upd_proc_wlp i f Q k :
  (forall p, k_ptable k !! i = Some p -> Q tt (set_ptable (<[i := f p]> (k_ptable k)) k)) -> wlp (upd_proc i f) Q k.
Proof. unfold wlp, upd_proc. destruct (_ !! _); auto. Qed.
Lemma myproc_wlp Q k : (forall p, k_ptable k !! k_cur k = Some p -> Q p k) -> wlp myproc Q k.
Proof. intros HQ. unfold myproc. wlp_steps. by apply get_proc_wlp. Qed.
Lemma upd_me_wlp f Q k :
  (forall p, k_ptable k !! k_cur k = Some p -> Q tt (set_ptable (<[k_cur k := f p]> (k_ptable k)) k)) -> wlp (upd_me f) Q k.
Proof. intros HQ. unfold upd_me. wlp_steps. by apply upd_proc_wlp. Qed.
Lemma calm_wlp {A} (m : M kst A) (Q : A -> kst -> Prop) k :
  steps_by calm m -> (forall a k', calm k k' -> Q a k') -> wlp m Q k.
Proof. apply wlp_steps. Qed.
(** Step over a calm computation. *)
Ltac calm_step k H := try apply wlp_bind; eapply calm_wlp; [solve [steps_by_text]|intros ? k H; cbv beta].

(** ** Every operation keeps the invariant *)

Lemma find_unused_Some l i j :
  find_unused l i = Some j -> (i <= j)%nat /\ exists p, l !! (j - i)%nat = Some p /\ p_state p = UNUSED.
Proof.
  revert i. induction l as [|p l IH]; intros i; cbn; [done|]. case_bool_decide as E.
  - intros [= <-]. rewrite Nat.sub_diag. split; [lia|by exists p].
  - intros (Hr & Hs)%IH. split; [lia|]. by replace (j - i)%nat with (S (j - S i)) by lia.
Qed.

(** Slot [i], unused in [k], is a new process in [k']. *)
Record alloced (k : kst) (i : nat) (k' : kst) : Prop := {
  al_inv : pinv k';
  al_cur : k_cur k' = k_cur k;
  al_initproc : k_initproc k' = k_initproc k;
  al_slot : exists p q, k_ptable k !! i = Some p /\ p_state p = UNUSED /\
    k_ptable k' !! i = Some q /\ p_state q = EMBRYO /\ p_parent q = p_parent p /\ p_pid q = k_nextpid k;
  al_next : k_nextpid k' = k_nextpid k + 1;
  al_rest j q : j <> i -> k_ptable k' !! j = Some q -> exists p, k_ptable k !! j = Some p /\ calm_proc p q }.

(** The state after a slot has been taken. *)
Definition embryo (k : kst) (i : nat) (p : proc) : kst :=
  set_nextpid (k_nextpid k + 1) (set_ptable (<[i := with_pid (k_nextpid k) (with_state EMBRYO p)]> (k_ptable k)) k).

Lemma pinv_nextpid k n : pinv k -> k_nextpid k <= n -> pinv (set_nextpid n k).
Proof.
  intros [H0 H1 H2 H3 H4 H5] Hn. split; cbn; [lia| |by eauto..]. intros i p Hp Hu. specialize (H1 i p Hp Hu). lia.
Qed.
Lemma init_not_unused k i p : pinv k -> k_ptable k !! i = Some p -> p_state p = UNUSED -> k_initproc k <> Some i.
Proof. intros Hk Hp Hs Hi. destruct (pi_init _ Hk i Hi) as (p' & Hp' & Hu & _). congruence. Qed.
Lemma pinv_embryo k i p :
  pinv k -> k_ptable k !! i = Some p -> p_state p = UNUSED -> pinv (embryo k i p).
Proof.
  intros Hk Hp Hs. pose proof (pi_next k Hk) as Hn. pose proof (pinv_nextpid k (k_nextpid k + 1) Hk ltac:(lia)) as Hk'.
  apply (pinv_insert (set_nextpid (k_nextpid k + 1) k) i p _ Hk' Hp). split; cbn; try done.
  - intros _. lia.
  - intros j r _ Hr _ Hu. pose proof (pi_pid k Hk j r Hr Hu). lia.
  - by apply (pi_self k Hk).
  - intros Hi. by destruct (init_not_unused k i p Hk Hp Hs).
  - intros j r [? _]. done.
Qed.
Lemma embryo_alloced k i p :
  pinv k -> k_ptable k !! i = Some p -> p_state p = UNUSED -> alloced k i (embryo k i p).
Proof.
  intros Hk Hp Hs. split; [by apply pinv_embryo|done|done| | |].
  - exists p. eexists. split; [done|]. split; [done|]. cbn.
    rewrite list_lookup_insert_eq by (by apply lookup_lt_Some in Hp). done.
  - done.
  - intros j q Hj Hq. cbn in Hq. exists q. by rewrite list_lookup_insert_ne in Hq.
Qed.
Lemma alloced_calm k i k1 k2 : alloced k i k1 -> calm k1 k2 -> alloced k i k2.
Proof.
  intros [H1 H2 H3 (p & q & Hp & Hs & Hq & Hsq & Hpq & Hpid) Hn H5] Hc. split.
  - by apply (pinv_calm k1).
  - by rewrite (ca_cur _ _ Hc).
  - by rewrite (ca_initproc _ _ Hc).
  - destruct (calm_lookup_l _ _ _ _ Hc Hq) as (r & Hr & [Hpidr Hpr _ Hsr]). exists p, r. split; [done|]. split; [done|].
    split; [done|]. destruct Hsr as [->|[? _]]; [|congruence]. by rewrite Hpr, Hpidr.
  - by rewrite (ca_nextpid _ _ Hc).
  - intros j r Hj Hr. destruct (calm_lookup _ _ _ _ Hc Hr) as (r1 & Hr1 & Hc1).
    destruct (H5 j r1 Hj Hr1) as (r2 & Hr2 & Hc2). exists r2. split; [done|by etrans].
Qed.
Lemma alloced_calm_l k k1 i k2 : calm k k1 -> alloced k1 i k2 -> alloced k i k2.
Proof.
  intros Hc [H1 H2 H3 (p & q & Hp & Hs & Hq & Hsq & Hpq & Hpid) Hn H5]. rewrite (ca_nextpid _ _ Hc) in Hpid, Hn.
  split; [done|..].
  - by rewrite H2, (ca_cur _ _ Hc).
  - by rewrite H3, (ca_initproc _ _ Hc).
  - destruct (calm_lookup _ _ _ _ Hc Hp) as (r & Hr & [_ Hpr _ Hsr]). exists r, q. split; [done|].
    split; [destruct Hsr as [?|[_ ?]]; congruence|]. split; [done|]. split; [done|]. split; congruence.
  - done.
  - intros j r Hj Hr. destruct (H5 j r Hj Hr) as (r1 & Hr1 & Hc1).
    destruct (calm_lookup _ _ _ _ Hc Hr1) as (r2 & Hr2 & Hc2). exists r2. split; [done|by etrans].
Qed.
(** Giving the slot back. *)
Lemma alloced_undo k i k1 f : pinv k ->
  alloced k i k1 -> (forall p, p_state (f p) = UNUSED) -> (forall p, p_parent (f p) = p_parent p) ->
  wlp (upd_proc i f) (fun _ => pinv) k1.
Proof.
  intros Hk [H1 H2 H3 (p & q & Hp & Hs & Hq & Hsq & Hpq & _) _ H5] Hf Hf'. apply upd_proc_wlp. intros r Hr.
  apply (pinv_insert k1 i r _ H1 Hr). apply fits_unused; [|done|rewrite Hf'; by apply (pi_self k1 H1)].
  rewrite H3. by apply (init_not_unused k i p).
Qed.

Section Ops.
  Context `{LinkerSymbols} `{CodeSymbols}.

Lemma allocproc_ok k :
  pinv k -> wlp allocproc (fun r k' => match r with Some i => alloced k i k' | None => pinv k' end) k.
Proof.
  intros Hk. unfold allocproc. calm_step k1 Hc1. pose proof (pinv_calm _ _ Hk Hc1) as Hk1. wlp_step. wlp_step.
  destruct (find_unused _ 0) as [i|] eqn:E; [|calm_step k2 Hc2; by apply (pinv_calm k1)].
  apply find_unused_Some in E as [_ (p & Hp & Hs)]. rewrite Nat.sub_0_r in Hp.
  wlp_step. apply upd_proc_wlp. rewrite Hp. intros ? [= <-]. wlp_step. wlp_step.
  destruct (_ =? 2147483647); [done|]. wlp_step. apply upd_proc_wlp. cbn [k_ptable set_ptable].
  rewrite list_lookup_insert_eq by (by apply lookup_lt_Some in Hp). intros ? [= <-]. wlp_step. wlp_step.
  rewrite list_insert_insert_eq.
  pose proof (alloced_calm_l _ _ _ _ Hc1 (embryo_alloced k1 i p Hk1 Hp Hs)) as Hal.
  match goal with |- wlp _ _ ?k2 => change k2 with (embryo k1 i p) end. revert Hal. generalize (embryo k1 i p). intros k2 Hal.
  calm_step k3 Hc3. wlp_step. eapply calm_wlp; [apply steps_on_km|]. intros kstack k4 Hc4. calm_step k5 Hc5.
  assert (alloced k i k5) as Hal5 by (do 3 (eapply alloced_calm; [|eassumption]); done).
  destruct (kstack =? 0).
  - wlp_step. eapply wlp_mono; [apply (alloced_undo k i k5); done|]. intros ? k6 Hk6. by wlp_step.
  - calm_step k6 Hc6. wlp_step. eapply calm_wlp; [apply steps_on_km|]. intros wmap k7 Hc7. destruct (wmap =? 0); [done|].
    wlp_step. eapply calm_wlp; [apply steps_on_km|]. intros blocks k8 Hc8. calm_step k9 Hc9.
    do 4 (eapply alloced_calm; [|eassumption]). done.
Qed.

Lemma steps_fork_mappings l i pgdir npgdir src np : steps_by calm (fork_mappings l i pgdir npgdir src np).
Proof. revert i. induction l as [|b l IH]; intros i; cbn; steps_by_text. Qed.
Lemma steps_fork_files l i np : steps_by calm (fork_files l i np).
Proof. revert i. induction l as [|b l IH]; intros i; cbn; steps_by_text. Qed.
Hint Resolve steps_fork_mappings steps_fork_files : steps.

(** The current process runs. *)
Definition running (k : kst) : Prop := p_state <$> k_ptable k !! k_cur k = Some RUNNING.

Lemma fork_ok k : pinv k -> running k -> wlp fork (fun _ => pinv) k.
Proof.
  intros Hk Hrun. unfold fork. wlp_step. wlp_step. wlp_step. eapply wlp_mono; [by apply allocproc_ok|].
  intros [np|] k1 Hal; cbv beta; [|by wlp_step].
  assert (np <> k_cur k) as Hne.
  { intros ->. destruct (al_slot _ _ _ Hal) as (p & _ & Hp & Hs & _). unfold running in Hrun. rewrite Hp in Hrun. cbn in Hrun.
    congruence. }
  wlp_step. apply myproc_wlp. intros p Hp. wlp_step. eapply calm_wlp; [apply steps_on_km|]. intros pgdir k2 Hc2.
  pose proof (alloced_calm _ _ _ _ Hal Hc2) as Hal2. calm_step k3 Hc3. pose proof (alloced_calm _ _ _ _ Hal2 Hc3) as Hal3.
  destruct (pgdir =? 0).
  - wlp_step. eapply calm_wlp; [apply steps_get_proc|]. intros q k4 Hc4. calm_step k5 Hc5. calm_step k6 Hc6.
    assert (alloced k np k6) as Hal6 by (do 3 (eapply alloced_calm; [|eassumption]); done).
    wlp_step. eapply wlp_mono; [apply (alloced_undo k np k6); done|]. intros ? k7 Hk7. by wlp_step.
  - destruct Hal3 as [Hk3 Hcur3 Hini3 (p0 & q & Hp0 & Hs0 & Hq & Hsq & Hpq & _) _ _].
    assert (k_initproc k3 <> Some np) as Hi3 by (rewrite Hini3; by apply (init_not_unused k np p0)).
    wlp_step. apply upd_proc_wlp. rewrite Hq. intros ? [= <-].
    match goal with |- wlp _ _ (set_ptable (<[np := ?q']> _) _) =>
      assert (pinv (set_ptable (<[np := q']> (k_ptable k3)) k3)) as Hk4 end.
    { apply (pinv_insert k3 np q _ Hk3 Hq). apply (fits_parent k3 np q); cbn; [done..|congruence|congruence]. }
    match goal with |- wlp _ _ ?k => set (k4 := k) in * end.
    assert (p_state <$> k_ptable k4 !! np = Some EMBRYO) as Hs4.
    { cbn. rewrite list_lookup_insert_eq by (by apply lookup_lt_Some in Hq). cbn. by rewrite Hsq. }
    clearbody k4. calm_step k5 Hc5. destruct (p_cwd p) as [c|]; [|done].
    wlp_step. eapply calm_wlp; [apply steps_on_fs|]. intros cwd k6 Hc6. calm_step k7 Hc7. calm_step k8 Hc8.
    wlp_step. eapply calm_wlp; [apply steps_get_proc|]. intros r k9 Hc9. calm_step k10 Hc10.
    assert (calm k4 k10) as Hc by (do 5 (etrans; [|eassumption]); done).
    wlp_step. apply upd_proc_wlp. intros r' Hr'. eapply calm_wlp; [steps_by_text|]. intros ? k11 Hc11.
    eapply pinv_calm; [|eassumption]. apply (pinv_insert k10 np r'); [by apply (pinv_calm k4)|done|].
    destruct (calm_lookup _ _ _ _ Hc Hr') as (r4 & Hr4 & Hcr). rewrite Hr4 in Hs4. cbn in Hs4. injection Hs4 as Hs4.
    apply fits_state; [by apply (pinv_calm k4)|done| |done..]. apply (calm_used r4 r' Hcr). congruence.
Qed.

(** *** wait *)

Lemma find_zombie_ok l i cur b :
  match (find_zombie l i cur b).1 with
  | Some j => (i <= j)%nat /\ exists p, l !! (j - i)%nat = Some p /\ p_parent p = Some cur
  | None => forall j p, l !! j = Some p -> p_parent p = Some cur -> p_state p <> ZOMBIE
  end.
Proof.
  revert i b. induction l as [|p l IH]; intros i b; cbn; [done|].
  assert (forall b', match (find_zombie l (S i) cur b').1 with
    | Some j => (i <= j)%nat /\ exists q, (p :: l) !! (j - i)%nat = Some q /\ p_parent q = Some cur
    | None => forall j q, l !! j = Some q -> p_parent q = Some cur -> p_state q <> ZOMBIE end) as Hrest.
  { intros b'. specialize (IH (S i) b'). destruct ((find_zombie l (S i) cur b').1) as [j|]; [|done].
    destruct IH as [Hj Hq]. split; [lia|]. by replace (j - i)%nat with (S (j - S i)) by lia. }
  case_bool_decide as E1; [case_bool_decide as E2|].
  - cbn. split; [lia|]. rewrite Nat.sub_diag. by exists p.
  - specialize (Hrest true). destruct (find_zombie l (S i) cur true).1 as [j|]; [done|].
    intros [|j] q; cbn; [|by apply Hrest]. by intros [= <-].
  - specialize (Hrest b). destruct (find_zombie l (S i) cur b).1 as [j|]; [done|].
    intros [|j] q; cbn; [|by apply Hrest]. by intros [= <-].
Qed.

Lemma reap_ok k i p cur :
  pinv k -> k_ptable k !! i = Some p -> p_parent p = Some cur -> wlp (reap i) (fun _ => pinv) k.
Proof.
  intros Hk Hp Hpar. unfold reap. wlp_step. apply get_proc_wlp. rewrite Hp. intros ? [= <-].
  calm_step k1 Hc1. calm_step k2 Hc2. calm_step k3 Hc3.
  assert (calm k k3) as Hc by (do 2 (etrans; [|eassumption]); done). pose proof (pinv_calm _ _ Hk Hc) as Hk3.
  wlp_step. apply upd_proc_wlp. intros q Hq. wlp_step. apply upd_proc_wlp. cbn [k_ptable set_ptable].
  rewrite list_lookup_insert_eq by (by apply lookup_lt_Some in Hq). intros ? [= <-]. rewrite list_insert_insert_eq. wlp_step.
  apply (pinv_insert k3 i q _ Hk3 Hq). apply fits_unused; [|done|done].
  destruct (calm_lookup _ _ _ _ Hc Hq) as (p' & Hp' & Hcp). rewrite Hp in Hp'. injection Hp' as <-. intros Hi.
  destruct (pi_init _ Hk3 i Hi) as (q' & Hq' & _ & Hn). rewrite Hq in Hq'. injection Hq' as <-.
  rewrite (cp_parent _ _ Hcp) in Hn. congruence.
Qed.

(** Going to sleep, unless it is in [wait] with a dead child. *)
Lemma sleep_ok k c b :
  pinv k -> running k ->
  (c = ChProc (k_cur k) -> forall j q, k_ptable k !! j = Some q -> p_parent q = Some (k_cur k) -> p_state q <> ZOMBIE) ->
  wlp (sleep c b) (fun _ => pinv) k.
Proof.
  intros Hk Hrun Hw. unfold sleep. calm_step k1 Hc1. pose proof (pinv_calm _ _ Hk Hc1) as Hk1.
  wlp_step. apply upd_me_wlp. intros p Hp. wlp_step. apply upd_me_wlp. cbn [k_ptable k_cur set_ptable].
  rewrite list_lookup_insert_eq by (by apply lookup_lt_Some in Hp). intros ? [= <-]. rewrite list_insert_insert_eq.
  eapply calm_wlp; [steps_by_text|]. intros ? k2 Hc2. eapply pinv_calm; [|eassumption].
  apply (pinv_insert k1 (k_cur k1) p); [done|done|]. rewrite (ca_cur _ _ Hc1) in Hp |- *.
  destruct (calm_lookup _ _ _ _ Hc1 Hp) as (p0 & Hp0 & Hcp). unfold running in Hrun. rewrite Hp0 in Hrun. injection Hrun as Hrun.
  assert (used p) as Hu by (apply (calm_used _ _ Hcp); congruence). split; cbn; try done.
  - intros _. by apply (pi_pid k1 Hk1 (k_cur k)).
  - intros j r Hne Hr _ Hur Heq. by apply Hne, (pi_uniq k1 Hk1 j (k_cur k) r p).
  - by apply (pi_self k1 Hk1).
  - intros Hi. destruct (pi_init _ Hk1 _ Hi) as (p' & Hp' & _ & Hn). rewrite Hp in Hp'. by injection Hp' as <-.
  - intros j r [_ Hch] Hne Hr Hpar. injection Hch as Hch.
    destruct (calm_lookup _ _ _ _ Hc1 Hr) as (r0 & Hr0 & Hcr). rewrite (cp_parent _ _ Hcr) in Hpar.
    specialize (Hw Hch j r0 Hr0 Hpar). destruct (cp_state _ _ Hcr) as [->|[_ ->]]; done.
Qed.

Lemma wait_pass_ok k : pinv k -> running k -> wlp wait_pass (fun _ => pinv) k.
Proof.
  intros Hk Hrun. unfold wait_pass. wlp_step. wlp_step. wlp_step. wlp_step. wlp_step. apply myproc_wlp. intros p Hp.
  pose proof (find_zombie_ok (k_ptable k) 0 (k_cur k) false) as Hz.
  destruct (find_zombie _ _ _ _) as [[i|] kids]; cbn in Hz.
  - destruct Hz as [_ (q & Hq & Hpar)]. rewrite Nat.sub_0_r in Hq. wlp_step.
    eapply wlp_mono; [by apply (reap_ok k i q (k_cur k))|]. intros pid k1 Hk1. cbv beta.
    calm_step k2 Hc2. wlp_step. by apply (pinv_calm k1).
  - destruct (_ || _); [calm_step k2 Hc2; wlp_step; by apply (pinv_calm k)|].
    wlp_step. eapply wlp_mono; [apply sleep_ok; [done|done|intros _; apply Hz]|]. intros ? k1 Hk1. by wlp_step.
Qed.
Lemma running_calm k k' : running k -> calm k k' -> running k'.
Proof.
  unfold running. intros Hr Hc. rewrite (ca_cur _ _ Hc). destruct (k_ptable k !! k_cur k) as [p|] eqn:Hp; [|done].
  destruct (calm_lookup_l _ _ _ _ Hc Hp) as (q & -> & [_ _ _ Hs]). cbn in *. injection Hr as Hr. f_equal.
  destruct Hs as [->|[? _]]; congruence.
Qed.
Lemma wait_ok k : pinv k -> running k -> wlp wait (fun _ => pinv) k.
Proof.
  intros Hk Hr. unfold wait. calm_step k1 Hc1. apply wait_pass_ok; [by apply (pinv_calm k)|by apply (running_calm k)].
Qed.
(** A process that clears its channel no longer waits. *)
Lemma sleep_return_ok k b : pinv k -> running k -> wlp (sleep_return b) (fun _ k' => pinv k' /\ running k') k.
Proof.
  intros Hk Hrun. unfold sleep_return. wlp_step. apply upd_me_wlp. intros p Hp. eapply calm_wlp; [steps_by_text|].
  intros ? k2 Hc2. set (k1 := set_ptable _ _) in Hc2.
  assert (p_state p = RUNNING) as Hsp by (unfold running in Hrun; rewrite Hp in Hrun; by injection Hrun).
  split; [apply (pinv_calm k1); [|done]|apply (running_calm k1); [|done]].
  - apply (pinv_insert k _ p); [done|done|]. split; cbn; try rewrite Hsp; try done.
    + intros _. apply (pi_pid k Hk (k_cur k)); [done|congruence].
    + intros j r Hne Hr _ Hur Heq. apply Hne, (pi_uniq k Hk j (k_cur k) r p); congruence.
    + by apply (pi_self k Hk).
    + intros Hi. destruct (pi_init _ Hk _ Hi) as (p' & Hp' & _ & Hn). rewrite Hp in Hp'. by injection Hp' as <-.
    + intros j r [Hs _]. cbn in Hs. congruence.
  - unfold running. cbn. rewrite list_lookup_insert_eq by (by apply lookup_lt_Some in Hp). cbn. by rewrite Hsp.
Qed.
Lemma wait_again_ok k : pinv k -> running k -> wlp wait_again (fun _ => pinv) k.
Proof.
  intros Hk Hr. unfold wait_again. wlp_step. eapply wlp_mono; [by apply sleep_return_ok|]. intros ? k1 [Hk1 Hr1].
  by apply wait_pass_ok.
Qed.

(** *** exit *)

(** Woken, and passed from [cur] to init. *)
Record adopted (cur : nat) (init : option nat) (p q : proc) : Prop := {
  ad_pid : p_pid q = p_pid p;
  ad_chan : p_chan q = p_chan p;
  ad_state : p_state q = p_state p \/ p_state p = SLEEPING /\ p_state q = RUNNABLE;
  ad_parent : p_parent q = p_parent p \/ p_parent p = Some cur /\ p_parent q = init }.
Lemma calm_adopted cur init p q : calm_proc p q -> adopted cur init p q.
Proof. intros [? ? ? ?]. split; auto. Qed.
#[local] Instance adopted_preorder cur init : PreOrder (adopted cur init).
Proof.
  split; [intros p; by apply calm_adopted|]. intros p q r [H1 H2 H3 H4] [G1 G2 G3 G4]. split; [congruence..| |].
  - destruct H3 as [H3|[H3 H3']], G3 as [G3|[G3 G3']]; [left; congruence|right; split; congruence..].
  - destruct H4 as [H4|[H4 H4']], G4 as [G4|[G4 G4']]; [left; congruence|right; split; congruence..].
Qed.
Record adoption (cur : nat) (k k' : kst) : Prop := {
  an_table : Forall2 (adopted cur (k_initproc k)) (k_ptable k) (k_ptable k');
  an_initproc : k_initproc k' = k_initproc k;
  an_cur : k_cur k' = k_cur k }.
Lemma calm_adoption cur k k' : calm k k' -> adoption cur k k'.
Proof. intros [Ht _ ? ?]. split; [|done..]. eapply Forall2_impl; [done|]. intros p q. apply calm_adopted. Qed.
#[local] Instance adoption_preorder cur : PreOrder (adoption cur).
Proof.
  split; [intros k; by apply calm_adoption|]. intros k1 k2 k3 [H1 H2 H3] [G1 G2 G3].
  rewrite H2 in G1. split; [by etrans|congruence..].
Qed.

(** One child passed on. *)
Lemma reparent_step k i p cur :
  pinv k -> k_initproc k <> Some cur -> k_ptable k !! i = Some p -> p_parent p = Some cur ->
  wlp (_ ← upd_proc i (with_parent (k_initproc k));
       when (bool_decide (p_state p = ZOMBIE)) (wakeup1 (ChProc <$> k_initproc k)))
    (fun _ k' => pinv k' /\ adoption cur k k') k.
Proof.
  intros Hk Hne Hp Hpar. wlp_step. apply upd_proc_wlp. rewrite Hp. intros ? [= <-].
  assert (k_initproc k <> Some i) as Hi.
  { intros Hi. destruct (pi_init _ Hk i Hi) as (p' & Hp' & _ & Hn). congruence. }
  assert (adopted cur (k_initproc k) p (with_parent (k_initproc k) p)) as Had by (split; cbn; auto).
  assert (adoption cur k (set_ptable (<[i := with_parent (k_initproc k) p]> (k_ptable k)) k)) as Ha.
  { split; [|done..]. cbn. rewrite <-(list_insert_id _ _ _ Hp) at 1. by apply Forall2_insert. }
  case_bool_decide as Hz; cbn [when].
  - unfold wakeup1. wlp_step. set (c := ChProc <$> k_initproc k).
    split; [|etrans; [exact Ha|]; apply calm_adoption, calm_map, calm_wake1].
    pose proof (pinv_calm k _ Hk (calm_map (wake1 c) k (calm_wake1 c))) as Hw. cbn [k_ptable set_ptable].
    rewrite list_fmap_insert. assert (wake1 c (with_parent (k_initproc k) p) = with_parent (k_initproc k) p) as ->.
    { unfold wake1. cbn. by rewrite Hz. }
    assert (wake1 c p = p) as Hwp by (unfold wake1; by rewrite Hz).
    apply (pinv_insert (set_ptable (wake1 c <$> k_ptable k) k) i p _ Hw); [cbn; rewrite list_lookup_fmap, Hp; cbn; by rewrite Hwp|].
    apply (fits_parent _ _ p); cbn; try done; [rewrite list_lookup_fmap, Hp; cbn; by rewrite Hwp|].
    intros _ j r Hj Hr [Hs Hc]. rewrite list_lookup_fmap in Hr. destruct (k_ptable k !! j) as [r0|]; [|done].
    injection Hr as <-. unfold wake1 in Hs, Hc. subst c. rewrite Hj in Hs, Hc. cbn in Hs, Hc.
    destruct (_ && _) eqn:E; [done|]. rewrite bool_decide_eq_true_2, bool_decide_eq_true_2 in E by done. done.
  - wlp_step. split; [|done]. apply (pinv_insert k i p); [done|done|]. by apply (fits_parent k i p).
Qed.
Lemma reparent_ok n i cur k :
  pinv k -> k_initproc k <> Some cur -> wlp (reparent n i cur) (fun _ k' => pinv k' /\ adoption cur k k') k.
Proof.
  revert i k. induction n as [|n IH]; intros i k Hk Hne; cbn [reparent]; [by wlp_step|].
  wlp_step. apply get_proc_wlp. intros p Hp. wlp_step. case_bool_decide as Hpar; cbn [when].
  - wlp_step. wlp_step. eapply wlp_mono; [by apply (reparent_step k i p)|]. intros ? k1 [Hk1 Ha1].
    eapply wlp_mono; [apply IH; [done|by rewrite (an_initproc _ _ _ Ha1)]|]. intros ? k2 [Hk2 Ha2]. split; [done|by etrans].
  - wlp_step. by apply IH.
Qed.

Lemma steps_close_files l i : steps_by calm (close_files l i).
Proof. revert i. induction l as [|b l IH]; intros i; cbn; steps_by_text. Qed.
Lemma steps_exit_blocks l i parent : steps_by calm (exit_blocks l i parent).
Proof. revert i. induction l as [|[b page] l IH]; intros i; cbn; steps_by_text. Qed.
Hint Resolve steps_close_files steps_exit_blocks : steps.

(** Nobody waits for the parent of [p]. *)
Definition parent_awake (k : kst) (p : proc) : Prop :=
  forall j r, p_parent p = Some j -> k_ptable k !! j = Some r -> ~ waiting j r.
Lemma wakeup1_awake k p :
  wlp (wakeup1 (ChProc <$> p_parent p)) (fun _ k' => calm k k' /\ parent_awake k' p) k.
Proof.
  unfold wakeup1. wlp_step. split; [apply calm_map, calm_wake1|]. intros j r Hj Hr [Hs Hc]. rewrite Hj in Hr. cbn in Hr.
  rewrite list_lookup_fmap in Hr. destruct (k_ptable k !! j) as [r0|]; [|done]. injection Hr as <-.
  unfold wake1 in Hs, Hc. destruct (_ && _) eqn:E; [done|]. rewrite bool_decide_eq_true_2, bool_decide_eq_true_2 in E by done. done.
Qed.
Lemma awake_adoption k k' cur p q :
  parent_awake k p -> adoption cur k k' -> p_parent q = p_parent p -> parent_awake k' q.
Proof.
  intros Hw Ha Hpq j r Hj Hr [Hs Hc]. destruct (Forall2_lookup_r _ _ _ _ _ (an_table _ _ _ Ha) Hr) as (r0 & Hr0 & [_ Hcr Hsr _]).
  rewrite Hpq in Hj. apply (Hw j r0 Hj Hr0). split; [|congruence]. destruct Hsr as [<-|[_ ?]]; [done|congruence].
Qed.

(** The end of [exit]: the parent has been woken and nothing is left to free. *)
Lemma zombie_ok k p :
  pinv k -> k_ptable k !! k_cur k = Some p -> used p -> k_initproc k <> Some (k_cur k) -> parent_awake k p ->
  wlp (_ ← upd_me (with_state ZOMBIE); sched) (fun _ => pinv) k.
Proof.
  intros Hk Hp Hu Hi Hw. wlp_step. apply upd_me_wlp. rewrite Hp. intros ? [= <-].
  eapply calm_wlp; [steps_by_text|]. intros ? k1 Hc. eapply pinv_calm; [|exact Hc].
  apply (pinv_insert k (k_cur k) p); [done|done|]. split; cbn; try done.
  - intros _. by apply (pi_pid k Hk (k_cur k)).
  - intros j r Hne Hr _ Hur Heq. by apply Hne, (pi_uniq k Hk j (k_cur k) r p).
  - by apply (pi_self k Hk).
  - intros j r [? _]. done.
  - intros j r _ Hj _ Hr. by apply (Hw j r).
Qed.

Lemma exit_ok k : pinv k -> running k -> wlp exit (fun _ => pinv) k.
Proof.
  intros Hk Hrun. unfold exit. wlp_step. wlp_step. wlp_step. wlp_step. case_bool_decide as Hi; [done|].
  wlp_step. apply myproc_wlp. intros p Hp. calm_step k1 Hc1. calm_step k2 Hc2.
  destruct (p_cwd p) as [c|]; [|done]. calm_step k3 Hc3. calm_step k4 Hc4. calm_step k5 Hc5. calm_step k6 Hc6.
  assert (calm k k6) as Hc by (do 5 (etrans; [|eassumption]); done).
  pose proof (pinv_calm _ _ Hk Hc) as Hk6. pose proof (running_calm _ _ Hrun Hc) as Hrun6.
  rewrite <-(ca_cur _ _ Hc), <-(ca_initproc _ _ Hc) in Hi. rewrite <-(ca_cur _ _ Hc). clear dependent k1 k2 k3 k4 k5. clear Hp p.
  wlp_step. apply myproc_wlp. intros p Hp. unfold running in Hrun6. rewrite Hp in Hrun6. injection Hrun6 as Hsp.
  wlp_step. eapply wlp_mono; [apply wakeup1_awake|]. intros ? k7 [Hc7 Hw7]. cbv beta.
  wlp_step. eapply wlp_mono; [apply reparent_ok; [by apply (pinv_calm k6)|by rewrite (ca_initproc _ _ Hc7)]|].
  intros ? k8 [Hk8 Ha8]. cbv beta. wlp_step. apply myproc_wlp. intros q Hq.
  assert (k_cur k8 = k_cur k6) as Hcur8 by (by rewrite (an_cur _ _ _ Ha8), (ca_cur _ _ Hc7)).
  assert (k_initproc k8 = k_initproc k6) as Hini8 by (by rewrite (an_initproc _ _ _ Ha8), (ca_initproc _ _ Hc7)).
  rewrite Hcur8 in Hq. destruct (Forall2_lookup_r _ _ _ _ _ (an_table _ _ _ Ha8) Hq) as (p7 & Hp7 & Had).
  destruct (calm_lookup _ _ _ _ Hc7 Hp7) as (p' & Hp' & Hcp). rewrite Hp in Hp'. injection Hp' as <-.
  assert (p_parent q = p_parent p) as Hpq.
  { destruct (ad_parent _ _ _ _ Had) as [->|[Hs _]]; [by rewrite (cp_parent _ _ Hcp)|].
    rewrite (cp_parent _ _ Hcp) in Hs. by destruct (pi_self k6 Hk6 _ _ Hp). }
  assert (used q) as Hu.
  { destruct (ad_state _ _ _ _ Had) as [->|[_ ->]]; [|done]. destruct (cp_state _ _ Hcp) as [->|[_ ->]]; congruence. }
  pose proof (awake_adoption _ _ _ _ _ Hw7 Ha8 Hpq) as Hw8.
  calm_step k9 Hc9. destruct (p_parent q) as [par|] eqn:Epar; [|done]. calm_step k10 Hc10. calm_step k11 Hc11.
  assert (calm k8 k11) as Hc811 by (do 2 (etrans; [|eassumption]); done).
  destruct (calm_lookup_l _ _ _ _ Hc811 Hq) as (q' & Hq' & Hcq).
  apply (zombie_ok k11 q'); [by apply (pinv_calm k8)| | | |].
  - by rewrite (ca_cur _ _ Hc811), Hcur8.
  - by apply (calm_used _ _ Hcq).
  - by rewrite (ca_initproc _ _ Hc811), (ca_cur _ _ Hc811), Hcur8, Hini8.
  - apply (awake_adoption k8 k11 0%nat q); [done|by apply calm_adoption|by apply (cp_parent _ _ Hcq)].
Qed.

(** *** The other switches *)

Lemma yield_ok k : pinv k -> running k -> wlp yield (fun _ => pinv) k.
Proof.
  intros Hk Hrun. unfold yield. calm_step k1 Hc1. pose proof (pinv_calm _ _ Hk Hc1) as Hk1.
  pose proof (running_calm _ _ Hrun Hc1) as Hr1. wlp_step. apply upd_me_wlp. intros p Hp.
  eapply calm_wlp; [steps_by_text|]. intros ? k2 Hc2. eapply pinv_calm; [|exact Hc2].
  unfold running in Hr1. rewrite Hp in Hr1. injection Hr1 as Hs.
  apply (pinv_insert k1 (k_cur k1) p); [done|done|]. apply fits_state; [done..|congruence|done|done|done].
Qed.
Lemma pinv_set_cur k i : pinv k -> pinv (set_cur i k).
Proof. intros [A1 A2 A3 A4 A5 A6]. split; eauto. Qed.
Lemma scheduler_turn_ok k pos : pinv k -> wlp (scheduler_turn pos) (fun _ => pinv) k.
Proof.
  intros Hk. unfold scheduler_turn. wlp_step. wlp_step. destruct (pick _ _) as [i|] eqn:E; [|by wlp_step].
  apply pick_Some in E as (Hi & Hs & _). rewrite lookup_drop in Hs. replace (pos + (i - pos))%nat with i in Hs by lia.
  wlp_step. wlp_step. wlp_step. apply get_proc_wlp. intros p Hp. wlp_step. unfold switchuvm.
  destruct (_ =? 0); [done|]. destruct (_ =? 0); [done|]. wlp_step. wlp_step. apply upd_proc_wlp. rewrite Hp. intros ? [= <-].
  wlp_step. cbn in Hp. rewrite Hp in Hs. injection Hs as Hs.
  apply (pinv_insert (set_cur i k) i p); [by apply pinv_set_cur|done|].
  apply fits_state; [by apply pinv_set_cur|done|congruence|done|done|done].
Qed.

(** ** Boot *)

(** The first process is the only one. *)
Record booted (k : kst) : Prop := {
  bt_next : k_nextpid k = 2;
  bt_init : exists i p, k_initproc k = Some i /\ k_ptable k !! i = Some p /\ p_pid p = 1 /\ p_parent p = None /\
    p_state p = RUNNABLE /\
    forall j q, j <> i -> k_ptable k !! j = Some q -> p_state q = UNUSED /\ p_parent q = None }.

Lemma booted_pinv k : booted k -> pinv k.
Proof.
  intros [Hn (i & p & Hi & Hp & Hpid & Hpar & Hs & Hrest)].
  assert (forall j q, k_ptable k !! j = Some q -> used q -> j = i /\ q = p) as Hu.
  { intros j q Hq Huq. destruct (decide (j = i)) as [->|Hne]; [split; congruence|]. by destruct (Hrest j q Hne Hq). }
  assert (forall j q, k_ptable k !! j = Some q -> p_parent q = None) as Hno.
  { intros j q Hq. destruct (decide (j = i)) as [->|Hne]; [congruence|]. by destruct (Hrest j q Hne Hq). }
  split.
  - lia.
  - intros j q Hq Huq. destruct (Hu j q Hq Huq) as [-> ->]. lia.
  - intros j j' q q' Hq Hq' Huq Huq' _. destruct (Hu j q Hq Huq), (Hu j' q' Hq' Huq'). congruence.
  - intros j q Hq. by rewrite (Hno j q Hq).
  - intros j Hj. rewrite Hi in Hj. injection Hj as <-. exists p. split; [done|]. split; [congruence|done].
  - intros j j' q q' _ Hq' _ Hpar'. by rewrite (Hno j' q' Hq') in Hpar'.
Qed.

(** The table before boot. *)
Record unborn (k : kst) : Prop := {
  ub_next : k_nextpid k = 1;
  ub_init : k_initproc k = None;
  ub_table j q : k_ptable k !! j = Some q -> p_state q = UNUSED /\ p_parent q = None }.
Lemma unborn_pinv k : unborn k -> pinv k.
Proof.
  intros [Hn Hi Ht]. split; [lia|..].
  - intros i p Hp Hu. by destruct (Ht i p Hp).
  - intros i j p q Hp _ Hu. by destruct (Ht i p Hp).
  - intros i p Hp. by destruct (Ht i p Hp) as [_ ->].
  - by rewrite Hi.
  - intros i j p q _ Hq _ Hpar. destruct (Ht j q Hq). congruence.
Qed.
Lemma userinit_boots devsw k : unborn k -> wlp (userinit devsw) (fun _ => booted) k.
Proof.
  intros Hk. unfold userinit. wlp_step. eapply wlp_mono; [by apply allocproc_ok, unborn_pinv|].
  intros [i|] k1 Hal; cbv beta; wlp_step; wlp_step; [|done].
  destruct Hal as [_ _ _ (p & q & Hp & _ & Hq & Hs & Hpar & Hpid) Hn Hrest].
  destruct (ub_table k Hk i p Hp) as [_ Hpn]. rewrite Hpn in Hpar. rewrite (ub_next k Hk) in Hpid, Hn.
  wlp_step. eapply calm_wlp; [apply steps_on_km|]. intros pgdir k2 Hc2. calm_step k3 Hc3. destruct (pgdir =? 0); [done|].
  calm_step k4 Hc4. calm_step k5 Hc5. wlp_step. eapply calm_wlp; [apply steps_on_fs|]. intros cwd k6 Hc6.
  calm_step k7 Hc7. calm_step k8 Hc8.
  assert (calm (set_initproc (Some i) k1) k8) as Hc by (do 6 (etrans; [|eassumption]); done).
  destruct (calm_lookup_l _ _ i q Hc Hq) as (q8 & Hq8 & Hcq). wlp_step. apply upd_proc_wlp. rewrite Hq8. intros ? [= <-].
  eapply calm_wlp; [steps_by_text|]. intros ? k9 Hc9. split.
  - rewrite (ca_nextpid _ _ Hc9). cbn. rewrite (ca_nextpid _ _ Hc). cbn. lia.
  - assert ((set_ptable (<[i:=with_state RUNNABLE q8]> (k_ptable k8)) k8).(k_ptable) !! i = Some (with_state RUNNABLE q8)) as Hi.
    { cbn. rewrite list_lookup_insert_eq by (by apply lookup_lt_Some in Hq8). done. }
    destruct (calm_lookup_l _ _ i _ Hc9 Hi) as (q9 & Hq9 & [E1 E2 _ E3]). cbn in E1, E2, E3. exists i, q9.
    rewrite (ca_initproc _ _ Hc9). cbn. rewrite (ca_initproc _ _ Hc). cbn.
    split; [done|]. split; [done|]. split; [by rewrite E1, (cp_pid _ _ Hcq)|]. split; [by rewrite E2, (cp_parent _ _ Hcq)|].
    split; [by destruct E3 as [->|[? _]]|]. intros j r Hne Hr.
    destruct (calm_lookup _ _ j r Hc9 Hr) as (r8 & Hr8 & [_ F2 _ F3]). cbn in Hr8. rewrite list_lookup_insert_ne in Hr8 by done.
    destruct (calm_lookup _ _ j r8 Hc Hr8) as (r1 & Hr1 & Hc1). cbn in Hr1.
    destruct (Hrest j r1 Hne Hr1) as (r0 & Hr0 & Hc0). destruct (ub_table k Hk j r0 Hr0) as [Hs0 Hn0].
    destruct (transitivity Hc0 Hc1) as [_ G2 _ G3]. rewrite F2, G2, Hn0. split; [|done].
    destruct F3 as [->|[F3 _]]; destruct G3 as [G3|[G3 _]]; congruence.
Qed.

(** ** Reachable states

    The calls of the process that runs, the steps of a process that has been
    woken, and the choices of the scheduler.  Everything else the kernel does is
    calm. *)
Inductive pstep (k k' : kst) : Prop :=
| ps_fork r : running k -> fork k = Ret r k' -> pstep k k'
| ps_exit r : running k -> exit k = Ret r k' -> pstep k k'
| ps_wait r : running k -> wait k = Ret r k' -> pstep k k'
| ps_wait_again r : running k -> wait_again k = Ret r k' -> pstep k k'
| ps_sleep c b r : running k -> (forall i, c <> ChProc i) -> sleep c b k = Ret r k' -> pstep k k'
| ps_sleep_return b r : running k -> sleep_return b k = Ret r k' -> pstep k k'
| ps_yield r : running k -> yield k = Ret r k' -> pstep k k'
| ps_kill pid r : kill pid k = Ret r k' -> pstep k k'
| ps_scheduler pos r : scheduler_turn pos k = Ret r k' -> pstep k k'
| ps_calm : calm k k' -> pstep k k'.

Lemma pstep_pinv k k' : pstep k k' -> pinv k -> pinv k'.
Proof.
  intros [r Hr Hs|r Hr Hs|r Hr Hs|r Hr Hs|c b r Hr Hc Hs|b r Hr Hs|r Hr Hs|pid r Hs|pos r Hs|Hc] Hk.
  - by apply (wlp_Ret _ _ _ _ _ (fork_ok k Hk Hr) Hs).
  - by apply (wlp_Ret _ _ _ _ _ (exit_ok k Hk Hr) Hs).
  - by apply (wlp_Ret _ _ _ _ _ (wait_ok k Hk Hr) Hs).
  - by apply (wlp_Ret _ _ _ _ _ (wait_again_ok k Hk Hr) Hs).
  - apply (wlp_Ret _ _ _ _ _ (sleep_ok k c b Hk Hr ltac:(intros E; by destruct (Hc _ E))) Hs).
  - apply (wlp_Ret _ _ _ _ _ (sleep_return_ok k b Hk Hr) Hs).
  - by apply (wlp_Ret _ _ _ _ _ (yield_ok k Hk Hr) Hs).
  - apply (pinv_calm k); [done|]. by apply (steps_kill pid k r).
  - by apply (wlp_Ret _ _ _ _ _ (scheduler_turn_ok k pos Hk) Hs).
  - by apply (pinv_calm k).
Qed.
Lemma reachable_pinv k0 k : booted k0 -> rtc pstep k0 k -> pinv k.
Proof. intros Hb%booted_pinv Hr. by apply (rtc_preserves _ _ k0 k pstep_pinv). Qed.

(** C22: whatever processes do after boot, in any order, no two processes that
    exist have the same identifier. *)
Theorem pids_unique k0 k i j p q :
  booted k0 -> rtc pstep k0 k ->
  k_ptable k !! i = Some p -> k_ptable k !! j = Some q -> used p -> used q -> p_pid p = p_pid q -> i = j.
Proof. intros Hb Hr. apply (pi_uniq k (reachable_pinv k0 k Hb Hr)). Qed.

(** A consistent table in which nobody waits, as after boot. *)
Record settled (k : kst) : Prop := {
  se_next : 1 <= k_nextpid k;
  se_pid i p : k_ptable k !! i = Some p -> used p -> 1 <= p_pid p < k_nextpid k;
  se_uniq i j p q : k_ptable k !! i = Some p -> k_ptable k !! j = Some q -> used p -> used q ->
    p_pid p = p_pid q -> i = j;
  se_self i p : k_ptable k !! i = Some p -> p_parent p <> Some i;
  se_init i : k_initproc k = Some i -> exists p, k_ptable k !! i = Some p /\ used p /\ p_parent p = None;
  se_awake i p : k_ptable k !! i = Some p -> ~ waiting i p }.
Lemma settled_pinv k : settled k -> pinv k.
Proof. intros [A1 A2 A3 A4 A5 A6]. split; eauto. intros i j p q Hp _ Hw. by destruct (A6 i p Hp). Qed.

(** C2: no wakeup of [wait] is lost: from a table in which nobody waits, forks,
    exits, waits, kills and switches in any order lead only to states where a
    process that sleeps in [wait] has no child that has exited already. *)
Theorem wait_not_lost k0 k i p j q :
  settled k0 -> rtc pstep k0 k ->
  k_ptable k !! i = Some p -> waiting i p -> k_ptable k !! j = Some q -> p_parent q = Some i -> p_state q <> ZOMBIE.
Proof.
  intros Hb%settled_pinv Hr Hp Hw Hq. apply (pi_wait k (rtc_preserves _ _ k0 k pstep_pinv Hr Hb) i j p q Hp Hq Hw).
Qed.
End Ops.

(** ** Examples *)

#[export] Instance demo_code : CodeSymbols :=
  {| sym_trapret := 0x80105000; sym_forkret := 0x80104000; sym_initcode := 0x80107000; sym_initcode_size := 44 |}.

(** init and its child; [st] and [st'] are their states. *)
Definition demo_init (st : procstate) : proc := with_pgdir demo_dir (with_kstack 0x80310000 (with_state st (with_pid 1 unused_proc))).
Definition demo_child (st : procstate) : proc := with_parent (Some 0%nat) (with_state st (with_pid 2 unused_proc)).
Definition demo_kst (t : list proc) (n : Z) : kst :=
  mkKst demo (mkFs demo_sys (sb_of []) [] false) ∅ [] false t false 0 n (Some 0%nat) 0.

Lemma pids_unique_witness :
  exists k, rtc pstep (demo_kst [demo_init RUNNABLE; unused_proc; unused_proc] 2) k /\
    p_state <$> k_ptable k !! 0%nat = Some RUNNING /\
    forall i j p q, k_ptable k !! i = Some p -> k_ptable k !! j = Some q -> used p -> used q -> p_pid p = p_pid q -> i = j.
Proof.
  set (k0 := demo_kst _ _). eexists. assert (booted k0) as Hb.
  { split; [done|]. exists 0%nat, (demo_init RUNNABLE). splits. intros [|[|[|j]]] q Hne Hq; [done|by injection Hq as <-..|done]. }
  assert (rtc pstep k0 (set_ptable [demo_init RUNNING; unused_proc; unused_proc] k0)) as Hr.
  { apply rtc_once, (ps_scheduler _ _ 0 (Some 0%nat)). reflexivity. }
  split; [exact Hr|]. split; [reflexivity|]. intros i j p q. apply (pids_unique k0 _ i j p q Hb Hr).
Defined.

Lemma wait_not_lost_witness :
  exists k p q, rtc pstep (demo_kst [demo_init RUNNING; demo_child RUNNABLE] 3) k /\
    k_ptable k !! 0%nat = Some p /\ waiting 0 p /\ k_ptable k !! 1%nat = Some q /\ p_parent q = Some 0%nat /\
    p_state q <> ZOMBIE.
Proof.
  set (k0 := demo_kst _ _). set (p := with_state SLEEPING (with_chan (Some (ChProc 0)) (demo_init RUNNING))).
  set (k := set_ptlock true (set_ptable [p; demo_child RUNNABLE] k0)). exists k, p, (demo_child RUNNABLE).
  assert (settled k0) as Hs.
  { split; [done|..].
    - intros [|[|i]] q Hq _; [by injection Hq as <-..|done].
    - intros [|[|i]] [|[|j]] q r Hq Hr _ _ He; try done; injection Hq as <-; injection Hr as <-; done.
    - intros [|[|i]] q Hq; [by injection Hq as <-..|done].
    - intros i Hi. injection Hi as <-. by exists (demo_init RUNNING).
    - intros [|[|i]] q Hq [Hw _]; [injection Hq as <-; done..|done]. }
  assert (rtc pstep k0 k) as Hr by (apply rtc_once, (ps_wait _ _ Sleeps); reflexivity).
  splits. apply (wait_not_lost k0 k 0 p 1 (demo_child RUNNABLE) Hs Hr); done.
Defined.
