(* ===== verification/Exec.v ===== *)
(** * Loading a program (exec.c)

    [exec] builds a new address space from an ELF file, puts the arguments on its
    stack and only then replaces the old one.  Buffers on the kernel stack are
    lists of bytes. *)

From S2P Require Import Prelude Mmu Mem PageAlloc Kalloc Vm Wmap Wunmap Block Bio Log Fs Pipe Kernel Sched File Args SysFile Proc.
From stdpp Require Import base gmap list strings.
From Stdlib Require Import ZArith Lia.
#[local] Open Scope Z_scope.

Definition ELF_MAGIC : Z := 0x464C457F.
Definition ELF_PROG_LOAD : Z := 1.

(** The fields of [struct elfhdr] and [struct proghdr] that are used, in the
    bytes read from the file. *)
Definition sizeof_elfhdr : Z := 52.
Definition elf_magic (h : list Z) : Z := word_at h 0.
Definition elf_entry (h : list Z) : Z := word_at h 24.
Definition elf_phoff (h : list Z) : Z := word_at h 28.
Definition elf_phnum (h : list Z) : Z := half_at h 44.
Definition sizeof_proghdr : Z := 32.
Definition ph_type (h : list Z) : Z := word_at h 0.
Definition ph_off (h : list Z) : Z := word_at h 4.
Definition ph_vaddr (h : list Z) : Z := word_at h 8.
Definition ph_filesz (h : list Z) : Z := word_at h 16.
Definition ph_memsz (h : list Z) : Z := word_at h 20.

Definition with_start (eip esp : Z) (t : trapframe) : trapframe :=
  mkTf (tf_eax t) esp eip (tf_cs t) (tf_ds t) (tf_es t) (tf_ss t) (tf_eflags t) (tf_trapno t) (tf_err t) (tf_regs t).

(** The little-endian bytes of a word. *)
Definition word_bytes (w : Z) : list Z := [w mod 256; w / 256 mod 256; w / 65536 mod 256; w / 16777216 mod 256].
Fixpoint store_bytes (m : mem) (a : Z) (bs : list Z) : mem :=
  match bs with [] => m | b :: bs => store_bytes (st8 m a b) (a + 1) bs end.

(** The name after the last slash. *)
Fixpoint last_elem (s last : list Z) : list Z :=
  match s with
  | [] => last
  | c :: s => last_elem s (if c =? slash then s else last)
  end.

Section Exec.
  Context `{LinkerSymbols}.
  Variable devsw : Z -> devops.

(** [copyout] of bytes that are not in user memory. *)
Fixpoint copyout_bytes (fuel : nat) (pgdir va : Z) (buf : list Z) : M kmem Z :=
  match fuel with
  | O => nofuel
  | S fuel =>
      match buf with
      | [] => mret 0
      | _ =>
          let va0 := PGROUNDDOWN va in
          pa0 ← uva2ka pgdir va0;
          if pa0 =? 0 then mret (-1)
          else
            let n := PGSIZE - (va - va0) in
            let n := if n >? Z.of_nat (length buf) then Z.of_nat (length buf) else n in
            _ ← upd_mem (fun m => store_bytes m (pa0 + (va - va0)) (take (Z.to_nat n) buf));
            copyout_bytes fuel pgdir (u32 (va0 + PGSIZE)) (drop (Z.to_nat n) buf)
      end
  end.
Definition copyout_l (pgdir va : Z) (buf : list Z) : M kmem Z :=
  copyout_bytes (length buf / 4096 + 3) pgdir va buf.

(** [readi] into kernel memory. *)
Definition readi_mem (ip dst off n : Z) : M kst Z :=
  r ← on_fs (readi devsw (Z.to_nat ip) off n);
  _ ← upd_mem (fun m => store_bytes m dst r.2);
  mret r.1.

(** The loop over the program headers: the new size, or none. *)
Fixpoint load_segments (n : nat) (ip : nat) (pgdir off sz : Z) : M kst (option Z) :=
  match n with
  | O => mret (Some sz)
  | S n =>
      r ← on_fs (readi devsw ip (u32 off) sizeof_proghdr);
      if negb (r.1 =? sizeof_proghdr) then mret None
      else
        let ph := r.2 in
        let next := load_segments n ip pgdir (i32 (off + sizeof_proghdr)) in
        if negb (ph_type ph =? ELF_PROG_LOAD) then next sz
        else if ph_memsz ph <? ph_filesz ph then mret None
        else if u32 (ph_vaddr ph + ph_memsz ph) <? ph_vaddr ph then mret None
        else
          sz ← on_km (allocuvm pgdir sz (u32 (ph_vaddr ph + ph_memsz ph)));
          if sz =? 0 then mret None
          else if c_true (ph_vaddr ph mod PGSIZE) then mret None
          else
            r ← loaduvm readi_mem pgdir (ph_vaddr ph) (Z.of_nat ip) (ph_off ph) (ph_filesz ph);
            if r <? 0 then mret None else next sz
  end.

(** Push the argument strings: the stack pointer and the addresses of the
    strings. *)
Fixpoint push_args (argv : list (list Z)) (argc : Z) (pgdir sp : Z) : M kmem (option (Z * list Z)) :=
  match argv with
  | [] => mret (Some (sp, []))
  | s :: argv =>
      if argc >=? Z.of_nat MAXARG then mret None
      else
        let sp := Z.land (u32 (sp - (Z.of_nat (length s) + 1))) (Z.lnot 3) in
        r ← copyout_l pgdir sp (s ++ [0]);
        if r <? 0 then mret None
        else
          rest ← push_args argv (argc + 1) pgdir sp;
          mret ((fun p => (p.1, sp :: p.2)) <$> rest)
  end.

(** The cleanup of a failed [exec]; [ip] is the inode that is still locked. *)
Definition exec_bad (pgdir : Z) (ip : option nat) : M kst Z :=
  _ ← when (c_true pgdir) (on_km (freevm pgdir));
  match ip with
  | Some ip => _ ← on_fs (iunlockput ip); _ ← end_op_k; mret (-1)
  | None => mret (-1)
  end.

(** The stack of the new program and the switch to it. *)
Definition exec_stack (path : list Z) (argv : list (list Z)) (pgdir sz entry : Z) : M kst Z :=
  let sz := PGROUNDUP sz in
  sz ← on_km (allocuvm pgdir sz (u32 (sz + 2 * PGSIZE)));
  if sz =? 0 then exec_bad pgdir None
  else
    _ ← on_km (clearpteu pgdir (u32 (sz - 2 * PGSIZE)));
    a ← on_km (push_args argv 0 pgdir sz);
    match a with
    | None => exec_bad pgdir None
    | Some (sp, strs) =>
        let argc := Z.of_nat (length strs) in
        let ustack := [0xffffffff; argc; u32 (sp - (argc + 1) * 4)] ++ strs ++ [0] in
        let sp := u32 (sp - (3 + argc + 1) * 4) in
        r ← on_km (copyout_l pgdir sp (concat (word_bytes <$> ustack)));
        if r <? 0 then exec_bad pgdir None
        else
          p ← myproc;
          let oldpgdir := p_pgdir p in
          _ ← upd_me (fun p =>
                with_tf (with_start entry sp (p_tf p))
                  (with_sz sz (with_pgdir pgdir (with_name (safestrcpy_l 16 (last_elem path path)) p))));
          p ← myproc;
          _ ← switchuvm p;
          _ ← on_km (freevm oldpgdir);
          mret 0
    end.

Definition exec (path : list Z) (argv : list (list Z)) : M kst Z :=
  _ ← begin_op_k;
  ip ← namei_k devsw path;
  match ip with
  | None => _ ← end_op_k; mret (-1)
  | Some ip =>
      _ ← on_fs (ilock ip);
      r ← on_fs (readi devsw ip 0 sizeof_elfhdr);
      if negb (r.1 =? sizeof_elfhdr) then exec_bad 0 (Some ip)
      else if negb (elf_magic r.2 =? ELF_MAGIC) then exec_bad 0 (Some ip)
      else
        pgdir ← on_km setupkvm;
        if pgdir =? 0 then exec_bad 0 (Some ip)
        else
          sz ← load_segments (Z.to_nat (elf_phnum r.2)) ip pgdir (i32 (elf_phoff r.2)) 0;
          match sz with
          | None => exec_bad pgdir (Some ip)
          | Some sz =>
              _ ← on_fs (iunlockput ip);
              _ ← end_op_k;
              exec_stack path argv pgdir sz (elf_entry r.2)
          end
  end.
End Exec.
