(* ===== verification/Syscall.v ===== *)
(** * System calls and traps (sysproc.c, syscall.c, trap.c)

    The dispatch of a system call to its handler, and of a trap to the handler of
    its cause.  A handler that has to wait for another process ends [Blocked]. *)

From S2P Require Import Prelude Mmu Mem PageAlloc Kalloc Vm Wmap Wunmap PageFault Block Bio Log Fs Pipe Kernel Sched File Args SysFile Proc Exec.
From stdpp Require Import base gmap list strings.
From Stdlib Require Import ZArith Lia.
#[local] Open Scope Z_scope.

Definition T_PGFLT : Z := 14.
Definition T_SYSCALL : Z := 64.
Definition T_IRQ0 : Z := 32.
Definition IRQ_TIMER : Z := 0.
Definition IRQ_KBD : Z := 1.
Definition IRQ_COM1 : Z := 4.
Definition IRQ_IDE : Z := 14.
Definition IRQ_SPURIOUS : Z := 31.

Section Syscall.
  Context `{LinkerSymbols} `{CodeSymbols}.
  Variable devsw : Z -> devops.

(** ** Processes (sysproc.c) *)

Definition sys_fork : M kst Z := fork.
Definition sys_exit : M kst Z := _ ← exit; blocked "exited".
Definition sys_wait : M kst Z :=
  r ← wait; match r with Returns r => mret r | Sleeps => blocked "wait" end.
Definition sys_kill : M kst Z :=
  pid ← argint 0; match pid with None => mret (-1) | Some pid => kill pid end.
Definition sys_getpid : M kst Z := p ← myproc; mret (p_pid p).
Definition sys_sbrk : M kst Z :=
  n ← argint 0;
  match n with
  | None => mret (-1)
  | Some n =>
      p ← myproc;
      let addr := i32 (p_sz p) in
      r ← growproc n;
      if r <? 0 then mret (-1) else mret addr
  end.
(** One pass of the loop of [sys_sleep]; the comparison is unsigned. *)
Definition sleep_pass (ticks0 n : Z) : M kst pass :=
  t ← gets k_ticks;
  if u32 (t - ticks0) <? u32 n then
    p ← myproc;
    if c_true (p_killed p) then mret (Returns (-1))
    else _ ← sleep ChTicks false; mret Sleeps
  else mret (Returns 0).
Definition sys_sleep : M kst Z :=
  n ← argint 0;
  match n with
  | None => mret (-1)
  | Some n =>
      ticks0 ← gets k_ticks;
      r ← sleep_pass ticks0 n;
      match r with Returns r => mret r | Sleeps => blocked "ticks" end
  end.
Definition sys_uptime : M kst Z := t ← gets k_ticks; mret (i32 t).

(** ** Memory mappings *)

(** What [argint n] stores for the mapping calls. *)
Definition args_of (k : kst) (n : nat) : option Z :=
  match argint (Z.of_nat n) k with Ret r _ => r | _ => None end.
Definition file_rewind (f off : Z) : M kst unit := upd_file f (with_off off).
Definition filewrite_user (f addr n : Z) : M kst Z :=
  bytes ← uload addr (Z.to_nat n); filewrite devsw f bytes n.
Definition fileread_user (f addr n : Z) : M kst Z :=
  r ← fileread devsw f n; _ ← ustore addr r.2; mret r.1.

Definition call_wmap : M kst Z := k ← gets id; on_tab (sys_wmap (args_of k)).
Definition call_wremap : M kst Z := k ← gets id; r ← on_tab (sys_wremap (args_of k)); mret (i32 r).
Definition call_wunmap : M kst Z := k ← gets id; sys_wunmap file_rewind filewrite_user (args_of k).

(** An array of [int] or [uint] in user memory. *)
Fixpoint ustore_words (a : Z) (ws : list Z) : M kst unit :=
  match ws with
  | [] => mret tt
  | w :: ws => _ ← ustore32 a w; ustore_words (a + 4) ws
  end.

(** The caller's [struct pgdirinfo] and [struct wmapinfo], of which the entries
    that are filled in are written.  Only the size of a pointer is checked; a
    failed check leaves the pointer uninitialised. *)
Definition call_getpgdirinfo : M kst Z :=
  p ← argptr 0 4;
  match p with
  | None => undef "uninitialised local"
  | Some a =>
      let z := replicate 32 0 in
      r ← sys_getpgdirinfo (a =? 0) (mkPgInfo 0 z z);
      let n := Z.to_nat (n_upages r.2) in
      _ ← when (n_upages r.2 >? 0) (ustore32 a (n_upages r.2));
      _ ← ustore_words (a + 4) (take n (pi_va r.2));
      _ ← ustore_words (a + 132) (take n (pi_pa r.2));
      mret r.1
  end.
Definition call_getwmapinfo : M kst Z :=
  p ← argptr 0 4;
  match p with
  | None => undef "uninitialised local"
  | Some a =>
      if a =? 0 then mret FAILED
      else
        let z := replicate 16 0 in
        r ← on_tab (sys_getwmapinfo false (mkInfo 0 z z z z));
        let n := Z.to_nat (total_mmaps r.2) in
        _ ← ustore32 a (total_mmaps r.2);
        _ ← ustore_words (a + 4) (take n (wi_addr r.2));
        _ ← ustore_words (a + 68) (take n (wi_length r.2));
        _ ← ustore_words (a + 132) (take n (n_loaded_pages r.2));
        mret r.1
  end.

(** ** Dispatch (syscall.c) *)

(** The table [syscalls], indexed by the numbers of syscall.h. *)
Definition syscalls (num : Z) : option (M kst Z) :=
  match num with
  | 1 => Some sys_fork
  | 2 => Some sys_exit
  | 3 => Some sys_wait
  | 4 => Some sys_pipe
  | 5 => Some (sys_read devsw)
  | 6 => Some sys_kill
  | 7 => Some (sys_exec (exec devsw))
  | 8 => Some sys_fstat
  | 9 => Some (sys_chdir devsw)
  | 10 => Some sys_dup
  | 11 => Some sys_getpid
  | 12 => Some sys_sbrk
  | 13 => Some sys_sleep
  | 14 => Some sys_uptime
  | 15 => Some (sys_open devsw)
  | 16 => Some (sys_write devsw)
  | 17 => Some (sys_mknod devsw)
  | 18 => Some (sys_unlink devsw)
  | 19 => Some (sys_link devsw)
  | 20 => Some (sys_mkdir devsw)
  | 21 => Some sys_close
  | 22 => Some call_wmap
  | 23 => Some call_wunmap
  | 24 => Some call_wremap
  | 25 => Some call_getpgdirinfo
  | 26 => Some call_getwmapinfo
  | _ => None
  end.
Definition set_eax (v : Z) : M kst unit := upd_me (fun p => with_tf (with_eax (u32 v) (p_tf p)) p).
Definition syscall : M kst unit :=
  p ← myproc;
  let num := i32 (tf_eax (p_tf p)) in
  match syscalls num with
  | Some call => r ← call; set_eax r
  | None => set_eax (-1)
  end.

(** ** Traps (trap.c)

    [cpu0] when the trap is on the first CPU, [cr2] the faulting address.  The
    interrupt handlers of the disk, the keyboard and the serial line are
    parameters. *)
Record handlers := mkHandlers { ideintr : M kst unit; kbdintr : M kst unit; uartintr : M kst unit }.
(** The process goes on, has ended, or has given up the CPU. *)
Inductive after := Resumes | Exited | Yielded.

Definition killed_exit (user : bool) : M kst (option after) :=
  p ← myproc;
  if c_true (p_killed p) && user then _ ← exit; mret (Some Exited) else mret None.

Definition trap_syscall (tf : trapframe) : M kst after :=
  r ← killed_exit true;
  match r with
  | Some a => mret a
  | None =>
      _ ← upd_me (with_tf tf);
      _ ← syscall;
      r ← killed_exit true;
      mret (default Resumes r)
  end.

Definition trap_cause (h : handlers) (cpu0 : bool) (cr2 : Z) (tf : trapframe) : M kst unit :=
  let n := tf_trapno tf in
  if n =? T_IRQ0 + IRQ_TIMER then
    when cpu0 (
      _ ← modify (fun k => set_ticks (u32 (k_ticks k + 1)) k);
      wakeup ChTicks)
  else if n =? T_IRQ0 + IRQ_IDE then ideintr h
  else if n =? T_IRQ0 + IRQ_IDE + 1 then mret tt
  else if n =? T_IRQ0 + IRQ_KBD then kbdintr h
  else if n =? T_IRQ0 + IRQ_COM1 then uartintr h
  else if (n =? T_IRQ0 + 7) || (n =? T_IRQ0 + IRQ_SPURIOUS) then mret tt
  else if n =? T_PGFLT then page_fault fileread_user cr2
  else if Z.land (tf_cs tf) 3 =? 0 then panic "trap"
  else upd_me (with_killed 1).

Definition trap (h : handlers) (cpu0 : bool) (cr2 : Z) (tf : trapframe) : M kst after :=
  if tf_trapno tf =? T_SYSCALL then trap_syscall tf
  else
    let user := Z.land (tf_cs tf) 3 =? DPL_USER in
    _ ← trap_cause h cpu0 cr2 tf;
    r ← killed_exit user;
    match r with
    | Some a => mret a
    | None =>
        p ← myproc;
        if bool_decide (p_state p = RUNNING) && (tf_trapno tf =? T_IRQ0 + IRQ_TIMER) then
          _ ← yield;
          mret Yielded
        else
          r ← killed_exit user;
          mret (default Resumes r)
    end.
(** The end of [trap] when the process has been chosen again. *)
Definition trap_again (tf : trapframe) : M kst after :=
  _ ← release_ptable;
  r ← killed_exit (Z.land (tf_cs tf) 3 =? DPL_USER);
  mret (default Resumes r).
End Syscall.
