(* ===== verification/Segments.v ===== *)
(** * Segments and gates (mmu.h, vm.c: seginit, switchuvm, trap.c: tvinit)

    The descriptor tables the kernel gives to the processor: bit-fields of 64-bit
    descriptors, and what the processor makes of them when a program executes
    [int n] or a device interrupts.  User code can enter the kernel only through
    the vector of system calls. *)

From S2P Require Import Prelude Mmu Proc Syscall.
From stdpp Require Import base gmap list strings.
From Stdlib Require Import ZArith Lia.
#[local] Open Scope Z_scope.

(** ** Descriptors *)

Definition SEG_KCODE : Z := 1.
Definition SEG_KDATA : Z := 2.
Definition SEG_TSS : Z := 5.
Definition NSEGS : Z := 6.
Definition STA_X : Z := 8.
Definition STA_W : Z := 2.
Definition STA_R : Z := 2.
Definition STS_T32A : Z := 9.
Definition STS_IG32 : Z := 14.
Definition STS_TG32 : Z := 15.

(** Storing in a bit-field keeps the low bits. *)
Definition field (w x : Z) : Z := x mod 2 ^ w.

Record segdesc := mkSeg {
  lim_15_0 : Z; base_15_0 : Z; base_23_16 : Z; sg_type : Z; sg_s : Z; sg_dpl : Z; sg_p : Z;
  lim_19_16 : Z; sg_avl : Z; sg_rsv1 : Z; sg_db : Z; sg_g : Z; base_31_24 : Z }.
Definition SEG (type base lim dpl : Z) : segdesc :=
  mkSeg (Z.land (Z.shiftr lim 12) 65535) (Z.land (u32 base) 65535) (Z.land (Z.shiftr (u32 base) 16) 255)
    (field 4 type) 1 (field 2 dpl) 1 (field 4 (Z.shiftr (u32 lim) 28)) 0 0 1 1 (field 8 (Z.shiftr (u32 base) 24)).
Definition SEG16 (type base lim dpl : Z) : segdesc :=
  mkSeg (Z.land lim 65535) (Z.land (u32 base) 65535) (Z.land (Z.shiftr (u32 base) 16) 255)
    (field 4 type) 1 (field 2 dpl) 1 (field 4 (Z.shiftr (u32 lim) 16)) 0 0 1 0 (field 8 (Z.shiftr (u32 base) 24)).

Record gatedesc := mkGate {
  off_15_0 : Z; gd_cs : Z; gd_args : Z; gd_rsv1 : Z; gd_type : Z; gd_s : Z; gd_dpl : Z; gd_p : Z; off_31_16 : Z }.
Definition SETGATE (istrap : bool) (sel off d : Z) : gatedesc :=
  mkGate (Z.land (u32 off) 65535) (field 16 sel) 0 0 (if istrap then STS_TG32 else STS_IG32) 0 (field 2 d) 1
    (field 16 (Z.shiftr (u32 off) 16)).

(** ** What the kernel sets up *)

Definition seginit (gdt : list segdesc) : list segdesc :=
  <[Z.to_nat SEG_UDATA := SEG STA_W 0 4294967295 DPL_USER]>
  (<[Z.to_nat SEG_UCODE := SEG (Z.lor STA_X STA_R) 0 4294967295 DPL_USER]>
  (<[Z.to_nat SEG_KDATA := SEG STA_W 0 4294967295 0]>
  (<[Z.to_nat SEG_KCODE := SEG (Z.lor STA_X STA_R) 0 4294967295 0]> gdt))).

(** The fields of the task state that [switchuvm] sets. *)
Record taskstate := mkTss { ts_esp0 : Z; ts_ss0 : Z; ts_iomb : Z }.
Definition tss_size : Z := 104.
Definition switch_tss (kstack ts_addr : Z) (gdt : list segdesc) : list segdesc * taskstate :=
  let d := SEG16 STS_T32A ts_addr (tss_size - 1) 0 in
  let d := mkSeg (lim_15_0 d) (base_15_0 d) (base_23_16 d) (sg_type d) 0 (sg_dpl d) (sg_p d)
             (lim_19_16 d) (sg_avl d) (sg_rsv1 d) (sg_db d) (sg_g d) (base_31_24 d) in
  (<[Z.to_nat SEG_TSS := d]> gdt, mkTss (u32 (kstack + KSTACKSIZE)) (Z.shiftl SEG_KDATA 3) 65535).

Definition NVECTORS : Z := 256.
Definition tvinit (vectors : Z -> Z) : list gatedesc :=
  <[Z.to_nat T_SYSCALL := SETGATE true (Z.shiftl SEG_KCODE 3) (vectors T_SYSCALL) DPL_USER]>
    ((fun i => SETGATE false (Z.shiftl SEG_KCODE 3) (vectors i) 0) <$> seqZ 0 NVECTORS).
(** The three halves that [lgdt] and [lidt] load. *)
Definition table_register (p size : Z) : Z * Z * Z := ((size - 1) mod 65536, p mod 65536, Z.shiftr p 16 mod 65536).

(** ** The processor's view

    Descriptors as two words, with the first bit-field lowest, and their parts as
    the processor takes them out again. *)
Definition seg_words (d : segdesc) : Z * Z :=
  (lim_15_0 d + 65536 * base_15_0 d,
   base_23_16 d + 2 ^ 8 * sg_type d + 2 ^ 12 * sg_s d + 2 ^ 13 * sg_dpl d + 2 ^ 15 * sg_p d + 2 ^ 16 * lim_19_16 d +
   2 ^ 20 * sg_avl d + 2 ^ 21 * sg_rsv1 d + 2 ^ 22 * sg_db d + 2 ^ 23 * sg_g d + 2 ^ 24 * base_31_24 d).
Definition gate_words (g : gatedesc) : Z * Z :=
  (off_15_0 g + 65536 * gd_cs g,
   gd_args g + 2 ^ 5 * gd_rsv1 g + 2 ^ 8 * gd_type g + 2 ^ 12 * gd_s g + 2 ^ 13 * gd_dpl g + 2 ^ 15 * gd_p g + 2 ^ 16 * off_31_16 g).
Definition bits (lo n w : Z) : Z := w / 2 ^ lo mod 2 ^ n.

Record segment := mkSegment { s_base : Z; s_limit : Z; s_type : Z; s_app : bool; s_dpl : Z; s_present : bool }.
Definition cpu_segment (w : Z * Z) : segment :=
  let lim := bits 0 16 w.1 + 65536 * bits 16 4 w.2 in
  mkSegment (bits 16 16 w.1 + 65536 * bits 0 8 w.2 + 16777216 * bits 24 8 w.2)
    (if bits 23 1 w.2 =? 1 then 4096 * lim + 4095 else lim) (bits 8 4 w.2) (bits 12 1 w.2 =? 1) (bits 13 2 w.2) (bits 15 1 w.2 =? 1).
Record gate := mkG { g_offset : Z; g_sel : Z; g_type : Z; g_dpl : Z; g_present : bool }.
Definition cpu_gate (w : Z * Z) : gate :=
  mkG (bits 0 16 w.1 + 65536 * bits 16 16 w.2) (bits 16 16 w.1) (bits 8 5 w.2) (bits 13 2 w.2) (bits 15 1 w.2 =? 1).

(** Where a trap leads: the privilege level, the address, and whether interrupts
    are turned off; or a protection fault.  [software] is an [int] instruction,
    for which the gate's level counts. *)
Record entry_point := mkEntry { e_cpl : Z; e_eip : Z; e_cli : bool }.
Definition trap_entry (gdt : list segdesc) (idt : list gatedesc) (software : bool) (cpl n : Z) : option entry_point :=
  gd ← idt !! Z.to_nat n;
  let g := cpu_gate (gate_words gd) in
  if negb (g_present g) || negb ((g_type g =? 14) || (g_type g =? 15)) || (software && (g_dpl g <? cpl)) then None
  else
    sd ← gdt !! Z.to_nat (g_sel g / 8);
    let s := cpu_segment (seg_words sd) in
    if s_present s && s_app s && (8 <=? s_type s) && (s_dpl s <=? cpl) && (g_offset g <=? s_limit s) then
      Some (mkEntry (s_dpl s) (u32 (s_base s + g_offset g)) (g_type g =? 14))
    else None.

(** ** Theorems *)

Lemma cpu_gate_SETGATE istrap sel off d :
  0 <= sel < 65536 -> is_u32 off -> 0 <= d < 4 ->
  cpu_gate (gate_words (SETGATE istrap sel off d)) = mkG off sel (if istrap then 15 else 14) d true.
Proof.
  intros Hs Ho Hd. unfold is_u32 in Ho. unfold cpu_gate, gate_words, SETGATE, bits, field. cbn [fst snd off_15_0 gd_cs gd_args gd_rsv1 gd_type gd_s gd_dpl gd_p off_31_16].
  rewrite u32_small, Z.shiftr_div_pow2 by lia. change 65535 with (Z.ones 16). rewrite Z.land_ones by lia.
  rewrite (Z.mod_small sel), (Z.mod_small d), (Z.mod_small (off / 2 ^ 16)) by (cbn; dlia).
  assert (off / 2 ^ 16 < 65536 /\ 0 <= off / 2 ^ 16 /\ 0 <= off mod 2 ^ 16 < 65536 /\ off = off mod 2 ^ 16 + 65536 * (off / 2 ^ 16)) as (H1 & H2 & H3 & H4) by (cbn; dlia).
  set (hi := off / 2 ^ 16) in *. set (lo := off mod 2 ^ 16) in *. clearbody hi lo.
  set (t := if istrap then STS_TG32 else STS_IG32). assert (t = if istrap then 15 else 14) as Ht by by destruct istrap.
  assert (14 <= t <= 15) by (rewrite Ht; destruct istrap; lia). rewrite <-Ht. clearbody t.
  f_equal; cbn; dlia.
Qed.
(** The kernel's code segment: all addresses, level 0. *)
Lemma cpu_segment_code dpl : dpl = 0 \/ dpl = 3 ->
  cpu_segment (seg_words (SEG (Z.lor STA_X STA_R) 0 4294967295 dpl)) = mkSegment 0 4294967295 10 true dpl true.
Proof. by intros [-> | ->]. Qed.

(** C33: user code enters the kernel only by a system call: [int n] faults for
    every other vector, and a call or an interrupt continues at the kernel's
    vector, at level 0, with interrupts off unless it is a system call. *)
Theorem kernel_entry vectors gdt cpl n :
  (forall k, is_u32 (vectors k)) -> length gdt = Z.to_nat NSEGS -> cpl = 0 \/ cpl = 3 -> 0 <= n < NVECTORS ->
  trap_entry (seginit gdt) (tvinit vectors) true cpl n =
    (if (n =? T_SYSCALL) || (cpl =? 0) then Some (mkEntry 0 (vectors n) (negb (n =? T_SYSCALL))) else None) /\
  trap_entry (seginit gdt) (tvinit vectors) false cpl n = Some (mkEntry 0 (vectors n) (negb (n =? T_SYSCALL))).
Proof.
  intros Hv Hg Hc Hn. unfold NVECTORS in Hn. unfold trap_entry.
  assert (tvinit vectors !! Z.to_nat n = Some (SETGATE (n =? T_SYSCALL) 8 (vectors n) (if n =? T_SYSCALL then 3 else 0))) as ->.
  { unfold tvinit. destruct (Z.eqb_spec n T_SYSCALL) as [->|Hne].
    - apply list_lookup_insert_eq. rewrite length_fmap, length_seqZ. by vm_compute; lia.
    - rewrite list_lookup_insert_ne by (unfold T_SYSCALL in *; lia). rewrite list_lookup_fmap, lookup_seqZ_lt by (unfold NVECTORS; lia).
      cbn. by rewrite Z2Nat.id by lia. }
  cbn [mbind option_bind]. rewrite cpu_gate_SETGATE by (done || (destruct (n =? T_SYSCALL); lia)). cbn [g_present g_type g_dpl g_sel g_offset].
  assert (seginit gdt !! Z.to_nat (8 / 8) = Some (SEG (Z.lor STA_X STA_R) 0 4294967295 0)) as ->.
  { unfold seginit. do 3 rewrite list_lookup_insert_ne by done. apply list_lookup_insert_eq. rewrite Hg. apply Nat.ltb_lt. reflexivity. }
  cbn [mbind option_bind]. rewrite cpu_segment_code by by left. cbn [s_present s_app s_type s_dpl s_limit s_base].
  pose proof (Hv n) as Hvn. unfold is_u32 in Hvn. rewrite (proj2 (Z.leb_le (vectors n) 4294967295)) by lia. rewrite Z.add_0_l, u32_small by lia.
  destruct (n =? T_SYSCALL), Hc as [-> | ->]; done.
Qed.
Definition blank_gdt : list segdesc := replicate 6 (mkSeg 0 0 0 0 0 0 0 0 0 0 0 0 0).
Lemma kernel_entry_witness : trap_entry (seginit blank_gdt) (tvinit (fun k => 2148532224 + k mod 256)) true 3 64 = Some (mkEntry 0 2148532288 false) /\
  trap_entry (seginit blank_gdt) (tvinit (fun k => 2148532224 + k mod 256)) true 3 14 = None.
Proof.
  split.
  - exact (proj1 (kernel_entry (fun k => 2148532224 + k mod 256) blank_gdt 3 64 ltac:(intros k; unfold is_u32; dlia) eq_refl (or_intror eq_refl) ltac:(done))).
  - exact (proj1 (kernel_entry (fun k => 2148532224 + k mod 256) blank_gdt 3 14 ltac:(intros k; unfold is_u32; dlia) eq_refl (or_intror eq_refl) ltac:(done))).
Defined.
