(* ===== verification/Boot.v ===== *)
(** * The boot loader (bootmain.c)

    The second half of the boot block: it reads the kernel, an ELF file that starts
    at sector 1 of the boot disk, sector by sector into physical memory, and jumps
    to its entry point.  Memory is a function from physical addresses to bytes, the
    disk one from positions to bytes; the disk's registers are those of [Ide]. *)

From S2P Require Import Prelude Block Ide Exec.
From stdpp Require Import base gmap list strings.
From Stdlib Require Import ZArith Lia.
#[local] Open Scope Z_scope.

Definition SECTSIZE : Z := 512.
Definition pmem : Type := Z -> Z.
Definition word32 (m : pmem) (a : Z) : Z :=
  m a mod 256 + 256 * (m (a + 1) mod 256) + 65536 * (m (a + 2) mod 256) + 16777216 * (m (a + 3) mod 256).
Definition half16 (m : pmem) (a : Z) : Z := m a mod 256 + 256 * (m (a + 1) mod 256).

(** The bytes [f] from [a] on, [n] of them. *)
Definition put (m : pmem) (a n : Z) (f : Z -> Z) : pmem := fun x => if decide (a <= x < a + n) then f (x - a) else m x.

Section Boot.
  Variable disk : Z -> Z.

Definition sect_regs (offset : Z) : Z * Z * Z * Z :=
  (offset mod 256, Z.shiftr offset 8 mod 256, Z.shiftr offset 16 mod 256, Z.lor (Z.shiftr offset 24) 224 mod 256).
(** The disk sends the sector its registers name. *)
Definition readsect (dst offset : Z) (m : pmem) : pmem :=
  put m dst SECTSIZE (fun i => disk (SECTSIZE * (in_regs (sect_regs offset)).2 + i)).

Fixpoint readseg_loop (fuel : nat) (pa epa offset : Z) (m : pmem) : option pmem :=
  match fuel with
  | O => None
  | S fuel => if pa <? epa then readseg_loop fuel (u32 (pa + SECTSIZE)) epa (u32 (offset + 1)) (readsect pa offset m) else Some m
  end.
Definition readseg (pa count offset : Z) (m : pmem) : option pmem :=
  let epa := u32 (pa + count) in
  let pa := u32 (pa - offset mod SECTSIZE) in
  readseg_loop (S (S (Z.to_nat ((count + offset mod SECTSIZE) / SECTSIZE)))) pa epa (offset / SECTSIZE + 1) m.

Definition scratch : Z := 65536.
(** [struct elfhdr] and [struct proghdr] in memory. *)
Definition m_magic (m : pmem) (elf : Z) : Z := word32 m elf.
Definition m_entry (m : pmem) (elf : Z) : Z := word32 m (elf + 24).
Definition m_phoff (m : pmem) (elf : Z) : Z := word32 m (elf + 28).
Definition m_phnum (m : pmem) (elf : Z) : Z := half16 m (elf + 44).
Definition p_off (m : pmem) (ph : Z) : Z := word32 m (ph + 4).
Definition p_paddr (m : pmem) (ph : Z) : Z := word32 m (ph + 12).
Definition p_filesz (m : pmem) (ph : Z) : Z := word32 m (ph + 16).
Definition p_memsz (m : pmem) (ph : Z) : Z := word32 m (ph + 20).

Fixpoint boot_segments (n : nat) (ph : Z) (m : pmem) : option pmem :=
  match n with
  | O => Some m
  | S n =>
      let pa := p_paddr m ph in
      m' ← readseg pa (p_filesz m ph) (p_off m ph) m;
      let m' := if p_memsz m' ph >? p_filesz m' ph
                then put m' (u32 (pa + p_filesz m' ph)) (p_memsz m' ph - p_filesz m' ph) (fun _ => 0) else m' in
      boot_segments n (ph + 32) m'
  end.
(** The memory and the address that is called; no address without an ELF file. *)
Definition bootmain (m : pmem) : option (pmem * option Z) :=
  m ← readseg scratch 4096 0 m;
  if negb (m_magic m scratch =? ELF_MAGIC) then Some (m, None)
  else
    m ← boot_segments (Z.to_nat (m_phnum m scratch)) (scratch + m_phoff m scratch) m;
    Some (m, Some (m_entry m scratch)).

(** ** Reading a range of the file *)

Lemma sect_regs_ok offset : 0 <= offset < 16777216 -> in_regs (sect_regs offset) = (0, offset).
Proof.
  intros Ho. unfold in_regs, sect_regs. rewrite !(Z.shiftr_div_pow2 offset) by lia. change (2 ^ 24) with 16777216. rewrite (Z.div_small offset 16777216) by lia.
  change (Z.lor 0 224 mod 256) with 224. change (Z.land (Z.shiftr 224 4) 1) with 0. change (Z.land 224 15) with 0.
  change (2 ^ 16) with 65536. change (2 ^ 8) with 256. f_equal. dlia.
Qed.
(** The file on the disk. *)
Definition kernel (k : Z) : Z := disk (SECTSIZE + k).

Lemma readseg_loop_ok fuel pa epa sec m :
  0 <= pa -> epa + 512 <= 4294967296 -> 0 <= sec -> sec + Z.of_nat fuel <= 16777216 -> epa <= pa + 512 * (Z.of_nat fuel - 1) ->
  (1 <= fuel)%nat ->
  exists m', readseg_loop fuel pa epa sec m = Some m' /\
    (forall x, x < pa -> m' x = m x) /\ (forall x, pa <= x < epa -> m' x = disk (512 * sec + (x - pa))).
Proof.
  revert pa sec m. induction fuel as [|fuel IH]; intros pa sec m H0 H2 H3 H4 H5 H6; [lia|]. cbn [readseg_loop].
  destruct (Z.ltb_spec pa epa) as [Hlt|Hge]; [|exists m; split; [done|]; split; [done|intros; lia]].
  unfold SECTSIZE. rewrite !u32_small by lia. destruct (IH (pa + 512) (sec + 1) (readsect pa sec m)) as (m' & Hr & Hlo & Hhi); try lia.
  exists m'. split; [done|]. unfold readsect, put, SECTSIZE in *. rewrite sect_regs_ok in * by lia. cbn [snd] in *. split.
  - intros x Hx. rewrite Hlo by lia. by rewrite decide_False by lia.
  - intros x Hx. destruct (decide (x < pa + 512)) as [Hx'|Hx'].
    + rewrite Hlo by lia. by rewrite decide_True by lia.
    + rewrite Hhi by lia. f_equal. lia.
Qed.
(** Only what is behind [pa], rounded down, is written. *)
Lemma readseg_ok pa count offset m :
  0 <= count -> 0 <= offset -> 0 <= pa - offset mod 512 -> pa + count + 1024 <= 4294967296 -> offset + count <= 4294967296 ->
  exists m', readseg pa count offset m = Some m' /\
    (forall x, x < pa - offset mod 512 -> m' x = m x) /\ (forall k, 0 <= k < count -> m' (pa + k) = kernel (offset + k)).
Proof.
  intros H1 H2 H3 H4 H5. unfold readseg, SECTSIZE. rewrite !u32_small by dlia.
  destruct (readseg_loop_ok (S (S (Z.to_nat ((count + offset mod 512) / 512)))) (pa - offset mod 512) (pa + count) (offset / 512 + 1) m)
    as (m' & Hr & Hlo & Hhi); [dlia..|].
  exists m'. split; [done|]. split; [done|]. intros k Hk. rewrite Hhi by dlia. unfold kernel, SECTSIZE. f_equal. dlia.
Qed.

(** ** Loading the kernel *)

(** The program headers of the file. *)
Definition k_ph (i : Z) : Z := m_phoff kernel 0 + 32 * i.
Definition k_off (i : Z) : Z := p_off kernel (k_ph i).
Definition k_paddr (i : Z) : Z := p_paddr kernel (k_ph i).
Definition k_filesz (i : Z) : Z := p_filesz kernel (k_ph i).
Definition k_memsz (i : Z) : Z := p_memsz kernel (k_ph i).
Definition k_phnum : Z := m_phnum kernel 0.

(** A kernel that can be loaded: its headers are in the first page, and its
    segments, rounded down to sectors, follow each other behind the scratch page. *)
Record bootable : Prop := {
  bk_magic : m_magic kernel 0 = ELF_MAGIC;
  bk_table : m_phoff kernel 0 + 32 * k_phnum <= 4096;
  bk_fits i : 0 <= i < k_phnum -> k_filesz i <= k_memsz i /\ k_paddr i + k_memsz i + 1024 <= 4294967296 /\
    k_off i + k_filesz i <= 4294967296 /\ scratch + 4096 <= k_paddr i - k_off i mod 512;
  bk_order i j : 0 <= i -> i < j < k_phnum -> k_paddr i + k_memsz i <= k_paddr j - k_off j mod 512 }.

Definition has_header (m : pmem) : Prop := forall k, 0 <= k < 4096 -> m (scratch + k) = kernel k.
Definition has_segment (m : pmem) (i : Z) : Prop := forall k, 0 <= k < k_memsz i ->
  m (k_paddr i + k) = if decide (k < k_filesz i) then kernel (k_off i + k) else 0.

Lemma word32_range f a : is_u32 (word32 f a).
Proof. unfold is_u32, word32. dlia. Qed.
Lemma word32_header m a : has_header m -> 0 <= a -> a + 4 <= 4096 -> word32 m (scratch + a) = word32 kernel a.
Proof. intros Hm H0 H1. unfold word32. rewrite <-!Z.add_assoc, !Hm by lia. done. Qed.
Lemma headers_in_page i a : bootable -> 0 <= i < k_phnum -> 0 <= a -> a + 4 <= 32 -> 0 <= k_ph i + a /\ k_ph i + a + 4 <= 4096.
Proof.
  intros [_ Ht _ _] Hi H0 H1. unfold k_ph. pose proof (word32_range kernel (0 + 28)) as Hr. unfold is_u32 in Hr. fold (m_phoff kernel 0) in Hr. lia.
Qed.
Lemma field_header m i a :
  bootable -> has_header m -> 0 <= i < k_phnum -> 0 <= a -> a + 4 <= 32 ->
  word32 m (scratch + k_ph i + a) = word32 kernel (k_ph i + a).
Proof. intros Hb Hm Hi H0 H1. destruct (headers_in_page i a Hb Hi H0 H1). rewrite <-Z.add_assoc. by apply word32_header. Qed.

Lemma boot_segments_ok n i m :
  bootable -> 0 <= i -> i + Z.of_nat n = k_phnum -> has_header m -> (forall j, 0 <= j < i -> has_segment m j) ->
  exists m', boot_segments n (scratch + k_ph i) m = Some m' /\ has_header m' /\ forall j, 0 <= j < k_phnum -> has_segment m' j.
Proof.
  intros Hb. revert i m. induction n as [|n IH]; intros i m Hi Hn Hh Hs; cbn [boot_segments].
  { exists m. split; [done|]. split; [done|]. intros j Hj. apply Hs. lia. }
  assert (0 <= i < k_phnum) as Hr by lia. destruct (bk_fits Hb i Hr) as (F1 & F2 & F3 & F4).
  assert (is_u32 (k_filesz i) /\ is_u32 (k_off i) /\ is_u32 (k_paddr i)) as (U1 & U2 & U3) by (split; [|split]; apply word32_range).
  unfold is_u32 in *. cbv zeta. unfold p_paddr, p_filesz, p_off, p_memsz. rewrite !(field_header m) by (done || lia).
  change (word32 kernel (k_ph i + 12)) with (k_paddr i). change (word32 kernel (k_ph i + 16)) with (k_filesz i). change (word32 kernel (k_ph i + 4)) with (k_off i).
  destruct (readseg_ok (k_paddr i) (k_filesz i) (k_off i) m) as (m1 & -> & Hlo & Hhi); [lia|lia|unfold scratch in *; lia|lia|lia|].
  cbn [mbind option_bind]. assert (has_header m1) as Hh1 by (intros k Hk; rewrite Hlo by lia; by apply Hh).
  rewrite !(field_header m1) by (done || lia).
  change (word32 kernel (k_ph i + 20)) with (k_memsz i). change (word32 kernel (k_ph i + 16)) with (k_filesz i). rewrite u32_small by lia.
  set (m2 := if k_memsz i >? k_filesz i then _ else m1).
  assert (forall x, m2 x = if decide (k_paddr i + k_filesz i <= x < k_paddr i + k_memsz i) then 0 else m1 x) as Hm2.
  { intros x. subst m2. rewrite Z.gtb_ltb. destruct (Z.ltb_spec (k_filesz i) (k_memsz i)); [|by rewrite decide_False by lia].
    unfold put. repeat case_decide; lia || done. }
  assert (forall x, x < k_paddr i - k_off i mod 512 -> m2 x = m x) as Hbelow.
  { intros x Hx. rewrite Hm2, decide_False by dlia. by apply Hlo. }
  replace (scratch + k_ph i + 32) with (scratch + k_ph (i + 1)) by (unfold k_ph; lia). apply IH; [lia|lia| |].
  - intros k Hk. rewrite Hbelow by (unfold scratch in *; lia). by apply Hh.
  - intros j Hj. destruct (decide (j = i)) as [->|Hne]; intros k Hk.
    + rewrite Hm2. destruct (decide (k < k_filesz i)); [rewrite decide_False by lia; apply Hhi; lia|by rewrite decide_True by lia].
    + pose proof (bk_order Hb j i ltac:(lia) ltac:(lia)). rewrite Hbelow by lia. apply Hs; lia.
Qed.
Lemma bootmain_ok m : bootable ->
  exists m', bootmain m = Some (m', Some (m_entry kernel 0)) /\ forall i, 0 <= i < k_phnum -> has_segment m' i.
Proof.
  intros Hb. unfold bootmain. destruct (readseg_ok scratch 4096 0 m) as (m1 & -> & _ & Hm1); [unfold scratch; dlia..|].
  cbn [mbind option_bind]. assert (has_header m1) as Hh by (intros k Hk; rewrite Hm1 by done; by rewrite Z.add_0_l).
  assert (m_magic m1 scratch = m_magic kernel 0) as -> by (unfold m_magic; rewrite <-(Z.add_0_r scratch); by apply word32_header).
  rewrite (bk_magic Hb). change (negb (ELF_MAGIC =? ELF_MAGIC)) with false. cbv iota.
  assert (m_phnum m1 scratch = k_phnum) as -> by (unfold k_phnum, m_phnum, half16; rewrite <-!Z.add_assoc, !Hh by lia; done).
  assert (m_phoff m1 scratch = m_phoff kernel 0) as -> by (unfold m_phoff; rewrite Z.add_0_l; by apply word32_header).
  replace (scratch + m_phoff kernel 0) with (scratch + k_ph 0) by (unfold k_ph; lia).
  assert (0 <= k_phnum) by (unfold k_phnum, m_phnum, half16; dlia).
  destruct (boot_segments_ok (Z.to_nat k_phnum) 0 m1 Hb) as (m2 & -> & Hh2 & Hs2); [lia|lia|done|intros; lia|].
  exists m2. split; [|done]. cbn [mbind option_bind]. unfold m_entry. by rewrite Z.add_0_l, word32_header.
Qed.
End Boot.

(** C34: the boot loader puts every segment of the kernel where its header says,
    filled up with zeroes, and calls the entry point of the file. *)
Theorem bootmain_loads disk m :
  bootable disk ->
  exists m', bootmain disk m = Some (m', Some (m_entry (kernel disk) 0)) /\
    forall i k, 0 <= i < k_phnum disk -> 0 <= k < k_memsz disk i ->
      m' (k_paddr disk i + k) = if decide (k < k_filesz disk i) then kernel disk (k_off disk i + k) else 0.
Proof. intros Hb. destruct (bootmain_ok disk m Hb) as (m' & Hr & Hs). exists m'. split; [done|]. intros i k Hi. by apply Hs. Qed.
(** A file with one segment, of eight bytes at 4096, loaded at 1 MB. *)
Definition demo_kernel : list (Z * list Z) :=
  [(0, [127; 69; 76; 70]); (24, [12; 0; 16; 0]); (28, [52; 0; 0; 0]); (44, [1; 0]);
   (52 + 4, [0; 16; 0; 0]); (52 + 12, [0; 0; 16; 0]); (52 + 16, [8; 0; 0; 0]); (52 + 20, [16; 0; 0; 0]);
   (4096, [1; 2; 3; 4; 5; 6; 7; 8])].
Definition demo_boot_disk (x : Z) : Z :=
  foldr (fun p r => if (p.1 <=? x - 512) && (x - 512 <? p.1 + Z.of_nat (length p.2)) then nth (Z.to_nat (x - 512 - p.1)) p.2 0 else r) 0 demo_kernel.
Lemma demo_fields :
  m_magic (kernel demo_boot_disk) 0 = ELF_MAGIC /\ m_entry (kernel demo_boot_disk) 0 = 1048588 /\ m_phoff (kernel demo_boot_disk) 0 = 52 /\
  k_phnum demo_boot_disk = 1 /\ k_off demo_boot_disk 0 = 4096 /\ k_paddr demo_boot_disk 0 = 1048576 /\
  k_filesz demo_boot_disk 0 = 8 /\ k_memsz demo_boot_disk 0 = 16 /\ kernel demo_boot_disk 4103 = 8.
Proof. vm_compute. repeat split. Qed.
Lemma bootmain_loads_witness : exists m', bootmain demo_boot_disk (fun _ => 255) = Some (m', Some 1048588) /\ m' (1048576 + 7) = 8 /\ m' (1048576 + 15) = 0.
Proof.
  destruct demo_fields as (E1 & E2 & E3 & E4 & E5 & E6 & E7 & E8 & E9).
  destruct (bootmain_loads demo_boot_disk (fun _ => 255)) as (m' & Hr & Hs).
  - split; [exact E1|rewrite E3, E4; lia| |].
    + intros i Hi. rewrite E4 in Hi. assert (i = 0) as -> by lia. rewrite E5, E6, E7, E8. change (4096 mod 512) with 0. unfold scratch. lia.
    + intros i j Hi Hj. rewrite E4 in Hj. lia.
  - rewrite E2 in Hr. exists m'. split; [exact Hr|]. pose proof (Hs 0 7) as H7. pose proof (Hs 0 15) as H15.
    rewrite E4, E5, E6, E7, E8 in H7, H15. rewrite decide_True in H7 by lia. rewrite decide_False in H15 by lia.
    split; [rewrite H7 by lia; exact E9|apply H15; lia].
Defined.
