(* ===== verification/Mp.v ===== *)
(** * Finding the processors (mp.c, mp.h)

    The BIOS describes the machine in a table in memory: a floating pointer
    structure, found by its signature and checksum in one of three areas, points to
    the table, which lists processors, interrupt controllers and buses. *)

From S2P Require Import Prelude Mmu Mem.
From stdpp Require Import base gmap list strings.
From Stdlib Require Import ZArith Lia.
#[local] Open Scope Z_scope.

Definition NCPU : Z := 8.
Definition MPPROC : Z := 0.
Definition MPBUS : Z := 1.
Definition MPIOAPIC : Z := 2.
Definition MPIOINTR : Z := 3.
Definition MPLINTR : Z := 4.

(** The variables that mpinit fills: [lapic], [cpus[].apicid] up to [ncpu] and
    [ioapicid]; and the ports it writes to. *)
Record mpst := mkMp { lapic : Z; apicids : list Z; ioapicid : Z; outs : list (Z * Z) }.
Definition ncpu (s : mpst) : Z := Z.of_nat (length (apicids s)).

Section Mp.
  Variable m : mem.

(** ** Searching *)

Fixpoint sum_loop (addr : Z) (n : nat) (sum : Z) : Z :=
  match n with O => sum | S n => sum_loop (addr + 1) n (sum + ld8 m addr) end.
Definition sum (addr len : Z) : Z := sum_loop addr (Z.to_nat len) 0 mod 256.
(** [memcmp] with a string is zero. *)
Fixpoint has_sig (p : Z) (sig : list Z) : bool :=
  match sig with [] => true | c :: sig => (ld8 m p =? c) && has_sig (p + 1) sig end.
Definition sig_MP : list Z := [95; 77; 80; 95].
Definition sig_PCMP : list Z := [80; 67; 77; 80].

Fixpoint mpsearch1_loop (fuel : nat) (p e : Z) : M mpst Z :=
  match fuel with
  | O => nofuel
  | S fuel =>
      if p <? e then
        if has_sig p sig_MP && (sum p 16 =? 0) then mret p else mpsearch1_loop fuel (p + 16) e
      else mret 0
  end.
Definition mpsearch1 (a len : Z) : M mpst Z :=
  let addr := P2V a in mpsearch1_loop (S (Z.to_nat len)) addr (addr + len).
Definition mpsearch : M mpst Z :=
  let bda := P2V 1024 in
  let p := Z.shiftl (Z.lor (Z.shiftl (ld8 m (bda + 15)) 8) (ld8 m (bda + 14))) 4 in
  mp ← (if c_true p then mpsearch1 p 1024
        else
          let p := Z.lor (Z.shiftl (ld8 m (bda + 20)) 8) (ld8 m (bda + 19)) * 1024 in
          mpsearch1 (u32 (p - 1024)) 1024);
  if c_true mp then mret mp else mpsearch1 983040 65536.

(** [mp->physaddr], [mp->imcrp]; the fields of the table. *)
Definition mp_physaddr (mp : Z) : Z := ld32 m (mp + 4).
Definition mp_imcrp (mp : Z) : Z := ld8 m (mp + 12).
Definition conf_length (conf : Z) : Z := ld8 m (conf + 4) + 256 * ld8 m (conf + 5).
Definition conf_version (conf : Z) : Z := ld8 m (conf + 6).
Definition conf_lapicaddr (conf : Z) : Z := ld32 m (conf + 36).

(** The floating pointer and the table. *)
Definition mpconfig : M mpst (option (Z * Z)) :=
  mp ← mpsearch;
  if (mp =? 0) || (mp_physaddr mp =? 0) then mret None
  else
    let conf := P2V (mp_physaddr mp) in
    if negb (has_sig conf sig_PCMP) then mret None
    else if negb (conf_version conf =? 1) && negb (conf_version conf =? 4) then mret None
    else if negb (sum conf (conf_length conf) =? 0) then mret None
    else mret (Some (mp, conf)).

(** ** Reading the table *)

Definition add_cpu (id : Z) (s : mpst) : mpst := mkMp (lapic s) (apicids s ++ [id]) (ioapicid s) (outs s).
Definition set_ioapicid (id : Z) (s : mpst) : mpst := mkMp (lapic s) (apicids s) id (outs s).
Definition set_lapic (a : Z) (s : mpst) : mpst := mkMp a (apicids s) (ioapicid s) (outs s).
Definition outb (port v : Z) (s : mpst) : mpst := mkMp (lapic s) (apicids s) (ioapicid s) (outs s ++ [(port, v)]).

(** The [break] of the last case leaves the switch and not the loop. *)
Fixpoint mp_entries (fuel : nat) (p e : Z) (ismp : bool) : M mpst bool :=
  match fuel with
  | O => nofuel
  | S fuel =>
      if p <? e then
        let type := ld8 m p in
        if type =? MPPROC then
          n ← gets ncpu;
          _ ← when (n <? NCPU) (modify (add_cpu (ld8 m (p + 1))));
          mp_entries fuel (p + 20) e ismp
        else if type =? MPIOAPIC then
          _ ← modify (set_ioapicid (ld8 m (p + 1)));
          mp_entries fuel (p + 8) e ismp
        else if (type =? MPBUS) || (type =? MPIOINTR) || (type =? MPLINTR) then
          mp_entries fuel (p + 8) e ismp
        else mp_entries fuel p e false
      else mret ismp
  end.
(** [in23] is what port 0x23 reads. *)
Definition mpinit (in23 : Z) : M mpst unit :=
  r ← mpconfig;
  match r with
  | None => panic "Expect to run on an SMP"
  | Some (mp, conf) =>
      _ ← modify (set_lapic (conf_lapicaddr conf));
      ismp ← mp_entries (S (Z.to_nat (conf_length conf))) (conf + 44) (conf + conf_length conf) true;
      if negb ismp then panic "Didn't find a suitable machine"
      else
        when (c_true (mp_imcrp mp)) (
          _ ← modify (outb 34 112);
          modify (outb 35 (Z.lor in23 1)))
  end.

(** ** What a table says *)

Inductive entry := Processor (id : Z) | IoApic (id : Z) | Other (type : Z).
Definition entry_size (x : entry) : Z := match x with Processor _ => 20 | _ => 8 end.
Definition entry_at (p : Z) (x : entry) : Prop :=
  match x with
  | Processor id => ld8 m p = MPPROC /\ ld8 m (p + 1) = id
  | IoApic id => ld8 m p = MPIOAPIC /\ ld8 m (p + 1) = id
  | Other t => ld8 m p = t /\ (t = MPBUS \/ t = MPIOINTR \/ t = MPLINTR)
  end.
Fixpoint table_at (p e : Z) (l : list entry) : Prop :=
  match l with [] => p = e | x :: l => entry_at p x /\ table_at (p + entry_size x) e l end.
Definition processors (l : list entry) : list Z := omap (fun x => match x with Processor id => Some id | _ => None end) l.
Definition io_apic (l : list entry) (dflt : Z) : Z := foldl (fun a x => match x with IoApic id => id | _ => a end) dflt l.

Definition is_mp (p : Z) : bool := has_sig p sig_MP && (sum p 16 =? 0).
(** The addresses that are looked at, in order. *)
Definition places (a len : Z) : list Z := (fun k => P2V a + 16 * k) <$> seqZ 0 (len / 16).
Definition all_places : list Z :=
  let bda := P2V 1024 in
  let ebda := 16 * (256 * ld8 m (bda + 15) + ld8 m (bda + 14)) in
  let base := 1024 * (256 * ld8 m (bda + 20) + ld8 m (bda + 19)) in
  (if ebda =? 0 then places (u32 (base - 1024)) 1024 else places ebda 1024) ++ places 983040 65536.

Record machine (mp conf : Z) (l : list entry) : Prop := {
  mc_first : List.find is_mp all_places = Some mp;
  mc_conf : mp_physaddr mp <> 0 /\ conf = P2V (mp_physaddr mp);
  mc_sig : has_sig conf sig_PCMP = true;
  mc_version : conf_version conf = 1 \/ conf_version conf = 4;
  mc_sum : sum conf (conf_length conf) = 0;
  mc_table : table_at (conf + 44) (conf + conf_length conf) l }.

(** ** Proofs *)

Lemma mpsearch1_loop_ok fuel n p s :
  0 <= n < Z.of_nat fuel ->
  wp (mpsearch1_loop fuel p (p + 16 * n)) (fun r s' => s' = s /\ r = default 0 (List.find is_mp ((fun k => p + 16 * k) <$> seqZ 0 n))) s.
Proof.
  revert n p. induction fuel as [|fuel IH]; intros n p Hn; [lia|]. cbn [mpsearch1_loop]. destruct (Z.ltb_spec p (p + 16 * n)) as [Hlt|Hge].
  - rewrite seqZ_cons by lia. cbn [fmap list_fmap List.find]. rewrite Z.mul_0_r, Z.add_0_r. fold (is_mp p). destruct (is_mp p); [by wp_step|].
    replace (p + 16 * n) with (p + 16 + 16 * (n - 1)) by lia. wp_use (IH (n - 1) (p + 16)); [lia|]. intros r s' [-> ->]. split; [done|].
    f_equal. f_equal. change (Z.succ 0) with (0 + 1). replace (Z.pred n) with (n - 1) by lia. apply list_eq. intros k. rewrite !list_lookup_fmap.
    destruct (decide (Z.of_nat k < n - 1)); [|by rewrite !lookup_seqZ_ge by lia]. rewrite !lookup_seqZ_lt by lia. cbn. f_equal. lia.
  - assert (n = 0) as -> by lia. by wp_step.
Qed.
Lemma mpsearch1_ok a len s :
  0 <= len -> len mod 16 = 0 -> wp (mpsearch1 a len) (fun r s' => s' = s /\ r = default 0 (List.find is_mp (places a len))) s.
Proof.
  intros H0 Hm. unfold mpsearch1, places. replace (P2V a + len) with (P2V a + 16 * (len / 16)) by dlia. apply mpsearch1_loop_ok. dlia.
Qed.
Lemma two_bytes a b : Z.lor (Z.shiftl (ld8 m a) 8) (ld8 m b) = 256 * ld8 m a + ld8 m b.
Proof.
  pose proof (ld8_range m b). rewrite Z.shiftl_mul_pow2 by lia. change (2 ^ 8) with 256. rewrite (lor_high_low _ _ 8); [lia|lia| |done].
  change (2 ^ 8) with 256. dlia.
Qed.
Lemma places_nonzero a len p : 0 <= a < 2147483648 \/ 2147484672 <= a < 4294967296 -> p ∈ places a len -> p <> 0.
Proof using. intros Ha (k & -> & Hk%elem_of_seqZ)%list_elem_of_fmap. unfold P2V, KERNBASE. mlia. Qed.
Lemma find_app {A} (f : A -> bool) l l' : List.find f (l ++ l') = match List.find f l with Some x => Some x | None => List.find f l' end.
Proof using. induction l as [|x l IH]; [done|]. cbn. by destruct (f x). Qed.
Lemma all_places_nonzero p : p ∈ all_places -> p <> 0.
Proof.
  unfold all_places. set (bda := P2V 1024). pose proof (ld8_range m (bda + 15)). pose proof (ld8_range m (bda + 14)).
  pose proof (ld8_range m (bda + 20)). pose proof (ld8_range m (bda + 19)). rewrite elem_of_app. intros [Hp|Hp].
  - destruct (_ =? 0); revert Hp; apply places_nonzero; mlia.
  - revert Hp. apply places_nonzero. lia.
Qed.
Lemma mpsearch_ok s : wp mpsearch (fun r s' => s' = s /\ r = default 0 (List.find is_mp all_places)) s.
Proof.
  unfold mpsearch, all_places. rewrite !two_bytes. rewrite Z.shiftl_mul_pow2 by lia. change (2 ^ 4) with 16.
  pose proof all_places_nonzero as Hall. unfold all_places in Hall. set (bda := P2V 1024) in *.
  rewrite (Z.mul_comm _ 16), (Z.mul_comm _ 1024). set (ebda := 16 * _) in *. set (base := 1024 * _) in *.
  set (first := if ebda =? 0 then places (u32 (base - 1024)) 1024 else places ebda 1024) in *.
  assert (wp (if c_true ebda then mpsearch1 ebda 1024 else mpsearch1 (u32 (base - 1024)) 1024)
    (fun r s' => s' = s /\ r = default 0 (List.find is_mp first)) s) as Hfirst.
  { unfold c_true. subst first. destruct (ebda =? 0); cbn [negb]; by apply mpsearch1_ok. }
  wp_step. wp_use Hfirst. intros r s' [-> ->]. assert (forall p, List.find is_mp first = Some p -> p <> 0) as Hnz.
  { intros p [Hin%list_elem_of_In _]%List.find_some. apply Hall, elem_of_app. by left. }
  rewrite find_app. destruct (List.find is_mp first) as [p|].
  - change (default 0 (Some p)) with p. unfold c_true. rewrite (proj2 (Z.eqb_neq p 0)) by by apply Hnz. cbn [negb]. by wp_step.
  - change (c_true (default 0 None)) with false. by apply mpsearch1_ok.
Qed.

Lemma table_length p e l : table_at p e l -> 8 * Z.of_nat (length l) <= e - p.
Proof.
  revert p. induction l as [|x l IH]; intros p; cbn [table_at length]; [lia|]. intros [_ H%IH]. destruct x; cbn in H; lia.
Qed.
Lemma mp_entries_ok fuel p e l b s :
  table_at p e l -> (length l < fuel)%nat -> ncpu s <= NCPU ->
  wp (mp_entries fuel p e b) (fun r s' => r = b /\
    s' = mkMp (lapic s) (take 8 (apicids s ++ processors l)) (io_apic l (ioapicid s)) (outs s)) s.
Proof.
  revert fuel p s. induction l as [|x l IH]; intros fuel p s Ht Hf Hn; (destruct fuel as [|fuel]; [cbn in Hf; lia|]); cbn [mp_entries].
  - cbn in Ht. subst p. rewrite Z.ltb_irrefl. wp_step. split; [done|]. unfold ncpu, NCPU in Hn. cbn. rewrite app_nil_r, take_ge by lia. by destruct s.
  - destruct Ht as [Hx Ht]. pose proof (table_length _ _ _ Ht) as Hlen. cbn [length] in Hf. unfold ncpu, NCPU in Hn.
    rewrite (proj2 (Z.ltb_lt p e)) by (destruct x; cbn in Hlen; lia). destruct x as [id|id|t]; cbn [entry_at entry_size] in *.
    + destruct Hx as [-> Hid]. rewrite Z.eqb_refl. wp_step. wp_step. wp_step. unfold ncpu, NCPU. destruct (Z.ltb_spec (Z.of_nat (length (apicids s))) 8) as [Hlt|Hge]; cbn [when].
      * wp_step. rewrite Hid. wp_use (IH fuel (p + 20) (add_cpu id s)); [done|lia|unfold ncpu, NCPU; cbn; rewrite length_app; cbn; lia|].
        intros r s' [-> ->]. split; [done|]. cbn. by rewrite <-app_assoc.
      * wp_step. wp_use (IH fuel (p + 20) s); [done|lia|done|]. intros r s' [-> ->]. split; [done|]. f_equal. by rewrite !take_app_length' by lia.
    + destruct Hx as [-> Hid]. change (MPIOAPIC =? MPPROC) with false. rewrite Z.eqb_refl. cbv iota. do 2 wp_step. rewrite Hid.
      wp_use (IH fuel (p + 8) (set_ioapicid id s)); [done|lia|done|]. done.
    + destruct Hx as [-> Htype]. assert (t =? MPPROC = false /\ t =? MPIOAPIC = false /\ (t =? MPBUS) || (t =? MPIOINTR) || (t =? MPLINTR) = true) as (-> & -> & ->)
        by (by destruct Htype as [->|[->| ->]]).
      wp_use (IH fuel (p + 8) s); [done|lia|done|]. done.
Qed.

(** On a machine whose BIOS describes it in a valid table [mpinit] finds the
    table and records what it lists: the first [NCPU] processors in their order,
    the I/O controller and the address of the local one. *)
Lemma mpinit_ok in23 mp conf l a :
  machine mp conf l ->
  mpinit in23 (mkMp 0 [] a []) = Ret tt (mkMp (conf_lapicaddr conf) (take 8 (processors l)) (io_apic l a)
    (if c_true (mp_imcrp mp) then [(34, 112); (35, Z.lor in23 1)] else [])).
Proof.
  intros [Hfind [Hph Hc] Hsig Hver Hsum Htab]. pose proof (table_length _ _ _ Htab) as Hlen.
  assert (mp <> 0) as Hmp by (apply List.find_some in Hfind as [Hin%list_elem_of_In _]; by apply all_places_nonzero).
  set (s0 := mkMp 0 [] a []). assert (wp (mpinit in23) (fun _ s' => s' = mkMp (conf_lapicaddr conf) (take 8 (processors l)) (io_apic l a)
    (if c_true (mp_imcrp mp) then [(34, 112); (35, Z.lor in23 1)] else [])) s0) as Hw.
  { unfold mpinit, mpconfig. do 2 wp_step. wp_use (mpsearch_ok s0). intros r s1 [-> ->]. rewrite Hfind. change (default 0 (Some mp)) with mp.
    rewrite (proj2 (Z.eqb_neq mp 0)), (proj2 (Z.eqb_neq (mp_physaddr mp) 0)) by done. cbn [orb]. rewrite <-Hc, Hsig, Hsum. cbn [negb Z.eqb].
    assert (negb (conf_version conf =? 1) && negb (conf_version conf =? 4) = false) as -> by (destruct Hver as [-> | ->]; done). wp_steps.
    wp_use (mp_entries_ok (S (Z.to_nat (conf_length conf))) (conf + 44) (conf + conf_length conf) l true (set_lapic (conf_lapicaddr conf) s0)); [done|lia|done|].
    intros r s2 [-> ->]. cbn [negb]. destruct (c_true (mp_imcrp mp)); cbn [when]; by wp_steps. }
  apply wp_Ret in Hw as ([] & s' & Hrun & ->). exact Hrun.
Qed.

Lemma processors_range p e l : table_at p e l -> Forall (fun a => 0 <= a < 256) (processors l).
Proof.
  revert p. induction l as [|x l IH]; intros p; [constructor|]. cbn [table_at]. intros [Hx Hl]. apply IH in Hl. destruct x; cbn in *; [|done|done].
  constructor; [|done]. destruct Hx as [_ <-]. apply ld8_range.
Qed.
(** An entry of another type is never left: the loop goes on with the same entry
    and the panic after it is not reached. *)
Lemma mp_unknown_loops fuel p e b s : p < e -> MPLINTR < ld8 m p -> mp_entries fuel p e b s = Fuel.
Proof.
  intros Hp Ht. unfold MPLINTR in Ht. revert b. induction fuel as [|fuel IH]; intros b; [done|]. cbn [mp_entries]. rewrite (proj2 (Z.ltb_lt _ _)) by done.
  unfold MPPROC, MPIOAPIC, MPBUS, MPIOINTR, MPLINTR. rewrite !(proj2 (Z.eqb_neq (ld8 m p) _)) by lia. apply IH.
Qed.
End Mp.

(** ** The table in another memory

    Memories that agree below [lim] describe the same machine, if its table is there. *)
Record table_below (m : mem) (lim mp conf : Z) : Prop := {
  tb_bda : P2V 1024 + 21 <= lim;
  tb_places p : p ∈ all_places m -> p + 16 <= lim;
  tb_conf : conf + 44 <= lim;
  tb_end : conf + conf_length m conf <= lim }.
Section Agree.
  Variables (m m' : mem) (lim : Z).
  Hypothesis Hag : forall a, a < lim -> ld8 m' a = ld8 m a.

Lemma has_sig_agree p sig : p + Z.of_nat (length sig) <= lim -> has_sig m' p sig = has_sig m p sig.
Proof using Hag. revert p. induction sig as [|c sig IH]; intros p Hp; [done|]. cbn [has_sig length] in *. rewrite Hag, IH by lia. done. Qed.
Lemma sum_agree p n : 0 <= n -> p + n <= lim -> sum m' p n = sum m p n.
Proof using Hag.
  intros Hn Hp. unfold sum. f_equal. rewrite <- (Z2Nat.id n) in Hp by done. clear Hn. generalize 0. revert p Hp.
  induction (Z.to_nat n) as [|k IH]; intros p Hp z; [done|]. cbn [sum_loop]. rewrite Hag by lia. apply IH. lia.
Qed.
Lemma ld32_agree p : p + 4 <= lim -> ld32 m' p = ld32 m p.
Proof using Hag. intros Hp. apply ld32_ext. intros b Hb. apply Hag. lia. Qed.
Lemma table_agree p e l : e <= lim -> table_at m p e l -> table_at m' p e l.
Proof using Hag.
  intros He. revert p. induction l as [|x l IH]; intros p; [done|]. cbn [table_at]. intros [Hx Hl].
  assert (p + entry_size x <= e) as Hp by (clear -Hl; revert Hl; generalize (p + entry_size x) as q; induction l as [|y l IH]; intros q; cbn [table_at]; [lia|intros [_ Hl]; apply IH in Hl; destruct y; cbn in Hl; lia]).
  split; [|by apply IH]. destruct x; cbn [entry_at entry_size] in *; by rewrite !Hag by lia.
Qed.
Lemma find_agree l : (forall p, p ∈ l -> p + 16 <= lim) -> List.find (is_mp m') l = List.find (is_mp m) l.
Proof using Hag.
  induction l as [|p l IH]; intros Hp; [done|]. cbn [List.find]. assert (p + 16 <= lim) by (apply Hp; by left).
  unfold is_mp at 1 3. rewrite has_sig_agree, sum_agree by (cbn; lia). rewrite IH by (intros; apply Hp; by right). done.
Qed.
Lemma machine_agree mp conf l : table_below m lim mp conf -> machine m mp conf l ->
  machine m' mp conf l /\ conf_lapicaddr m' conf = conf_lapicaddr m conf.
Proof using Hag.
  intros [Hb Hp Hc He] [Hf [Hph Hcf] Hsig Hv Hs Ht].
  assert (mp + 16 <= lim) as Hmp by (apply Hp; apply List.find_some in Hf as [Hin _]; by apply list_elem_of_In).
  assert (conf_length m' conf = conf_length m conf) as El by (unfold conf_length; by rewrite !Hag by lia).
  assert (mp_physaddr m' mp = mp_physaddr m mp) as Ep by (apply ld32_agree; lia).
  split; [|apply ld32_agree; lia]. split; rewrite ?El, ?Ep.
  - replace (all_places m') with (all_places m) by (unfold all_places; by rewrite !Hag by lia). by rewrite find_agree.
  - done.
  - rewrite has_sig_agree; [done|]. cbn. lia.
  - unfold conf_version. by rewrite !Hag by lia.
  - rewrite sum_agree; [done| |done]. unfold conf_length. pose proof (ld8_range m (conf + 4)). pose proof (ld8_range m (conf + 5)). lia.
  - by apply table_agree.
Qed.
End Agree.

(** A machine with two processors. *)
Definition put_bytes (a : Z) (l : list Z) (m : mem) : mem := snd (foldl (fun '(a, m) b => (a + 1, st8 m a b)) (a, m) l).
Definition bios : mem :=
  put_bytes (P2V 983040) [95; 77; 80; 95; 0; 16; 15; 0; 1; 4; 129; 0; 0; 0; 0; 0]
  (put_bytes (P2V 987136) ([80; 67; 77; 80; 92; 0; 4; 141] ++ replicate 28 0 ++ [0; 0; 224; 254; 0; 0; 0; 0] ++
    [0; 0] ++ replicate 18 0 ++ [0; 1] ++ replicate 18 0 ++ [2; 2] ++ replicate 6 0) ∅).
Lemma bios_machine : machine bios (P2V 983040) (P2V 987136) [Processor 0; Processor 1; IoApic 2].
Proof. split; [vm_compute; reflexivity|split; vm_compute; done|vm_compute; reflexivity|right; vm_compute; reflexivity|vm_compute; reflexivity|vm_compute; done]. Qed.
