(* ===== verification/Clock.v ===== *)
(** * The real time clock (lapic.c: cmostime, date.h)

    The kernel reads the date from six registers of the clock, one after the
    other, while the clock may be changing them.  It reads them twice and starts
    again when the clock says that it is updating or the readings differ; the date
    it returns is one that the clock showed. *)

From S2P Require Import Prelude.
From stdpp Require Import base gmap list strings.
From Stdlib Require Import ZArith Lia.
#[local] Open Scope Z_scope.

Definition CMOS_PORT : Z := 112.
Definition CMOS_RETURN : Z := 113.
Definition CMOS_STATA : Z := 10.
Definition CMOS_STATB : Z := 11.
Definition CMOS_UIP : Z := Z.shiftl 1 7.
Definition SECS : Z := 0.
Definition MINS : Z := 2.
Definition HOURS : Z := 4.
Definition DAY : Z := 7.
Definition MONTH : Z := 8.
Definition YEAR : Z := 9.

Record rtcdate := mkDate { second : Z; minute : Z; hour : Z; day : Z; month : Z; year : Z }.
#[export] Instance rtcdate_eq : EqDecision rtcdate.
Proof. solve_decision. Defined.

(** The clock's ports: the register selected, and how many times [inb] has read. *)
Record cmos := mkCmos { selected : Z; reads : nat }.

Section Cmos.
  (** What register [r] holds at the [k]-th read. *)
  Variable reg : nat -> Z -> Z.

Definition outb (port v : Z) : M cmos unit := when (port =? CMOS_PORT) (modify (fun s => mkCmos v (reads s))).
Definition inb (port : Z) : M cmos Z :=
  if port =? CMOS_RETURN then
    s ← gets id;
    _ ← modify (fun s => mkCmos (selected s) (S (reads s)));
    mret (reg (reads s) (selected s))
  else undef "port".

Definition cmos_read (r : Z) : M cmos Z := _ ← outb CMOS_PORT r; inb CMOS_RETURN.
Definition fill_rtcdate : M cmos rtcdate :=
  second ← cmos_read SECS;
  minute ← cmos_read MINS;
  hour ← cmos_read HOURS;
  day ← cmos_read DAY;
  month ← cmos_read MONTH;
  year ← cmos_read YEAR;
  mret (mkDate second minute hour day month year).
Fixpoint cmostime_loop (fuel : nat) : M cmos rtcdate :=
  match fuel with
  | O => nofuel
  | S fuel =>
      t1 ← fill_rtcdate;
      a ← cmos_read CMOS_STATA;
      if c_true (Z.land a CMOS_UIP) then cmostime_loop fuel
      else
        t2 ← fill_rtcdate;
        if decide (t1 = t2) then mret t1 else cmostime_loop fuel
  end.
Definition CONV (x : Z) : Z := Z.shiftr x 4 * 10 + Z.land x 15.
Definition map_date (f : Z -> Z) (t : rtcdate) : rtcdate :=
  mkDate (f (second t)) (f (minute t)) (f (hour t)) (f (day t)) (f (month t)) (f (year t)).
Definition cmostime (fuel : nat) : M cmos rtcdate :=
  sb ← cmos_read CMOS_STATB;
  let bcd := Z.land sb (Z.shiftl 1 2) =? 0 in
  t1 ← cmostime_loop fuel;
  let t1 := if bcd then map_date CONV t1 else t1 in
  mret (mkDate (second t1) (minute t1) (hour t1) (day t1) (month t1) (u32 (year t1 + 2000))).

(** ** The clock *)

(** The date that the clock shows at each read, whether it is updating it then,
    and whether its registers hold decimal digits. *)
Variables (now : nat -> rtcdate) (updating : nat -> bool) (digits : bool).
Definition bcd_of (x : Z) : Z := 16 * (x / 10) + x mod 10.
Definition shown (t : rtcdate) : rtcdate := if digits then map_date bcd_of t else t.
Definition fields (t : rtcdate) : list Z := [second t; minute t; hour t; day t; month t; year t].

(** While it is updating the registers hold anything; two updates are far apart,
    compared to the time that reading takes.  The clock announces an update 244
    microseconds before it begins, longer than a read of a register takes, so that
    the date does not change between two reads unless one of them is made while the
    flag is set. *)
Record clock_ok : Prop := {
  ck_mode k : (Z.land (reg k CMOS_STATB) 4 =? 0) = digits;
  ck_uip k : c_true (Z.land (reg k CMOS_STATA) CMOS_UIP) = updating k;
  ck_second k : updating k = false -> reg k SECS = second (shown (now k));
  ck_minute k : updating k = false -> reg k MINS = minute (shown (now k));
  ck_hour k : updating k = false -> reg k HOURS = hour (shown (now k));
  ck_day k : updating k = false -> reg k DAY = day (shown (now k));
  ck_month k : updating k = false -> reg k MONTH = month (shown (now k));
  ck_year k : updating k = false -> reg k YEAR = year (shown (now k));
  ck_still k : updating k = false -> updating (S k) = false -> now (S k) = now k;
  ck_apart i l j : (i < l < j)%nat -> updating i = true -> updating l = false -> updating j = true -> (i + 13 < j)%nat;
  ck_fields k : Forall (fun x => 0 <= x < 100) (fields (now k)) }.
Context (Hck : clock_ok).

Lemma cmos_read_run r s : cmos_read r s = Ret (reg (reads s) r) (mkCmos r (S (reads s))).
Proof using. done. Qed.
(** The six readings that start at read [k]. *)
Definition reading (k : nat) : rtcdate :=
  mkDate (reg k SECS) (reg (k + 1) MINS) (reg (k + 2) HOURS) (reg (k + 3) DAY) (reg (k + 4) MONTH) (reg (k + 5) YEAR).
Lemma fill_run s : fill_rtcdate s = Ret (reading (reads s)) (mkCmos YEAR (reads s + 6)).
Proof using.
  unfold reading. rewrite !(Nat.add_comm (reads s)). done.
Qed.

(** A stretch of time without updates. *)
Definition calm (k n : nat) : Prop := forall j, (k <= j < k + n)%nat -> updating j = false.
Lemma calm_now k n j : calm k n -> (k <= j < k + n)%nat -> now j = now k.
Proof.
  intros Hc Hj. induction j as [|j IH]; [by replace k with 0%nat by lia|]. destruct (decide (k = S j)) as [->|Hne]; [done|].
  rewrite (ck_still Hck), IH by (lia || (apply Hc; lia)). done.
Qed.
Lemma reading_calm k : calm k 6 -> reading k = shown (now k).
Proof.
  intros Hc. assert (forall j, (k <= j < k + 6)%nat -> updating j = false /\ now j = now k) as H.
  { intros j Hj. split; [by apply Hc|by apply (calm_now k 6)]. }
  destruct (H k) as [U0 _]; [lia|]. destruct (H (k + 1)%nat) as [U1 N1]; [lia|]. destruct (H (k + 2)%nat) as [U2 N2]; [lia|].
  destruct (H (k + 3)%nat) as [U3 N3]; [lia|]. destruct (H (k + 4)%nat) as [U4 N4]; [lia|]. destruct (H (k + 5)%nat) as [U5 N5]; [lia|].
  unfold reading. rewrite (ck_second Hck _ U0), (ck_minute Hck _ U1), (ck_hour Hck _ U2), (ck_day Hck _ U3), (ck_month Hck _ U4), (ck_year Hck _ U5).
  rewrite N1, N2, N3, N4, N5. by destruct (shown (now k)).
Qed.
Lemma calm_or_not k n : calm k n \/ exists j, (k <= j < k + n)%nat /\ updating j = true.
Proof using.
  induction n as [|n [IH|(j & Hj & Hu)]]; [left; intros j Hj; lia| |right; exists j; split; [lia|done]].
  destruct (updating (k + n)) eqn:E; [right; exists (k + n)%nat; split; [lia|done]|]. left. intros j Hj.
  destruct (decide (j = k + n)%nat) as [->|]; [done|]. apply IH. lia.
Qed.

(** Two equal readings around a moment without update are a date of the clock. *)
Lemma equal_readings k :
  updating (k + 6) = false -> reading k = reading (k + 7) -> exists j, (k <= j < k + 13)%nat /\ updating j = false /\ reading k = shown (now j).
Proof.
  intros Hu He. destruct (calm_or_not k 6) as [Hc|(i & Hi & Hui)].
  - exists k. split; [lia|]. split; [apply Hc; lia|]. by apply reading_calm.
  - assert (calm (k + 7) 6) as Hc.
    { intros j Hj. destruct (updating j) eqn:E; [|done]. pose proof (ck_apart Hck i (k + 6) j ltac:(lia) Hui Hu E). lia. }
    exists (k + 7)%nat. split; [lia|]. split; [apply Hc; lia|]. rewrite He. by apply reading_calm.
Qed.
Lemma cmostime_loop_ok fuel s k0 :
  calm k0 26 -> (reads s <= k0 + 13)%nat -> (k0 + 14 <= reads s + 7 * fuel)%nat ->
  wp (cmostime_loop fuel) (fun t s' => exists j, (reads s <= j < reads s')%nat /\ updating j = false /\ t = shown (now j)) s.
Proof.
  intros Hc. revert s. induction fuel as [|fuel IH]; intros s Hle Hf; [lia|]. cbn [cmostime_loop]. set (k := reads s) in *.
  wp_step. unfold wp at 1. rewrite fill_run. fold k. wp_step. unfold wp at 1. rewrite cmos_read_run. cbn [reads]. rewrite (ck_uip Hck).
  destruct (updating (k + 6)) eqn:Hu.
  { assert (k <= k0)%nat as Hk0 by (destruct (decide (k <= k0)%nat); [done|]; rewrite Hc in Hu by lia; done).
    wp_use (IH (mkCmos CMOS_STATA (S (k + 6)))); [cbn; lia|cbn; lia|]. intros t s' (j & Hj & H). exists j. split; [cbn in Hj; lia|done]. }
  wp_step. unfold wp at 1. rewrite fill_run. cbn [reads]. replace (S (k + 6)) with (k + 7)%nat by lia. case_decide as He.
  - wp_step. cbn [reads]. destruct (equal_readings k Hu He) as (j & Hj & H). exists j. split; [lia|done].
  - assert (k <= k0)%nat as Hk0.
    { destruct (decide (k <= k0)%nat); [done|]. destruct He. assert (calm k 13) as Hk by (intros j Hj; apply Hc; lia).
      rewrite !reading_calm by (intros j Hj; apply Hk; lia). f_equal. symmetry. apply (calm_now k 13); [done|lia]. }
    wp_use (IH (mkCmos YEAR (k + 7 + 6))); [cbn; lia|cbn; lia|]. intros t s' (j & Hj & H). exists j. split; [cbn in Hj; lia|done].
Qed.

Lemma CONV_bcd x : 0 <= x < 100 -> CONV (bcd_of x) = x.
Proof using.
  intros Hx. unfold CONV, bcd_of. rewrite Z.shiftr_div_pow2 by lia. change 15 with (Z.ones 4). rewrite Z.land_ones by lia. change (2 ^ 4) with 16. dlia.
Qed.
(** The date, with the year of the century that the kernel assumes. *)
Definition calendar (t : rtcdate) : rtcdate := mkDate (second t) (minute t) (hour t) (day t) (month t) (year t + 2000).

(** C36: [cmostime] returns a date that the clock showed during the call, whatever
    updates the clock made meanwhile: it does not mix the fields of two dates.
    It returns as soon as the clock is left alone for 26 reads. *)
Theorem cmostime_snapshot s k0 fuel :
  calm k0 26 -> (reads s <= k0)%nat -> (k0 < reads s + 7 * fuel - 13)%nat ->
  exists s' j, cmostime fuel s = Ret (calendar (now j)) s' /\ (reads s < j < reads s')%nat /\ updating j = false.
Proof.
  intros Hc Hs Hf. assert (wp (cmostime fuel) (fun t s' => exists j, t = calendar (now j) /\ (reads s < j < reads s')%nat /\ updating j = false) s) as Hw.
  { unfold cmostime. wp_step. unfold wp at 1. rewrite cmos_read_run. change (Z.shiftl 1 2) with 4. rewrite (ck_mode Hck). wp_step.
    wp_use (cmostime_loop_ok fuel (mkCmos CMOS_STATB (S (reads s))) k0 Hc); [cbn; lia|cbn; lia|]. intros t s' (j & Hj & Hu & ->). wp_step. exists j.
    cbn in Hj. split; [|split; [lia|done]]. pose proof (ck_fields Hck j) as Hfl. unfold fields in Hfl. rewrite !Forall_cons in Hfl.
    destruct Hfl as (F1 & F2 & F3 & F4 & F5 & F6 & _). unfold shown, calendar. destruct digits; cbn [map_date second minute hour day month year];
      rewrite ?CONV_bcd, u32_small by lia; done. }
  apply wp_Ret in Hw as (t & s' & Hrun & j & -> & H). by exists s', j.
Qed.
End Cmos.

(** The last second of 2024 at the beginning, then the first one of 2025. *)
Definition demo_now (k : nat) : rtcdate := if decide (k < 4)%nat then mkDate 59 59 23 31 12 24 else mkDate 0 0 0 1 1 25.
Definition demo_reg (k : nat) (r : Z) : Z :=
  if r =? CMOS_STATB then 2
  else if r =? CMOS_STATA then (if decide (k = 4)%nat then 128 else 0)
  else
    let t := map_date bcd_of (demo_now k) in
    if r =? SECS then second t else if r =? MINS then minute t else if r =? HOURS then hour t
    else if r =? DAY then day t else if r =? MONTH then month t else year t.
Lemma demo_clock_ok : clock_ok demo_reg demo_now (fun k => bool_decide (k = 4%nat)) true.
Proof.
  split; try done.
  - intros k. unfold demo_reg. cbn. case_decide; case_bool_decide; done.
  - intros k. rewrite !bool_decide_eq_false. unfold demo_now. intros H1 H2. repeat case_decide; done || lia.
  - intros i l j Hl. rewrite !bool_decide_eq_true. lia.
  - intros k. unfold demo_now. case_decide; repeat constructor; cbn; lia.
Qed.
Lemma cmostime_snapshot_witness : exists s' j,
  cmostime demo_reg 6 (mkCmos 0 0) = Ret (calendar (demo_now j)) s' /\ (0 < j < reads s')%nat /\ bool_decide (j = 4%nat) = false.
Proof.
  apply (cmostime_snapshot demo_reg demo_now (fun k => bool_decide (k = 4%nat)) true demo_clock_ok (mkCmos 0 0) 5 6).
  - intros j Hj. apply bool_decide_eq_false. lia.
  - cbn. lia.
  - cbn. lia.
Defined.
