(* ===== verification/Spinlock.v ===== *)
(** * Spin locks on several CPUs

    spinlock.c as a machine: every CPU runs its own code, and the accesses to a
    lock, which the other CPUs see, are single steps.  What is private to a CPU,
    its interrupt flag and the counters of [pushcli], changes with the step that
    follows it. *)

From S2P Require Import Prelude Mmu Mem.
From stdpp Require Import base gmap list strings relations.
From Stdlib Require Import ZArith Lia.
#[local] Open Scope Z_scope.

(** ** Locks and CPUs *)

Record spinlock := mkSpin { locked : Z; lk_cpu : option nat }.

(** Where a CPU is in [acquire] (A), in [release] (R), or elsewhere. *)
Inductive pc :=
  | Client
  | AHold (l : nat) | AHoldCpu (l : nat) | ASpin (l : nat) | ASet (l : nat)
  | RHold (l : nat) | RHoldCpu (l : nat) | RClear (l : nat) | RUnlock (l : nat)
  | Halted (msg : string) (l : nat).

(** [c_held]: the locks of which the exchange has returned 0 and that have not
    been stored 0 since; no code reads it. *)
Record cpu := mkCpu { c_pc : pc; c_if : bool; c_ncli : Z; c_intena : bool; c_held : gset nat }.
Record machine := mkMachine { locks : list spinlock; cpus : list cpu }.

Definition initlock : spinlock := mkSpin 0 None.
Definition set_pc (p : pc) (c : cpu) : cpu := mkCpu p (c_if c) (c_ncli c) (c_intena c) (c_held c).
Definition set_held (h : gset nat) (c : cpu) : cpu := mkCpu (c_pc c) (c_if c) (c_ncli c) (c_intena c) h.

(** ** pushcli and popcli *)

Definition pushcli (c : cpu) : cpu :=
  mkCpu (c_pc c) false (c_ncli c + 1) (if c_ncli c =? 0 then c_if c else c_intena c) (c_held c).
Definition popcli (c : cpu) : string + cpu :=
  if c_if c then inl "popcli - interruptible"%string
  else if c_ncli c - 1 <? 0 then inl "popcli"%string
  else inr (mkCpu (c_pc c) ((c_ncli c - 1 =? 0) && c_intena c) (c_ncli c - 1) (c_intena c) (c_held c)).
(** [popcli], then on to [p]. *)
Definition popcli_to (l : nat) (p : pc) (c : cpu) : cpu :=
  match popcli c with inl msg => set_pc (Halted msg l) c | inr c => set_pc p c end.

(** ** acquire and release *)

(** The calls, up to the first access to the lock in [holding]. *)
Definition acquire_call (l : nat) (c : cpu) : cpu := set_pc (AHold l) (pushcli (pushcli c)).
Definition release_call (l : nat) (c : cpu) : cpu := set_pc (RHold l) (pushcli c).

(** One access to the lock by the CPU [i], and what follows it. *)
Definition acquire_step (i l : nat) (lk : spinlock) (c : cpu) : spinlock * cpu :=
  match c_pc c with
  | AHold _ => (lk, if locked lk =? 0 then popcli_to l (ASpin l) c else set_pc (AHoldCpu l) c)
  | AHoldCpu _ => (lk, popcli_to l (if decide (lk_cpu lk = Some i) then Halted "acquire" l else ASpin l) c)
  | ASpin _ => (mkSpin 1 (lk_cpu lk), if locked lk =? 0 then set_held ({[l]} ∪ c_held c) (set_pc (ASet l) c) else c)
  | ASet _ => (mkSpin (locked lk) (Some i), set_pc Client c)
  | _ => (lk, c)
  end.
Definition release_step (i l : nat) (lk : spinlock) (c : cpu) : spinlock * cpu :=
  match c_pc c with
  | RHold _ => (lk, if locked lk =? 0 then popcli_to l (Halted "release" l) c else set_pc (RHoldCpu l) c)
  | RHoldCpu _ => (lk, popcli_to l (if decide (lk_cpu lk = Some i) then RClear l else Halted "release" l) c)
  | RClear _ => (mkSpin (locked lk) None, set_pc (RUnlock l) c)
  | RUnlock _ => (mkSpin 0 (lk_cpu lk), popcli_to l Client (set_held (c_held c ∖ {[l]}) c))
  | _ => (lk, c)
  end.

(** The lock a CPU is busy with. *)
Definition pc_lock (p : pc) : option (bool * nat) :=
  match p with
  | AHold l | AHoldCpu l | ASpin l | ASet l => Some (true, l)
  | RHold l | RHoldCpu l | RClear l | RUnlock l => Some (false, l)
  | _ => None
  end.
Definition lock_step (i : nat) (b : bool) (l : nat) (lk : spinlock) (c : cpu) : spinlock * cpu :=
  if b then acquire_step i l lk c else release_step i l lk c.

(** Any CPU may run next, and code outside calls what it likes. *)
Inductive mstep : machine -> machine -> Prop :=
  | ms_acquire ls cs i c l lk : cs !! i = Some c -> c_pc c = Client -> ls !! l = Some lk ->
      mstep (mkMachine ls cs) (mkMachine ls (<[i := acquire_call l c]> cs))
  | ms_release ls cs i c l lk : cs !! i = Some c -> c_pc c = Client -> ls !! l = Some lk ->
      mstep (mkMachine ls cs) (mkMachine ls (<[i := release_call l c]> cs))
  | ms_run ls cs i c b l lk : cs !! i = Some c -> pc_lock (c_pc c) = Some (b, l) -> ls !! l = Some lk ->
      mstep (mkMachine ls cs)
        (mkMachine (<[l := (lock_step i b l lk c).1]> ls) (<[i := (lock_step i b l lk c).2]> cs)).

(** ** The invariant *)

(** How many more [pushcli]s than locks are open. *)
Definition extra (p : pc) : Z :=
  match p with AHold _ | AHoldCpu _ => 2 | ASpin _ | RHold _ | RHoldCpu _ => 1 | _ => 0 end.

(** The CPU [i], whose interrupts were [fl] to begin with. *)
Record cpu_ok (fl : bool) (ls : list spinlock) (i : nat) (c : cpu) : Prop := {
  co_ncli : (forall msg l, c_pc c <> Halted msg l) -> c_ncli c = Z.of_nat (size (c_held c)) + extra (c_pc c);
  co_if : if decide (c_ncli c = 0) then c_if c = fl else 0 < c_ncli c /\ c_if c = false /\ c_intena c = fl;
  co_held l : l ∈ c_held c -> exists lk, ls !! l = Some lk /\ locked lk = 1 /\
    (lk_cpu lk = None /\ (c_pc c = ASet l \/ c_pc c = RUnlock l) \/
     lk_cpu lk = Some i /\ c_pc c <> ASet l /\ c_pc c <> RUnlock l);
  co_pc : match c_pc c with
          | ASet l | RClear l | RUnlock l => l ∈ c_held c
          | ASpin l => l ∉ c_held c
          | Halted msg l => msg = "acquire"%string /\ l ∈ c_held c \/ msg = "release"%string /\ l ∉ c_held c
          | _ => True
          end }.
Record minv (fl : nat -> bool) (m : machine) : Prop := {
  mi_cpu i c : cpus m !! i = Some c -> cpu_ok (fl i) (locks m) i c;
  mi_excl i j ci cj l : cpus m !! i = Some ci -> cpus m !! j = Some cj -> l ∈ c_held ci -> l ∈ c_held cj -> i = j;
  mi_lock l lk i : locks m !! l = Some lk -> lk_cpu lk = Some i -> exists c, cpus m !! i = Some c /\ l ∈ c_held c;
  mi_val l lk : locks m !! l = Some lk -> locked lk = 0 \/ locked lk = 1 }.

(** A step of one CPU on one lock, which it holds, or which is free, or which it
    leaves alone. *)
Lemma minv_update fl ls cs i c l lk lk' c' :
  minv fl (mkMachine ls cs) -> cs !! i = Some c -> ls !! l = Some lk ->
  cpu_ok (fl i) (<[l := lk']> ls) i c' -> locked lk' = 0 \/ locked lk' = 1 ->
  lk' = lk \/ l ∈ c_held c \/ locked lk = 0 ->
  (forall l', l' <> l -> l' ∈ c_held c' <-> l' ∈ c_held c) -> (l ∈ c_held c' -> l ∈ c_held c \/ locked lk = 0) ->
  (forall j, lk_cpu lk' = Some j -> lk_cpu lk = Some j /\ (j = i -> l ∈ c_held c') \/ j = i /\ l ∈ c_held c') ->
  minv fl (mkMachine (<[l := lk']> ls) (<[i := c']> cs)).
Proof.
  intros [I1 I2 I3 I4] Hc Hlk Hok Hval Hown Hh Hl Hcpu. cbn in *.
  assert (forall j cj, cs !! j = Some cj -> locked lk = 0 -> l ∉ c_held cj) as Hfree.
  { intros j cj Hj H0 Hin. destruct (co_held _ _ _ _ (I1 j cj Hj) l Hin) as (lk0 & E & ? & _). simplify_eq. lia. }
  assert (forall j cj, j <> i -> cs !! j = Some cj -> l ∈ c_held cj -> lk' = lk) as Hoth.
  { intros j cj Hne Hj Hin. destruct Hown as [?|[Hi|H0]]; [done|destruct Hne; by eapply I2|by destruct (Hfree j cj)]. }
  split; cbn.
  - intros j cj [(<- & <- & _)|[Hne Hj]]%list_lookup_insert_Some; [done|]. destruct (I1 j cj Hj) as [C1 C2 C3 C4].
    split; [done|done| |done]. intros l' Hl'. destruct (C3 l' Hl') as (lk0 & E & Hr). exists lk0. split; [|done].
    destruct (decide (l' = l)) as [->|Hnl]; [|by rewrite list_lookup_insert_ne].
    rewrite list_lookup_insert_eq by (by apply lookup_lt_Some in Hlk). rewrite (Hoth j cj) by done. congruence.
  - assert (forall j cj l', j <> i -> cs !! j = Some cj -> l' ∈ c_held c' -> l' ∈ c_held cj -> False) as Hx.
    { intros j cj l' Hne Hj Hin Hin'. destruct (decide (l' = l)) as [->|Hnl].
      - destruct (Hl Hin) as [?|H0]; [by destruct Hne; eapply I2|by apply (Hfree j cj)].
      - apply Hh in Hin; [|done]. by destruct Hne; eapply I2. }
    intros j k cj ck l' [(<- & <- & _)|[Hne Hj]]%list_lookup_insert_Some [(<- & <- & _)|[Hne' Hk]]%list_lookup_insert_Some Hin Hin';
      [done|exfalso; by eapply Hx|exfalso; by eapply Hx|by eapply I2].
  - assert (forall j l' lk0, (l', lk0) <> (l, lk) -> ls !! l' = Some lk0 -> lk_cpu lk0 = Some j ->
      exists c0, <[i := c']> cs !! j = Some c0 /\ l' ∈ c_held c0) as Hold.
    { intros j l' lk0 Hne E Hj. destruct (I3 l' lk0 j E Hj) as (c0 & Hc0 & Hin). destruct (decide (j = i)) as [->|Hji].
      - exists c'. rewrite list_lookup_insert_eq by (by apply lookup_lt_Some in Hc). split; [done|].
        assert (l' <> l) by (intros ->; simplify_eq). apply Hh; [done|]. by simplify_eq.
      - exists c0. by rewrite list_lookup_insert_ne. }
    intros l' lk0 j [(<- & <- & _)|[Hne E]]%list_lookup_insert_Some Hj; [|by eapply Hold; [intros [=]|..]].
    destruct (Hcpu j Hj) as [[Hj' Hi]|[-> Hin]].
    + destruct (decide (j = i)) as [->|Hji].
      * exists c'. rewrite list_lookup_insert_eq by (by apply lookup_lt_Some in Hc). auto.
      * destruct (I3 l lk j Hlk Hj') as (c0 & Hc0 & Hin). exists c0. by rewrite list_lookup_insert_ne.
    + exists c'. rewrite list_lookup_insert_eq by (by apply lookup_lt_Some in Hc). done.
  - intros l' lk0 [(<- & <- & _)|[Hne E]]%list_lookup_insert_Some; [done|by eapply I4].
Qed.

(** ** Interrupts *)

Definition cli_ok (fl : bool) (c : cpu) : Prop :=
  if decide (c_ncli c = 0) then c_if c = fl else 0 < c_ncli c /\ c_if c = false /\ c_intena c = fl.

Lemma pushcli_ok fl c : cli_ok fl c -> cli_ok fl (pushcli c).
Proof.
  unfold cli_ok, pushcli. cbn. case_decide as E; intros Hc.
  - rewrite E. cbn. done.
  - destruct Hc as (? & ? & ?). rewrite decide_False by lia. rewrite (proj2 (Z.eqb_neq _ 0)) by done. split; [lia|done].
Qed.
Lemma popcli_to_ok fl l p c :
  cli_ok fl c -> 0 < c_ncli c ->
  exists c', popcli_to l p c = c' /\ c_pc c' = p /\ c_held c' = c_held c /\ c_ncli c' = c_ncli c - 1 /\ cli_ok fl c'.
Proof.
  intros Hc Hn. unfold cli_ok, popcli_to, popcli in *. rewrite decide_False in Hc by lia. destruct Hc as (_ & -> & Hi).
  rewrite (proj2 (Z.ltb_ge _ _)) by lia. eexists. split; [done|]. cbn. rewrite Hi. repeat split.
  destruct (Z.eqb_spec (c_ncli c - 1) 0) as [E|E]; [by rewrite decide_True|by rewrite decide_False by lia; split; [lia|]].
Qed.

(** ** The steps keep the invariant *)

(** A CPU that goes on without touching the lock's fields it depends on. *)
Lemma cpu_ok_move fl ls i c c' :
  cpu_ok fl ls i c -> c_held c' = c_held c -> cli_ok fl c' ->
  ((forall msg l, c_pc c' <> Halted msg l) -> c_ncli c' = Z.of_nat (size (c_held c)) + extra (c_pc c')) ->
  (forall l, c_pc c <> ASet l /\ c_pc c <> RUnlock l /\ c_pc c' <> ASet l /\ c_pc c' <> RUnlock l) ->
  match c_pc c' with
  | ASet l | RClear l | RUnlock l => l ∈ c_held c
  | ASpin l => l ∉ c_held c
  | Halted msg l => msg = "acquire"%string /\ l ∈ c_held c \/ msg = "release"%string /\ l ∉ c_held c
  | _ => True
  end -> cpu_ok fl ls i c'.
Proof.
  intros [C1 C2 C3 C4] Hh Hcli Hn Hp Hpc. split; [by rewrite Hh|done| |by rewrite Hh].
  intros l Hl. rewrite Hh in Hl. destruct (C3 l Hl) as (lk & E & H1 & Hr). exists lk. split; [done|]. split; [done|].
  destruct (Hp l) as (? & ? & ? & ?). destruct Hr as [[_ [?|?]]|(? & _)]; [done|done|right; done].
Qed.

(** The lock's fields tell the CPU whether it holds the lock. *)
Lemma holding_exact fl ls cs i c l lk :
  minv fl (mkMachine ls cs) -> cs !! i = Some c -> ls !! l = Some lk -> (forall l, c_pc c <> ASet l /\ c_pc c <> RUnlock l) ->
  (l ∈ c_held c <-> lk_cpu lk = Some i) /\ (l ∈ c_held c -> locked lk <> 0).
Proof.
  intros Hinv Hc Hlk Hp. split; [split|].
  - intros Hl. destruct (co_held _ _ _ _ (mi_cpu _ _ Hinv i c Hc) l Hl) as (lk0 & E & _ & Hr). cbn in E. simplify_eq.
    destruct (Hp l). by destruct Hr as [[_ [?|?]]|[? _]].
  - intros Hi. destruct (mi_lock _ _ Hinv l lk i Hlk Hi) as (c0 & E & Hin). cbn in E. by simplify_eq.
  - intros Hl. destruct (co_held _ _ _ _ (mi_cpu _ _ Hinv i c Hc) l Hl) as (lk0 & E & H1 & _). cbn in E. simplify_eq. lia.
Qed.

(** Steps that leave the locks alone. *)
Lemma minv_local fl ls cs i c l lk c' :
  minv fl (mkMachine ls cs) -> cs !! i = Some c -> ls !! l = Some lk -> c_held c' = c_held c -> cli_ok (fl i) c' ->
  ((forall msg l, c_pc c' <> Halted msg l) -> c_ncli c' = Z.of_nat (size (c_held c)) + extra (c_pc c')) ->
  (forall l, c_pc c <> ASet l /\ c_pc c <> RUnlock l /\ c_pc c' <> ASet l /\ c_pc c' <> RUnlock l) ->
  match c_pc c' with
  | ASet l | RClear l | RUnlock l => l ∈ c_held c
  | ASpin l => l ∉ c_held c
  | Halted msg l => msg = "acquire"%string /\ l ∈ c_held c \/ msg = "release"%string /\ l ∉ c_held c
  | _ => True
  end -> minv fl (mkMachine (<[l := lk]> ls) (<[i := c']> cs)).
Proof.
  intros Hinv Hc Hlk Hh Hcli Hn Hp Hpc. apply (minv_update fl ls cs i c l lk lk c'); try done.
  - rewrite list_insert_id by done. by apply (cpu_ok_move _ _ _ c); [apply (mi_cpu _ _ Hinv)|..].
  - by apply (mi_val _ _ Hinv l).
  - by left.
  - intros l' _. by rewrite Hh.
  - rewrite Hh. by left.
  - intros j Hj. left. split; [done|]. intros ->. rewrite Hh.
    apply (holding_exact fl ls cs i c l lk); try done. intros l'. by destruct (Hp l') as (? & ? & _).
Qed.

Lemma call_step fl ls cs i c l lk c' :
  minv fl (mkMachine ls cs) -> cs !! i = Some c -> c_pc c = Client -> ls !! l = Some lk ->
  c' = acquire_call l c \/ c' = release_call l c -> minv fl (mkMachine ls (<[i := c']> cs)).
Proof.
  intros Hinv Hc Hp Hlk Hc'. destruct (mi_cpu _ _ Hinv i c Hc) as [C1 C2 _ _]. rewrite Hp in C1. specialize (C1 ltac:(done)). cbn in C1.
  rewrite <-(list_insert_id ls l lk Hlk). pose proof (pushcli_ok (fl i) c C2) as P1. pose proof (pushcli_ok (fl i) _ P1) as P2.
  destruct Hc' as [->| ->]; apply (minv_local fl ls cs i c l lk); try done; cbn; intros; rewrite ?Hp; done || lia.
Qed.

Lemma popcli_step fl ls cs i c l lk p :
  minv fl (mkMachine ls cs) -> cs !! i = Some c -> ls !! l = Some lk -> c_ncli c = Z.of_nat (size (c_held c)) + extra (c_pc c) ->
  ((forall msg l, p <> Halted msg l) -> extra p = extra (c_pc c) - 1) -> 0 < extra (c_pc c) ->
  (forall l, p <> ASet l /\ p <> RUnlock l) ->
  match p with
  | ASet l | RClear l | RUnlock l => l ∈ c_held c
  | ASpin l => l ∉ c_held c
  | Halted msg l => msg = "acquire"%string /\ l ∈ c_held c \/ msg = "release"%string /\ l ∉ c_held c
  | _ => True
  end -> minv fl (mkMachine (<[l := lk]> ls) (<[i := popcli_to l p c]> cs)).
Proof.
  intros Hinv Hc Hlk Hn He Hpos Hp Hpc. destruct (popcli_to_ok (fl i) l p c) as (c' & -> & Hp' & Hh' & Hn' & Hcli).
  { apply (mi_cpu _ _ Hinv i c Hc). } { lia. }
  apply (minv_local fl ls cs i c l lk); try done; rewrite ?Hp'; [|intros l'|done].
  - intros Hne. rewrite Hn', Hn, He by done. lia.
  - destruct (Hp l'). split; [|split; [|done]]; intros E; rewrite E in Hpos; cbn in Hpos; lia.
Qed.

(** The lock [l], which the CPU holds, changes with its code. *)
Lemma lock_set_ok fl ls i c l lk lk' c' :
  cpu_ok fl ls i c -> ls !! l = Some lk -> c_held c' = {[l]} ∪ c_held c -> cli_ok fl c' -> locked lk' = 1 ->
  c_ncli c' = Z.of_nat (size (c_held c')) + extra (c_pc c') ->
  (forall l', l' <> l -> c_pc c <> ASet l' /\ c_pc c <> RUnlock l' /\ c_pc c' <> ASet l' /\ c_pc c' <> RUnlock l') ->
  lk_cpu lk' = None /\ (c_pc c' = ASet l \/ c_pc c' = RUnlock l) \/
    lk_cpu lk' = Some i /\ c_pc c' = Client ->
  cpu_ok fl (<[l := lk']> ls) i c'.
Proof.
  intros [C1 C2 C3 C4] Hlk Hh Hcli H1 Hn Hp Hpc. split; [done|done| |].
  - intros l' Hl'. destruct (decide (l' = l)) as [->|Hne].
    + exists lk'. rewrite list_lookup_insert_eq by (by apply lookup_lt_Some in Hlk). split; [done|]. split; [done|].
      destruct Hpc as [?|[? ->]]; [by left|by right].
    + destruct (C3 l') as (lk0 & E & H0 & Hr); [rewrite Hh in Hl'; set_solver|]. exists lk0. rewrite list_lookup_insert_ne by done.
      split; [done|]. split; [done|]. destruct (Hp l' Hne) as (? & ? & ? & ?). destruct Hr as [[_ [?|?]]|[? _]]; [done|done|by right].
  - destruct Hpc as [[_ [-> | ->]]|[_ ->]]; [rewrite Hh; set_solver..|done].
Qed.
Lemma acquire_xchg fl ls cs i c l lk :
  minv fl (mkMachine ls cs) -> cs !! i = Some c -> c_pc c = ASpin l -> ls !! l = Some lk ->
  minv fl (mkMachine (<[l := mkSpin 1 (lk_cpu lk)]> ls)
    (<[i := if locked lk =? 0 then set_held ({[l]} ∪ c_held c) (set_pc (ASet l) c) else c]> cs)).
Proof.
  intros Hinv Hc Hp Hlk. pose proof (mi_cpu _ _ Hinv i c Hc) as Hok. destruct (Hok) as [C1 C2 C3 C4]. rewrite Hp in C1, C4.
  specialize (C1 ltac:(done)). cbn in C1. destruct (Z.eqb_spec (locked lk) 0) as [E|E].
  - assert (lk_cpu lk = None) as Hnone.
    { destruct (lk_cpu lk) as [j|] eqn:Ej; [|done]. destruct (mi_lock _ _ Hinv l lk j Hlk Ej) as (cj & Hj & Hin).
      destruct (co_held _ _ _ _ (mi_cpu _ _ Hinv j cj Hj) l Hin) as (lk0 & E0 & ? & _). cbn in E0. simplify_eq. lia. }
    rewrite Hnone. apply (minv_update fl ls cs i c l lk); cbn; try done; [|by right|by auto|set_solver|by auto].
    apply (lock_set_ok _ ls i c l lk); cbn; try done; [|intros l' Hl'; rewrite Hp; repeat split; congruence|by auto].
    rewrite size_union, size_singleton by set_solver. lia.
  - assert (mkSpin 1 (lk_cpu lk) = lk) as ->.
    { destruct (mi_val _ _ Hinv l lk Hlk) as [?|H1]; [done|]. destruct lk. cbn in *. by rewrite H1. }
    by rewrite !list_insert_id.
Qed.

Lemma release_unlock fl ls cs i c l lk :
  minv fl (mkMachine ls cs) -> cs !! i = Some c -> c_pc c = RUnlock l -> ls !! l = Some lk ->
  minv fl (mkMachine (<[l := mkSpin 0 (lk_cpu lk)]> ls) (<[i := popcli_to l Client (set_held (c_held c ∖ {[l]}) c)]> cs)).
Proof.
  intros Hinv Hc Hp Hlk. pose proof (mi_cpu _ _ Hinv i c Hc) as Hok. destruct (Hok) as [C1 C2 C3 C4]. rewrite Hp in *.
  specialize (C1 ltac:(done)). cbn in C1, C3, C4. destruct (C3 l C4) as (lk0 & E & H1 & Hr). assert (lk0 = lk) as -> by congruence.
  assert (lk_cpu lk = None) as Hnone by (by destruct Hr as [[? _]|(_ & _ & ?)]).
  assert (c_held c = {[l]} ∪ c_held c ∖ {[l]}) as Hsplit by (apply union_difference_L; set_solver).
  assert (Z.of_nat (size (c_held c)) = Z.of_nat (size (c_held c ∖ {[l]})) + 1) as Hsz.
  { rewrite Hsplit at 1. rewrite size_union, size_singleton by set_solver. lia. }
  destruct (popcli_to_ok (fl i) l Client (set_held (c_held c ∖ {[l]}) c)) as (c' & -> & Hp' & Hh' & Hn' & Hcli); [done|cbn; lia|].
  cbn in Hh', Hn'. rewrite Hnone. apply (minv_update fl ls cs i c l lk); cbn; try done; rewrite ?Hh'; [|by left|by auto|set_solver|set_solver].
  split; [rewrite Hp', Hh', Hn'; cbn; lia|done| |by rewrite Hp'].
  intros l' Hl'. rewrite Hh' in Hl'. assert (l' <> l) as Hne by set_solver. destruct (C3 l') as (lk1 & E1 & H1' & Hr'); [set_solver|].
  exists lk1. rewrite list_lookup_insert_ne by done. split; [done|]. split; [done|]. rewrite Hp'. right.
  destruct Hr' as [[_ [?|?]]|[? _]]; [done|congruence|done].
Qed.

Lemma acquire_inv fl ls cs i c l lk :
  minv fl (mkMachine ls cs) -> cs !! i = Some c -> pc_lock (c_pc c) = Some (true, l) -> ls !! l = Some lk ->
  minv fl (mkMachine (<[l := (acquire_step i l lk c).1]> ls) (<[i := (acquire_step i l lk c).2]> cs)).
Proof.
  intros Hinv Hc Hl Hlk. pose proof (mi_cpu _ _ Hinv i c Hc) as Hok. destruct (Hok) as [C1 C2 C3 C4].
  unfold acquire_step. destruct (c_pc c) eqn:Hp; simplify_eq/=; specialize (C1 ltac:(done)).
  - destruct (holding_exact fl ls cs i c l lk Hinv Hc Hlk) as [Hex Hl0]; [by rewrite Hp|]. destruct (Z.eqb_spec (locked lk) 0) as [E|E].
    + apply popcli_step; rewrite ?Hp; cbn; try done. by intros ?%Hl0.
    + apply (minv_local fl ls cs i c l lk); rewrite ?Hp; cbn; done.
  - destruct (holding_exact fl ls cs i c l lk Hinv Hc Hlk) as [Hex Hl0]; [by rewrite Hp|].
    destruct (decide (lk_cpu lk = Some i)) as [E|E]; apply popcli_step; rewrite ?Hp; cbn; try done.
    + intros Hne. by destruct (Hne "acquire"%string l).
    + left. split; [done|by apply Hex].
    + by intros ?%Hex.
  - by apply acquire_xchg.
  - destruct (C3 l C4) as (lk0 & E & H1 & _). assert (lk0 = lk) as -> by congruence.
    apply (minv_update fl ls cs i c l lk); cbn; try done; [|by right|by auto|by auto|intros j [= <-]; by auto].
    apply (lock_set_ok _ ls i c l lk); cbn; try done; [set_solver|intros l' Hl'; rewrite Hp; repeat split; congruence|by auto].
Qed.

Lemma release_inv fl ls cs i c l lk :
  minv fl (mkMachine ls cs) -> cs !! i = Some c -> pc_lock (c_pc c) = Some (false, l) -> ls !! l = Some lk ->
  minv fl (mkMachine (<[l := (release_step i l lk c).1]> ls) (<[i := (release_step i l lk c).2]> cs)).
Proof.
  intros Hinv Hc Hl Hlk. pose proof (mi_cpu _ _ Hinv i c Hc) as Hok. destruct (Hok) as [C1 C2 C3 C4].
  unfold release_step. destruct (c_pc c) eqn:Hp; simplify_eq/=; specialize (C1 ltac:(done)).
  - destruct (holding_exact fl ls cs i c l lk Hinv Hc Hlk) as [Hex Hl0]; [by rewrite Hp|]. destruct (Z.eqb_spec (locked lk) 0) as [E|E].
    + apply popcli_step; rewrite ?Hp; cbn; try done.
      right. split; [done|]. by intros ?%Hl0.
    + apply (minv_local fl ls cs i c l lk); rewrite ?Hp; cbn; done.
  - destruct (holding_exact fl ls cs i c l lk Hinv Hc Hlk) as [Hex Hl0]; [by rewrite Hp|].
    destruct (decide (lk_cpu lk = Some i)) as [E|E]; apply popcli_step; rewrite ?Hp; cbn; try done.
    + by apply Hex.
    + right. split; [done|by intros ?%Hex].
  - destruct (C3 l C4) as (lk0 & E & H1 & _). assert (lk0 = lk) as -> by congruence.
    apply (minv_update fl ls cs i c l lk); cbn; try done; [|by right|by auto|by auto].
    apply (lock_set_ok _ ls i c l lk); cbn; try done; [set_solver|intros l' Hl'; rewrite Hp; repeat split; congruence|by auto].
  - by apply release_unlock.
Qed.

Lemma minv_step fl m m' : minv fl m -> mstep m m' -> minv fl m'.
Proof.
  intros Hinv Hst. destruct Hst as [ls cs i c l lk Hc Hp Hlk|ls cs i c l lk Hc Hp Hlk|ls cs i c b l lk Hc Hp Hlk].
  - by apply (call_step fl ls cs i c l lk); [..|left].
  - by apply (call_step fl ls cs i c l lk); [..|right].
  - destruct b; [by apply acquire_inv|by apply release_inv].
Qed.

(** ** Mutual exclusion *)

(** The locks are free and the CPUs outside, with any interrupt flags. *)
Definition boot (nlocks : nat) (flags : list bool) : machine :=
  mkMachine (replicate nlocks initlock) ((fun b => mkCpu Client b 0 false ∅) <$> flags).
Lemma boot_inv nlocks flags : minv (fun i => nth i flags false) (boot nlocks flags).
Proof.
  assert (forall i c, cpus (boot nlocks flags) !! i = Some c -> exists b, flags !! i = Some b /\ c = mkCpu Client b 0 false ∅) as Hb.
  { intros i c (b & -> & Hb)%list_lookup_fmap_Some. by exists b. }
  split.
  - intros i c (b & E & ->)%Hb. split; cbn; [done| |by intros l ?%elem_of_empty|done]. by rewrite nth_lookup, E.
  - intros i j ci cj l (b & _ & ->)%Hb _ Hl. by apply elem_of_empty in Hl.
  - intros l lk i [-> _]%lookup_replicate_1 [=].
  - intros l lk [-> _]%lookup_replicate_1. by left.
Qed.
Lemma reachable_inv nlocks flags m : rtc mstep (boot nlocks flags) m -> minv (fun i => nth i flags false) m.
Proof.
  intros Hr. apply (rtc_preserves mstep (minv (fun i => nth i flags false)) (boot nlocks flags)); [|done|apply boot_inv].
  intros m1 m2 Hst Hinv. by apply (minv_step _ m1).
Qed.

(** C3: however the CPUs run, two never hold the same lock, and a CPU panics
    only because it acquires a lock it holds or releases one it does not hold. *)
Theorem spinlock_mutex nlocks flags m :
  rtc mstep (boot nlocks flags) m ->
  (forall l i j ci cj, cpus m !! i = Some ci -> cpus m !! j = Some cj -> l ∈ c_held ci -> l ∈ c_held cj -> i = j) /\
  (forall i c msg l, cpus m !! i = Some c -> c_pc c = Halted msg l ->
    msg = "acquire"%string /\ l ∈ c_held c \/ msg = "release"%string /\ l ∉ c_held c).
Proof.
  intros Hinv%reachable_inv. split.
  - intros l i j ci cj. apply (mi_excl _ _ Hinv).
  - intros i c msg l Hc Hp. pose proof (co_pc _ _ _ _ (mi_cpu _ _ Hinv i c Hc)) as Hpc. by rewrite Hp in Hpc.
Qed.

(** C23: while a CPU holds a lock its interrupts are off; when it holds none and
    is outside of the lock routines, they are as they were to begin with. *)
Theorem interrupts_restored nlocks flags m i c :
  rtc mstep (boot nlocks flags) m -> cpus m !! i = Some c -> c_pc c = Client ->
  c_if c = bool_decide (c_held c = ∅) && nth i flags false.
Proof.
  intros Hinv%reachable_inv Hc Hp. destruct (mi_cpu _ _ Hinv i c Hc) as [C1 C2 _ _]. rewrite Hp in C1. specialize (C1 ltac:(done)).
  cbn in C1. case_bool_decide as E; cbn.
  - rewrite E, size_empty in C1. rewrite decide_True in C2 by lia. done.
  - rewrite decide_False in C2; [by destruct C2 as (_ & ? & _)|]. intros E0. apply E.
    apply leibniz_equiv, size_empty_inv. lia.
Qed.

(** Two CPUs: the first has the lock, the second waits for it. *)
Definition duel : machine :=
  mkMachine [mkSpin 1 (Some 0%nat)] [mkCpu Client false 1 true {[0%nat]}; mkCpu (ASpin 0) false 1 true ∅].
Lemma duel_reached : rtc mstep (boot 1 [true; true]) duel.
Proof.
  eapply rtc_l; [eapply (ms_acquire _ _ 0 _ 0); reflexivity|]. eapply rtc_l; [eapply (ms_run _ _ 0 _ true 0); reflexivity|].
  eapply rtc_l; [eapply (ms_run _ _ 0 _ true 0); reflexivity|]. eapply rtc_l; [eapply (ms_acquire _ _ 1 _ 0); reflexivity|].
  eapply rtc_l; [eapply (ms_run _ _ 0 _ true 0); reflexivity|]. eapply rtc_l; [eapply (ms_run _ _ 1 _ true 0); reflexivity|].
  eapply rtc_l; [eapply (ms_run _ _ 1 _ true 0); reflexivity|]. apply rtc_refl.
Qed.
Lemma spinlock_mutex_witness : exists c, cpus duel !! 1%nat = Some c /\ 0%nat ∉ c_held c.
Proof.
  destruct (spinlock_mutex 1 [true; true] duel duel_reached) as [Hm _]. eexists. split; [reflexivity|]. intros Hin.
  specialize (Hm 0%nat 0%nat 1%nat _ _ eq_refl eq_refl ltac:(set_solver) Hin). discriminate Hm.
Defined.
Lemma interrupts_restored_witness : exists c, cpus duel !! 0%nat = Some c /\ c_if c = false.
Proof.
  eexists. split; [reflexivity|]. etrans; [exact (interrupts_restored 1 [true; true] duel 0 _ duel_reached eq_refl eq_refl)|reflexivity].
Defined.

(** ** The call stack of acquire

    [getcallerpcs] follows the saved frame pointers; [v] is the address of the
    argument of its caller, two words above the saved frame pointer. *)
Fixpoint callerpcs (m : mem) (ebp : Z) (n : nat) : list Z :=
  match n with
  | O => []
  | S n' =>
      if (ebp =? 0) || (ebp <? KERNBASE) || (ebp =? 4294967295) then replicate n 0
      else ld32 m (u32 (ebp + 4)) :: callerpcs m (ld32 m ebp) n'
  end.
Definition getcallerpcs (m : mem) (v : Z) : list Z := callerpcs m (u32 (v - 8)) 10.

(** A chain of frames in the kernel, from the innermost one; it ends at a frame
    pointer below the kernel. *)
Inductive frames_at (m : mem) : Z -> list Z -> Prop :=
  | fa_end ebp : 0 <= ebp < KERNBASE -> frames_at m ebp []
  | fa_frame ebp eips : KERNBASE <= ebp < 4294967292 -> frames_at m (ld32 m ebp) eips -> frames_at m ebp (ld32 m (ebp + 4) :: eips).
(** The return addresses of the innermost ten frames, and zeros for those that are missing. *)
Lemma getcallerpcs_ok m v eips : 8 <= v < 4294967296 -> frames_at m (v - 8) eips -> getcallerpcs m v = take 10 (eips ++ replicate 10 0).
Proof.
  intros Hv Hf. unfold getcallerpcs. rewrite u32_small by lia.
  assert (forall n k, (n <= k)%nat -> callerpcs m (v - 8) n = take n (eips ++ replicate k 0)) as H; [|by apply H].
  induction Hf as [ebp He|ebp eips He _ IH]; intros n k Hn; (destruct n as [|n]; [done|]); cbn [callerpcs].
  - replace ((ebp =? 0) || (ebp <? KERNBASE)) with true by lia. cbn [orb]. rewrite app_nil_l, take_replicate. f_equal. lia.
  - assert (0 < KERNBASE) by done. replace ((ebp =? 0) || (ebp <? KERNBASE) || (ebp =? 4294967295)) with false by lia.
    rewrite (IH n k), u32_small by lia. done.
Qed.
