(* ===== verification/Sleeplock.v ===== *)
(** * Sleep locks

    sleeplock.c for several processes.  The spin lock inside makes each pass
    through its critical section one step; [sleep] gives it up and goes to sleep
    in one step as well, so a pass ends either with the lock or asleep. *)

From S2P Require Import Prelude.
From stdpp Require Import base gmap list strings relations.
From Stdlib Require Import ZArith Lia.
#[local] Open Scope Z_scope.

Record sleeplock := mkSleep { sl_locked : Z; sl_pid : Z }.
Definition initsleeplock : sleeplock := mkSleep 0 0.

(** What a process is doing: elsewhere, about to test the lock in
    [acquiresleep], asleep there, or past it. *)
Inductive sstate := SOut | STest | SAsleep | SHolds.
#[export] Instance sstate_eq : EqDecision sstate.
Proof. solve_decision. Defined.
Record ssys := mkSsys { s_lock : sleeplock; s_procs : gmap Z sstate }.

(** [wakeup (lk)]: every process asleep on the lock tests it again. *)
Definition wake (st : sstate) : sstate := match st with SAsleep => STest | st => st end.

(** One pass of the loop of [acquiresleep] by the process [pid]. *)
Definition acquiresleep_pass (pid : Z) (s : ssys) : ssys :=
  if c_true (sl_locked (s_lock s)) then mkSsys (s_lock s) (<[pid := SAsleep]> (s_procs s))
  else mkSsys (mkSleep 1 pid) (<[pid := SHolds]> (s_procs s)).
Definition releasesleep (pid : Z) (s : ssys) : ssys :=
  mkSsys (mkSleep 0 0) (wake <$> <[pid := SOut]> (s_procs s)).
Definition holdingsleep (pid : Z) (s : ssys) : bool :=
  c_true (sl_locked (s_lock s)) && (sl_pid (s_lock s) =? pid).

(** Processes come, call [acquiresleep] from outside, and call [releasesleep]
    only if [holdingsleep] says so, as every caller checks.  [kill] makes a process
    that is asleep runnable, which then tests the lock again. *)
Inductive sl_step (s : ssys) : ssys -> Prop :=
  | sl_new pid : s_procs s !! pid = None -> sl_step s (mkSsys (s_lock s) (<[pid := SOut]> (s_procs s)))
  | sl_call pid : s_procs s !! pid = Some SOut -> sl_step s (mkSsys (s_lock s) (<[pid := STest]> (s_procs s)))
  | sl_pass pid : s_procs s !! pid = Some STest -> sl_step s (acquiresleep_pass pid s)
  | sl_kill pid : s_procs s !! pid = Some SAsleep -> sl_step s (mkSsys (s_lock s) (<[pid := STest]> (s_procs s)))
  | sl_release pid st : s_procs s !! pid = Some st -> st = SOut \/ st = SHolds -> holdingsleep pid s = true ->
      sl_step s (releasesleep pid s).

Record sl_inv (s : ssys) : Prop := {
  si_holds pid : s_procs s !! pid = Some SHolds <-> sl_locked (s_lock s) = 1 /\ sl_pid (s_lock s) = pid;
  si_value : sl_locked (s_lock s) = 0 \/ sl_locked (s_lock s) = 1;
  si_asleep pid : s_procs s !! pid = Some SAsleep -> sl_locked (s_lock s) = 1 }.

Lemma holdingsleep_spec s pid : sl_inv s -> holdingsleep pid s = true <-> s_procs s !! pid = Some SHolds.
Proof.
  intros [H1 H2 _]. unfold holdingsleep, c_true. rewrite (H1 pid). destruct H2 as [-> | ->]; cbn.
  - naive_solver lia.
  - rewrite Z.eqb_eq. naive_solver.
Qed.

Lemma sl_inv_step s s' : sl_inv s -> sl_step s s' -> sl_inv s'.
Proof.
  intros Hinv Hst. destruct (Hinv) as [H1 H2 H3].
  assert (forall pid st, s_procs s !! pid <> Some SHolds -> st = SOut \/ st = STest ->
    sl_inv (mkSsys (s_lock s) (<[pid := st]> (s_procs s)))) as Hout.
  { intros pid st Hn Hst'. split; cbn; [|done|].
    - intros q. rewrite <-H1. destruct (decide (q = pid)) as [->|Hne].
      + rewrite lookup_insert_eq. naive_solver.
      + by rewrite lookup_insert_ne.
    - intros q [[_ E]|[_ Hq]]%lookup_insert_Some; [naive_solver|by apply (H3 q)]. }
  destruct Hst as [pid Hp|pid Hp|pid Hp|pid Hp|pid st Hp Hst Hh]; try (apply Hout; [by rewrite Hp|by auto]).
  - unfold acquiresleep_pass, c_true. destruct H2 as [E|E]; rewrite E; cbn.
    + split; cbn; [|by right|].
      * intros q. split; [|intros [_ <-]; by rewrite lookup_insert_eq].
        intros [[<- _]|[Hne Hq]]%lookup_insert_Some; [done|]. apply H1 in Hq. lia.
      * intros q [[<- [=]]|[_ Hq]]%lookup_insert_Some. apply H3 in Hq. lia.
    + split; cbn; [|by right|by intros].
      intros q. rewrite <-H1. destruct (decide (q = pid)) as [->|Hne]; [rewrite lookup_insert_eq, Hp; naive_solver|by rewrite lookup_insert_ne].
  - apply holdingsleep_spec in Hh as Hhold; [|done]. split; cbn; [|by left|].
    + intros q. split; [|naive_solver lia]. rewrite lookup_fmap. destruct (decide (q = pid)) as [->|Hne].
      * rewrite lookup_insert_eq. by intros [=].
      * rewrite lookup_insert_ne by done. destruct (s_procs s !! q) as [[]|] eqn:Hq; intros [=].
        apply H1 in Hq, Hhold. destruct Hq, Hhold. congruence.
    + intros q. rewrite lookup_fmap. destruct (_ !! q) as [[]|]; intros [=].
Qed.

(** C24: two processes never hold a sleep lock at once, and no wakeup is lost: a
    process asleep on the lock sleeps because another one holds it, and
    releasing it wakes every sleeper.  Processes may also be killed, which wakes
    them at any time. *)
Theorem sleeplock_safe s :
  rtc sl_step (mkSsys initsleeplock ∅) s ->
  (forall p q, s_procs s !! p = Some SHolds -> s_procs s !! q = Some SHolds -> p = q) /\
  (forall p, s_procs s !! p = Some SAsleep -> exists q, q <> p /\ s_procs s !! q = Some SHolds /\
    s_procs (releasesleep q s) !! p = Some STest).
Proof.
  intros Hr. assert (sl_inv s) as [H1 H2 H3].
  { apply (rtc_preserves sl_step sl_inv (mkSsys initsleeplock ∅)); [intros s1 s2 ? ?; by apply (sl_inv_step s1)|done|].
    split; cbn; [|by left|by intros p ?]. intros p. rewrite lookup_empty. naive_solver lia. }
  split.
  - intros p q Hp%H1 Hq%H1. destruct Hp, Hq. congruence.
  - intros p Hp. pose proof (H3 p Hp) as Hl. exists (sl_pid (s_lock s)).
    assert (s_procs s !! sl_pid (s_lock s) = Some SHolds) as Hq by by apply H1. assert (sl_pid (s_lock s) <> p) as Hne by congruence.
    split; [done|]. split; [done|]. cbn. by rewrite lookup_fmap, lookup_insert_ne, Hp.
Qed.

Lemma sleeplock_safe_witness : exists s, rtc sl_step (mkSsys initsleeplock ∅) s /\ s_procs s !! 2 = Some SAsleep /\
  exists q, s_procs s !! q = Some SHolds.
Proof.
  assert (exists s, rtc sl_step (mkSsys initsleeplock ∅) s /\ s_procs s !! 2 = Some SAsleep) as (s & Hr & Hs).
  { eexists. split.
    - eapply rtc_l; [apply (sl_new _ 1); reflexivity|]. eapply rtc_l; [apply (sl_new _ 2); reflexivity|].
      eapply rtc_l; [apply (sl_call _ 1); reflexivity|]. eapply rtc_l; [apply (sl_call _ 2); reflexivity|].
      eapply rtc_l; [apply (sl_pass _ 1); reflexivity|]. eapply rtc_l; [apply (sl_pass _ 2); reflexivity|]. apply rtc_refl.
    - reflexivity. }
  exists s. split; [exact Hr|]. split; [exact Hs|]. destruct (sleeplock_safe s Hr) as [_ Hw]. destruct (Hw 2 Hs) as (q & _ & Hq & _).
  exists q. exact Hq.
Defined.
