(* ===== verification/Ulib.v ===== *)
(** * The library of the user programs

    ulib.c and printf.c.  A string is the list of its characters before the NUL,
    which is what reading past them gives; characters are signed, as the
    compiler's are.  The system calls are parameters. *)

From S2P Require Import Prelude.
From stdpp Require Import base gmap list strings.
From Stdlib Require Import ZArith Lia.
#[local] Open Scope Z_scope.

(** ** Strings *)

Fixpoint strcmp (p q : list Z) : Z :=
  match p with
  | x :: p' => if x =? hd 0 q then strcmp p' (tl q) else x mod 256 - hd 0 q mod 256
  | [] => 0 - hd 0 q mod 256
  end.
Fixpoint strlen_u (s : list Z) : Z :=
  match s with [] => 0 | _ :: s => 1 + strlen_u s end.
(** The place of the character, in bytes that end with the first NUL. *)
Fixpoint strchr (s : list Z) (c : Z) : option nat :=
  match s with
  | [] => None
  | x :: s => if x =? 0 then None else if x =? c then Some O else S <$> strchr s c
  end.

Definition is_digit (c : Z) : bool := (48 <=? c) && (c <=? 57).
Fixpoint atoi_loop (n : Z) (s : list Z) : Z :=
  match s with
  | c :: s => if is_digit c then atoi_loop (i32 (i32 (n * 10 + c) - 48)) s else n
  | [] => n
  end.
Definition atoi (s : list Z) : Z := atoi_loop 0 s.

(** [read (0, &c, 1)] gives a character or fails. *)
Section Gets.
  Context {St : Type} (read1 : St -> option Z * St).

Fixpoint gets_loop (k : nat) (s : St) : list Z * St :=
  match k with
  | O => ([], s)
  | S k =>
      match read1 s with
      | (None, s) => ([], s)
      | (Some c, s) =>
          if (c =? 10) || (c =? 13) then ([c], s)
          else let '(l, s) := gets_loop k s in (c :: l, s)
      end
  end.
Definition gets (max : Z) (s : St) : list Z * St := gets_loop (Z.to_nat (max - 1)) s.
End Gets.

(** ** Numbers *)

Definition DIGITS : list Z := [48; 49; 50; 51; 52; 53; 54; 55; 56; 57; 65; 66; 67; 68; 69; 70].
Definition digits : list Z := [48; 49; 50; 51; 52; 53; 54; 55; 56; 57; 97; 98; 99; 100; 101; 102].

(** The loop that fills the buffer, least digit first. *)
Fixpoint digit_loop (fuel : nat) (ds : list Z) (base x : Z) : option (list Z) :=
  match fuel with
  | O => None
  | S fuel =>
      let d := nth (Z.to_nat (x mod base)) ds 0 in
      if x / base =? 0 then Some [d] else cons d <$> digit_loop fuel ds base (x / base)
  end.
(** What is put out, character by character. *)
Definition print_number (ds : list Z) (xx base : Z) (sgn : bool) : option (list Z) :=
  let neg := sgn && (xx <? 0) in
  let x := if neg then u32 (- xx) else u32 xx in
  buf ← digit_loop 32 ds base x;
  Some (rev (buf ++ if neg then [45] else [])).
Definition printint (xx base : Z) (sgn : bool) : option (list Z) := print_number DIGITS xx base sgn.

(** ** printf *)

Section Printf.
  (** The strings in memory, and the words above the format on the stack. *)
  Context (str : Z -> list Z) (ap : nat -> Z).

Definition null_string : list Z := [40; 110; 117; 108; 108; 41].
Definition putc (c : Z) : list Z := [c mod 256].

(** A character after a percent sign: its output and the words it takes. *)
Definition conversion (c : Z) (k : nat) : option (list Z * nat) :=
  if c =? 100 then out ← printint (i32 (ap k)) 10 true; Some (out, S k)
  else if (c =? 120) || (c =? 112) then out ← printint (i32 (ap k)) 16 false; Some (out, S k)
  else if c =? 115 then
    Some ((fun x => x mod 256) <$> (if ap k =? 0 then null_string else str (ap k)), S k)
  else if c =? 99 then Some (putc (ap k), S k)
  else if c =? 37 then Some (putc c, k)
  else Some (putc 37 ++ putc c, k).
Fixpoint printf_loop (fmt : list Z) (percent : bool) (k : nat) : option (list Z) :=
  match fmt with
  | [] => Some []
  | x :: fmt =>
      let c := x mod 256 in
      if percent then
        '(out, k) ← conversion c k;
        rest ← printf_loop fmt false k;
        Some (out ++ rest)
      else if c =? 37 then printf_loop fmt true k
      else rest ← printf_loop fmt false k; Some (putc c ++ rest)
  end.
Definition printf (fmt : list Z) : option (list Z) := printf_loop fmt false 0.
End Printf.

(** ** The digits of a number *)

(** The number a string of digits stands for. *)
Definition digit_value (c : Z) : Z := if c <=? 57 then c - 48 else if c <=? 70 then c - 55 else c - 87.
Fixpoint number_value (base n : Z) (ds : list Z) : Z :=
  match ds with [] => n | c :: ds => number_value base (n * base + digit_value c) ds end.

Lemma number_value_app base n l1 l2 : number_value base n (l1 ++ l2) = number_value base (number_value base n l1) l2.
Proof. revert n. induction l1 as [|c l1 IH]; intros n; cbn; [done|apply IH]. Qed.

(** The digit for [k] stands for [k], and is a decimal digit if [k] is. *)
Lemma digit_ok ds k :
  ds = DIGITS \/ ds = digits -> 0 <= k < 16 ->
  let d := nth (Z.to_nat k) ds 0 in digit_value d = k /\ d <> 45 /\ (k < 10 -> is_digit d = true).
Proof.
  intros Hds Hk. assert (exists n, k = Z.of_nat n /\ (n < 16)%nat) as (n & -> & Hn) by (exists (Z.to_nat k); lia).
  rewrite Nat2Z.id. destruct Hds as [-> | ->]; do 16 (destruct n as [|n]; [cbn; done|]); lia.
Qed.

Section Digits.
  Context (ds : list Z) (base : Z) (Hds : ds = DIGITS \/ ds = digits) (Hb : 2 <= base <= 16).

Lemma digit_loop_ok fuel x k :
  0 <= x < base ^ (Z.of_nat k + 1) -> (k < fuel)%nat ->
  exists l, digit_loop fuel ds base x = Some l /\ number_value base 0 (rev l) = x /\ (length l <= S k)%nat /\ l <> [] /\
    Forall (fun c => c <> 45 /\ (base <= 10 -> is_digit c = true)) l.
Proof.
  revert x k. induction fuel as [|fuel IH]; intros x k Hx Hk; [lia|]. cbn [digit_loop].
  pose proof (Z.mod_pos_bound x base ltac:(lia)) as Hm. pose proof (Z.div_mod x base ltac:(lia)) as Hdiv.
  destruct (digit_ok ds (x mod base) Hds ltac:(lia)) as (Hv & Hd & Hdec). set (d := nth _ ds 0) in *.
  destruct (Z.eqb_spec (x / base) 0) as [E|E].
  - exists [d]. split; [done|]. cbn. rewrite Hv, E in *. split; [lia|]. split; [lia|]. split; [done|].
    constructor; [|done]. split; [done|]. intros. apply Hdec. lia.
  - destruct k as [|k].
    { exfalso. apply E, Z.div_small. rewrite Z.add_0_l, Z.pow_1_r in Hx. lia. }
    destruct (IH (x / base) k) as (l & Hl & Hval & Hlen & Hne & Hall); [|lia|].
    { split; [apply Z.div_pos; lia|]. apply Z.div_lt_upper_bound; [lia|]. rewrite <-Z.pow_succ_r by lia.
      replace (Z.succ (Z.of_nat k + 1)) with (Z.of_nat (S k) + 1) by lia. lia. }
    exists (d :: l). rewrite Hl. split; [done|]. cbn [rev]. rewrite number_value_app, Hval. cbn. rewrite Hv.
    split; [lia|]. split; [lia|]. split; [done|]. constructor; [|done]. split; [done|]. intros. apply Hdec. lia.
Qed.
End Digits.

(** what [printint] puts out fits in its buffer of 16 characters, and read as
    a number in the base, with its sign, it is the argument; of an unsigned
    conversion, the argument as an unsigned word. *)
Theorem printint_correct xx base sgn :
  -2147483648 <= xx < 2147483648 -> base = 10 \/ base = 16 ->
  exists out, printint xx base sgn = Some out /\ (length out <= 16)%nat /\
    match out with
    | c :: l => if decide (c = 45) then sgn = true /\ number_value base 0 l = - xx /\ 0 < - xx
                else number_value base 0 out = (if sgn then xx else u32 xx)
    | [] => False
    end.
Proof.
  intros Hxx Hb. unfold printint, print_number. set (neg := sgn && (xx <? 0)). set (x := if neg then u32 (- xx) else u32 xx).
  destruct (digit_loop_ok DIGITS base ltac:(by left) ltac:(lia) 32 x 9) as (l & Hl & Hval & Hlen & Hne & Hall); [|lia|].
  { pose proof (u32_range xx) as Hr. pose proof (u32_range (- xx)) as Hr'. unfold is_u32 in *. change (Z.of_nat 9 + 1) with 10.
    assert (4294967296 < base ^ 10) by (destruct Hb as [-> | ->]; reflexivity). subst x. destruct neg; lia. }
  rewrite Hl. cbn. eexists. split; [done|]. rewrite length_rev, length_app. rewrite rev_app_distr.
  split; [destruct neg; cbn; lia|]. destruct neg eqn:En; cbn.
  - apply andb_prop in En as [-> En%Z.ltb_lt]. rewrite Hval. subst x. split; [done|]. rewrite u32_small by lia. lia.
  - destruct (rev l) as [|c r] eqn:Er; [by apply (f_equal (@rev Z)) in Er; rewrite rev_involutive in Er|].
    assert (c <> 45) as Hc.
    { apply (Forall_rev) in Hall. rewrite Er in Hall. by apply Forall_cons in Hall as [[? _] _]. }
    rewrite decide_False by done. rewrite Hval. subst x. destruct sgn; [|done]. cbn in En. apply Z.ltb_ge in En. by rewrite u32_small by lia.
Qed.
Lemma printint_correct_witness : exists out, printint (-2147483648) 10 true = Some out /\ (length out <= 16)%nat.
Proof. destruct (printint_correct (-2147483648) 10 true) as (out & H1 & H2 & _); [lia|by left|]. by exists out. Defined.

Lemma atoi_loop_value n l rest :
  Forall (fun c => is_digit c = true) l -> is_digit (hd 0 rest) = false -> 0 <= n -> number_value 10 n l < 2147483648 ->
  atoi_loop n (l ++ rest) = number_value 10 n l.
Proof.
  revert n. induction l as [|c l IH]; intros n Hl Hr Hn Hv; cbn in *.
  - destruct rest as [|c rest]; [done|]. cbn in *. by rewrite Hr.
  - apply Forall_cons in Hl as [Hc Hl]. rewrite Hc. unfold is_digit in Hc. apply andb_prop in Hc as [H1%Z.leb_le H2%Z.leb_le].
    unfold digit_value in *. rewrite (proj2 (Z.leb_le c 57)) in * by lia.
    assert (forall m l, 0 <= m -> Forall (fun c => is_digit c = true) l -> m <= number_value 10 m l) as Hmono.
    { intros m l0 Hm Hl0. revert m Hm. induction Hl0 as [|d l0 Hd Hl0 IH0]; intros m Hm; cbn; [lia|].
      unfold is_digit in Hd. apply andb_prop in Hd as [?%Z.leb_le ?%Z.leb_le]. unfold digit_value at 1.
      rewrite (proj2 (Z.leb_le d 57)) by lia. etrans; [|apply IH0; lia]. lia. }
    pose proof (Hmono (n * 10 + (c - 48)) l ltac:(lia) Hl) as Hle.
    assert (i32 (i32 (n * 10 + c) - 48) = n * 10 + (c - 48)) as -> by (unfold i32; dlia).
    apply IH; [done|done|lia|done].
Qed.

(** [atoi] reads back what [printint] prints of a number that is not
    negative, whatever follows that is not a digit. *)
Theorem atoi_printint x rest :
  0 <= x < 2147483648 -> is_digit (hd 0 rest) = false ->
  exists out, printint x 10 true = Some out /\ atoi (out ++ rest) = x.
Proof.
  intros Hx Hr. unfold printint, print_number. rewrite (proj2 (Z.ltb_ge x 0)), (u32_small x) by lia. cbn [andb].
  destruct (digit_loop_ok DIGITS 10 ltac:(by left) ltac:(lia) 32 x 9) as (l & Hl & Hval & _ & _ & Hall);
    [change (10 ^ (Z.of_nat 9 + 1)) with 10000000000; lia|lia|].
  rewrite Hl. cbn. eexists. split; [done|]. rewrite app_nil_r. unfold atoi. rewrite atoi_loop_value; [done| |done|done|lia].
  apply Forall_rev. eapply Forall_impl; [exact Hall|]. intros c [_ Hc]. by apply Hc.
Qed.
Lemma atoi_printint_witness : exists out, printint 1024 10 true = Some out /\ atoi (out ++ [32]) = 1024.
Proof. apply (atoi_printint 1024 [32]); [lia|reflexivity]. Defined.
