(* ===== verification/Umalloc.v ===== *)
(** * The memory allocator of the user programs

    umalloc.c: blocks start with a header, and the free ones form a ring, sorted
    by address, through the header [base].  Addresses are in bytes, sizes in
    headers of eight bytes.  [sbrk] is the kernel's: here it grants a request or
    not, and the break moves. *)

From S2P Require Import Prelude.
From stdpp Require Import base gmap list strings relations.
From Stdlib Require Import ZArith Lia.
#[local] Open Scope Z_scope.

Record header := mkHdr { h_ptr : Z; h_size : Z }.
Record heap := mkHeap { headers : gmap Z header; freep : Z; brk : Z }.

Section Malloc.
  (** The address of the static header, and which requests the kernel grants. *)
  Variables (base : Z) (grants : Z -> Z -> bool).

Definition hdr (h : heap) (a : Z) : header := default (mkHdr 0 0) (headers h !! a).
Definition ptr (h : heap) (a : Z) : Z := h_ptr (hdr h a).
Definition hsize (h : heap) (a : Z) : Z := h_size (hdr h a).
Definition set_hdr (a : Z) (x : header) (h : heap) : heap := mkHeap (<[a := x]> (headers h)) (freep h) (brk h).
Definition set_freep (a : Z) (h : heap) : heap := mkHeap (headers h) a (brk h).
(** The header [n] headers further. *)
Definition plus (a n : Z) : Z := u32 (a + 8 * n).

(** ** free *)

Fixpoint find_place (fuel : nat) (h : heap) (bp p : Z) : option Z :=
  match fuel with
  | O => None
  | S fuel =>
      if (bp >? p) && (bp <? ptr h p) then Some p
      else if (p >=? ptr h p) && ((bp >? p) || (bp <? ptr h p)) then Some p
      else find_place fuel h bp (ptr h p)
  end.
Definition link_block (bp p : Z) (h : heap) : heap :=
  let h :=
    if plus bp (hsize h bp) =? ptr h p
    then set_hdr bp (mkHdr (ptr h (ptr h p)) (u32 (hsize h bp + hsize h (ptr h p)))) h
    else set_hdr bp (mkHdr (ptr h p) (hsize h bp)) h in
  let h :=
    if plus p (hsize h p) =? bp
    then set_hdr p (mkHdr (ptr h bp) (u32 (hsize h p + hsize h bp))) h
    else set_hdr p (mkHdr bp (hsize h p)) h in
  set_freep p h.
Definition free (fuel : nat) (ap : Z) (h : heap) : option heap :=
  let bp := u32 (ap - 8) in
  p ← find_place fuel h bp (freep h);
  Some (link_block bp p h).

(** ** malloc *)

Definition sbrk (n : Z) (h : heap) : option (Z * heap) :=
  if grants (brk h) n then Some (brk h, mkHeap (headers h) (freep h) (brk h + n)) else None.
(** The outer option is the fuel, the inner one the null pointer. *)
Definition morecore (fuel : nat) (nu : Z) (h : heap) : option (option Z * heap) :=
  let nu := if nu <? 4096 then 4096 else nu in
  match sbrk (i32 (u32 (nu * 8))) h with
  | None => Some (None, h)
  | Some (hp, h) =>
      h ← free fuel (hp + 8) (set_hdr hp (mkHdr (ptr h hp) nu) h);
      Some (Some (freep h), h)
  end.
(** The block itself, or its end: its address afterwards. *)
Definition take_units (nunits prevp p : Z) (h : heap) : Z * heap :=
  if hsize h p =? nunits then (p, set_hdr prevp (mkHdr (ptr h p) (hsize h prevp)) h)
  else
    let n := u32 (hsize h p - nunits) in
    let h := set_hdr p (mkHdr (ptr h p) n) h in
    let q := plus p n in
    (q, set_hdr q (mkHdr (ptr h q) nunits) h).
Fixpoint malloc_loop (fuel : nat) (nunits prevp p : Z) (h : heap) : option (option Z * heap) :=
  match fuel with
  | O => None
  | S fuel =>
      if hsize h p >=? nunits then
        let '(p, h) := take_units nunits prevp p h in
        Some (Some (plus p 1), set_freep prevp h)
      else if p =? freep h then
        '(r, h) ← morecore fuel nunits h;
        match r with
        | None => Some (None, h)
        | Some p => malloc_loop fuel nunits p (ptr h p) h
        end
      else malloc_loop fuel nunits p (ptr h p) h
  end.
Definition units (nbytes : Z) : Z := u32 (u32 (nbytes + 8 - 1) / 8 + 1).
Definition malloc (fuel : nat) (nbytes : Z) (h : heap) : option (option Z * heap) :=
  let nunits := units nbytes in
  let h := if freep h =? 0 then set_freep base (set_hdr base (mkHdr base 0) h) else h in
  malloc_loop fuel nunits (freep h) (ptr h (freep h)) h.

(** ** The ring *)

(** Blocks, as an address and a size. *)
Definition blocks := list (Z * Z).
Definition first (l : blocks) (d : Z) : Z := match l with [] => d | (a, _) :: _ => a end.
(** The headers of the blocks lead from one to the next, and from the last to [d]. *)
Fixpoint chain (h : heap) (l : blocks) (d : Z) : Prop :=
  match l with
  | [] => True
  | (a, s) :: l' => hdr h a = mkHdr (first l' d) s /\ chain h l' d
  end.
(** In order, and with something between them. *)
Fixpoint spaced (l : blocks) : Prop :=
  match l with
  | [] => True
  | (a, s) :: l' => 0 <= s /\ match l' with [] => True | (b, _) :: _ => a + 8 * s < b end /\ spaced l'
  end.

Lemma first_app l1 p s l2 d : first (l1 ++ (p, s) :: l2) d = first l1 p.
Proof. by destruct l1 as [|[? ?] ?]. Qed.
Lemma chain_app h l1 p s l2 d : chain h (l1 ++ (p, s) :: l2) d <-> chain h l1 p /\ chain h ((p, s) :: l2) d.
Proof.
  induction l1 as [|[a t] l1 IH]; cbn; [tauto|]. rewrite first_app, IH. cbn. tauto.
Qed.
Lemma chain_ext h h' l d : chain h l d -> (forall a, a ∈ l.*1 -> hdr h' a = hdr h a) -> chain h' l d.
Proof.
  induction l as [|[a s] l IH]; cbn; [done|]. intros [Ha Hl] He. split; [by rewrite He by left|].
  apply IH; [done|]. intros b Hb. apply He. by right.
Qed.
Lemma spaced_after a s l b : spaced ((a, s) :: l) -> b ∈ l.*1 -> a + 8 * s < b.
Proof.
  revert a s. induction l as [|[c t] l IH]; intros a s; cbn; [by intros _ ?%not_elem_of_nil|].
  intros (H1 & H2 & H3 & H4) [->|Hb]%elem_of_cons; [done|]. specialize (IH c t (conj H3 H4) Hb). lia.
Qed.
Lemma spaced_app l1 a s l2 :
  spaced (l1 ++ (a, s) :: l2) <-> spaced (l1 ++ [(a, s)]) /\ spaced ((a, s) :: l2).
Proof.
  induction l1 as [|[b t] l1 IH]; cbn; [cbn in *; tauto|]. destruct l1 as [|[c u] l1]; cbn in *; tauto.
Qed.
Lemma spaced_before l1 a s b : spaced (l1 ++ [(a, s)]) -> b ∈ l1.*1 -> b < a.
Proof.
  induction l1 as [|[c t] l1 IH]; [by intros _ ?%not_elem_of_nil|]. intros Hs [->|Hb]%elem_of_cons.
  - cbn [app] in Hs. assert (c + 8 * t < a); [|cbn in Hs |- *; destruct Hs; lia].
    apply (spaced_after c t (l1 ++ [(a, s)])); [done|]. rewrite fmap_app. apply elem_of_app. right. left.
  - apply IH; [|done]. cbn in Hs. apply Hs.
Qed.

(** ** Finding the place of a block *)

Lemma find_place_le fuel fuel' h bp p r : (fuel <= fuel')%nat -> find_place fuel h bp p = Some r -> find_place fuel' h bp p = Some r.
Proof.
  revert fuel' p. induction fuel as [|fuel IH]; intros fuel' p Hle; [done|]. destruct fuel' as [|fuel']; [lia|]. cbn.
  repeat case_match; try done. apply IH. lia.
Qed.
Section Find.
  Context (h : heap) (bp p ps : Z) (l1 l2 : blocks).
  Context (Hc : chain h (l1 ++ (p, ps) :: l2) base) (Hs : spaced (l1 ++ (p, ps) :: l2)).
  Context (Hf : first (l1 ++ (p, ps) :: l2) base = base).
  Context (Hp : p < bp) (Hn : forall a, a ∈ l2.*1 -> bp < a) (Hb : base < bp).

Lemma find_here fuel : find_place (S fuel) h bp p = Some p.
Proof.
  destruct (proj1 (chain_app _ _ _ _ _ _) Hc) as [_ [Hh _]]. destruct (proj1 (spaced_app _ _ _ _) Hs) as [Hs0 Hs']. cbn [find_place]. unfold ptr. rewrite Hh. cbn [h_ptr].
  rewrite !Z.gtb_ltb, (proj2 (Z.ltb_lt p bp)) by done. cbn [andb orb]. destruct l2 as [|[q t] l3]; cbn [first].
  - rewrite (proj2 (Z.ltb_ge bp base)) by lia. rewrite first_app in Hf.
    rewrite Z.geb_leb, (proj2 (Z.leb_le base p)); [done|]. destruct l1 as [|[b t] l4]; cbn in Hf; [lia|]. subst b.
    assert (base < p); [|lia]. apply (spaced_before ((base, t) :: l4) p ps); [done|left].
  - rewrite (proj2 (Z.ltb_lt bp q)); [done|]. apply Hn. left.
Qed.
(** From a block before the place. *)
Lemma find_forward m1 m fuel :
  l1 = m1 ++ m -> find_place (S (length m + fuel)) h bp (first m p) = Some p.
Proof.
  revert m1. induction m as [|[x t] m IH]; intros m1 E; [apply find_here|]. cbn [first length Nat.add].
  assert (chain h ((x, t) :: m ++ (p, ps) :: l2) base /\ spaced ((x, t) :: m ++ (p, ps) :: l2)) as [[Hx _] Hsx].
  { rewrite E, <-app_assoc in Hc, Hs. cbn [app] in Hc, Hs. split; [by apply chain_app in Hc as [_ ?]|by apply spaced_app in Hs as [_ ?]]. }
  change (S (S (length m + fuel))) with (S (S (length m + fuel))). cbn [find_place]. unfold ptr. rewrite Hx. cbn [h_ptr]. rewrite first_app.
  assert (x < first m p <= p) as Hlt.
  { split.
    - destruct m as [|[y u] m]; cbn in *; lia.
    - destruct m as [|[y u] m]; cbn [first]; [lia|]. assert (y < p); [|lia]. apply (spaced_before ((y, u) :: m) p ps); [|left].
      cbn [app] in Hsx. change ((x, t) :: (y, u) :: m ++ (p, ps) :: l2) with (((x, t) :: (y, u) :: m) ++ (p, ps) :: l2) in Hsx.
      apply spaced_app in Hsx as [Hsx _]. cbn in Hsx |- *. apply Hsx. }
  rewrite (proj2 (Z.ltb_ge bp (first m p))), andb_false_r by lia. rewrite Z.geb_leb, (proj2 (Z.leb_gt (first m p) x)) by lia. cbn [andb].
  apply (IH (m1 ++ [(x, t)])). by rewrite E, <-app_assoc.
Qed.
(** From a block after it, around the ring. *)
Lemma find_around m1 m fuel :
  l2 = m1 ++ m -> find_place (length m + fuel) h bp (first m base) = find_place fuel h bp base.
Proof.
  revert m1. induction m as [|[x t] m IH]; intros m1 E; [done|]. cbn [first length Nat.add].
  assert (chain h ((x, t) :: m) base /\ spaced ((x, t) :: m)) as [[Hx _] Hsx].
  { apply chain_app in Hc as [_ Hc']. apply spaced_app in Hs as [_ Hs']. rewrite E in Hc', Hs'.
    change ((p, ps) :: m1 ++ (x, t) :: m) with (((p, ps) :: m1) ++ (x, t) :: m) in Hc', Hs'.
    split; [by apply chain_app in Hc' as [_ ?]|by apply spaced_app in Hs' as [_ ?]]. }
  assert (bp < x) as Hbx by (apply Hn; rewrite E, fmap_app; apply elem_of_app; right; left).
  cbn [find_place]. unfold ptr. rewrite Hx. cbn [h_ptr]. rewrite !Z.gtb_ltb, (proj2 (Z.ltb_ge x bp)) by lia. cbn [andb orb].
  rewrite <-(IH (m1 ++ [(x, t)])) by (by rewrite E, <-app_assoc). rewrite Z.geb_leb.
  destruct m as [|[y u] m]; cbn [first].
  - rewrite (proj2 (Z.ltb_ge bp base)) by lia. by rewrite andb_false_r.
  - rewrite (proj2 (Z.leb_gt y x)); [done|]. cbn in Hsx. lia.
Qed.
Lemma find_place_ok fuel a :
  a ∈ (l1 ++ (p, ps) :: l2).*1 -> (2 * length (l1 ++ (p, ps) :: l2) <= fuel)%nat -> find_place fuel h bp a = Some p.
Proof.
  intros Ha Hfu. rewrite fmap_app, length_app in *. cbn [length] in Hfu. apply elem_of_app in Ha as [Ha|[->|Ha]%elem_of_cons].
  - apply list_elem_of_fmap in Ha as ([a' t] & -> & Ha). apply list_elem_of_split in Ha as (m1 & m & E). cbn.
    apply (find_place_le (S (length ((a', t) :: m) + 0))); [rewrite E, length_app in Hfu; cbn in *; lia|].
    apply (find_forward m1 ((a', t) :: m) 0 E).
  - apply (find_place_le 1); [lia|]. apply find_here.
  - apply list_elem_of_fmap in Ha as ([a' t] & -> & Ha). apply list_elem_of_split in Ha as (m1 & m & E). cbn.
    apply (find_place_le (length ((a', t) :: m) + (S (length l1 + 0)))); [rewrite E, length_app in Hfu; cbn in *; lia|].
    rewrite (find_around m1 ((a', t) :: m) _ E). rewrite <-(eq_trans (eq_sym (first_app l1 p ps l2 base)) Hf). by apply (find_forward []).
Qed.
End Find.

(** ** Putting a block in its place *)

Definition MEMTOP : Z := 2147483648.
(** The ring with the block [bp] of size [s] after [p], joined with its neighbours
    where they touch. *)
Definition join_next (bp s : Z) (l2 : blocks) : Z * blocks :=
  match l2 with
  | (q, t) :: l3 => if decide (bp + 8 * s = q) then (s + t, l3) else (s, l2)
  | [] => (s, [])
  end.
Definition place (l1 : blocks) (p ps bp s : Z) (l2 : blocks) : blocks :=
  let '(s', l2') := join_next bp s l2 in
  if decide (p + 8 * ps = bp) then l1 ++ (p, ps + s') :: l2' else l1 ++ (p, ps) :: (bp, s') :: l2'.

Lemma hdr_set a x h b : hdr (set_hdr a x h) b = if decide (b = a) then x else hdr h b.
Proof.
  unfold hdr, set_hdr. cbn. case_decide as E; [by rewrite E, lookup_insert_eq|by rewrite lookup_insert_ne by done].
Qed.

Section Place.
  Context (h : heap) (bp s p ps : Z) (l1 l2 : blocks).
  Context (Hc : chain h (l1 ++ (p, ps) :: l2) base) (Hs : spaced (l1 ++ (p, ps) :: l2)).
  Context (Hpb : p + 8 * ps <= bp) (Hps : 0 <= ps) (Hp0 : 0 < p) (Hbase : base < bp) (Hsz : 1 <= s) (Htop : bp + 8 * s <= MEMTOP).
  Context (Hnext : match l2 with [] => True | (q, t) :: _ => bp + 8 * s <= q /\ 1 <= t /\ q + 8 * t <= MEMTOP end).
  Context (Hbs : hsize h bp = s) (Hne : p <> bp).

Lemma join_next_size : 1 <= (join_next bp s l2).1 /\ bp + 8 * (join_next bp s l2).1 <= MEMTOP.
Proof. destruct l2 as [|[q t] l3]; cbn; [lia|]. case_decide; cbn; lia. Qed.
Lemma join_next_hdr :
  exists h', (if plus bp (hsize h bp) =? ptr h p
    then set_hdr bp (mkHdr (ptr h (ptr h p)) (u32 (hsize h bp + hsize h (ptr h p)))) h
    else set_hdr bp (mkHdr (ptr h p) (hsize h bp)) h) = h' /\
    freep h' = freep h /\ brk h' = brk h /\
    hdr h' bp = mkHdr (first (join_next bp s l2).2 base) (join_next bp s l2).1 /\ forall a, a <> bp -> hdr h' a = hdr h a.
Proof.
  destruct (proj1 (chain_app _ _ _ _ _ _) Hc) as [_ [Hh Hc2]]. eexists. split; [reflexivity|]. unfold MEMTOP in *.
  assert (ptr h p = first l2 base) as -> by (unfold ptr; by rewrite Hh). rewrite Hbs. unfold plus. rewrite u32_small by lia.
  destruct l2 as [|[q t] l3]; cbn [first join_next].
  - rewrite (proj2 (Z.eqb_neq _ _)) by lia. split; [done|]. split; [done|].
    split; [by rewrite hdr_set, decide_True|]. intros a Ha. by rewrite hdr_set, decide_False.
  - destruct Hc2 as [Hq _]. destruct (Z.eqb_spec (bp + 8 * s) q) as [E|E]; [rewrite (decide_True (P := bp + 8 * s = q)) by done|rewrite (decide_False (P := bp + 8 * s = q)) by done];
      cbn [fst snd first]; (split; [done|]); (split; [done|]); (split; [|intros a Ha; by rewrite hdr_set, decide_False]);
      rewrite hdr_set, decide_True by done; [|done]. unfold ptr, hsize. rewrite Hq. cbn. by rewrite u32_small by lia.
Qed.
Lemma addr_ne a : a ∈ l1.*1 \/ a ∈ (join_next bp s l2).2.*1 -> a <> p /\ a <> bp.
Proof.
  destruct (proj1 (spaced_app _ _ _ _) Hs) as [Hs1 Hs2]. intros [Ha|Ha].
  - pose proof (spaced_before l1 p ps a Hs1 Ha). lia.
  - assert (a ∈ l2.*1) as Ha2.
    { destruct l2 as [|[q t] l3]; [done|]. cbn [join_next] in Ha. case_decide; cbn in Ha |- *; [by right|done]. }
    pose proof (spaced_after p ps l2 a Hs2 Ha2). split; [lia|]. destruct l2 as [|[q t] l3]; [by apply not_elem_of_nil in Ha2|].
    destruct Hs2 as (_ & _ & Hs3). apply elem_of_cons in Ha2 as [->|Ha3]; [cbn; lia|]. pose proof (spaced_after q t l3 a Hs3 Ha3). lia.
Qed.
Lemma join_next_chain h' : (forall a, a ∈ (join_next bp s l2).2.*1 -> hdr h' a = hdr h a) -> chain h' (join_next bp s l2).2 base.
Proof.
  intros He. destruct (proj1 (chain_app _ _ _ _ _ _) Hc) as [_ [_ Hc2]]. apply (chain_ext h); [|done].
  destruct l2 as [|[q t] l3]; [done|]. cbn [join_next]. case_decide; [apply Hc2|apply Hc2].
Qed.
Lemma link_block_ok :
  chain (link_block bp p h) (place l1 p ps bp s l2) base /\ freep (link_block bp p h) = p /\ brk (link_block bp p h) = brk h /\
  (forall a, a <> p -> a <> bp -> hdr (link_block bp p h) a = hdr h a).
Proof.
  unfold link_block. destruct join_next_hdr as (h1 & -> & Hf1 & Hb1 & Hbp & Hoth). unfold place. pose proof join_next_size as Hjs.
  pose proof addr_ne as Hno. pose proof join_next_chain as Hjc. destruct (join_next bp s l2) as [s' l2'] eqn:Ej. cbn [fst snd] in *.
  destruct (proj1 (chain_app _ _ _ _ _ _) Hc) as [Hc1 [Hh _]]. assert (hdr h1 p = hdr h p) as Hp1 by by apply Hoth.
  unfold plus, hsize, ptr, MEMTOP in *. rewrite Hp1, Hh. cbn [h_size]. rewrite u32_small by lia.
  assert (forall x a, a ∈ l1.*1 \/ a ∈ l2'.*1 -> hdr (set_freep p (set_hdr p x h1)) a = hdr h a) as Hkeep.
  { intros x a Ha. destruct (Hno a Ha). change (hdr (set_freep p (set_hdr p x h1)) a) with (hdr (set_hdr p x h1) a).
    rewrite hdr_set, decide_False by done. by apply Hoth. }
  assert (forall x a, a <> p -> a <> bp -> hdr (set_freep p (set_hdr p x h1)) a = hdr h a) as Hrest.
  { intros x a H1 H2. change (hdr (set_freep p (set_hdr p x h1)) a) with (hdr (set_hdr p x h1) a).
    rewrite hdr_set, decide_False by done. by apply Hoth. }
  destruct (Z.eqb_spec (p + 8 * ps) bp) as [E|E]; [rewrite (decide_True (P := p + 8 * ps = bp)) by done|rewrite (decide_False (P := p + 8 * ps = bp)) by done];
    (split; [|split; [done|split; [done|by apply Hrest]]]); apply chain_app; (split; [apply (chain_ext h); [done|by intros; apply Hkeep; left]|]); cbn [chain].
  - split; [|apply Hjc; by intros; apply Hkeep; right].
    change (hdr (set_freep p ?k) p) with (hdr k p). rewrite hdr_set, decide_True, Hbp by done. cbn. by rewrite u32_small by lia.
  - split; [change (hdr (set_freep p ?k) p) with (hdr k p); by rewrite hdr_set, decide_True|].
    split; [|apply Hjc; by intros; apply Hkeep; right].
    change (hdr (set_freep p ?k) bp) with (hdr k bp). by rewrite hdr_set, decide_False.
Qed.
Lemma spaced_resize m a x y : spaced (m ++ [(a, x)]) -> 0 <= y -> spaced (m ++ [(a, y)]).
Proof.
  intros Hm Hy. induction m as [|[b t] m IH]; cbn in *; [done|]. destruct Hm as (? & Hn & Hm). split; [done|]. split; [|by apply IH].
  by destruct m as [|[c u] m].
Qed.
Lemma place_spaced : spaced (place l1 p ps bp s l2).
Proof.
  destruct (proj1 (spaced_app _ _ _ _) Hs) as [Hs1 (_ & Hn & Hs2)]. pose proof join_next_size as [Hj _].
  assert (forall a t, a + 8 * t = bp + 8 * (join_next bp s l2).1 -> 0 <= t -> spaced ((a, t) :: (join_next bp s l2).2)) as Hjoin.
  { intros a t Ha Ht. destruct l2 as [|[q u] l3]; [by cbn|]. cbn [join_next] in *. cbn in Hs2. destruct Hs2 as (? & Hn3 & Hs3).
    case_decide; cbn [fst snd] in *; cbn; [|by repeat split; try lia].
    split; [lia|]. split; [|done]. destruct l3 as [|[c v] l3]; [done|]. lia. }
  unfold place. destruct (join_next bp s l2) as [s' l2'] eqn:Ej. cbn [fst snd] in *. case_decide as E; apply spaced_app; cbn [spaced].
  - split; [by apply (spaced_resize _ _ ps); [|lia]|]. apply Hjoin; lia.
  - split; [done|]. split; [lia|]. split; [lia|]. by apply Hjoin; [|lia].
Qed.
Lemma place_forall (Q : Z * Z -> Prop) :
  Forall Q (l1 ++ (p, ps) :: l2) -> Q (bp, s) ->
  (forall a t b u, Q (a, t) -> Q (b, u) -> a + 8 * t = b -> bp <= b -> Q (a, t + u)) -> Forall Q (place l1 p ps bp s l2).
Proof.
  intros [Hl1 [Hp Hl2]%Forall_cons]%Forall_app Hb Hj.
  assert (Q (bp, (join_next bp s l2).1) /\ Forall Q (join_next bp s l2).2) as [Hq Hf].
  { destruct l2 as [|[q t] l3]; [done|]. apply Forall_cons in Hl2 as [Hqt Hl3]. cbn [join_next]. case_decide as E; cbn [fst snd]; [|by auto].
    split; [|done]. apply (Hj bp s q t); [done|done|done|lia]. }
  unfold place. destruct (join_next bp s l2) as [s' l2']. cbn [fst snd] in *. case_decide as E; apply Forall_app; (split; [done|]).
  - apply Forall_cons. split; [|done]. by apply (Hj p ps bp s'); [..|lia].
  - by repeat (apply Forall_cons; split).
Qed.
(** Some block of the new ring contains the new block. *)
Lemma place_contains : exists b, b ∈ place l1 p ps bp s l2 /\ s <= b.2.
Proof.
  pose proof join_next_size as [Hj _]. assert (s <= (join_next bp s l2).1) as Hle.
  { destruct l2 as [|[q t] l3]; cbn; [lia|]. case_decide; cbn; lia. }
  unfold place. destruct (join_next bp s l2) as [s' l2']. cbn [fst] in *. case_decide.
  - exists (p, ps + s'). split; [|cbn; lia]. apply elem_of_app. right. left.
  - exists (bp, s'). split; [|cbn; lia]. apply elem_of_app. right. right. left.
Qed.
Lemma place_length : (length (place l1 p ps bp s l2) <= S (length (l1 ++ (p, ps) :: l2)))%nat.
Proof.
  assert (length (join_next bp s l2).2 <= length l2)%nat as Hl by (destruct l2 as [|[q t] l3]; cbn; [lia|]; case_decide; cbn; lia).
  unfold place. destruct (join_next bp s l2) as [s' l2']. cbn [snd] in *. case_decide; rewrite !length_app; cbn; lia.
Qed.
End Place.

(** ** The heap *)

(** Blocks do not overlap. *)
Definition disj (b c : Z * Z) : Prop := b.1 + 8 * b.2 <= c.1 \/ c.1 + 8 * c.2 <= b.1.
Fixpoint apart (l : blocks) : Prop :=
  match l with [] => True | b :: l => (forall c, c ∈ l -> disj b c) /\ apart l end.
Lemma apart_remove l1 b l2 : apart (l1 ++ b :: l2) -> apart (l1 ++ l2) /\ forall c, c ∈ l1 ++ l2 -> disj b c.
Proof.
  induction l1 as [|d l1 IH]; cbn; [tauto|]. intros [Hd Ha]. destruct (IH Ha) as [IH1 IH2]. split.
  - split; [|done]. intros c Hc. apply Hd. apply elem_of_app in Hc as [?|?]; apply elem_of_app; [by left|right; by right].
  - intros c [->|Hc]%elem_of_cons; [|by apply IH2]. destruct (Hd b) as [?|?]; [apply elem_of_app; right; left|by right|by left].
Qed.

Section Heap.
  (** Where the heap begins, after the static header. *)
  Variable lo : Z.

Definition within (h : heap) (b : Z * Z) : Prop := 1 <= b.2 /\ lo <= b.1 /\ b.1 + 8 * b.2 <= brk h.
(** The free blocks [fl], in the ring after [base], and the blocks [al] in use. *)
Record heap_ok (h : heap) (fl al : blocks) : Prop := {
  ho_lo : 0 < base /\ base + 8 <= lo /\ lo <= brk h <= MEMTOP;
  ho_chain : chain h ((base, 0) :: fl) base;
  ho_spaced : spaced ((base, 0) :: fl);
  ho_free : Forall (within h) fl;
  ho_used b : b ∈ al -> within h b /\ hsize h b.1 = b.2;
  ho_disj b c : b ∈ fl -> c ∈ al -> disj b c;
  ho_apart : apart al;
  ho_freep : freep h ∈ base :: fl.*1 }.

(** Where a block that is not in the ring belongs. *)
Lemma split_at bp (l : blocks) a s :
  a < bp -> spaced ((a, s) :: l) -> bp ∉ l.*1 ->
  exists l1 p ps l2, (a, s) :: l = l1 ++ (p, ps) :: l2 /\ p < bp /\ forall b, b ∈ l2.*1 -> bp < b.
Proof.
  revert a s. induction l as [|[b t] l IH]; intros a s Ha Hs Hn.
  { exists [], a, s, []. split; [done|]. split; [done|]. by intros b ?%not_elem_of_nil. }
  apply not_elem_of_cons in Hn as [Hn1 Hn2]. cbn in Hn1. destruct (decide (b < bp)) as [Hlt|Hge].
  - destruct (IH b t Hlt (proj2 (proj2 Hs)) Hn2) as (l1 & p & ps & l2 & E & Hp & Hl2).
    exists ((a, s) :: l1), p, ps, l2. rewrite E. done.
  - exists [], a, s, ((b, t) :: l). split; [done|]. split; [done|]. intros c [->|Hc]%elem_of_cons; [cbn; lia|].
    pose proof (spaced_after b t l c (proj2 (proj2 Hs)) Hc). destruct Hs as (_ & _ & Hs). cbn in Hs. lia.
Qed.

(** The blocks of the ring: [base], or free memory away from the blocks in use. *)
Definition ring_block (h : heap) (al : blocks) (b : Z * Z) : Prop :=
  b = (base, 0) \/ within h b /\ forall c, c ∈ al -> disj b c.
Lemma ring_blocks h fl al : heap_ok h fl al -> Forall (ring_block h al) ((base, 0) :: fl).
Proof.
  intros Ho. apply Forall_cons. split; [by left|]. apply Forall_forall. intros b Hb. right.
  split; [by apply (proj1 (Forall_forall _ _) (ho_free _ _ _ Ho))|]. intros c Hc. by apply (ho_disj _ _ _ Ho).
Qed.
Lemma ring_tail h al fl :
  spaced ((base, 0) :: fl) -> Forall (ring_block h al) ((base, 0) :: fl) ->
  Forall (within h) fl /\ forall b c, b ∈ fl -> c ∈ al -> disj b c.
Proof.
  intros Hs [_ Hf]%Forall_cons. assert (forall b, b ∈ fl -> within h b /\ forall c, c ∈ al -> disj b c) as Hb.
  { intros b Hb. destruct (proj1 (Forall_forall _ _) Hf b Hb) as [->|?]; [|done].
    pose proof (spaced_after base 0 fl base Hs (list_elem_of_fmap_2 fst fl (base, 0) Hb)). lia. }
  split; [apply Forall_forall; intros b ?; by apply Hb|]. intros b c ? ?. by apply Hb.
Qed.
Lemma place_base l1 p ps bp s l2 fl :
  (base, 0) :: fl = l1 ++ (p, ps) :: l2 -> base < bp -> exists fl', place l1 p ps bp s l2 = (base, 0) :: fl'.
Proof.
  intros E Hb. unfold place. destruct (join_next bp s l2) as [s' l2']. destruct l1 as [|b l1]; cbn in E; injection E as <- E.
  - intros. subst. rewrite decide_False by lia. cbn. eauto.
  - case_decide; cbn; eauto.
Qed.

Section Free.
  Context (h : heap) (fl a1 a2 : blocks) (bp s : Z) (Ho : heap_ok h fl (a1 ++ (bp, s) :: a2)).

Lemma freed_block : within h (bp, s) /\ hsize h bp = s /\ bp ∉ fl.*1.
Proof.
  assert ((bp, s) ∈ a1 ++ (bp, s) :: a2) as Hin by (apply elem_of_app; right; left).
  destruct (ho_used _ _ _ Ho _ Hin) as [Hw Hs]. split; [done|]. split; [done|]. intros Hx. apply list_elem_of_fmap in Hx as ([a t] & E & Hb). cbn in E. subst a.
  destruct (ho_disj _ _ _ Ho _ _ Hb Hin) as [Hd|Hd]; cbn in Hd; [|destruct Hw; cbn in *; lia].
  pose proof (proj1 (Forall_forall _ _) (ho_free _ _ _ Ho) _ Hb) as [H1 _]. cbn in H1. lia.
Qed.
Lemma free_place :
  exists l1 p ps l2, (base, 0) :: fl = l1 ++ (p, ps) :: l2 /\ p < bp /\ (forall b, b ∈ l2.*1 -> bp < b) /\
    p + 8 * ps <= bp /\ 0 <= ps /\ 0 < p /\
    match l2 with [] => True | (q, t) :: _ => bp + 8 * s <= q /\ 1 <= t /\ q + 8 * t <= MEMTOP end.
Proof.
  destruct freed_block as ((Hs1 & Hlo & Htop) & _ & Hn). cbn in *. destruct (ho_lo _ _ _ Ho) as (B1 & B2 & B3).
  destruct (split_at bp fl base 0 ltac:(lia) (ho_spaced _ _ _ Ho) Hn) as (l1 & p & ps & l2 & E & Hp & Hl2).
  pose proof (ring_blocks _ _ _ Ho) as Hr. rewrite E in Hr. apply Forall_app in Hr as [_ [Hp' Hr]%Forall_cons].
  assert ((bp, s) ∈ a1 ++ (bp, s) :: a2) as Hin by (apply elem_of_app; right; left).
  exists l1, p, ps, l2. split; [done|]. split; [done|]. split; [done|].
  assert (p + 8 * ps <= bp /\ 0 <= ps /\ 0 < p) as (H1 & H2 & H3).
  { destruct Hp' as [[= -> ->]|[[? [? ?]] Hd]]; [lia|]. destruct (Hd _ Hin); cbn in *; lia. }
  split; [done|]. split; [done|]. split; [done|]. destruct l2 as [|[q t] l3]; [done|]. apply Forall_cons in Hr as [Hq _].
  assert (bp < q) by (apply Hl2; left). destruct Hq as [[= -> ->]|[[? [? ?]] Hd]]; [lia|]. destruct (Hd _ Hin); cbn in *; lia.
Qed.
Lemma free_ok fuel :
  (2 * S (length fl) <= fuel)%nat ->
  exists h' fl', free fuel (bp + 8) h = Some h' /\ heap_ok h' fl' (a1 ++ a2) /\ brk h' = brk h /\
    (length fl' <= S (length fl))%nat /\ exists b, b ∈ fl' /\ s <= b.2.
Proof.
  intros Hfuel. destruct freed_block as ((Hs1 & Hlo & Htop) & Hsz & Hn). cbn in Hs1, Hlo, Htop. destruct (ho_lo _ _ _ Ho) as (B1 & B2 & B3).
  destruct free_place as (l1 & p & ps & l2 & E & Hp & Hl2 & Hpb & Hps & Hp0 & Hnext).
  pose proof (ho_chain _ _ _ Ho) as Hc. pose proof (ho_spaced _ _ _ Ho) as Hsp. pose proof (ring_blocks _ _ _ Ho) as Hr. rewrite E in Hc, Hsp, Hr.
  unfold free. replace (u32 (bp + 8 - 8)) with bp by (unfold MEMTOP in *; mlia).
  rewrite (find_place_ok h bp p ps l1 l2 Hc Hsp); [cbn|by rewrite <-E|done|done|lia| |].
  2: { rewrite <-E. apply (ho_freep _ _ _ Ho). } 2: { rewrite <-E. cbn [length]. lia. }
  destruct (link_block_ok h bp s p ps l1 l2 Hc Hsp Hpb Hps Hp0 ltac:(lia) Hs1 ltac:(lia) Hnext Hsz ltac:(lia)) as (K1 & K2 & K3 & K4).
  assert (spaced (place l1 p ps bp s l2)) as K5 by (apply (place_spaced h); done || lia).
  assert (exists b, b ∈ place l1 p ps bp s l2 /\ s <= b.2) as (b & Hb & Hbs) by (apply (place_contains h); done || lia).
  assert (length (place l1 p ps bp s l2) <= S (length (l1 ++ (p, ps) :: l2)))%nat as K6 by (apply (place_length h); done || lia).
  rewrite <-E in K6. cbn [length] in K6.
  destruct (apart_remove a1 (bp, s) a2 (ho_apart _ _ _ Ho)) as [Hap Hdis].
  assert (Forall (ring_block h (a1 ++ a2)) (place l1 p ps bp s l2)) as K7.
  { apply (place_forall h); try (done || lia).
    - eapply Forall_impl; [exact Hr|]. intros c [?|[? Hd]]; [by left|right]. split; [done|]. intros d Hd'. apply Hd.
      apply elem_of_app in Hd' as [?|?]; apply elem_of_app; [by left|right; by right].
    - right. done.
    - intros a t d u [[= -> ->]|[(W1 & W2 & W3) Ha]] [[= -> ->]|[(X1 & X2 & X3) Hd]] Had Hge; cbn in *; try lia. right. split; [split; cbn; lia|].
      intros c Hc'. destruct (Ha c Hc') as [?|?], (Hd c Hc') as [?|?]; unfold disj; cbn in *; try lia.
      destruct (ho_used _ _ _ Ho c) as [[? _] _]; [|lia]. apply elem_of_app in Hc' as [?|?]; apply elem_of_app; [by left|right; by right]. }
  destruct (place_base l1 p ps bp s l2 fl E ltac:(lia)) as (fl' & Ef). rewrite Ef in *. cbn [length] in K6.
  destruct (ring_tail h (a1 ++ a2) fl' K5 K7) as [R1 R2]. exists (link_block bp p h), fl'. split; [done|]. split; [|split; [done|split; [lia|]]].
  2: { exists b. split; [|done]. apply elem_of_cons in Hb as [->|?]; [cbn in Hbs; lia|done]. }
  split; [by rewrite K3|done|done| | |done|done|].
  - eapply Forall_impl; [exact R1|]. intros c (? & ? & ?). by split; [|rewrite K3].
  - intros c Hc'. assert (c ∈ a1 ++ (bp, s) :: a2) as Hin by (apply elem_of_app in Hc' as [?|?]; apply elem_of_app; [by left|right; by right]).
    destruct (ho_used _ _ _ Ho c Hin) as [(W1 & W2 & W3) Hh]. split; [by split; [|rewrite K3]|]. unfold hsize. rewrite K4; [done| |].
    + apply Forall_app in Hr as [_ [Hr _]%Forall_cons]. intros Ep. destruct Hr as [[= -> ->]|[[? [? ?]] Hd]]; [lia|].
      destruct (Hd c Hin); cbn in *; lia.
    + intros Ep. destruct (Hdis c Hc'); cbn in *; lia.
  - rewrite K2. change (base :: fl'.*1) with (((base, 0) :: fl').*1). rewrite <-Ef. unfold place. destruct (join_next bp s l2).
    case_decide; rewrite fmap_app; apply elem_of_app; right; left.
Qed.
End Free.

(** ** Taking a block *)

Lemma spaced_between l1 p s l2 b :
  spaced (l1 ++ (p, s) :: l2) -> b ∈ l1 ++ l2 -> 0 <= s -> b.1 + 8 * b.2 < p \/ p + 8 * s < b.1.
Proof.
  intros Hs Hb H0. apply elem_of_app in Hb as [Hb|Hb].
  - left. destruct b as [b t]. apply list_elem_of_split in Hb as (m1 & m2 & ->). rewrite <-app_assoc in Hs. cbn [app] in Hs.
    apply spaced_app in Hs as [_ Hs]. apply (spaced_after b t _ p Hs). rewrite fmap_app. apply elem_of_app. right. left.
  - right. apply spaced_app in Hs as [_ Hs]. apply (spaced_after p s l2 b.1 Hs). by apply list_elem_of_fmap_2.
Qed.
(** The size of a free block changes, or it goes. *)
Lemma spaced_shrink l1 p s t l2 : spaced (l1 ++ (p, s) :: l2) -> 0 <= t <= s -> spaced (l1 ++ (p, t) :: l2).
Proof.
  intros [H1 H2]%spaced_app Ht. apply spaced_app. split; [by apply (spaced_resize _ _ s); [|lia]|]. cbn in *.
  destruct H2 as (? & Hn & ?). split; [lia|]. split; [|done]. destruct l2 as [|[b u] l2]; [done|]. lia.
Qed.
Lemma spaced_drop l1 q qs p s l2 : spaced (l1 ++ (q, qs) :: (p, s) :: l2) -> spaced (l1 ++ (q, qs) :: l2).
Proof.
  intros [H1 H2]%spaced_app. apply spaced_app. split; [done|]. cbn in *. destruct H2 as (? & Hn & ? & Hn2 & ?). split; [done|].
  split; [|done]. destruct l2 as [|[b u] l2]; [done|]. lia.
Qed.

(** The ring without its head. *)
Lemma ring_split fl l1 q qs r :
  (base, 0) :: fl = l1 ++ (q, qs) :: r ->
  l1 = [] /\ (q, qs) = (base, 0) /\ fl = r \/ exists l3, l1 = (base, 0) :: l3 /\ fl = l3 ++ (q, qs) :: r.
Proof. destruct l1 as [|b l1]; cbn; intros E; simplify_eq; [by left|]. right. by exists l1. Qed.

Section Take.
  Context (h : heap) (fl al l1 l2 : blocks) (q qs p s nunits : Z).
  Context (Ho : heap_ok h fl al) (E : (base, 0) :: fl = l1 ++ (q, qs) :: (p, s) :: l2) (Hn : 1 <= nunits <= s).

Lemma taken_in : (p, s) ∈ fl /\ within h (p, s) /\ q < p /\ hdr h p = mkHdr (first l2 base) s /\ hsize h q = qs.
Proof.
  assert ((p, s) ∈ fl) as Hin.
  { destruct (ring_split _ _ _ _ _ E) as [(_ & _ & ->)|(l3 & _ & ->)]; [left|]. apply elem_of_app. right. right. left. }
  pose proof (ho_chain _ _ _ Ho) as Hc. pose proof (ho_spaced _ _ _ Ho) as Hs. rewrite E in Hc, Hs.
  apply chain_app in Hc as [_ (Hq & Hp & _)]. apply spaced_app in Hs as [_ Hs]. cbn in Hs.
  split; [done|]. split; [by apply (proj1 (Forall_forall _ _) (ho_free _ _ _ Ho))|]. split; [lia|]. split; [done|]. unfold hsize. by rewrite Hq.
Qed.
(** The part of the block that is taken is away from everything else. *)
Lemma taken_disj u :
  p <= u -> u + 8 * nunits = p + 8 * s -> (forall c, c ∈ al -> disj (u, nunits) c) /\
  forall b, b ∈ l1 ++ (q, qs) :: l2 -> disj b (u, nunits).
Proof.
  destruct taken_in as (Hin & Hw & _). intros Hu Hend. split.
  - intros c Hc. destruct (ho_disj _ _ _ Ho _ _ Hin Hc) as [?|?]; unfold disj; cbn in *; lia.
  - intros b Hb. pose proof (ho_spaced _ _ _ Ho) as Hs. rewrite E in Hs. rewrite cons_middle, app_assoc in Hs.
    destruct (spaced_between _ p s l2 b Hs) as [?|?]; [|lia|unfold disj; cbn; lia..].
    rewrite <-app_assoc. cbn. done.
Qed.
Lemma take_whole : s = nunits ->
  exists fl', heap_ok (set_freep q (set_hdr q (mkHdr (ptr h p) (hsize h q)) h)) fl' ((p, nunits) :: al) /\ (length fl' <= length fl)%nat.
Proof.
  intros Hsn. destruct taken_in as (Hin & Hw & Hqp & Hp & Hq). set (h' := set_freep q _).
  assert (forall a, hdr h' a = if decide (a = q) then mkHdr (first l2 base) qs else hdr h a) as Hh.
  { intros a. change (hdr h' a) with (hdr (set_hdr q (mkHdr (ptr h p) (hsize h q)) h) a). rewrite hdr_set. unfold ptr. by rewrite Hp, Hq. }
  pose proof (ho_chain _ _ _ Ho) as Hc. pose proof (ho_spaced _ _ _ Ho) as Hs. pose proof (ring_blocks _ _ _ Ho) as Hr. rewrite E in Hc, Hs, Hr.
  apply chain_app in Hc as [Hc1 (_ & _ & Hc2)]. destruct (proj1 (spaced_app _ _ _ _) Hs) as [Hs1 Hs2].
  assert (exists fl', l1 ++ (q, qs) :: l2 = (base, 0) :: fl' /\ forall b, b ∈ fl' -> b ∈ fl) as (fl' & Ef & Hsub).
  { destruct (ring_split _ _ _ _ _ E) as [(-> & -> & ->)|(l3 & -> & ->)]; (eexists; split; [reflexivity|]); [by right|].
    intros b [?|[->|?]%elem_of_cons]%elem_of_app; apply elem_of_app; [by left|right; left|right; right; by right]. }
  destruct (taken_disj p) as [Hd1 Hd2]; [lia|lia|]. exists fl'. split.
  2: { apply (f_equal length) in Ef, E. rewrite !length_app in *. cbn in *. lia. }
  split.
  - apply Ho.
  - rewrite <-Ef. apply chain_app. split; [apply (chain_ext h); [done|]|cbn; split; [by rewrite Hh, decide_True|apply (chain_ext h); [done|]]].
    + intros a Ha. rewrite Hh, decide_False; [done|]. pose proof (spaced_before l1 q qs a Hs1 Ha). lia.
    + intros a Ha. rewrite Hh, decide_False; [done|]. pose proof (spaced_after q qs ((p, s) :: l2) a Hs2 ltac:(by right)).
      destruct Hs2 as (? & _). lia.
  - rewrite <-Ef. by apply (spaced_drop _ _ _ p s).
  - apply Forall_forall. intros b Hb. by apply (proj1 (Forall_forall _ _) (ho_free _ _ _ Ho)), Hsub.
  - intros b [->|Hb]%elem_of_cons.
    + split; [by rewrite <-Hsn|]. unfold hsize. rewrite Hh, decide_False by (cbn; lia). cbn. by rewrite Hp.
    + destruct (ho_used _ _ _ Ho b Hb) as [(W1 & W2 & W3) Hsz]. split; [done|]. unfold hsize. rewrite Hh, decide_False; [done|]. intros Eq.
      apply Forall_app in Hr as [_ [Hr _]%Forall_cons]. destruct (ho_lo _ _ _ Ho). destruct Hr as [[= -> ->]|[[? [? ?]] Hd]]; [lia|].
      destruct (Hd b Hb); cbn in *; lia.
  - intros b c Hb [->|Hc']%elem_of_cons; [|by apply (ho_disj _ _ _ Ho); [apply Hsub|]]. apply Hd2. rewrite Ef. by right.
  - split; [done|apply Ho].
  - change (q ∈ ((base, 0) :: fl').*1). rewrite <-Ef, fmap_app. apply elem_of_app. right. left.
Qed.
Lemma take_end n u x : n = s - nunits -> 0 < n -> u = p + 8 * n ->
  exists fl', heap_ok (set_freep q (set_hdr u (mkHdr x nunits) (set_hdr p (mkHdr (ptr h p) n) h))) fl' ((u, nunits) :: al) /\
    (length fl' <= length fl)%nat.
Proof.
  intros Hn1 Hn2 Hu. destruct taken_in as (Hin & Hw & Hqp & Hp & Hq). set (h' := set_freep q _).
  assert (forall a, hdr h' a = if decide (a = u) then mkHdr x nunits else if decide (a = p) then mkHdr (first l2 base) n else hdr h a) as Hh.
  { intros a. change (hdr h' a) with (hdr (set_hdr u (mkHdr x nunits) (set_hdr p (mkHdr (ptr h p) n) h)) a). rewrite !hdr_set.
    unfold ptr. by rewrite Hp. }
  pose proof (ho_chain _ _ _ Ho) as Hc. pose proof (ho_spaced _ _ _ Ho) as Hs. rewrite E in Hc, Hs. rewrite cons_middle, app_assoc in Hc, Hs.
  assert (forall a, a ∈ (l1 ++ [(q, qs)]).*1 \/ a ∈ l2.*1 -> hdr h' a = hdr h a) as Hkeep.
  { intros a Ha. destruct (proj1 (spaced_app _ _ _ _) Hs) as [Hs1 Hs2]. rewrite Hh, !decide_False; [done|..]; destruct Ha as [Ha|Ha].
    1, 3: pose proof (spaced_before _ p s a Hs1 Ha); lia. all: pose proof (spaced_after p s l2 a Hs2 Ha); lia. }
  apply chain_app in Hc as [Hc1 (_ & Hc2)]. destruct (taken_disj u) as [Hd1 Hd2]; [lia|lia|].
  assert (exists fl', (l1 ++ [(q, qs)]) ++ (p, n) :: l2 = (base, 0) :: fl' /\ length fl' = length fl /\
    forall b, b ∈ fl' -> b = (p, n) \/ b ∈ fl /\ b ∈ l1 ++ (q, qs) :: l2) as (fl' & Ef & Hlen & Hsub).
  { destruct (ring_split _ _ _ _ _ E) as [(-> & -> & ->)|(l3 & -> & ->)]; (eexists; split; [reflexivity|]); (split; [cbn; rewrite ?length_app; cbn; rewrite ?length_app; cbn; lia|]).
    - intros b [->|Hb]%elem_of_cons; [by left|right]. split; [by right|]. by right.
    - cbn. intros b [Hb|[->|Hb]%elem_of_cons]%elem_of_app; [right|by left|right].
      + apply elem_of_app in Hb as [Hb|Hb]; (split; [apply elem_of_app; by auto|right; apply elem_of_app; by auto]) || idtac.
        apply list_elem_of_singleton in Hb as ->. split; [apply elem_of_app; right; left|right; apply elem_of_app; right; left].
      + split; [apply elem_of_app; right; right; by right|right; apply elem_of_app; right; by right]. }
  exists fl'. split; [|lia]. split.
  - apply Ho.
  - rewrite <-Ef. apply chain_app. split; [by apply (chain_ext h); [|intros a Ha; apply Hkeep; left]|]. cbn.
    split; [by rewrite Hh, decide_False, decide_True by lia|]. apply (chain_ext h); [done|]. intros a Ha. apply Hkeep. by right.
  - rewrite <-Ef. by apply (spaced_shrink _ _ s); [|lia].
  - apply Forall_forall. intros b [->|[Hb _]]%Hsub; [|by apply (proj1 (Forall_forall _ _) (ho_free _ _ _ Ho))].
    destruct Hw as (? & ? & ?). split; cbn in *; [lia|]. split; [lia|]. unfold h'. cbn. lia.
  - destruct Hw as (W1 & W2 & W3). cbn in W1, W2, W3. intros b [->|Hb]%elem_of_cons.
    + split; [split; cbn in *; [lia|]; split; [lia|]; unfold h'; cbn; lia|]. unfold hsize. by rewrite Hh, decide_True.
    + destruct (ho_used _ _ _ Ho b Hb) as [Hwb Hsz]. split; [done|]. unfold hsize. rewrite Hh, !decide_False; [done|..];
        destruct Hwb as (? & _); destruct (ho_disj _ _ _ Ho _ _ Hin Hb) as [?|?]; cbn in *; lia.
  - intros b c [->|[Hb1 Hb2]]%Hsub [->|Hc']%elem_of_cons.
    + left. cbn. lia.
    + destruct (ho_disj _ _ _ Ho _ _ Hin Hc') as [?|?]; unfold disj; cbn in *; lia.
    + by apply Hd2.
    + by apply (ho_disj _ _ _ Ho).
  - split; [done|apply Ho].
  - change (q ∈ ((base, 0) :: fl').*1). rewrite <-Ef, !fmap_app. apply elem_of_app. left. apply elem_of_app. right. left.
Qed.
Lemma take_units_ok :
  exists u h' fl', take_units nunits q p h = (u, h') /\ heap_ok (set_freep q h') fl' ((u, nunits) :: al) /\
    0 < u /\ u + 8 <= MEMTOP /\ (length fl' <= length fl)%nat.
Proof.
  destruct taken_in as (_ & (W1 & W2 & W3) & _ & Hp & _). cbn in W1, W2, W3. destruct (ho_lo _ _ _ Ho) as (B1 & B2 & B3).
  assert (hsize h p = s) as Hps by (unfold hsize; by rewrite Hp). unfold take_units. rewrite Hps. destruct (Z.eqb_spec s nunits) as [Es|Es].
  - destruct (take_whole Es) as (fl' & Hok & Hl). eexists p, _, fl'. split; [done|]. split; [done|]. lia.
  - unfold MEMTOP in *. rewrite (u32_small (s - nunits)) by lia. unfold plus. rewrite u32_small by lia.
    destruct (take_end (s - nunits) (p + 8 * (s - nunits)) (ptr (set_hdr p (mkHdr (ptr h p) (s - nunits)) h) (p + 8 * (s - nunits)))) as (fl' & Hok & Hl);
      [done|lia|done|]. eexists _, _, fl'. split; [done|]. split; [done|]. lia.
Qed.
End Take.

(** ** Around the ring *)

Fixpoint linked (h : heap) (x : Z) (w : list Z) : Prop :=
  match w with [] => True | y :: w => ptr h x = y /\ linked h y w end.
Lemma linked_app h x w1 y w2 : linked h x (w1 ++ [y]) -> linked h y w2 -> linked h x (w1 ++ y :: w2).
Proof. revert x. induction w1 as [|z w1 IH]; intros x; cbn; [by intros [? _] ?|]. intros [? ?] ?. split; [done|]. by apply IH. Qed.
Lemma chain_linked h a s l d : chain h ((a, s) :: l) d -> linked h a (l.*1 ++ [d]).
Proof.
  revert a s. induction l as [|[b t] l IH]; intros a s [Ha Hl]; cbn in *; (split; [unfold ptr; by rewrite Ha|]); [done|].
  by apply (IH b t).
Qed.
(** From [freep] around the ring and back, over every block once. *)
Lemma ring_walk h fl al :
  heap_ok h fl al -> exists w, linked h (freep h) (w ++ [freep h]) /\ freep h ∉ w /\ length w = length fl /\
    (forall x, x ∈ w ++ [freep h] <-> x ∈ base :: fl.*1).
Proof.
  intros Ho. pose proof (ho_freep _ _ _ Ho) as Hf. change (base :: fl.*1) with (((base, 0) :: fl).*1) in *.
  apply list_elem_of_fmap in Hf as ([f fs] & Ef & Hf). cbn in Ef. apply list_elem_of_split in Hf as (m1 & m2 & E).
  pose proof (ho_chain _ _ _ Ho) as Hc. pose proof (ho_spaced _ _ _ Ho) as Hs. rewrite Ef, E in *. apply chain_app in Hc as [Hc1 Hc2].
  apply spaced_app in Hs as [Hs1 Hs2]. exists (m2.*1 ++ m1.*1). split; [|split; [|split]].
  - pose proof (chain_linked _ _ _ _ _ Hc2) as H2. destruct (ring_split _ _ _ _ _ E) as [(-> & [= -> ->] & _)|(l3 & -> & _)].
    + cbn. by rewrite app_nil_r.
    + rewrite <-app_assoc. cbn. apply linked_app; [done|]. by apply (chain_linked _ _ 0).
  - intros [Hx|Hx]%elem_of_app.
    + pose proof (spaced_after f fs m2 f Hs2 Hx). destruct Hs2. lia.
    + pose proof (spaced_before m1 f fs f Hs1 Hx). lia.
  - apply (f_equal length) in E. rewrite !length_app, !length_fmap in *. cbn in E. lia.
  - intros x. rewrite fmap_app. cbn. set_solver.
Qed.

Lemma take_found h fl al nunits prevp p :
  heap_ok h fl al -> 1 <= nunits -> prevp ∈ base :: fl.*1 -> ptr h prevp = p -> nunits <= hsize h p ->
  exists u h' fl', (let '(p, h) := take_units nunits prevp p h in Some (Some (plus p 1), set_freep prevp h)) = Some (Some (u + 8), h') /\
    heap_ok h' fl' ((u, nunits) :: al) /\ (length fl' <= length fl)%nat.
Proof.
  intros Ho Hn Hpr Hp Hfit. change (base :: fl.*1) with (((base, 0) :: fl).*1) in Hpr.
  apply list_elem_of_fmap in Hpr as ([q qs] & Eq & Hq). cbn in Eq. subst q. apply list_elem_of_split in Hq as (l1 & l2 & E).
  pose proof (ho_chain _ _ _ Ho) as Hc. rewrite E in Hc. apply chain_app in Hc as [_ [Hh Hc]]. unfold ptr in Hp. rewrite Hh in Hp. cbn in Hp.
  assert (hsize h base = 0) as Hb0 by (destruct (ho_chain _ _ _ Ho) as [Hb _]; unfold hsize; by rewrite Hb).
  destruct l2 as [|[p' s] l2]; cbn in Hp; subst p; [lia|]. destruct Hc as [Hp' _]. assert (hsize h p' = s) as Hs by (unfold hsize; by rewrite Hp').
  destruct (take_units_ok h fl al l1 l2 prevp qs p' s nunits Ho E ltac:(lia)) as (u & h' & fl' & -> & Hok & Hu1 & Hu2 & Hlen).
  exists u, (set_freep prevp h'), fl'. split; [|done]. unfold plus, MEMTOP in *. by rewrite u32_small by lia.
Qed.
(** The blocks of [w], then [freep]: one of them is taken, or none is large enough. *)
Lemma malloc_walk h fl al nunits fuel w prevp :
  heap_ok h fl al -> 1 <= nunits -> prevp ∈ base :: fl.*1 -> linked h prevp (w ++ [freep h]) ->
  (forall x, x ∈ w ++ [freep h] -> x ∈ base :: fl.*1) -> freep h ∉ w ->
  (exists u h' fl', malloc_loop (S (length w) + fuel) nunits prevp (ptr h prevp) h = Some (Some (u + 8), h') /\
    heap_ok h' fl' ((u, nunits) :: al) /\ (length fl' <= length fl)%nat) \/
  (forall x, x ∈ w ++ [freep h] -> hsize h x < nunits) /\
  malloc_loop (S (length w) + fuel) nunits prevp (ptr h prevp) h =
    ('(r, h) ← morecore fuel nunits h;
     match r with None => Some (None, h) | Some p => malloc_loop fuel nunits p (ptr h p) h end).
Proof.
  intros Ho Hn. revert prevp. induction w as [|p w IH]; intros prevp Hpr [Hp Hl] Hw Hfp; rewrite Hp.
  - change (S (length (@nil Z)) + fuel)%nat with (S fuel). cbn [malloc_loop]. rewrite Z.geb_leb.
    destruct (Z.leb_spec nunits (hsize h (freep h))) as [Hfit|Hno]; [left; by eapply take_found|right].
    split; [intros x ->%list_elem_of_singleton; done|]. by rewrite Z.eqb_refl.
  - change (S (length (p :: w)) + fuel)%nat with (S (S (length w) + fuel)). cbn [malloc_loop]. rewrite Z.geb_leb.
    destruct (Z.leb_spec nunits (hsize h p)) as [Hfit|Hno]; [left; by eapply take_found|].
    apply not_elem_of_cons in Hfp as [Hne Hfp]. rewrite (proj2 (Z.eqb_neq p (freep h))) by done.
    destruct (IH p ltac:(apply Hw; left) Hl ltac:(intros; apply Hw; by right) Hfp) as [?|[Hall Heq]]; [by left|right].
    split; [|done]. intros x [->|?]%elem_of_cons; [done|by apply Hall].
Qed.

(** ** malloc *)

Section Malloc_ok.
  Context (Hgrants : forall b n, grants b n = true -> b + n <= MEMTOP).

Lemma morecore_ok fuel nu h fl al :
  heap_ok h fl al -> 1 <= nu < 268435456 -> (2 * S (length fl) <= fuel)%nat ->
  morecore fuel nu h = Some (None, h) \/
  exists h' fl', morecore fuel nu h = Some (Some (freep h'), h') /\ heap_ok h' fl' al /\ (length fl' <= S (length fl))%nat /\
    exists b, b ∈ fl' /\ nu <= b.2.
Proof.
  intros Ho Hnu Hf. unfold morecore. set (n := if nu <? 4096 then 4096 else nu).
  assert (4096 <= n < 268435456 /\ nu <= n) as [Hn Hle] by (subst n; destruct (Z.ltb_spec nu 4096); lia).
  rewrite (u32_small (n * 8)), i32_small by lia. unfold sbrk. destruct (grants (brk h) (n * 8)) eqn:Hg; [right|by left].
  specialize (Hgrants _ _ Hg). destruct (ho_lo _ _ _ Ho) as (B1 & B2 & B3). set (h1 := mkHeap (headers h) (freep h) (brk h + n * 8)).
  assert (forall b, b ∈ (base, 0) :: fl \/ b ∈ al -> b.1 < brk h) as Hlow.
  { intros b Hb. destruct Hb as [[->|Hb]%elem_of_cons|Hb]; [cbn; lia|..].
    - destruct (proj1 (Forall_forall _ _) (ho_free _ _ _ Ho) b Hb) as (? & ? & ?). lia.
    - destruct (ho_used _ _ _ Ho b Hb) as [(? & ? & ?) _]. lia. }
  assert (heap_ok (set_hdr (brk h) (mkHdr (ptr h1 (brk h)) n) h1) fl ((brk h, n) :: al)) as Ho1.
  { assert (forall a, a <> brk h -> hdr (set_hdr (brk h) (mkHdr (ptr h1 (brk h)) n) h1) a = hdr h a) as Hkeep
      by (intros a Ha; rewrite hdr_set, decide_False by done; done).
    assert (forall b, within h b -> within (set_hdr (brk h) (mkHdr (ptr h1 (brk h)) n) h1) b) as Hwi
      by (intros b (? & ? & ?); split; [done|]; split; [done|]; cbn; lia).
    split; cbn [brk set_hdr h1]; try (done || lia).
    - apply (chain_ext h); [apply Ho|]. intros a (b & -> & Hb)%list_elem_of_fmap. apply Hkeep. specialize (Hlow b (or_introl Hb)). lia.
    - apply Ho.
    - eapply Forall_impl; [apply Ho|done].
    - intros b [->|Hb]%elem_of_cons; [split; [split; cbn; lia|by unfold hsize; rewrite hdr_set, decide_True]|].
      destruct (ho_used _ _ _ Ho b Hb) as [Hw Hh]. split; [by apply Hwi|]. unfold hsize. rewrite Hkeep; [done|]. specialize (Hlow b (or_intror Hb)). lia.
    - intros b c Hb [->|Hc]%elem_of_cons; [|by apply (ho_disj _ _ _ Ho)]. left. destruct (proj1 (Forall_forall _ _) (ho_free _ _ _ Ho) b Hb) as (? & ? & ?). done.
    - split; [|apply Ho]. intros c Hc. right. destruct (ho_used _ _ _ Ho c Hc) as [(? & ? & ?) _]. done.
    - apply Ho. }
  destruct (free_ok _ fl [] al (brk h) n Ho1 fuel Hf) as (h' & fl' & -> & Ho' & _ & Hl & b & Hb & Hbn). exists h', fl'.
  split; [done|]. split; [done|]. split; [done|]. exists b. split; [done|lia].
Qed.

Lemma malloc_loop_ok fuel nunits h fl al :
  heap_ok h fl al -> 1 <= nunits < 268435456 -> (4 * length fl + 8 <= fuel)%nat ->
  malloc_loop fuel nunits (freep h) (ptr h (freep h)) h = Some (None, h) \/
  exists u h' fl', malloc_loop fuel nunits (freep h) (ptr h (freep h)) h = Some (Some (u + 8), h') /\
    heap_ok h' fl' ((u, nunits) :: al).
Proof.
  intros Ho Hn Hf. destruct (ring_walk _ _ _ Ho) as (w & Hl & Hfw & Hlen & Hw).
  replace fuel with (S (length w) + (fuel - S (length w)))%nat by lia. set (f2 := (fuel - S (length w))%nat).
  destruct (malloc_walk h fl al nunits f2 w (freep h) Ho ltac:(lia) (ho_freep _ _ _ Ho) Hl ltac:(intros; by apply Hw) Hfw)
    as [(u & h' & fl' & -> & Hok & _)|[_ ->]]; [right; by exists u, h', fl'|].
  destruct (morecore_ok f2 nunits h fl al Ho Hn ltac:(lia)) as [->|(h1 & fl1 & -> & Ho1 & Hl1 & b & Hb & Hbn)]; [by left|right]. cbn.
  destruct (ring_walk _ _ _ Ho1) as (w1 & Hlk1 & Hfw1 & Hlen1 & Hw1). replace f2 with (S (length w1) + (f2 - S (length w1)))%nat by lia.
  destruct (malloc_walk h1 fl1 al nunits (f2 - S (length w1)) w1 (freep h1) Ho1 ltac:(lia) (ho_freep _ _ _ Ho1) Hlk1 ltac:(intros; by apply Hw1) Hfw1)
    as [(u & h' & fl' & -> & Hok & _)|[Hall _]]; [by exists u, h', fl'|exfalso].
  apply list_elem_of_split in Hb as (m1 & m2 & E). destruct b as [b t]. cbn in Hbn. pose proof (ho_chain _ _ _ Ho1) as Hc.
  rewrite E in Hc. change ((base, 0) :: m1 ++ (b, t) :: m2) with (((base, 0) :: m1) ++ (b, t) :: m2) in Hc. apply chain_app in Hc as [_ [Hb _]].
  specialize (Hall b). unfold hsize in Hall. rewrite Hb in Hall. cbn in Hall. apply (Z.lt_irrefl nunits).
  eapply Z.le_lt_trans; [exact Hbn|]. apply Hall, Hw1. right. rewrite E, fmap_app. apply elem_of_app. right. left.
Qed.

(** More fuel does not change a result. *)
Lemma free_le f f' ap h h' : (f <= f')%nat -> free f ap h = Some h' -> free f' ap h = Some h'.
Proof.
  unfold free. intros Hle. destruct (find_place f h (u32 (ap - 8)) (freep h)) as [p|] eqn:E; [|done].
  by rewrite (find_place_le f f' _ _ _ p Hle E).
Qed.
Lemma morecore_le f f' nu h r : (f <= f')%nat -> morecore f nu h = Some r -> morecore f' nu h = Some r.
Proof.
  unfold morecore. intros Hle. destruct (sbrk _ h) as [[hp h1]|]; [|done].
  destruct (free f (hp + 8) (set_hdr hp (mkHdr (ptr h1 hp) (if nu <? 4096 then 4096 else nu)) h1)) as [h2|] eqn:E; [|done].
  by rewrite (free_le f f' _ _ _ Hle E).
Qed.
Lemma malloc_loop_le f f' n prevp p h r : (f <= f')%nat -> malloc_loop f n prevp p h = Some r -> malloc_loop f' n prevp p h = Some r.
Proof.
  revert f' prevp p h. induction f as [|f IH]; intros f' prevp p h Hle; [done|]. destruct f' as [|f']; [lia|]. cbn [malloc_loop].
  destruct (hsize h p >=? n); [done|]. destruct (p =? freep h); [|apply IH; lia].
  destruct (morecore f n h) as [[q h1]|] eqn:E; [|done]. rewrite (morecore_le f f' n h (q, h1)) by (done || lia). cbn.
  destruct q as [q|]; [apply IH; lia|done].
Qed.

(** The heap before the first call, or a ring. *)
Definition heap_inv (h : heap) (al : blocks) : Prop :=
  freep h = 0 /\ al = [] /\ (0 < base /\ base + 8 <= lo /\ lo <= brk h <= MEMTOP) \/ exists fl, heap_ok h fl al.
Lemma malloc_ok n h al :
  heap_inv h al -> 0 <= n < 2147483600 ->
  exists fuel r h', malloc fuel n h = Some (r, h') /\
    match r with None => heap_inv h' al | Some a => heap_inv h' ((a - 8, units n) :: al) end.
Proof.
  intros Hinv Hn. assert (units n = (n + 7) / 8 + 1) as Hu.
  { unfold units. replace (n + 8 - 1) with (n + 7) by lia. rewrite (u32_small (n + 7)), u32_small by dlia. done. }
  assert (1 <= units n < 268435456) as Hr by (rewrite Hu; dlia).
  assert (exists h1 fl, (if freep h =? 0 then set_freep base (set_hdr base (mkHdr base 0) h) else h) = h1 /\ heap_ok h1 fl al) as (h1 & fl & E1 & Ho).
  { destruct Hinv as [(Hf & -> & Hb)|[fl Ho]].
    - rewrite Hf. cbn. eexists _, []. split; [done|]. set (h1 := set_freep _ _). assert (hdr h1 base = mkHdr base 0) as Hh.
      { change (hdr h1 base) with (hdr (set_hdr base (mkHdr base 0) h) base). by rewrite hdr_set, decide_True. }
      split; [done|by split|by split|constructor|by intros b ?%not_elem_of_nil|by intros b c ?%not_elem_of_nil|done|left].
    - exists h, fl. split; [|done]. rewrite (proj2 (Z.eqb_neq _ 0)); [done|]. destruct (ho_lo _ _ _ Ho) as (? & ? & ?).
      pose proof (ho_freep _ _ _ Ho) as [->|(b & -> & Hb)%list_elem_of_fmap]%elem_of_cons; [lia|].
      destruct (proj1 (Forall_forall _ _) (ho_free _ _ _ Ho) b Hb) as (? & ? & ?). lia. }
  exists (4 * length fl + 8)%nat. unfold malloc. rewrite E1.
  destruct (malloc_loop_ok (4 * length fl + 8) (units n) h1 fl al Ho Hr ltac:(lia)) as [->|(u & h' & fl' & -> & Hok)].
  - exists None, h1. split; [done|]. right. by exists fl.
  - exists (Some (u + 8)), h'. split; [done|]. right. exists fl'. by replace (u + 8 - 8) with u by lia.
Qed.
Lemma free_inv h a1 b a2 :
  heap_inv h (a1 ++ b :: a2) -> exists fuel h', free fuel (b.1 + 8) h = Some h' /\ heap_inv h' (a1 ++ a2).
Proof.
  intros [(_ & E & _)|[fl Ho]]; [by destruct a1|]. destruct b as [bp s]. exists (2 * S (length fl))%nat.
  destruct (free_ok h fl a1 a2 bp s Ho (2 * S (length fl)) ltac:(lia)) as (h' & fl' & Hrun & Ho' & _). exists h'. split; [done|]. right. by exists fl'.
Qed.
End Malloc_ok.
End Heap.

(** ** Programs that allocate and free *)

(** A program calls [malloc], and frees blocks that it got; [al] are the blocks it
    has, headers included.  Its requests are below [2147483600] bytes: [sbrk] takes
    an [int], so that the size in bytes of a larger one, header included, can reach
    it as a negative number, and near [2^32] the number of units itself wraps
    around ([malloc_wraps]). *)
Inductive ustep : heap * blocks -> heap * blocks -> Prop :=
  | us_malloc fuel n h al a h' : 0 <= n < 2147483600 -> malloc fuel n h = Some (Some a, h') ->
      ustep (h, al) (h', (a - 8, units n) :: al)
  | us_fail fuel n h al h' : 0 <= n < 2147483600 -> malloc fuel n h = Some (None, h') -> ustep (h, al) (h', al)
  | us_free fuel h a1 b a2 h' : free fuel (b.1 + 8) h = Some h' -> ustep (h, a1 ++ b :: a2) (h', a1 ++ a2).
Lemma heap_inv_step lo (Hg : forall b n, grants b n = true -> b + n <= MEMTOP) x y :
  ustep x y -> heap_inv lo x.1 x.2 -> heap_inv lo y.1 y.2.
Proof.
  assert (forall fuel n h al r h', heap_inv lo h al -> 0 <= n < 2147483600 -> malloc fuel n h = Some (r, h') ->
    match r with None => heap_inv lo h' al | Some a => heap_inv lo h' ((a - 8, units n) :: al) end) as Hm.
  { intros fuel n h al r h' Hi Hn Hrun. destruct (malloc_ok lo Hg n h al Hi Hn) as (fuel' & r' & h'' & Hrun' & Hr).
    unfold malloc in *. apply (malloc_loop_le fuel (fuel + fuel')) in Hrun; [|lia].
    apply (malloc_loop_le fuel' (fuel + fuel')) in Hrun'; [|lia]. rewrite Hrun in Hrun'. by simplify_eq. }
  intros Hst Hi. destruct Hst as [fuel n h al a h' Hn Hrun|fuel n h al h' Hn Hrun|fuel h a1 b a2 h' Hrun]; cbn in *.
  - by apply (Hm _ _ _ _ _ _ Hi Hn Hrun).
  - by apply (Hm _ _ _ _ _ _ Hi Hn Hrun).
  - destruct (free_inv lo h a1 b a2 Hi) as (fuel' & h'' & Hrun' & Hr).
    apply (free_le fuel (fuel + fuel')) in Hrun; [|lia]. apply (free_le fuel' (fuel + fuel')) in Hrun'; [|lia]. rewrite Hrun in Hrun'. by simplify_eq.
Qed.
End Malloc.

(** C5: whatever a program allocates and frees, in any order and with requests of
    less than [2147483600] bytes each, the blocks it has never overlap, lie in the
    heap and have the size it asked for, and the next [malloc] of such a size and
    every [free] of such a block return. *)
Theorem malloc_safe base grants lo h0 h al :
  0 < base -> base + 8 <= lo -> lo <= brk h0 <= MEMTOP -> freep h0 = 0 ->
  (forall b n, grants b n = true -> b + n <= MEMTOP) ->
  rtc (ustep base grants) (h0, []) (h, al) ->
  apart al /\ (forall b, b ∈ al -> lo <= b.1 /\ b.1 + 8 * b.2 <= brk h) /\
  (forall n, 0 <= n < 2147483600 -> n <= 8 * (units n - 1) /\ exists fuel r, malloc base grants fuel n h = Some r) /\
  (forall b, b ∈ al -> exists fuel h', free fuel (b.1 + 8) h = Some h').
Proof.
  intros Hb Hlo Hbrk Hf Hg Hr. assert (heap_inv base lo h al) as Hi.
  { apply (rtc_preserves (ustep base grants) (fun x => heap_inv base lo x.1 x.2) (h0, []) (h, al)); [|done|by left].
    intros x y Hst. by apply (heap_inv_step base grants lo Hg). }
  assert (apart al /\ forall b, b ∈ al -> lo <= b.1 /\ b.1 + 8 * b.2 <= brk h) as [H1 H2].
  { destruct Hi as [(_ & -> & _)|[fl Ho]]; [by split; [|intros b ?%not_elem_of_nil]|]. split; [apply Ho|]. intros b Hin. by apply (ho_used _ _ _ _ _ Ho). }
  split; [done|]. split; [done|]. split.
  - intros n Hn. split; [unfold units; replace (n + 8 - 1) with (n + 7) by lia; rewrite (u32_small (n + 7)), u32_small by dlia; dlia|].
    destruct (malloc_ok base grants lo Hg n h al Hi Hn) as (fuel & r & h' & Hrun & _). by exists fuel, (r, h').
  - intros b (a1 & a2 & ->)%list_elem_of_split. destruct (free_inv base grants lo h a1 b a2 Hi) as (fuel & h' & Hrun & _). by exists fuel, h'.
Qed.
(** Two blocks from a fresh heap. *)
Definition grant_some (b n : Z) : bool := b + n <=? 1000000.
Definition fresh_heap : heap := mkHeap ∅ 0 4096.
Lemma malloc_safe_witness : exists h al, rtc (ustep 64 grant_some) (fresh_heap, []) (h, al) /\ length al = 2%nat /\ apart al.
Proof.
  assert (exists h al, rtc (ustep 64 grant_some) (fresh_heap, []) (h, al) /\ length al = 2%nat) as (h & al & Hr & Hl).
  { eexists _, _. split; [|].
    - eapply rtc_l; [eapply (us_malloc _ _ 8 100); [lia|reflexivity]|]. eapply rtc_l; [eapply (us_malloc _ _ 8 20); [lia|reflexivity]|]. apply rtc_refl.
    - reflexivity. }
  exists h, al. split; [exact Hr|]. split; [exact Hl|].
  destruct (malloc_safe 64 grant_some 4096 fresh_heap h al) as [Ha _]; [lia|lia|cbn; unfold MEMTOP; lia|reflexivity| |exact Hr|exact Ha].
  intros b n Hg. apply Z.leb_le in Hg. unfold MEMTOP. lia.
Defined.

(** A request near the end of the address space wraps around: one header, no room. *)
Example malloc_wraps : units 4294967295 = 1.
Proof. reflexivity. Qed.
