(* ===== verification/Grep.v ===== *)
(** * The pattern search program

    grep.c: the matcher, with its meaning as a relation between patterns and
    texts, and the loop that cuts what it reads into lines.  A string is the list
    of its characters before the NUL. *)

From S2P Require Import Prelude Ulib.
From stdpp Require Import base gmap list strings.
From Stdlib Require Import ZArith Lia.
#[local] Open Scope Z_scope.

Definition HAT : Z := 94.
Definition DOT : Z := 46.
Definition STAR : Z := 42.
Definition DOLLAR : Z := 36.
Definition NEWLINE : Z := 10.

(** ** The matcher *)

(** The loop of [matchstar]; [here] stands for [matchhere (re, ...)]. *)
Fixpoint matchstar (here : list Z -> bool) (c : Z) (text : list Z) : bool :=
  here text ||
  match text with
  | [] => false
  | x :: text => ((x =? c) || (c =? DOT)) && matchstar here c text
  end.

Fixpoint matchhere (re text : list Z) : bool :=
  match re with
  | [] => true
  | c :: re' =>
      match re' with
      | s :: re'' =>
          if s =? STAR then matchstar (matchhere re'') c text
          else match text with
               | [] => false
               | x :: text => ((c =? DOT) || (c =? x)) && matchhere re' text
               end
      | [] =>
          if c =? DOLLAR then match text with [] => true | _ => false end
          else match text with
               | [] => false
               | x :: text => ((c =? DOT) || (c =? x)) && matchhere re' text
               end
      end
  end.

Fixpoint match_any (re text : list Z) : bool :=
  matchhere re text || match text with [] => false | _ :: text => match_any re text end.
Definition match_ (re text : list Z) : bool :=
  match re with
  | c :: re' => if c =? HAT then matchhere re' text else match_any re text
  | [] => match_any re text
  end.

(** ** What a pattern means *)

(** The character [c] of a pattern stands for [x]. *)
Definition stands (c x : Z) : Prop := c = DOT \/ c = x.

(** A beginning of the text has the form of the pattern. *)
Inductive prefix_has : list Z -> list Z -> Prop :=
  | ph_done t : prefix_has [] t
  | ph_end : prefix_has [DOLLAR] []
  | ph_star c re t1 t2 : Forall (stands c) t1 -> prefix_has re t2 -> prefix_has (c :: STAR :: re) (t1 ++ t2)
  | ph_char c re x t : stands c x -> head re <> Some STAR -> c :: re <> [DOLLAR] -> prefix_has re t ->
      prefix_has (c :: re) (x :: t).
(** Some part of the text has it; after ^ it is the beginning. *)
Definition text_has (re text : list Z) : Prop :=
  match re with
  | c :: re' => if decide (c = HAT) then prefix_has re' text else exists t1 t2, text = t1 ++ t2 /\ prefix_has re t2
  | [] => True
  end.

Lemma stands_spec c x : (c =? DOT) || (c =? x) = true <-> stands c x.
Proof. unfold stands. rewrite orb_true_iff, !Z.eqb_eq. done. Qed.

Lemma matchstar_spec here c text :
  matchstar here c text = true <-> exists t1 t2, text = t1 ++ t2 /\ Forall (stands c) t1 /\ here t2 = true.
Proof.
  induction text as [|x text IH]; cbn; rewrite orb_true_iff.
  - split.
    + intros [H|H]; [|done]. by exists [], [].
    + intros (t1 & t2 & E & _ & H). symmetry in E. apply app_eq_nil in E as [-> ->]. by left.
  - rewrite andb_true_iff, IH. split.
    + intros [H|[Hx (t1 & t2 & -> & Ht & H)]]; [by exists [], (x :: text)|]. exists (x :: t1), t2. split; [done|]. split; [|done].
      constructor; [|done]. apply stands_spec. by rewrite orb_comm, (Z.eqb_sym c x).
    + intros (t1 & t2 & E & Ht & H). destruct t1 as [|y t1]; cbn in E; [left; by subst t2|]. injection E as <- ->. right.
      apply Forall_cons in Ht as [Hx Ht]. split; [|by exists t1, t2]. apply stands_spec in Hx. by rewrite orb_comm, Z.eqb_sym in Hx.
Qed.

Lemma matchhere_spec re : forall text, matchhere re text = true <-> prefix_has re text.
Proof.
  remember (length re) as n eqn:Hn. revert re Hn. induction (lt_wf n) as [n _ IH]. intros re -> text.
  assert (forall c re' text, length re = S (length re') -> c :: re' <> [DOLLAR] -> head re' <> Some STAR ->
    (match text with [] => false | x :: text => ((c =? DOT) || (c =? x)) && matchhere re' text end) = true <->
    prefix_has (c :: re') text) as Hchar.
  { intros c re' txt Hl Hne Hh. destruct txt as [|x txt].
    - split; [done|]. intros Hp. inversion Hp; simplify_eq/=.
    - rewrite andb_true_iff, stands_spec, (IH (length re')) by (done || lia). split; [by intros [? ?]; apply ph_char|].
      intros Hp. inversion Hp; simplify_eq/=. done. }
  destruct re as [|c re']; cbn [matchhere]; [by split; [constructor|]|].
  destruct re' as [|s re''].
  - destruct (Z.eqb_spec c DOLLAR) as [->|Hc]; [|apply (Hchar c []); [done|by intros [=]|done]].
    destruct text; (split; [intros|]); try done; [constructor|]. intros Hp. inversion Hp; simplify_eq/=.
  - destruct (Z.eqb_spec s STAR) as [->|Hs]; [|apply (Hchar c (s :: re'')); [done|done|by intros [=]]].
    rewrite matchstar_spec. setoid_rewrite (IH (length re'')); [|cbn; lia|done]. split.
    + intros (t1 & t2 & -> & Ht & Hp). by constructor.
    + intros Hp. inversion Hp; simplify_eq/=. by exists t1, t2.
Qed.
Lemma match_any_spec re text : match_any re text = true <-> exists t1 t2, text = t1 ++ t2 /\ prefix_has re t2.
Proof.
  induction text as [|x text IH]; cbn; rewrite orb_true_iff, matchhere_spec.
  - split; [intros [H|H]; [|done]; by exists [], []|]. intros (t1 & t2 & E & H). symmetry in E. apply app_eq_nil in E as [-> ->]. by left.
  - rewrite IH. split.
    + intros [H|(t1 & t2 & -> & H)]; [by exists [], (x :: text)|by exists (x :: t1), t2].
    + intros (t1 & t2 & E & H). destruct t1 as [|y t1]; cbn in E; [left; by subst t2|]. injection E as <- ->. right. by exists t1, t2.
Qed.

(** the matcher decides whether the text has the form of the pattern. *)
Theorem match_correct re text : match_ re text = true <-> text_has re text.
Proof.
  unfold match_, text_has. destruct re as [|c re].
  - rewrite match_any_spec. split; [done|]. intros _. exists [], text. split; [done|constructor].
  - destruct (Z.eqb_spec c HAT) as [->|Hc]; [by rewrite decide_True, matchhere_spec|by rewrite decide_False, match_any_spec].
Qed.

(** ** Lines *)

(** The inner loop: the lines of the buffer, what is written of them, and the
    rest from [p] on; [None] when the fuel is out. *)
Fixpoint scan_lines (fuel : nat) (re p : list Z) : option (list Z * list Z) :=
  match fuel with
  | O => None
  | S fuel =>
      match strchr p NEWLINE with
      | None => Some ([], p)
      | Some q =>
          '(out, rest) ← scan_lines fuel re (drop (S q) p);
          Some ((if match_ re (take q p) then take (S q) p else []) ++ out, rest)
      end
  end.

Section Grep.
  (** [read (fd, ..., n)]: the bytes it delivers, none at the end or on an error. *)
  Context {St : Type} (read : nat -> St -> list Z * St).

Definition BUFSZ : nat := 1024.
Fixpoint grep_loop (fuel : nat) (re buf : list Z) (s : St) : option (list Z) :=
  match fuel with
  | O => None
  | S fuel =>
      let '(chunk, s) := read (BUFSZ - length buf - 1)%nat s in
      match chunk with
      | [] => Some []
      | _ =>
          let buf := buf ++ chunk in
          '(out, p) ← scan_lines (S (length buf)) re buf;
          let kept := if (length p =? length buf)%nat then [] else p in
          rest ← grep_loop fuel re kept s;
          Some (out ++ rest)
      end
  end.
End Grep.
(** A file is read in as large pieces as are asked for. *)
Definition read_file (n : nat) (s : list Z) : list Z * list Z := (take n s, drop n s).
Definition grep (re content : list Z) : option (list Z) := grep_loop read_file (S (length content)) re [] content.

(** What should be written: the lines, each ended by a newline, that match. *)
Fixpoint matching (re line rest : list Z) : list Z :=
  match rest with
  | [] => []
  | c :: rest =>
      if decide (c = NEWLINE) then (if match_ re line then line ++ [NEWLINE] else []) ++ matching re [] rest
      else matching re (line ++ [c]) rest
  end.

Lemma matching_line re line l rest : NEWLINE ∉ l -> matching re line (l ++ rest) = matching re (line ++ l) rest.
Proof.
  revert line. induction l as [|c l IH]; intros line Hl; cbn; [by rewrite app_nil_r|].
  apply not_elem_of_cons in Hl as [Hc Hl]. rewrite decide_False by done. rewrite IH by done. by rewrite <-app_assoc.
Qed.
Lemma strchr_spec s c :
  0 ∉ s -> c <> 0 ->
  match strchr s c with
  | Some q => exists l rest, s = l ++ c :: rest /\ length l = q /\ c ∉ l
  | None => c ∉ s
  end.
Proof.
  intros Hs Hc. induction s as [|x s IH]; cbn; [apply not_elem_of_nil|]. apply not_elem_of_cons in Hs as [Hx Hs].
  rewrite (proj2 (Z.eqb_neq x 0)) by done. specialize (IH Hs). destruct (Z.eqb_spec x c) as [->|Hne].
  - exists [], s. split; [done|]. split; [done|]. apply not_elem_of_nil.
  - destruct (strchr s c) as [q|]; cbn.
    + destruct IH as (l & rest & -> & <- & Hl). exists (x :: l), rest. split; [done|]. split; [done|]. by apply not_elem_of_cons.
    + apply not_elem_of_cons. by split.
Qed.

(** Every line fits in the buffer with its newline. *)
Fixpoint short_lines (k : nat) (s : list Z) : Prop :=
  match s with
  | [] => True
  | c :: s => if decide (c = NEWLINE) then short_lines 0 s else (k < BUFSZ - 2)%nat /\ short_lines (S k) s
  end.
Lemma short_lines_skip k l rest : NEWLINE ∉ l -> short_lines k (l ++ NEWLINE :: rest) -> short_lines 0 rest.
Proof.
  revert k. induction l as [|c l IH]; intros k Hl; cbn; [done|]. apply not_elem_of_cons in Hl as [Hc Hl].
  rewrite decide_False by done. intros [_ Hs]. by apply (IH (S k)).
Qed.
Lemma short_lines_length k l rest :
  NEWLINE ∉ l -> (k <= BUFSZ - 2)%nat -> short_lines k (l ++ rest) -> (k + length l <= BUFSZ - 2)%nat.
Proof.
  revert k. induction l as [|c l IH]; intros k Hl Hk; cbn [app short_lines length]; [lia|]. apply not_elem_of_cons in Hl as [Hc Hl].
  rewrite decide_False by done. intros [Hlt Hs]. specialize (IH (S k) Hl ltac:(lia) Hs). lia.
Qed.

(** The lines of the buffer, and a rest without a newline. *)
Record scanned (re p out rest : list Z) : Prop := {
  sc_newline : NEWLINE ∉ rest;
  sc_length : (length rest = length p <-> NEWLINE ∉ p) /\ (length rest <= length p)%nat;
  sc_nul : 0 ∉ rest;
  sc_match more : matching re [] (p ++ more) = out ++ matching re [] (rest ++ more);
  sc_short more : short_lines 0 (p ++ more) -> short_lines 0 (rest ++ more) }.
Lemma scan_lines_ok fuel re p :
  0 ∉ p -> (length p < fuel)%nat -> exists out rest, scan_lines fuel re p = Some (out, rest) /\ scanned re p out rest.
Proof.
  revert p. induction fuel as [|fuel IH]; intros p Hp Hf; [lia|]. cbn [scan_lines].
  pose proof (strchr_spec p NEWLINE Hp ltac:(done)) as Hs. destruct (strchr p NEWLINE) as [q|].
  2: { exists [], p. repeat split; done. }
  destruct Hs as (l & rest & -> & <- & Hl). rewrite take_app_length. rewrite length_app in Hf. cbn in Hf.
  assert (S (length l) = length (l ++ [NEWLINE])) as Hq by (rewrite length_app; cbn; lia).
  rewrite cons_middle, app_assoc, Hq, take_app_length, drop_app_length. rewrite <-app_assoc. cbn [app].
  destruct (IH rest) as (out & rest' & Hrun & [S1 S2 S3 S4 S5]); [set_solver|lia|]. rewrite Hrun. cbn.
  eexists _, rest'. split; [done|]. split; [done| |done|..].
  - rewrite length_app. cbn. split; [|lia]. split; [lia|]. intros Hn. set_solver.
  - intros more. rewrite <-app_assoc. rewrite matching_line by done. cbn. rewrite S4. by rewrite app_assoc.
  - intros more. rewrite <-app_assoc. intros Hs. by apply S5, (short_lines_skip 0 l).
Qed.

Lemma matching_none re line l : NEWLINE ∉ l -> matching re line l = [].
Proof.
  revert line. induction l as [|c l IH]; intros line Hl; cbn; [done|]. apply not_elem_of_cons in Hl as [Hc Hl].
  rewrite decide_False by done. by apply IH.
Qed.
Lemma grep_loop_ok fuel re buf content :
  0 ∉ buf -> 0 ∉ content -> NEWLINE ∉ buf -> short_lines 0 (buf ++ content) -> (length content < fuel)%nat ->
  grep_loop read_file fuel re buf content = Some (matching re [] (buf ++ content)).
Proof.
  revert buf content. induction fuel as [|fuel IH]; intros buf content Hb Hc Hn Hs Hf; [lia|]. cbn [grep_loop].
  unfold read_file at 1. pose proof (short_lines_length 0 buf content Hn ltac:(lia) Hs) as Hlb. unfold BUFSZ in *.
  destruct (decide (content = [])) as [->|Hne]; [rewrite take_nil, app_nil_r; by rewrite matching_none|].
  assert (0 < length content)%nat as Hpos by (by destruct content; [|cbn; lia]). set (n := (1024 - length buf - 1)%nat).
  destruct (take n content) as [|d chunk0] eqn:Ech; [apply (f_equal length) in Ech; rewrite length_take in Ech; cbn in Ech; lia|].
  rewrite <-Ech. clear Ech chunk0 d. pose proof (take_drop n content) as Hsplit. symmetry in Hsplit.
  assert (length (take n content) = n \/ drop n content = []) as Hall.
  { destruct (decide (n <= length content)%nat); [left; by rewrite length_take_le|right; apply drop_ge; lia]. }
  assert (length (drop n content) < fuel)%nat as Hf' by (rewrite length_drop; lia).
  set (chunk := take n content) in *. set (more := drop n content) in *. clearbody chunk more.
  assert (0 ∉ chunk /\ 0 ∉ more) as [Hck Hmo] by (rewrite Hsplit in Hc; by apply not_elem_of_app).
  destruct (scan_lines_ok (S (length (buf ++ chunk))) re (buf ++ chunk)) as (out & rest & -> & [S1 [S2 S2'] S3 S4 S5]).
  { by apply not_elem_of_app. } { lia. }
  cbn. rewrite Hsplit, app_assoc in Hs. rewrite Hsplit, app_assoc, S4.
  destruct (Nat.eqb_spec (length rest) (length (buf ++ chunk))) as [E|E].
  - assert (NEWLINE ∉ buf ++ chunk) as Hno by by apply S2. assert (more = []) as ->.
    { destruct Hall as [Hall|?]; [|done]. pose proof (short_lines_length 0 _ _ Hno ltac:(lia) Hs) as Hl.
      rewrite length_app, Hall in Hl. unfold BUFSZ in Hl. lia. }
    rewrite IH; [|apply not_elem_of_nil..|done|cbn; lia]. cbn. by rewrite (matching_none re [] (rest ++ [])) by (by rewrite app_nil_r).
  - rewrite IH; [done|done|done|done|by apply S5|done].
Qed.

(** C27: of a file without NULs whose lines fit in the buffer, the program writes
    the lines that match the pattern, in order, and it comes to an end. *)
Theorem grep_prints re content :
  0 ∉ content -> short_lines 0 content -> grep re content = Some (matching re [] content).
Proof. intros Hc Hs. apply grep_loop_ok; [set_solver|done|set_solver|done|lia]. Qed.
(** The file "ab\nc\n" searched for "b". *)
Lemma grep_prints_witness : grep [98] [97; 98; 10; 99; 10] = Some [97; 98; 10].
Proof.
  rewrite (grep_prints [98] [97; 98; 10; 99; 10]); [reflexivity|by apply (bool_decide_unpack _); vm_compute|].
  repeat split; vm_compute; lia.
Defined.

(** A read that gives less than a line, as from a pipe, loses the beginning of the
    line: "ab" and then "c\n", searched for "a". *)
Definition read_chunks (n : nat) (s : list (list Z)) : list Z * list (list Z) :=
  match s with [] => ([], []) | c :: s => (take n c, s) end.
Example grep_loses_partial_line :
  grep_loop read_chunks 3 [97] [] [[97; 98]; [99; 10]] = Some [] /\ matching [97] [] [97; 98; 99; 10] = [97; 98; 99; 10].
Proof. split; reflexivity. Qed.
