(* ===== verification/Wc.v ===== *)
(** * Counting and copying (wc.c, cat.c)

    The loops of the two programs over what [read] returns: a list of results, each
    some bytes or an error, whose end is the end of the file. *)

From S2P Require Import Prelude Ulib.
From stdpp Require Import base gmap list strings.
From Stdlib Require Import ZArith Lia.
#[local] Open Scope Z_scope.

(** What the calls of [read] return. *)
Definition reads : Type := list (option (list Z)).

(** ** wc *)

Definition wc_space : list Z := [32; 13; 9; 10; 11].
Record counts := mkCounts { n_l : Z; n_w : Z; n_c : Z; inword : bool }.
Definition wc_char (s : counts) (x : Z) : counts :=
  let s := mkCounts (if x =? 10 then i32 (n_l s + 1) else n_l s) (n_w s) (i32 (n_c s + 1)) (inword s) in
  match strchr wc_space x with
  | Some _ => mkCounts (n_l s) (n_w s) (n_c s) false
  | None => if inword s then s else mkCounts (n_l s) (i32 (n_w s + 1)) (n_c s) true
  end.
Fixpoint wc_loop (rs : reads) (s : counts) : option counts :=
  match rs with
  | [] | Some [] :: _ => Some s
  | None :: _ => None
  | Some buf :: rs => wc_loop rs (foldl wc_char s buf)
  end.
Definition bytes_of (s : string) : list Z := (fun a => Z.of_N (Ascii.N_of_ascii a)) <$> String.list_ascii_of_string s.
(** What is printed. *)
Definition wc (rs : reads) (name : list Z) : option (list Z) :=
  match wc_loop rs (mkCounts 0 0 0 false) with
  | None => printf (fun _ => []) (fun _ => 0) (bytes_of "wc: read error" ++ [10])
  | Some s => printf (fun _ => name) (fun k => nth k [n_l s; n_w s; n_c s; 1] 0) (bytes_of "%d %d %d %s" ++ [10])
  end.

(** ** cat *)

(** The output and how the program ends; [wrote] is what [write] returns. *)
Inductive cat_end := Copied | WriteError | ReadError.
Fixpoint cat (wrote : list Z -> Z) (rs : reads) : list Z * cat_end :=
  match rs with
  | [] | Some [] :: _ => ([], Copied)
  | None :: _ => ([], ReadError)
  | Some buf :: rs =>
      let n := wrote buf in
      let done := take (Z.to_nat n) buf in
      if n =? Z.of_nat (length buf) then let '(out, r) := cat wrote rs in (done ++ out, r) else (done, WriteError)
  end.

(** ** What the numbers mean *)

Definition is_space (x : Z) : bool := match strchr wc_space x with Some _ => true | None => false end.
Definition lines (s : list Z) : Z := Z.of_nat (length (filter (fun x => x = 10) s)).
(** The words of a text: its longest parts without white space. *)
Fixpoint words_from (cur s : list Z) : list (list Z) :=
  match s with
  | [] => match cur with [] => [] | _ => [cur] end
  | x :: s => if is_space x then match cur with [] => [] | _ => [cur] end ++ words_from [] s else words_from (cur ++ [x]) s
  end.
Definition words (s : list Z) : list (list Z) := words_from [] s.

(** Adding up: [w] words are complete, and [cur] is the word being read. *)
Lemma wc_chars s st cur :
  0 <= n_l st -> 0 <= n_w st -> 0 <= n_c st -> n_w st <= n_c st -> n_l st <= n_c st -> n_c st + Z.of_nat (length s) < 2147483648 -> inword st = bool_decide (cur <> []) ->
  exists b, foldl wc_char st s = mkCounts (n_l st + lines s)
    (n_w st + Z.of_nat (length (words_from cur s)) - (if inword st then 1 else 0)) (n_c st + Z.of_nat (length s)) b.
Proof.
  revert st cur. induction s as [|x s IH]; intros [l w c iw] cur Hl Hw Hc Hwc Hlc Hs Hin; cbn [n_l n_w n_c inword] in *.
  - exists iw. cbn. unfold lines. cbn. rewrite Hin. destruct cur; cbn; f_equal; lia.
  - cbn [length] in Hs. cbn [foldl words_from].
    assert (lines (x :: s) = (if x =? 10 then 1 else 0) + lines s) as HL.
    { unfold lines. rewrite filter_cons. case_decide as E; destruct (Z.eqb_spec x 10); cbn [length]; lia || done. }
    unfold wc_char at 2. cbn [n_l n_w n_c inword]. unfold is_space.
    set (l' := if x =? 10 then i32 (l + 1) else l). assert (l' = l + (if x =? 10 then 1 else 0)) as El.
    { subst l'. destruct (x =? 10); [rewrite i32_small by lia; done|lia]. }
    rewrite (i32_small (c + 1)) by lia. assert (l' <= c + 1 /\ 0 <= l') as [El1 El2] by (rewrite El; destruct (x =? 10); lia).
    destruct (strchr wc_space x) as [k|].
    + destruct (IH (mkCounts l' w (c + 1) false) []) as [b ->]; cbn [n_l n_w n_c inword]; [lia..|done|].
      exists b. rewrite HL, El, length_app, Hin. cbn [length]. destruct cur; cbn [length bool_decide]; f_equal; try lia.
      all: cbn; lia.
    + destruct iw; cbn [inword].
      * destruct (IH (mkCounts l' w (c + 1) true) (cur ++ [x])) as [b ->]; cbn [n_l n_w n_c inword]; [lia..|symmetry; apply bool_decide_true; by destruct cur|].
        exists b. rewrite HL, El. cbn [length]. f_equal; lia.
      * symmetry in Hin. apply bool_decide_eq_false in Hin. assert (cur = []) as -> by (destruct cur; [done|by destruct Hin]).
        rewrite (i32_small (w + 1)) by lia.
        destruct (IH (mkCounts l' (w + 1) (c + 1) true) ([] ++ [x])) as [b ->]; cbn [n_l n_w n_c inword]; [lia..|done|].
        exists b. rewrite HL, El. cbn [length]. f_equal; lia.
Qed.

Lemma wc_loop_concat bufs st : Forall (fun b => b <> []) bufs -> wc_loop (Some <$> bufs) st = Some (foldl wc_char st (concat bufs)).
Proof.
  intros Hb. revert st. induction Hb as [|b bufs Hne Hb IH]; intros st; [done|]. cbn. rewrite foldl_app. destruct b; [done|]. apply IH.
Qed.
(** However the file is cut into reads, [wc] counts its lines, words and bytes. *)
Theorem wc_counts bufs :
  Forall (fun b => b <> []) bufs -> Z.of_nat (length (concat bufs)) < 2147483648 ->
  exists b, wc_loop (Some <$> bufs) (mkCounts 0 0 0 false) =
    Some (mkCounts (lines (concat bufs)) (Z.of_nat (length (words (concat bufs)))) (Z.of_nat (length (concat bufs))) b).
Proof.
  intros Hb Hl. rewrite wc_loop_concat by done. destruct (wc_chars (concat bufs) (mkCounts 0 0 0 false) []) as [b ->]; cbn [n_l n_w n_c inword]; [lia..|done|].
  exists b. f_equal. f_equal; unfold words; lia.
Qed.
(** [cat] writes what it reads, up to the first error. *)
Theorem cat_copies bufs wrote :
  Forall (fun b => b <> [] /\ wrote b = Z.of_nat (length b)) bufs -> cat wrote (Some <$> bufs) = (concat bufs, Copied).
Proof.
  induction 1 as [|b bufs [Hne Hw] Hb IH]; [done|]. cbn. destruct b as [|x b]; [done|]. rewrite Hw, Z.eqb_refl, IH, Nat2Z.id, take_ge by done. done.
Qed.
