(* ===== verification/Sh.v ===== *)
(** * The parser of the shell

    The recursive-descent parser of sh.c, on the text still to be read; pointers
    into the line are kept as offsets from its start.  It terminates on every
    line, and it builds the tree that the grammar of the shell gives to the
    line's tokens. *)

From S2P Require Import Prelude.
From stdpp Require Import base gmap list strings.
From Stdlib Require Import ZArith Lia.
#[local] Open Scope Z_scope.

(** ** Commands *)

Definition MAXARGS : nat := 10.
(** A string between two pointers. *)
Definition word : Type := nat * nat.
Record redirection := mkRedir { r_file : word; r_mode : Z; r_fd : Z }.
Inductive cmd :=
  | EXEC (argv : list word)
  | REDIR (c : cmd) (r : redirection)
  | PIPE (left right : cmd)
  | LIST (left right : cmd)
  | BACK (c : cmd).

(** ** Characters and tokens *)

Definition text := list Z.
Definition among (l : list Z) (c : Z) : bool := existsb (Z.eqb c) l.
Definition whitespace : list Z := [32; 9; 13; 10; 11].
Definition symbols : list Z := [60; 124; 62; 38; 59; 40; 41].
Definition AMP : Z := 38.
Definition SEMI : Z := 59.
Definition BAR : Z := 124.
Definition LP : Z := 40.
Definition RP : Z := 41.
Definition LT : Z := 60.
Definition GT : Z := 62.
Definition PLUS : Z := 43.
Definition ARG : Z := 97.

(** The loops over white space and over a word. *)
Fixpoint drop_ws (t : text) : text :=
  match t with c :: t' => if among whitespace c then drop_ws t' else t | [] => [] end.
Fixpoint drop_word (t : text) : text :=
  match t with c :: t' => if among whitespace c || among symbols c then t else drop_word t' | [] => [] end.

(** The token, where it starts and where it ends. *)
Definition gettoken : M text (Z * text * text) := fun t =>
  let q := drop_ws t in
  let '(ret, s) :=
    match q with
    | [] => (0, q)
    | c :: s =>
        if c =? 0 then (0, q)
        else if among [124; 40; 41; 59; 38; 60] c then (c, s)
        else if c =? 62 then
          match s with d :: s' => if d =? 62 then (43, s') else (62, s) | [] => (62, s) end
        else (97, drop_word q)
    end in
  Ret (ret, q, s) (drop_ws s).
Definition peek (toks : list Z) : M text bool := fun t =>
  let s := drop_ws t in
  Ret (match s with c :: _ => c_true c && among toks c | [] => false end) s.

(** ** The parser *)

Section Parse.
  (** The length of the line. *)
  Variable n : nat.

Definition off (t : text) : nat := n - length t.
Definition redir_of (tok : Z) (w : word) : redirection :=
  if tok =? 60 then mkRedir w 0 0 else mkRedir w 513 1.

(** The node of the simple command is filled in after redirections have been put
    around it, so these are kept apart until the end. *)
Definition wrap (c : cmd) (rs : list redirection) : cmd := foldl REDIR c rs.

Definition out_of_fuel {A} : M text A := fun _ => Fuel.
Fixpoint parseredirs (fuel : nat) (rs : list redirection) : M text (list redirection) :=
  match fuel with
  | O => out_of_fuel
  | S fuel =>
      b ← peek [60; 62];
      if (b : bool) then
        '(tok, _, _) ← gettoken;
        '(tok', q, eq) ← gettoken;
        if negb (tok' =? 97) then panic "missing file for redirection"
        else parseredirs fuel (rs ++ [redir_of tok (off q, off eq)])
      else mret rs
  end.
Fixpoint parseargs (fuel : nat) (argv : list word) (rs : list redirection) : M text cmd :=
  match fuel with
  | O => out_of_fuel
  | S fuel =>
      b ← peek [124; 41; 38; 59];
      if (b : bool) then mret (wrap (EXEC argv) rs)
      else
        '(tok, q, eq) ← gettoken;
        if tok =? 0 then mret (wrap (EXEC argv) rs)
        else if negb (tok =? 97) then panic "syntax"
        else
          let argv := argv ++ [(off q, off eq)] in
          if (MAXARGS <=? length argv)%nat then panic "too many args"
          else rs ← parseredirs fuel rs; parseargs fuel argv rs
  end.
(** The loop over ampersands in [parseline]. *)
Fixpoint parseamps (fuel : nat) (c : cmd) : M text cmd :=
  match fuel with
  | O => out_of_fuel
  | S fuel =>
      b ← peek [38];
      if (b : bool) then _ ← gettoken; parseamps fuel (BACK c) else mret c
  end.

Fixpoint parseline (fuel : nat) : M text cmd :=
  match fuel with
  | O => out_of_fuel
  | S fuel =>
      c ← parsepipe fuel;
      c ← parseamps fuel c;
      b ← peek [59];
      if (b : bool) then _ ← gettoken; c' ← parseline fuel; mret (LIST c c') else mret c
  end
with parsepipe (fuel : nat) : M text cmd :=
  match fuel with
  | O => out_of_fuel
  | S fuel =>
      c ← parseexec fuel;
      b ← peek [124];
      if (b : bool) then _ ← gettoken; c' ← parsepipe fuel; mret (PIPE c c') else mret c
  end
with parseexec (fuel : nat) : M text cmd :=
  match fuel with
  | O => out_of_fuel
  | S fuel =>
      b ← peek [40];
      if (b : bool) then parseblock fuel
      else rs ← parseredirs fuel []; parseargs fuel [] rs
  end
with parseblock (fuel : nat) : M text cmd :=
  match fuel with
  | O => out_of_fuel
  | S fuel =>
      b ← peek [40];
      if negb b then panic "parseblock"
      else
        _ ← gettoken;
        c ← parseline fuel;
        b ← peek [41];
        if negb b then panic "syntax - missing )"
        else
          _ ← gettoken;
          rs ← parseredirs fuel [];
          mret (wrap c rs)
  end.
End Parse.

(** ** Strings of the commands *)

Definition end_word (w : word) (buf : text) : text := <[w.2 := 0]> buf.
Fixpoint nulterminate (c : cmd) (buf : text) : text :=
  match c with
  | EXEC argv => foldl (fun b w => end_word w b) buf argv
  | REDIR c r => end_word (r_file r) (nulterminate c buf)
  | PIPE l r | LIST l r => nulterminate r (nulterminate l buf)
  | BACK c => nulterminate c buf
  end.

(** [parsecmd]: the tree, and the line with the ends of its words marked. *)
Definition parse_fuel (s : text) : nat := 5 * length s + 5.
Definition parsecmd (s : text) : M text (cmd * text) := fun _ =>
  (c ← parseline (length s) (parse_fuel s);
   _ ← peek [];
   t ← gets id;
   if (length t =? 0)%nat then mret (c, nulterminate c (s ++ [0])) else panic "syntax") s.

(** ** Termination *)

#[local] Arguments among : simpl never.

Lemma drop_ws_length t : (length (drop_ws t) <= length t)%nat.
Proof. induction t as [|c t IH]; cbn; [lia|]. destruct (among whitespace c); cbn; lia. Qed.
Lemma drop_word_length t : (length (drop_word t) <= length t)%nat.
Proof. induction t as [|c t IH]; cbn; [lia|]. destruct (among whitespace c || among symbols c); cbn; lia. Qed.
Lemma drop_ws_head t : match drop_ws t with c :: _ => among whitespace c = false | [] => True end.
Proof. induction t as [|c t IH]; cbn; [done|]. destruct (among whitespace c) eqn:E; [done|by rewrite E]. Qed.
Lemma drop_ws_idemp t : drop_ws (drop_ws t) = drop_ws t.
Proof. pose proof (drop_ws_head t) as Hh. destruct (drop_ws t) as [|c t']; cbn; [done|by rewrite Hh]. Qed.

(** What [gettoken] does, by the first character. *)
Inductive token_at (t : text) : Z -> text -> text -> Prop :=
  | ta_end : (drop_ws t = [] \/ head (drop_ws t) = Some 0) -> token_at t 0 (drop_ws t) (drop_ws t)
  | ta_symbol c s : drop_ws t = c :: s -> among symbols c = true -> (c = GT -> head s <> Some GT) -> token_at t c (drop_ws t) s
  | ta_append s : drop_ws t = GT :: GT :: s -> token_at t PLUS (drop_ws t) s
  | ta_word c s : drop_ws t = c :: s -> c <> 0 -> among symbols c = false -> among whitespace c = false ->
      token_at t ARG (drop_ws t) (drop_word s).
Lemma gettoken_at t : exists ret q s, gettoken t = Ret (ret, q, s) (drop_ws s) /\ q = drop_ws t /\ token_at t ret q s.
Proof.
  unfold gettoken. pose proof (drop_ws_head t) as Hh. destruct (drop_ws t) as [|c s] eqn:E.
  { eexists _, _, _. split; [done|]. split; [done|]. rewrite <-E. constructor. by left. }
  destruct (Z.eqb_spec c 0) as [->|Hc].
  { eexists _, _, _. split; [done|]. split; [done|]. rewrite <-E. constructor. right. by rewrite E. }
  destruct (among [124; 40; 41; 59; 38; 60] c) eqn:Es.
  { eexists _, _, _. split; [done|]. split; [done|]. rewrite <-E. constructor; [done| |].
    - unfold among in *. cbn [existsb symbols] in *. destruct (c =? 62), (c =? 124), (c =? 40), (c =? 41), (c =? 59), (c =? 38), (c =? 60); done.
    - intros ->. done. }
  destruct (Z.eqb_spec c 62) as [->|Hgt].
  - destruct s as [|d s]; [|destruct (Z.eqb_spec d 62) as [->|Hd]]; (eexists _, _, _; split; [done|]; split; [done|]); rewrite <-E.
    + by constructor.
    + by constructor.
    + constructor; [done|done|]. intros _ [= ?]. done.
  - eexists _, _, _. split; [done|]. split; [done|]. assert (among symbols c = false) as Hsym.
    { unfold among in *. cbn in *. rewrite (proj2 (Z.eqb_neq c 62) Hgt). destruct (c =? 60), (c =? 124), (c =? 38), (c =? 59), (c =? 40), (c =? 41); done. }
    cbn [drop_word]. rewrite Hh, Hsym. cbn. rewrite <-E. by apply (ta_word t c s).
Qed.
Lemma token_at_length t ret q s :
  token_at t ret q s -> (length s <= length q <= length t)%nat /\ (ret <> 0 -> (length s < length q)%nat).
Proof.
  pose proof (drop_ws_length t) as Hl. destruct 1 as [_|c s E|s E|c s E]; [split; [lia|done]|..]; rewrite E in *; cbn in *.
  - lia.
  - lia.
  - pose proof (drop_word_length s). lia.
Qed.
(** After a [peek] that has found a character there is a token. *)
Lemma peek_token t c s ret q e : drop_ws t = c :: s -> c <> 0 -> token_at t ret q e -> ret <> 0.
Proof.
  intros E Hc Ht. destruct Ht as [[H|H]|c' s' H Hs|s' H|c' s' H]; try done; rewrite E in H; simplify_eq/=. by intros ->.
Qed.

Definition any (msg : string) : Prop := True.
Lemma gettoken_wpx Q t :
  (forall ret q s, token_at t ret q s -> Q (ret, q, s) (drop_ws s)) -> wpx any gettoken Q t.
Proof. intros HQ. destruct (gettoken_at t) as (ret & q & s & E & _ & Ht). unfold wpx. rewrite E. by apply HQ. Qed.
Lemma peek_wpx toks (Q : bool -> text -> Prop) t :
  Q false (drop_ws t) -> (forall c s, drop_ws t = c :: s -> c <> 0 -> Q true (drop_ws t)) -> wpx any (peek toks) Q t.
Proof.
  intros Hf Ht. unfold wpx, peek. destruct (drop_ws t) as [|c s] eqn:E; [done|]. unfold c_true.
  destruct (Z.eqb_spec c 0) as [->|Hc]; cbn; [done|]. destruct (among toks c); [by eapply Ht|done].
Qed.
(** One token less. *)
Lemma skip_token_wpx {A} (k : Z * text * text -> M text A) Q t c s :
  drop_ws t = c :: s -> c <> 0 ->
  (forall r t', (length t' < length t)%nat -> wpx any (k r) Q t') -> wpx any (r ← gettoken; k r) Q t.
Proof.
  intros E Hc Hk. wpx_step. apply gettoken_wpx. intros ret q e Ht. apply Hk.
  destruct (token_at_length _ _ _ _ Ht) as [H1 H2]. specialize (H2 (peek_token _ _ _ _ _ _ E Hc Ht)).
  pose proof (drop_ws_length e). lia.
Qed.

Definition shorter {A} (t : text) (_ : A) (t' : text) : Prop := (length t' <= length t)%nat.

Section Terminates.
  Variable n : nat.

Lemma parseredirs_ends fuel rs t : (length t < fuel)%nat -> wpx any (parseredirs n fuel rs) (shorter t) t.
Proof.
  unfold shorter. revert rs t. induction fuel as [|fuel IH]; intros rs t Hf; [lia|]. cbn [parseredirs]. pose proof (drop_ws_length t) as Hl.
  wpx_step. apply peek_wpx; [by wpx_step|]. intros c s E Hc. eapply (skip_token_wpx _ _ _ c s); [by rewrite drop_ws_idemp|done|].
  intros [[tok q] e] t1 Ht1. wpx_step. apply gettoken_wpx. intros tok' q' e' Ht. destruct (token_at_length _ _ _ _ Ht) as [H1 _].
  pose proof (drop_ws_length e'). destruct (negb (tok' =? 97)); [by apply wpx_panic|]. wpx_use (IH (rs ++ [redir_of tok (off n q', off n e')]) (drop_ws e')); [lia|].
  intros. lia.
Qed.
Lemma parseargs_ends fuel argv rs t : (S (length t) < fuel)%nat -> wpx any (parseargs n fuel argv rs) (shorter t) t.
Proof.
  unfold shorter. revert argv rs t. induction fuel as [|fuel IH]; intros argv rs t Hf; [lia|]. cbn [parseargs]. pose proof (drop_ws_length t) as Hl.
  wpx_step. apply peek_wpx; [|by intros; wpx_step]. wpx_step. apply gettoken_wpx. intros tok q e Ht.
  destruct (token_at_length _ _ _ _ Ht) as [H1 H2]. pose proof (drop_ws_length e). destruct (Z.eqb_spec tok 0) as [|Hne]; [wpx_step; lia|].
  specialize (H2 Hne). destruct (negb (tok =? 97)); [by apply wpx_panic|]. cbv zeta. case_match; [by apply wpx_panic|]. wpx_step.
  wpx_use (parseredirs_ends fuel rs (drop_ws e)); [lia|]. intros rs' t1 Ht1. wpx_use IH; [unfold shorter in *; lia|]. unfold shorter in *. intros. lia.
Qed.
Lemma parseamps_ends fuel c t : (length t < fuel)%nat -> wpx any (parseamps fuel c) (shorter t) t.
Proof.
  unfold shorter. revert c t. induction fuel as [|fuel IH]; intros c t Hf; [lia|]. cbn [parseamps]. pose proof (drop_ws_length t) as Hl.
  wpx_step. apply peek_wpx; [by wpx_step|]. intros d s E Hd. eapply (skip_token_wpx _ _ _ d s); [by rewrite drop_ws_idemp|done|].
  intros r t1 Ht1. wpx_use IH; [lia|]. intros. lia.
Qed.

(** Each level needs one unit, and every round of the levels takes a character. *)
Lemma parse_ends fuel t :
  ((5 * length t + 5 <= fuel)%nat -> wpx any (parseline n fuel) (shorter t) t) /\
  ((5 * length t + 4 <= fuel)%nat -> wpx any (parsepipe n fuel) (shorter t) t) /\
  ((5 * length t + 3 <= fuel)%nat -> wpx any (parseexec n fuel) (shorter t) t) /\
  ((5 * length t + 2 <= fuel)%nat -> wpx any (parseblock n fuel) (shorter t) t).
Proof.
  unfold shorter. revert t. induction fuel as [|fuel IH]; intros t; [lia|]. destruct (IH t) as (_ & IHp & IHe & IHb).
  pose proof (drop_ws_length t) as Hl.
  split; [|split; [|split]]; intros Hf; cbn [parseline parsepipe parseexec parseblock].
  - wpx_step. wpx_use IHp; [lia|]. intros c t1 Ht1. wpx_step. wpx_use (parseamps_ends fuel c t1); [lia|]. unfold shorter. intros c' t2 Ht2.
    pose proof (drop_ws_length t2). wpx_step. apply peek_wpx; [wpx_step; lia|]. intros d s E Hd.
    eapply (skip_token_wpx _ _ _ d s); [by rewrite drop_ws_idemp|done|]. intros r t3 Ht3. wpx_step.
    wpx_use (proj1 (IH t3)); [lia|]. intros c2 t4 Ht4. wpx_step. lia.
  - wpx_step. wpx_use IHe; [lia|]. intros c t1 Ht1. pose proof (drop_ws_length t1). wpx_step. apply peek_wpx; [wpx_step; lia|]. intros d s E Hd.
    eapply (skip_token_wpx _ _ _ d s); [by rewrite drop_ws_idemp|done|]. intros r t3 Ht3. wpx_step.
    wpx_use (proj1 (proj2 (IH t3))); [lia|]. intros c2 t4 Ht4. wpx_step. lia.
  - wpx_step. apply peek_wpx.
    + wpx_step. wpx_use (parseredirs_ends fuel [] (drop_ws t)); [lia|]. unfold shorter. intros rs t1 Ht1.
      wpx_use (parseargs_ends fuel [] rs t1); [lia|]. unfold shorter. intros. lia.
    + intros d s E Hd. wpx_use (proj2 (proj2 (proj2 (IH (drop_ws t))))); [lia|]. intros. lia.
  - wpx_step. apply peek_wpx; [by apply wpx_panic|]. intros d s E Hd. cbn [negb].
    eapply (skip_token_wpx _ _ _ d s); [by rewrite drop_ws_idemp|done|]. intros r t1 Ht1. wpx_step.
    wpx_use (proj1 (IH t1)); [lia|]. intros c t2 Ht2. pose proof (drop_ws_length t2). wpx_step. apply peek_wpx; [by apply wpx_panic|]. intros d' s' E' Hd'. cbn [negb].
    eapply (skip_token_wpx _ _ _ d' s'); [by rewrite drop_ws_idemp|done|]. intros r' t3 Ht3. wpx_step.
    wpx_use (parseredirs_ends fuel [] t3); [lia|]. unfold shorter. intros rs t4 Ht4. wpx_step. lia.
Qed.
End Terminates.

(** the parser comes to an end on every line, with a tree or an error message. *)
Theorem parsecmd_terminates s t : match parsecmd s t with Ret _ _ | Panic _ => True | _ => False end.
Proof.
  assert (wpx any (c ← parseline (length s) (parse_fuel s); _ ← peek []; t ← gets id;
    if (length t =? 0)%nat then mret (c, nulterminate c (s ++ [0])) else panic "syntax") (fun _ _ => True) s) as Hw.
  { wpx_step. wpx_use (proj1 (parse_ends (length s) (parse_fuel s) s)); [unfold parse_fuel; lia|]. intros c t1 _. wpx_step.
    apply peek_wpx; intros; wpx_step; wpx_step; (case_match; [by wpx_step|by apply wpx_panic]). }
  unfold wpx in Hw. unfold parsecmd. by case_match.
Qed.

(** ** The grammar *)

Inductive token := TWord (w : word) | TSym (c : Z).
Section Tokens.
  Variable n : nat.

Fixpoint tokens_upto (fuel : nat) (t : text) : list token :=
  match fuel with
  | O => []
  | S fuel =>
      match gettoken t with
      | Ret (ret, q, s) t' =>
          if ret =? 0 then []
          else (if ret =? ARG then TWord (off n q, off n s) else TSym ret) :: tokens_upto fuel t'
      | _ => []
      end
  end.
Definition tokens (t : text) : list token := tokens_upto (S (length t)) t.
End Tokens.

Definition backs (k : nat) (c : cmd) : cmd := Nat.iter k BACK c.
(** Redirections, and simple commands: words among redirections. *)
Inductive gredirs : list token -> list redirection -> Prop :=
  | gr_none : gredirs [] []
  | gr_one op w ts rs : op = LT \/ op = GT \/ op = PLUS -> gredirs ts rs ->
      gredirs (TSym op :: TWord w :: ts) (redir_of op w :: rs).
Inductive gargs : list token -> list word -> list redirection -> Prop :=
  | ga_none ts rs : gredirs ts rs -> gargs ts [] rs
  | ga_word ts rs w ts' ws rs' : gredirs ts rs -> gargs ts' ws rs' -> gargs (ts ++ TWord w :: ts') (w :: ws) (rs ++ rs').
Inductive gline : list token -> cmd -> Prop :=
  | gl_last ts c k : gpipe ts c -> gline (ts ++ replicate k (TSym AMP)) (backs k c)
  | gl_more ts c k ts' c' : gpipe ts c -> gline ts' c' ->
      gline (ts ++ replicate k (TSym AMP) ++ TSym SEMI :: ts') (LIST (backs k c) c')
with gpipe : list token -> cmd -> Prop :=
  | gp_last ts c : gexec ts c -> gpipe ts c
  | gp_more ts c ts' c' : gexec ts c -> gpipe ts' c' -> gpipe (ts ++ TSym BAR :: ts') (PIPE c c')
with gexec : list token -> cmd -> Prop :=
  | ge_simple ts ws rs : gargs ts ws rs -> (length ws < MAXARGS)%nat -> gexec ts (wrap (EXEC ws) rs)
  | ge_block ts c ts' rs : gline ts c -> gredirs ts' rs -> gexec (TSym LP :: ts ++ TSym RP :: ts') (wrap c rs).
Scheme gline_mut := Minimality for gline Sort Prop
  with gpipe_mut := Minimality for gpipe Sort Prop
  with gexec_mut := Minimality for gexec Sort Prop.
Combined Scheme grammar_ind from gline_mut, gpipe_mut, gexec_mut.

(** ** Reading tokens *)

Section Reads.
  Variable n : nat.
  Notation tokens := (tokens n).

Lemma tokens_upto_eq f f' t : (length t < f)%nat -> (length t < f')%nat -> tokens_upto n f t = tokens_upto n f' t.
Proof.
  revert f' t. induction f as [|f IH]; intros f' t Hf Hf'; [lia|]. destruct f' as [|f']; [lia|]. cbn [tokens_upto].
  destruct (gettoken_at t) as (ret & q & s & -> & _ & Ht). destruct (token_at_length _ _ _ _ Ht) as [H1 H2].
  destruct (Z.eqb_spec ret 0) as [|Hne]; [done|]. specialize (H2 Hne). pose proof (drop_ws_length s). f_equal. apply IH; lia.
Qed.
Lemma tokens_at t ret q s :
  gettoken t = Ret (ret, q, s) (drop_ws s) -> token_at t ret q s ->
  tokens t = if ret =? 0 then [] else (if ret =? ARG then TWord (off n q, off n s) else TSym ret) :: tokens (drop_ws s).
Proof.
  intros Hg Ht. unfold Sh.tokens at 1. cbn [tokens_upto]. rewrite Hg. destruct (Z.eqb_spec ret 0) as [|Hne]; [done|]. f_equal.
  destruct (token_at_length _ _ _ _ Ht) as [H1 H2]. specialize (H2 Hne). pose proof (drop_ws_length s). apply tokens_upto_eq; lia.
Qed.
Lemma tokens_ws t : tokens (drop_ws t) = tokens t.
Proof.
  unfold Sh.tokens. assert (gettoken (drop_ws t) = gettoken t) as E by (unfold gettoken; by rewrite drop_ws_idemp).
  pose proof (drop_ws_length t). rewrite (tokens_upto_eq _ (S (length t))) by lia. cbn [tokens_upto]. by rewrite E.
Qed.
Lemma tokens_length t : (length (tokens t) <= length t)%nat.
Proof.
  unfold Sh.tokens. assert (forall f t, length (tokens_upto n f t) <= length t)%nat as H; [|apply H].
  intros f. induction f as [|f IH]; intros t0; cbn [tokens_upto]; [cbn; lia|].
  destruct (gettoken_at t0) as (ret & q & s & -> & _ & Ht). destruct (token_at_length _ _ _ _ Ht) as [H1 H2].
  destruct (Z.eqb_spec ret 0) as [|Hne]; [cbn; lia|]. specialize (H2 Hne). pose proof (drop_ws_length s). pose proof (IH (drop_ws s)). cbn. lia.
Qed.

(** The tokens of the text that is left, which has no NUL. *)
Definition left_of (ts : list token) (t : text) : Prop := tokens t = ts /\ 0 ∉ t.
Definition starts (toks : list Z) (ts : list token) : bool :=
  match ts with TSym c :: _ => among toks (if c =? PLUS then GT else c) | _ => false end.

Lemma drop_ws_in c t : c ∈ drop_ws t -> c ∈ t.
Proof. induction t as [|d t IH]; cbn; [done|]. destruct (among whitespace d); [|done]. intros. right. by apply IH. Qed.
Lemma drop_word_in c t : c ∈ drop_word t -> c ∈ t.
Proof. induction t as [|d t IH]; cbn; [done|]. destruct (among whitespace d || among symbols d); [done|]. intros. right. by apply IH. Qed.
Lemma token_at_in t ret q s c : token_at t ret q s -> c ∈ s -> c ∈ t.
Proof.
  intros Ht Hc. apply drop_ws_in. destruct Ht as [_|d s E _ _|s E|d s E _ _ _]; rewrite ?E; [done|by right|by right; right|right; by apply drop_word_in].
Qed.
Lemma among_in l c : among l c = true <-> c ∈ l.
Proof.
  unfold among. rewrite existsb_exists. split; [intros (x & Hx & ->%Z.eqb_eq); by apply list_elem_of_In|].
  intros Hc. exists c. split; [by apply list_elem_of_In|apply Z.eqb_refl].
Qed.

Lemma peek_wp toks ts (Q : bool -> text -> Prop) t :
  left_of ts t -> (forall c, c ∈ toks -> c ∈ symbols) -> (forall t', left_of ts t' -> Q (starts toks ts) t') -> wp (peek toks) Q t.
Proof.
  intros [Ht H0] Hsub HQ. unfold wp, peek.
  assert ((match drop_ws t with [] => false | c :: _ => c_true c && among toks c end) = starts toks ts) as ->.
  2: { apply HQ. split; [by rewrite tokens_ws|]. intros Hin. by apply H0, drop_ws_in. }
  destruct (gettoken_at t) as (ret & q & s & Hg & _ & Ha). rewrite (tokens_at t ret q s Hg Ha) in Ht. subst ts.
  destruct Ha as [[E|E]|c s E Hs Hgt|s E|c s E Hz Hs Hw].
  - by rewrite E.
  - destruct (drop_ws t) as [|c s]; [done|]. by injection E as ->.
  - rewrite E. apply among_in in Hs as Hin. assert (c <> 0 /\ c <> ARG /\ c <> PLUS) as (H1 & H2 & H3).
    { unfold symbols in Hin. set_unfold in Hin. unfold ARG, PLUS. lia. }
    rewrite (proj2 (Z.eqb_neq c 0)), (proj2 (Z.eqb_neq c ARG)) by done. cbn [starts]. rewrite (proj2 (Z.eqb_neq c PLUS)) by done.
    unfold c_true. by rewrite (proj2 (Z.eqb_neq c 0)).
  - by rewrite E.
  - rewrite E. cbn [starts]. unfold c_true. rewrite (proj2 (Z.eqb_neq c 0)) by done. cbn. destruct (among toks c) eqn:Em; [|done].
    apply among_in, Hsub, among_in in Em. congruence.
Qed.
Lemma gettoken_sym_wp c ts Q t :
  left_of (TSym c :: ts) t -> (forall q s t', left_of ts t' -> Q (c, q, s) t') -> wp gettoken Q t.
Proof.
  intros [Ht H0] HQ. destruct (gettoken_at t) as (ret & q & s & Hg & _ & Ha). rewrite (tokens_at t ret q s Hg Ha) in Ht. unfold wp. rewrite Hg.
  destruct (Z.eqb_spec ret 0); [done|]. destruct (Z.eqb_spec ret ARG); [done|]. injection Ht as -> <-. apply HQ.
  split; [done|]. intros Hin. by apply H0, (token_at_in t c q s), drop_ws_in.
Qed.
Lemma gettoken_word_wp w ts Q t :
  left_of (TWord w :: ts) t -> (forall q s t', w = (off n q, off n s) -> left_of ts t' -> Q (ARG, q, s) t') -> wp gettoken Q t.
Proof.
  intros [Ht H0] HQ. destruct (gettoken_at t) as (ret & q & s & Hg & _ & Ha). rewrite (tokens_at t ret q s Hg Ha) in Ht. unfold wp. rewrite Hg.
  destruct (Z.eqb_spec ret 0); [done|]. destruct (Z.eqb_spec ret ARG) as [->|]; [|done]. injection Ht as <- <-. apply HQ; [done|].
  split; [done|]. intros Hin. by apply H0, (token_at_in t ARG q s), drop_ws_in.
Qed.
Lemma gettoken_end_wp Q t : left_of [] t -> (forall q s, Q (0, q, s) []) -> wp gettoken Q t.
Proof.
  intros [Ht H0] HQ. destruct (gettoken_at t) as (ret & q & s & Hg & _ & Ha). rewrite (tokens_at t ret q s Hg Ha) in Ht. unfold wp. rewrite Hg.
  destruct (Z.eqb_spec ret 0) as [->|]; [|done]. assert (drop_ws s = []) as ->; [|apply HQ].
  inversion Ha as [[E|E]|c s' E Hs|s' E|c s' E]; subst; try done.
  - by rewrite drop_ws_idemp.
  - destruct (drop_ws t) as [|c s] eqn:Ed; [done|]. injection E as ->. destruct H0. apply drop_ws_in. rewrite Ed. left.
Qed.

(** ** The parser follows the grammar *)

(** What may follow: the caller's business. *)
Definition follows (cs : list Z) (rest : list token) : Prop :=
  match rest with [] => True | TSym c :: _ => c ∈ cs | _ => False end.
Lemma follows_starts cs toks rest :
  follows cs rest -> (forall c, c ∈ cs -> c <> PLUS /\ among toks c = false) -> starts toks rest = false.
Proof.
  destruct rest as [|[w|c] rest]; [done..|]. cbn. intros Hc Ht. destruct (Ht c Hc) as [Hp Ha]. by rewrite (proj2 (Z.eqb_neq c PLUS)).
Qed.
Lemma follows_sub cs cs' rest : follows cs rest -> (forall c, c ∈ cs -> c ∈ cs') -> follows cs' rest.
Proof. destruct rest as [|[w|c] rest]; cbn; auto. Qed.

Ltac syms := unfold symbols, AMP, SEMI, BAR, LP, RP, LT, GT, PLUS in *; set_solver.
Ltac memb := cbn; apply among_in; reflexivity.
Ltac no_start := eapply follows_starts; [eassumption|]; unfold AMP, SEMI, BAR, LP, RP, LT, GT, PLUS;
  let x := fresh in let Hx := fresh in intros x Hx; set_unfold in Hx; destruct_or?; subst x; done.

Lemma parseredirs_follows ts rs : gredirs ts rs -> forall fuel rs0 rest t,
  left_of (ts ++ rest) t -> starts [LT; GT] rest = false -> (length ts < fuel)%nat ->
  wp (parseredirs n fuel rs0) (fun r t' => r = rs0 ++ rs /\ left_of rest t') t.
Proof.
  induction 1 as [|op w ts rs Hop Hg IH]; intros fuel rs0 rest t Ht Hno Hf; (destruct fuel as [|fuel]; [cbn in Hf; lia|]); cbn [parseredirs].
  - wp_step. eapply (peek_wp [60; 62]); [exact Ht|syms|]. intros t1 Ht1. cbn [app] in *. change [60; 62] with [LT; GT]. rewrite Hno.
    apply wp_ret. by rewrite app_nil_r.
  - wp_step. eapply (peek_wp [60; 62]); [exact Ht|syms|]. intros t1 Ht1. cbn [app] in *.
    assert (starts [60; 62] (TSym op :: TWord w :: ts ++ rest) = true) as -> by (destruct Hop as [->|[->| ->]]; done).
    wp_step. eapply gettoken_sym_wp; [exact Ht1|]. intros q s t2 Ht2. wp_step. eapply gettoken_word_wp; [exact Ht2|].
    intros q' s' t3 -> Ht3. change (ARG =? 97) with true. cbn [negb]. wp_use (IH fuel _ rest t3 Ht3 Hno); [cbn in Hf; lia|].
    intros r t4 [-> Ht4]. by rewrite <-app_assoc.
Qed.
Lemma parseargs_follows ts ws rs : gargs ts ws rs -> forall fuel argv0 rs0 rest t,
  left_of (ts ++ rest) t -> follows [BAR; RP; AMP; SEMI] rest -> (length argv0 + length ws < MAXARGS)%nat -> (S (length ts) < fuel)%nat ->
  wp (rs ← parseredirs n fuel rs0; parseargs n fuel argv0 rs)
    (fun c t' => c = wrap (EXEC (argv0 ++ ws)) (rs0 ++ rs) /\ left_of rest t') t.
Proof.
  induction 1 as [ts rs Hr|ts rs w ts' ws rs' Hr Hg IH]; intros fuel argv0 rs0 rest t Ht Hfo Hm Hf.
  - wp_step. wp_use (parseredirs_follows ts rs Hr fuel rs0 rest t Ht); [no_start|lia|]. intros r t1 [-> Ht1].
    destruct fuel as [|fuel]; [lia|]. cbn [parseargs]. wp_step. eapply (peek_wp [124; 41; 38; 59]); [exact Ht1|syms|]. intros t2 Ht2.
    rewrite app_nil_r. destruct rest as [|[w|c] rest]; cbn in Hfo; [|done|].
    + cbn [starts]. wp_step. eapply gettoken_end_wp; [exact Ht2|]. intros q s. cbn. apply wp_ret. split; [done|]. split; [done|apply not_elem_of_nil].
    + assert (starts [124; 41; 38; 59] (TSym c :: rest) = true) as ->.
      { cbn. rewrite (proj2 (Z.eqb_neq c PLUS)) by (unfold BAR, RP, AMP, SEMI, PLUS in *; set_unfold in Hfo; lia). by apply among_in. }
      by apply wp_ret.
  - rewrite <-app_assoc in Ht. cbn [app] in Ht. rewrite length_app in Hf. cbn in Hf, Hm.
    wp_step. wp_use (parseredirs_follows ts rs Hr fuel rs0 (TWord w :: ts' ++ rest) t Ht); [done|lia|]. intros r t1 [-> Ht1].
    destruct fuel as [|fuel]; [lia|]. cbn [parseargs]. wp_step. eapply (peek_wp [124; 41; 38; 59]); [exact Ht1|syms|]. intros t2 Ht2. cbn [starts].
    wp_step. eapply gettoken_word_wp; [exact Ht2|]. intros q s t3 -> Ht3. cbn [Z.eqb ARG negb Pos.eqb]. cbv zeta.
    rewrite (proj2 (Nat.leb_gt _ _)) by (rewrite length_app; cbn; unfold MAXARGS in *; lia).
    wp_use (IH fuel (argv0 ++ [(off n q, off n s)]) (rs0 ++ rs) rest t3 Ht3 Hfo); [rewrite length_app; cbn; lia|lia|].
    intros c t4 [-> Ht4]. by rewrite <-!app_assoc.
Qed.
Lemma parseamps_follows k : forall fuel c rest t,
  left_of (replicate k (TSym AMP) ++ rest) t -> starts [AMP] rest = false -> (k < fuel)%nat ->
  wp (parseamps fuel c) (fun c' t' => c' = backs k c /\ left_of rest t') t.
Proof.
  induction k as [|k IH]; intros fuel c rest t Ht Hno Hf; (destruct fuel as [|fuel]; [lia|]); cbn [parseamps]; wp_step;
    (eapply (peek_wp [38]); [exact Ht|syms|]); intros t1 Ht1; cbn [replicate app] in *.
  - change [38] with [AMP]. rewrite Hno. by apply wp_ret.
  - change (starts [38] (TSym AMP :: replicate k (TSym AMP) ++ rest)) with true. cbv iota. wp_step. eapply gettoken_sym_wp; [exact Ht1|]. intros q s t2 Ht2.
    wp_use (IH fuel (BACK c) rest t2 Ht2 Hno); [lia|]. intros c' t3 [-> Ht3]. split; [|done]. unfold backs. by rewrite <-Nat.iter_succ_r.
Qed.

Lemma parse_follows :
  (forall ts c, gline ts c -> forall fuel rest t, left_of (ts ++ rest) t -> follows [RP] rest -> (5 * length ts + 5 <= fuel)%nat ->
    wp (parseline n fuel) (fun c' t' => c' = c /\ left_of rest t') t) /\
  (forall ts c, gpipe ts c -> forall fuel rest t, left_of (ts ++ rest) t -> follows [RP; AMP; SEMI] rest -> (5 * length ts + 4 <= fuel)%nat ->
    wp (parsepipe n fuel) (fun c' t' => c' = c /\ left_of rest t') t) /\
  (forall ts c, gexec ts c -> forall fuel rest t, left_of (ts ++ rest) t -> follows [BAR; RP; AMP; SEMI] rest -> (5 * length ts + 3 <= fuel)%nat ->
    wp (parseexec n fuel) (fun c' t' => c' = c /\ left_of rest t') t).
Proof.
  apply grammar_ind.
  - intros ts c k Hg IH fuel rest t Ht Hfo Hf. destruct fuel as [|fuel]; [lia|]. cbn [parseline]. rewrite length_app, length_replicate in Hf.
    rewrite <-app_assoc in Ht. wp_step. wp_use (IH fuel _ t Ht); [destruct k; [by eapply follows_sub; [exact Hfo|syms]|memb]|lia|].
    intros c1 t1 [-> Ht1]. wp_step. wp_use (parseamps_follows k fuel c rest t1 Ht1); [no_start|lia|]. intros c2 t2 [-> Ht2].
    wp_step. eapply (peek_wp [59]); [exact Ht2|syms|]. intros t3 Ht3. assert (starts [59] rest = false) as -> by no_start. by apply wp_ret.
  - intros ts c k ts' c' Hg IH Hg' IH' fuel rest t Ht Hfo Hf. destruct fuel as [|fuel]; [lia|]. cbn [parseline].
    rewrite !length_app, length_replicate in Hf. cbn in Hf. rewrite <-!app_assoc in Ht. cbn [app] in Ht.
    wp_step. wp_use (IH fuel _ t Ht); [destruct k; memb|lia|].
    intros c1 t1 [-> Ht1]. wp_step. wp_use (parseamps_follows k fuel c (TSym SEMI :: ts' ++ rest) t1 Ht1); [done|lia|]. intros c2 t2 [-> Ht2].
    wp_step. eapply (peek_wp [59]); [exact Ht2|syms|]. intros t3 Ht3. change (starts [59] (TSym SEMI :: ts' ++ rest)) with true. cbv iota.
    wp_step. eapply gettoken_sym_wp; [exact Ht3|]. intros q s t4 Ht4. wp_step. wp_use (IH' fuel rest t4 Ht4 Hfo); [lia|].
    intros c3 t5 [-> Ht5]. by apply wp_ret.
  - intros ts c Hg IH fuel rest t Ht Hfo Hf. destruct fuel as [|fuel]; [lia|]. cbn [parsepipe]. wp_step.
    wp_use (IH fuel rest t Ht); [by eapply follows_sub; [exact Hfo|syms]|lia|]. intros c1 t1 [-> Ht1].
    wp_step. eapply (peek_wp [124]); [exact Ht1|syms|]. intros t2 Ht2. assert (starts [124] rest = false) as -> by no_start. by apply wp_ret.
  - intros ts c ts' c' Hg IH Hg' IH' fuel rest t Ht Hfo Hf. destruct fuel as [|fuel]; [lia|]. cbn [parsepipe].
    rewrite length_app in Hf. cbn in Hf. rewrite <-app_assoc in Ht. cbn [app] in Ht.
    wp_step. wp_use (IH fuel _ t Ht); [memb|lia|]. intros c1 t1 [-> Ht1].
    wp_step. eapply (peek_wp [124]); [exact Ht1|syms|]. intros t2 Ht2. change (starts [124] (TSym BAR :: ts' ++ rest)) with true. cbv iota.
    wp_step. eapply gettoken_sym_wp; [exact Ht2|]. intros q s t3 Ht3. wp_step. wp_use (IH' fuel rest t3 Ht3 Hfo); [lia|].
    intros c2 t4 [-> Ht4]. by apply wp_ret.
  - intros ts ws rs Hg Hm fuel rest t Ht Hfo Hf. destruct fuel as [|fuel]; [lia|]. cbn [parseexec]. wp_step.
    eapply (peek_wp [40]); [exact Ht|syms|]. intros t1 Ht1. assert (starts [40] (ts ++ rest) = false) as ->.
    { destruct Hg as [ts rs [|op w ts0 rs0 Hop]|ts rs w ts' ws rs' [|op w' ts0 rs0 Hop]]; cbn; try done; [no_start|..];
        destruct Hop as [->|[->| ->]]; done. }
    wp_use (parseargs_follows ts ws rs Hg fuel [] [] rest t1 Ht1 Hfo); [cbn; lia|lia|]. done.
  - intros ts c ts' rs Hg IH Hr fuel rest t Ht Hfo Hf. destruct fuel as [|fuel]; [lia|]. cbn [parseexec]. cbn [length app] in Hf, Ht.
    rewrite length_app in Hf. cbn in Hf. rewrite <-app_assoc in Ht. cbn [app] in Ht. wp_step.
    eapply (peek_wp [40]); [exact Ht|syms|]. intros t1 Ht1. change (starts [40] (TSym LP :: ?x)) with true. cbv iota.
    destruct fuel as [|fuel]; [lia|]. cbn [parseblock]. wp_step. eapply (peek_wp [40]); [exact Ht1|syms|]. intros t2 Ht2.
    change (starts [40] (TSym LP :: ?x)) with true. cbn [negb]. cbv iota. wp_step. eapply gettoken_sym_wp; [exact Ht2|]. intros q s t3 Ht3.
    wp_step. wp_use (IH fuel _ t3 Ht3); [memb|lia|]. intros c1 t4 [-> Ht4]. wp_step. eapply (peek_wp [41]); [exact Ht4|syms|]. intros t5 Ht5.
    change (starts [41] (TSym RP :: ?x)) with true. cbn [negb]. cbv iota. wp_step. eapply gettoken_sym_wp; [exact Ht5|]. intros q' s' t6 Ht6. wp_step.
    wp_use (parseredirs_follows ts' rs Hr fuel [] rest t6 Ht6); [no_start|lia|]. intros r t7 [-> Ht7]. by apply wp_ret.
Qed.
End Reads.

(** ** The words of a command *)

Fixpoint cmd_words (c : cmd) : list word :=
  match c with
  | EXEC argv => argv
  | REDIR c r => r_file r :: cmd_words c
  | PIPE l r | LIST l r => cmd_words l ++ cmd_words r
  | BACK c => cmd_words c
  end.
Lemma wrap_words c rs w : w ∈ cmd_words (wrap c rs) <-> w ∈ cmd_words c \/ w ∈ r_file <$> rs.
Proof.
  revert c. induction rs as [|r rs IH]; intros c; cbn; [set_solver|]. unfold wrap in *. cbn. rewrite IH. cbn. set_solver.
Qed.
Lemma backs_words k c w : w ∈ cmd_words (backs k c) <-> w ∈ cmd_words c.
Proof. induction k as [|k IH]; [done|]. unfold backs in *. cbn. done. Qed.
Lemma redirs_words ts rs w : gredirs ts rs -> w ∈ r_file <$> rs -> TWord w ∈ ts.
Proof.
  induction 1 as [|op w' ts rs Hop Hg IH]; cbn; [set_solver|]. intros [->|Hw]%elem_of_cons; [|set_solver].
  assert (r_file (redir_of op w') = w') as -> by (unfold redir_of; by destruct (op =? 60)). set_solver.
Qed.
Lemma args_words ts ws rs w : gargs ts ws rs -> w ∈ ws \/ w ∈ r_file <$> rs -> TWord w ∈ ts.
Proof.
  induction 1 as [ts rs Hr|ts rs w' ts' ws rs' Hr Hg IH]; intros Hw.
  - destruct Hw as [Hw|Hw]; [by apply not_elem_of_nil in Hw|by apply (redirs_words _ rs)].
  - rewrite fmap_app in Hw. pose proof (redirs_words ts rs w Hr). set_solver.
Qed.
Lemma grammar_words :
  (forall ts c, gline ts c -> forall w, w ∈ cmd_words c -> TWord w ∈ ts) /\
  (forall ts c, gpipe ts c -> forall w, w ∈ cmd_words c -> TWord w ∈ ts) /\
  (forall ts c, gexec ts c -> forall w, w ∈ cmd_words c -> TWord w ∈ ts).
Proof.
  apply grammar_ind.
  - intros ts c k _ IH w Hw%backs_words. apply elem_of_app. left. by apply IH.
  - intros ts c k ts' c' _ IH _ IH' w [Hw%backs_words|Hw]%elem_of_app; apply elem_of_app; [left; by apply IH|right].
    apply elem_of_app. right. right. by apply IH'.
  - done.
  - intros ts c ts' c' _ IH _ IH' w [Hw|Hw]%elem_of_app; apply elem_of_app; [left; by apply IH|right; right; by apply IH'].
  - intros ts ws rs Hg _ w Hw%wrap_words. by apply (args_words _ ws rs).
  - intros ts c ts' rs _ IH Hr w [Hw|Hw]%wrap_words; right; apply elem_of_app; [left; by apply IH|right; right].
    by apply (redirs_words _ rs).
Qed.

(** Words come one after the other, and something is between them. *)
Fixpoint in_order (n lo : nat) (ts : list token) : Prop :=
  match ts with
  | [] => True
  | TWord (q, e) :: ts => (lo <= q < e)%nat /\ (e <= n)%nat /\ in_order n (S e) ts
  | TSym _ :: ts => in_order n lo ts
  end.
Lemma in_order_le n lo lo' ts : (lo <= lo')%nat -> in_order n lo' ts -> in_order n lo ts.
Proof. revert lo lo'. induction ts as [|[[q e]|c] ts IH]; intros lo lo' Hle; cbn; [done| |by apply IH]. intros (? & ? & ?). split; [lia|done]. Qed.
Lemma drop_word_stops s : match drop_word s with [] => True | c :: _ => among whitespace c = true \/ among symbols c = true end.
Proof.
  induction s as [|c s IH]; cbn [drop_word]; [done|]. destruct (among whitespace c) eqn:Ew; [by left|].
  cbn [orb]. by destruct (among symbols c) eqn:Es; [right|].
Qed.
Lemma word_apart s q e : token_at (drop_ws (drop_word s)) ARG q e -> (length (drop_ws (drop_word s)) < length (drop_word s))%nat.
Proof.
  pose proof (drop_word_stops s) as Hs. destruct (drop_word s) as [|c s']; [inversion 1; discriminate|]. pose proof (drop_ws_length s').
  cbn [drop_ws]. destruct (among whitespace c) eqn:Ew; [cbn [length]; lia|]. destruct Hs as [|Hs]; [congruence|].
  inversion 1 as [|? ? Hd Ha|? Hd|d ? Hd _ Hns]; subst; [discriminate Ha|].
  cbn [drop_ws] in Hd. rewrite Ew in Hd. congruence.
Qed.
Lemma tokens_in_order n t : (length t <= n)%nat -> in_order n (off n t) (tokens n t).
Proof.
  unfold tokens. generalize (S (length t)) as f. intros f Hn.
  assert (forall lo, lo <= S (off n (drop_ws t)) -> (forall q s, token_at t ARG q s -> lo <= off n (drop_ws t)) ->
    in_order n lo (tokens_upto n f t))%nat as H; [|pose proof (drop_ws_length t); apply H; unfold off; lia].
  revert t Hn. induction f as [|f IH]; intros t Hn lo Hlo Hword; cbn [tokens_upto]; [done|].
  destruct (gettoken_at t) as (ret & q & s & -> & -> & Ht). destruct (token_at_length _ _ _ _ Ht) as [H1 H2].
  destruct (Z.eqb_spec ret 0) as [|Hne]; [done|]. specialize (H2 Hne). pose proof (drop_ws_length s).
  assert (length (drop_ws (drop_ws s)) = length (drop_ws s)) as E by (by rewrite drop_ws_idemp).
  destruct (Z.eqb_spec ret ARG) as [->|Ha]; cbn [in_order].
  - specialize (Hword _ _ Ht). split; [unfold off in *; lia|]. split; [unfold off; lia|]. apply IH; [lia|unfold off in *; lia|].
    inversion Ht as [|? ? Hd Hs|? Hd|c s' Hd Hc Hs Hw]; subst; [discriminate Hs|]. intros q e Hq%word_apart. unfold off in *. lia.
  - apply IH; [lia|unfold off in *; lia|]. intros. unfold off in *. lia.
Qed.
Lemma in_order_apart n lo ts w w' :
  in_order n lo ts -> TWord w ∈ ts -> TWord w' ∈ ts -> (lo <= w.1 < w.2 /\ w.2 <= n /\ ~ (w.1 <= w'.2 < w.2))%nat.
Proof.
  assert (forall lo ts w, in_order n lo ts -> TWord w ∈ ts -> lo <= w.1 < w.2 /\ w.2 <= n)%nat as Hlo.
  { intros lo0 ts0 w0. revert lo0. induction ts0 as [|[[q e]|c] ts0 IH]; intros lo0; cbn; [by intros _ ?%not_elem_of_nil|..].
    - intros (? & ? & Ho) [[= ->]|Hw]%elem_of_cons; [done|]. specialize (IH (S e) Ho Hw). lia.
    - intros Ho [[=]|Hw]%elem_of_cons. by apply IH. }
  revert lo. induction ts as [|[[q e]|c] ts IH]; intros lo Ho Hw Hw'; [by apply not_elem_of_nil in Hw|..].
  - pose proof (Hlo lo _ w Ho Hw). pose proof (Hlo lo _ w' Ho Hw'). cbn in Ho. destruct Ho as (? & ? & Ho).
    apply elem_of_cons in Hw as [[= ->]|Hw], Hw' as [[= ->]|Hw']; cbn in *.
    + lia.
    + specialize (Hlo (S e) ts w' Ho Hw'). lia.
    + specialize (Hlo (S e) ts w Ho Hw). lia.
    + destruct (IH (S e) Ho Hw Hw') as (? & ? & ?). lia.
  - apply elem_of_cons in Hw as [[=]|Hw], Hw' as [[=]|Hw']. by apply IH.
Qed.

(** The ends of the words, and only these, become NULs. *)
Lemma nulterminate_lookup c buf i :
  length (nulterminate c buf) = length buf /\
  ((forall w, w ∈ cmd_words c -> w.2 <> i) -> nulterminate c buf !! i = buf !! i) /\
  (buf !! i = Some 0 \/ (exists w, w ∈ cmd_words c /\ w.2 = i) /\ (i < length buf)%nat -> nulterminate c buf !! i = Some 0).
Proof.
  assert (forall w (b : text), length (end_word w b) = length b /\ (w.2 <> i -> end_word w b !! i = b !! i) /\
    (b !! i = Some 0 \/ w.2 = i /\ (i < length b)%nat -> end_word w b !! i = Some 0)) as He.
  { intros w b. unfold end_word. split; [apply (length_insert (A:=Z))|]. split; [intros; by apply (list_lookup_insert_ne (A:=Z))|].
    intros H. destruct (decide (w.2 = i)) as [<-|Hne].
    - apply (list_lookup_insert_eq (A:=Z)). destruct H as [H|[_ ?]]; [by apply lookup_lt_Some in H|done].
    - etrans; [by apply (list_lookup_insert_ne (A:=Z))|]. by destruct H as [?|[? _]]. }
  revert buf. induction c as [argv|c IH r|l IHl r IHr|l IHl r IHr|c IH]; intros buf; cbn [nulterminate cmd_words]; [|..|done].
  - revert buf. induction argv as [|w argv IH]; intros buf; cbn; [set_solver|]. destruct (IH (end_word w buf)) as (L & K1 & K2). destruct (He w buf) as (L' & E1 & E2).
    split; [by rewrite L|]. split; [intros H; rewrite K1, E1; set_solver|]. intros H. apply K2. rewrite L'. set_solver.
  - destruct (IH buf) as (L & K1 & K2). destruct (He (r_file r) (nulterminate c buf)) as (L' & E1 & E2).
    split; [by rewrite L'|]. split; [intros H; rewrite E1, K1; set_solver|]. intros H. apply E2. rewrite L. set_solver.
  - destruct (IHl buf) as (L & K1 & K2). destruct (IHr (nulterminate l buf)) as (L' & E1 & E2).
    split; [by rewrite L'|]. split; [intros H; rewrite E1, K1; set_solver|]. intros H. apply E2. rewrite L. set_solver.
  - destruct (IHl buf) as (L & K1 & K2). destruct (IHr (nulterminate l buf)) as (L' & E1 & E2).
    split; [by rewrite L'|]. split; [intros H; rewrite E1, K1; set_solver|]. intros H. apply E2. rewrite L. set_solver.
Qed.

Lemma parsecmd_parses s c t :
  0 ∉ s -> gline (tokens (length s) s) c -> parsecmd s t = Ret (c, nulterminate c (s ++ [0])) [].
Proof.
  intros H0 Hg.
  assert (wp (c ← parseline (length s) (parse_fuel s); _ ← peek []; t ← gets id;
    if (length t =? 0)%nat then mret (c, nulterminate c (s ++ [0])) else panic "syntax")
    (fun r t' => r = (c, nulterminate c (s ++ [0])) /\ t' = []) s) as Hw.
  { wp_step. wp_use (proj1 (parse_follows (length s)) _ c Hg (parse_fuel s) [] s).
    - by rewrite app_nil_r.
    - done.
    - pose proof (tokens_length (length s) s). unfold parse_fuel. lia.
    - intros c1 t1 [-> [Ht1 Hz]]. wp_step. assert (drop_ws t1 = []) as Hd.
      { assert (wp gettoken (fun _ t' => t' = []) t1) as Hd by (apply (gettoken_end_wp (length s)); [done|by intros]). unfold wp in Hd.
        destruct (gettoken_at t1) as (ret & q & e & Hgt & _ & Ha). rewrite (tokens_at (length s) t1 ret q e Hgt Ha) in Ht1. rewrite Hgt in Hd.
        destruct (Z.eqb_spec ret 0) as [->|]; [|done]. inversion Ha; subst; try done. by rewrite drop_ws_idemp in Hd. }
      unfold peek, wp. rewrite Hd. done. }
  unfold parsecmd. apply wp_Ret in Hw as (r & t' & -> & -> & ->). done.
Qed.

(** C9: a line whose tokens form a command of the grammar is parsed to the tree of
    that command, and each of its words is then a string of its own in the line. *)
Theorem parsecmd_correct s c t :
  0 ∉ s -> gline (tokens (length s) s) c ->
  exists buf, parsecmd s t = Ret (c, buf) [] /\
    forall w, w ∈ cmd_words c -> buf !! w.2 = Some 0 /\ (w.1 < w.2)%nat /\ forall i, (w.1 <= i < w.2)%nat -> buf !! i = s !! i.
Proof.
  intros H0 Hg. exists (nulterminate c (s ++ [0])). split.
  - by apply parsecmd_parses.
  - pose proof (tokens_in_order (length s) s ltac:(lia)) as Ho. pose proof (proj1 grammar_words _ c Hg) as Hin. intros w Hw.
    assert (forall w', w' ∈ cmd_words c -> (w.1 < w.2 /\ w.2 <= length s /\ ~ (w.1 <= w'.2 < w.2))%nat) as Ha.
    { intros w' Hw'. destruct (in_order_apart _ _ _ w w' Ho (Hin w Hw) (Hin w' Hw')) as (? & ? & ?). lia. }
    destruct (Ha w Hw) as (H1 & H2 & _). split; [|split; [done|]].
    + apply (nulterminate_lookup c (s ++ [0]) w.2). right. split; [by exists w|]. rewrite length_app. cbn. lia.
    + intros i Hi. destruct (nulterminate_lookup c (s ++ [0]) i) as (_ & K & _). rewrite K; [apply (lookup_app_l (A:=Z)); lia|].
      intros w' Hw' <-. by destruct (Ha w' Hw') as (_ & _ & ?).
Qed.
(** "a b>c|d;e&": two commands, the first a pipeline with a redirection. *)
Definition demo_line : text := [97; 32; 98; 62; 99; 124; 100; 59; 101; 38].
Lemma parsecmd_correct_witness : exists c buf, parsecmd demo_line [] = Ret (c, buf) [] /\ length (cmd_words c) = 5%nat.
Proof.
  destruct (parsecmd_correct demo_line (LIST (backs 0 (PIPE (wrap (EXEC ([(0, 1); (2, 3)]%nat)) [redir_of GT (4, 5)%nat]) (wrap (EXEC [(6, 7)%nat]) [])))
    (backs 1 (wrap (EXEC [(8, 9)%nat]) []))) []) as (buf & Hrun & _).
  - intros Hin. apply among_in in Hin. discriminate Hin.
  - change (tokens (length demo_line) demo_line) with
      (([TWord (0, 1)%nat; TWord (2, 3)%nat; TSym GT; TWord (4, 5)%nat] ++ TSym BAR :: [TWord (6, 7)%nat]) ++ [] ++ TSym SEMI :: ([TWord (8, 9)%nat] ++ [TSym AMP])).
    apply (gl_more _ _ 0).
    + apply gp_more; [|apply gp_last]; (apply ge_simple; [|unfold MAXARGS; cbn; lia]).
      * apply (ga_word [] []); [constructor|]. apply (ga_word [] []); [constructor|]. apply ga_none. apply gr_one; [by right; left|constructor].
      * apply (ga_word [] []); [constructor|]. apply ga_none. constructor.
    + apply (gl_last _ _ 1), gp_last, ge_simple; [|unfold MAXARGS; cbn; lia]. apply (ga_word [] []); [constructor|]. apply ga_none. constructor.
  - eexists _, buf. split; [exact Hrun|reflexivity].
Defined.
