(* ===== verification/ShRun.v ===== *)
(** * Running the commands of the shell (sh.c: runcmd)

    [runcmd] turns the tree of a command into processes and rearranges their file
    descriptors with [close], [dup], [open] and [pipe], which take the lowest free
    descriptor.  Its effect is a list of events: what each process executes with
    which descriptors, and where a shell waits.  The result is shown to be the
    wiring that the tree describes. *)

From S2P Require Import Prelude Sh.
From stdpp Require Import base gmap list strings.
From Stdlib Require Import ZArith Lia.
#[local] Open Scope Z_scope.

(** ** Descriptors *)

Definition FDS : nat := 16.
Inductive obj := Inherited (n : nat) | Console | Opened (w : word) (mode : Z) | PipeR (k : nat) | PipeW (k : nat).
Definition fdtable : Type := list (option obj).

Fixpoint lowest (t : fdtable) : option nat :=
  match t with [] => None | None :: _ => Some O | Some _ :: t => S <$> lowest t end.
Definition u_close (fd : nat) (t : fdtable) : fdtable := <[fd := None]> t.
(** A descriptor for an object, if there is one left. *)
Definition u_alloc (o : option obj) (t : fdtable) : option (nat * fdtable) := fd ← lowest t; Some (fd, <[fd := o]> t).
Definition u_dup (fd : nat) (t : fdtable) : fdtable :=
  match t !! fd with
  | Some (Some o) => match u_alloc (Some o) t with Some (_, t') => t' | None => t end
  | _ => t
  end.
Definition u_pipe (k : nat) (t : fdtable) : option (nat * nat * fdtable) :=
  '(p0, t) ← u_alloc (Some (PipeR k)) t;
  '(p1, t) ← u_alloc (Some (PipeW k)) t;
  Some (p0, p1, t).

Inductive event :=
  | Execs (argv : list word) (t : fdtable)
  | Waits (t : fdtable)
  | OpenFailed (w : word)
  | Panics (msg : string).

Section Run.
  (** Whether the call with this number succeeds: [fork], [pipe] and [open] are
      numbered in the order of the text. *)
  Variable ok : nat -> bool.

(** ** runcmd *)

Definition redirect (r : redirection) (t : fdtable) (n : nat) : option fdtable :=
  let t := u_close (Z.to_nat (r_fd r)) t in
  if ok n then snd <$> u_alloc (Some (Opened (r_file r) (r_mode r))) t else None.
(** What the children of a pipe do with its ends [p0] and [p1]. *)
Definition pipe_child (fd end_ p0 p1 : nat) (t : fdtable) : fdtable := u_close p1 (u_close p0 (u_dup end_ (u_close fd t))).

Fixpoint runcmd (c : cmd) (t : fdtable) (n : nat) : list event * nat :=
  match c with
  | EXEC argv => (match argv with [] => [] | _ => [Execs argv t] end, n)
  | REDIR c r =>
      match redirect r t n with
      | Some t => runcmd c t (S n)
      | None => ([OpenFailed (r_file r)], S n)
      end
  | LIST l r =>
      if ok n then
        let '(e1, n) := runcmd l t (S n) in
        let '(e2, n) := runcmd r t n in
        (e1 ++ Waits t :: e2, n)
      else ([Panics "fork"], S n)
  | PIPE l r =>
      match (if ok n then u_pipe n t else None) with
      | None => ([Panics "pipe"], S n)
      | Some (p0, p1, t) =>
          if ok (S n) then
            let '(e1, n) := runcmd l (pipe_child 1 p1 p0 p1 t) (S (S n)) in
            if ok n then
              let '(e2, n) := runcmd r (pipe_child 0 p0 p0 p1 t) (S n) in
              let t := u_close p1 (u_close p0 t) in
              (e1 ++ e2 ++ [Waits t; Waits t], n)
            else (e1 ++ [Panics "fork"], S n)
          else ([Panics "fork"], S (S n))
      end
  | BACK c => if ok n then runcmd c t (S n) else ([Panics "fork"], S n)
  end.

(** ** The wiring of a command *)

(** Three descriptors, and no others. *)
Definition std (i o e : obj) : fdtable := [Some i; Some o; Some e] ++ replicate 13 None.

(** Input and output of every command of the tree, with the standard error of the
    shell. *)
Fixpoint wiring (c : cmd) (i o e : obj) (n : nat) : list event * nat :=
  match c with
  | EXEC argv => (match argv with [] => [] | _ => [Execs argv (std i o e)] end, n)
  | REDIR c r =>
      let f := Opened (r_file r) (r_mode r) in
      if ok n then (if r_fd r =? 0 then wiring c f o e (S n) else wiring c i f e (S n)) else ([OpenFailed (r_file r)], S n)
  | LIST l r =>
      if ok n then
        let '(e1, n) := wiring l i o e (S n) in
        let '(e2, n) := wiring r i o e n in
        (e1 ++ Waits (std i o e) :: e2, n)
      else ([Panics "fork"], S n)
  | PIPE l r =>
      if negb (ok n) then ([Panics "pipe"], S n)
      else if ok (S n) then
        let '(e1, m) := wiring l i (PipeW n) e (S (S n)) in
        if ok m then
          let '(e2, m) := wiring r (PipeR n) o e (S m) in
          (e1 ++ e2 ++ [Waits (std i o e); Waits (std i o e)], m)
        else (e1 ++ [Panics "fork"], S m)
      else ([Panics "fork"], S (S n))
  | BACK c => if ok n then wiring c i o e (S n) else ([Panics "fork"], S n)
  end.

Fixpoint fds_ok (c : cmd) : Prop :=
  match c with
  | EXEC _ => True
  | REDIR c r => (r_fd r = 0 \/ r_fd r = 1) /\ fds_ok c
  | PIPE l r | LIST l r => fds_ok l /\ fds_ok r
  | BACK c => fds_ok c
  end.
Lemma runcmd_wiring c i o e n : fds_ok c -> runcmd c (std i o e) n = wiring c i o e n.
Proof.
  revert i o e n. induction c as [argv|c IH r|l IHl r IHr|l IHl r IHr|c IH]; intros i o e n; cbn [fds_ok runcmd wiring].
  - done.
  - intros [Hr Hc]. unfold redirect. destruct (ok n); [|done]. destruct Hr as [-> | ->].
    + change (snd <$> u_alloc (Some (Opened (r_file r) (r_mode r))) (u_close (Z.to_nat 0) (std i o e)))
        with (Some (std (Opened (r_file r) (r_mode r)) o e)). by apply IH.
    + change (snd <$> u_alloc (Some (Opened (r_file r) (r_mode r))) (u_close (Z.to_nat 1) (std i o e)))
        with (Some (std i (Opened (r_file r) (r_mode r)) e)). by apply IH.
  - intros [Hl Hr]. destruct (ok n); [|done].
    change (u_pipe n (std i o e)) with (Some (3%nat, 4%nat, [Some i; Some o; Some e; Some (PipeR n); Some (PipeW n)] ++ replicate 11 None)).
    cbv iota beta zeta. cbn [negb]. destruct (ok (S n)); [|done].
    change (pipe_child 1 4 3 4 _) with (std i (PipeW n) e). change (pipe_child 0 3 3 4 _) with (std (PipeR n) o e).
    change (u_close 4 (u_close 3 _)) with (std i o e). rewrite IHl by done. destruct (wiring l i (PipeW n) e (S (S n))) as [e1 m].
    destruct (ok m); [|done]. by rewrite IHr.
  - intros [Hl Hr]. destruct (ok n); [|done]. rewrite IHl by done. destruct (wiring l i o e (S n)) as [e1 m]. by rewrite IHr.
  - intros Hc. destruct (ok n); [|done]. by apply IH.
Qed.
End Run.

(** The parser makes only redirections of input and output. *)
Lemma wrap_fds c rs : fds_ok (wrap c rs) <-> fds_ok c /\ Forall (fun r => r_fd r = 0 \/ r_fd r = 1) rs.
Proof.
  revert c. induction rs as [|r rs IH]; intros c; [cbn; split; [done|by intros [? _]]|]. change (wrap c (r :: rs)) with (wrap (REDIR c r) rs).
  rewrite IH, Forall_cons. cbn. tauto.
Qed.
Lemma redirs_fds ts rs : gredirs ts rs -> Forall (fun r => r_fd r = 0 \/ r_fd r = 1) rs.
Proof.
  induction 1 as [|op w ts rs Hop Hg IH]; constructor; [|done]. unfold redir_of. destruct (op =? 60); [by left|by right].
Qed.
Lemma args_fds ts ws rs : gargs ts ws rs -> Forall (fun r => r_fd r = 0 \/ r_fd r = 1) rs.
Proof. induction 1; [by eapply redirs_fds|]. apply Forall_app. split; [by eapply redirs_fds|done]. Qed.
Lemma grammar_fds :
  (forall ts c, gline ts c -> fds_ok c) /\ (forall ts c, gpipe ts c -> fds_ok c) /\ (forall ts c, gexec ts c -> fds_ok c).
Proof.
  assert (forall k c, fds_ok (backs k c) <-> fds_ok c) as Hb by (intros k c; induction k; done).
  apply grammar_ind.
  - intros ts c k _ IH. by apply Hb.
  - intros ts c k ts' c' _ IH _ IH'. split; [by apply Hb|done].
  - done.
  - done.
  - intros ts ws rs Hg _. apply wrap_fds. split; [done|by eapply args_fds].
  - intros ts c ts' rs _ IH Hr. apply wrap_fds. split; [done|by eapply redirs_fds].
Qed.

(** for a line of the shell's grammar, every process it starts has exactly the
    three descriptors that the command's pipes and redirections give it, and a
    shell that waits has closed both ends of its pipes; whichever of [fork],
    [pipe] and [open] fail. *)
Theorem runcmd_wires ok s c t i o e n :
  0 ∉ s -> gline (tokens (length s) s) c ->
  exists buf, parsecmd s t = Ret (c, buf) [] /\ runcmd ok c (std i o e) n = wiring ok c i o e n.
Proof.
  intros H0 Hg. exists (nulterminate c (s ++ [0])). split; [by apply parsecmd_parses|]. apply runcmd_wiring, (proj1 grammar_fds _ _ Hg).
Qed.
(** "a>f|b": a process for each side of the pipe. *)
Definition pipe_line : text := [97; 62; 102; 124; 98].
Lemma runcmd_wires_witness : exists c buf, parsecmd pipe_line [] = Ret (c, buf) [] /\
  runcmd (fun _ => true) c (std (Inherited 0) (Inherited 1) (Inherited 2)) 0 =
  ([Execs [(0, 1)%nat] (std (Inherited 0) (Opened (2, 3)%nat 513) (Inherited 2));
    Execs [(4, 5)%nat] (std (PipeR 0) (Inherited 1) (Inherited 2));
    Waits (std (Inherited 0) (Inherited 1) (Inherited 2)); Waits (std (Inherited 0) (Inherited 1) (Inherited 2))], 4%nat).
Proof.
  destruct (runcmd_wires (fun _ => true) pipe_line (backs 0 (PIPE (wrap (EXEC [(0, 1)%nat]) [redir_of GT (2, 3)%nat]) (wrap (EXEC [(4, 5)%nat]) [])))
    [] (Inherited 0) (Inherited 1) (Inherited 2) 0) as (buf & Hp & Hr).
  - intros Hin. apply among_in in Hin. discriminate Hin.
  - change (tokens (length pipe_line) pipe_line) with (([TWord (0, 1)%nat; TSym GT; TWord (2, 3)%nat] ++ TSym BAR :: [TWord (4, 5)%nat]) ++ []).
    apply (gl_last _ _ 0), gp_more; [|apply gp_last]; (apply ge_simple; [|unfold MAXARGS; cbn; lia]).
    + apply (ga_word [] []); [constructor|]. apply ga_none. apply gr_one; [by right; left|constructor].
    + apply (ga_word [] []); [constructor|]. apply ga_none. constructor.
  - eexists _, buf. split; [exact Hp|]. rewrite Hr. reflexivity.
Defined.
