(* ===== verification/ShMain.v ===== *)
(** * The shell's main loop (sh.c: getcmd, main)

    The shell makes sure that it has three descriptors, and then reads lines and
    runs them, each in a child of its own but for [cd].  The children inherit the
    standard input and may read from it too.  For every input the shell ends; and a
    session of lines that the grammar accepts is run line by line, with the wiring
    that [ShRun] gives to each. *)

From S2P Require Import Prelude Ulib Sh ShRun.
From stdpp Require Import base gmap list strings.
From Stdlib Require Import ZArith Lia.
#[local] Open Scope Z_scope.

(** What happens at the prompt: a child runs a command, or finds that the line is
    none; [chdir] succeeds or not; [fork] fails, which ends the shell.
    [Stuck] would be a parser that does not end. *)
Inductive prompt :=
  | Child (es : list event)
  | BadLine (msg : string)
  | Chdir (dir : text) (ok : bool)
  | ForkFailed
  | Stuck.

(** ** The standard input

    It is shared with the processes that the shell starts: before the shell's
    read number [m] they take [taken m] bytes from it.  The state is the bytes
    that are left and the number of the shell's next read. *)
Definition tape : Type := (list Z * nat)%type.
Section Input.
  Variable taken : nat -> nat.
Definition read1 (s : tape) : option Z * tape :=
  match drop (taken s.2) s.1 with
  | [] => (None, ([], S s.2))
  | c :: inp => (Some c, (inp, S s.2))
  end.

(** All that the shell gets when it reads to the end of the input. *)
Fixpoint seen_from (fuel : nat) (s : tape) : text :=
  match fuel with
  | O => []
  | S fuel => match read1 s with (None, _) => [] | (Some c, s) => c :: seen_from fuel s end
  end.
Definition seen (s : tape) : text := seen_from (length s.1) s.

Lemma read1_shorter s c s' : read1 s = (Some c, s') -> (length s'.1 < length s.1)%nat.
Proof using.
  unfold read1. destruct (drop (taken s.2) s.1) as [|d inp] eqn:E; intros [= _ <-].
  apply (f_equal length) in E. rewrite length_drop in E. cbn in *. lia.
Qed.
Lemma seen_fuel f f' s : (length s.1 <= f)%nat -> (length s.1 <= f')%nat -> seen_from f s = seen_from f' s.
Proof using.
  revert f' s. induction f as [|f IH]; intros [|f'] s Hf Hf'; cbn [seen_from]; [done|..].
  - destruct (read1 s) as [[c|] s'] eqn:E; [apply read1_shorter in E; lia|done].
  - destruct (read1 s) as [[c|] s'] eqn:E; [apply read1_shorter in E; lia|done].
  - destruct (read1 s) as [[c|] s'] eqn:E; [|done]. apply read1_shorter in E. by rewrite (IH f') by lia.
Qed.
Lemma seen_eq s : seen s = match read1 s with (None, _) => [] | (Some c, s') => c :: seen s' end.
Proof using.
  unfold seen. rewrite (seen_fuel (length s.1) (S (length s.1)) s) by lia. cbn [seen_from]. destruct (read1 s) as [[c|] s'] eqn:E; [|done].
  apply read1_shorter in E. by rewrite (seen_fuel (length s.1) (length s'.1) s') by lia.
Qed.
Lemma seen_length s : (length (seen s) <= length s.1)%nat.
Proof using.
  unfold seen. generalize (length s.1) as f. intros f. revert s. induction f as [|f IH]; intros s; cbn; [lia|].
  destruct (read1 s) as [[c|] s']; cbn; [|lia]. specialize (IH s'). lia.
Qed.
Lemma seen_cons s c r : seen s = c :: r -> exists s', read1 s = (Some c, s') /\ seen s' = r.
Proof using. rewrite seen_eq. destruct (read1 s) as [[d|] s']; [|done]. intros [= -> <-]. by exists s'. Qed.
Lemma seen_nil s : seen s = [] -> exists s', read1 s = (None, s').
Proof using. rewrite seen_eq. destruct (read1 s) as [[d|] s']; [done|]. by exists s'. Qed.
End Input.

(** The string at the beginning of a buffer. *)
Fixpoint c_string (s : text) : text := match s with [] => [] | c :: s => if c =? 0 then [] else c :: c_string s end.

(** [getcmd]: no line at the end of the input. *)
Definition getcmd (taken : nat -> nat) (nbuf : Z) (s : tape) : option text * tape :=
  let '(buf, s) := Ulib.gets (read1 taken) nbuf s in
  match c_string buf with [] => (None, s) | line => (Some line, s) end.

(** A line that fits in the buffer and has no special bytes. *)
Definition plain (l : text) : Prop := (length l <= 98)%nat /\ 0 ∉ l /\ 10 ∉ l /\ 13 ∉ l.
Lemma gets_line taken k l r s : (length l < k)%nat -> 10 ∉ l -> 13 ∉ l -> seen taken s = l ++ 10 :: r ->
  exists s', gets_loop (read1 taken) k s = (l ++ [10], s') /\ seen taken s' = r.
Proof.
  revert l s. induction k as [|k IH]; intros l s Hk H10 H13 Hs; [lia|]. cbn [gets_loop]. destruct l as [|c l].
  - apply seen_cons in Hs as (s' & -> & Hs'). by exists s'.
  - apply seen_cons in Hs as (s1 & -> & Hs1). rewrite not_elem_of_cons in H10, H13. cbn in Hk.
    rewrite (proj2 (Z.eqb_neq c 10)), (proj2 (Z.eqb_neq c 13)) by naive_solver. cbn [orb].
    destruct (IH l s1) as (s' & -> & Hs'); [lia|naive_solver..|]. by exists s'.
Qed.
Lemma c_string_plain s : 0 ∉ s -> c_string s = s.
Proof.
  induction s as [|c s IH]; [done|]. rewrite not_elem_of_cons. intros [Hc Hs]. cbn. rewrite (proj2 (Z.eqb_neq c 0)) by done. by rewrite IH.
Qed.
Lemma getcmd_line taken l r s : plain l -> seen taken s = l ++ 10 :: r ->
  exists s', getcmd taken 100 s = (Some (l ++ [10]), s') /\ seen taken s' = r.
Proof.
  intros (Hlen & H0 & H10 & H13) Hs. unfold getcmd, Ulib.gets. change (Z.to_nat (100 - 1)) with 99%nat.
  destruct (gets_line taken 99 l r s) as (s' & -> & Hs'); [lia|done..|]. exists s'. split; [|done].
  rewrite c_string_plain by (rewrite elem_of_app, list_elem_of_singleton; naive_solver). by destruct l.
Qed.
Lemma getcmd_end taken s : seen taken s = [] -> exists s', getcmd taken 100 s = (None, s').
Proof.
  intros Hs. unfold getcmd, Ulib.gets. change (Z.to_nat (100 - 1)) with 99%nat. cbn [gets_loop].
  destruct (seen_nil taken s Hs) as [s' ->]. by exists s'.
Qed.

Section Main.
  (** Whether the call with this number succeeds, as in [ShRun]. *)
  Variable ok : nat -> bool.
  (** What the other processes read of the standard input. *)
  Variable taken : nat -> nat.

(** The loop that opens the console. *)
Fixpoint open_console (fuel : nat) (t : fdtable) (n : nat) : option (fdtable * nat) :=
  match fuel with
  | O => None
  | S fuel =>
      match (if ok n then u_alloc (Some Console) t else None) with
      | None => Some (t, S n)
      | Some (fd, t) => if (3 <=? fd)%nat then Some (u_close fd t, S n) else open_console fuel t (S n)
      end
  end.

Definition is_cd (line : text) : bool :=
  match line with a :: b :: c :: _ => (a =? 99) && (b =? 100) && (c =? 32) | _ => false end.
(** The child of a line. *)
Definition run_line (line : text) (t : fdtable) (n : nat) : prompt * nat :=
  match parsecmd line [] with
  | Ret (c, _) _ => let '(es, n) := runcmd ok c t n in (Child es, n)
  | Panic msg => (BadLine msg, n)
  | _ => (Stuck, n)
  end.
Fixpoint main_loop (fuel : nat) (inp : tape) (t : fdtable) (n : nat) : option (list prompt) :=
  match fuel with
  | O => None
  | S fuel =>
      match getcmd taken 100 inp with
      | (None, _) => Some []
      | (Some line, inp) =>
          if is_cd line then
            let line := take (length line - 1) line in
            cons (Chdir (c_string (drop 3 line)) (ok n)) <$> main_loop fuel inp t (S n)
          else if ok n then
            let '(p, n) := run_line line t (S n) in cons p <$> main_loop fuel inp t n
          else Some [ForkFailed]
      end
  end.
Definition main (t : fdtable) (inp : text) : option (list prompt) :=
  '(t, n) ← open_console (S FDS) t 0;
  main_loop (S (length inp)) (inp, 0%nat) t n.

(** ** It ends *)

Lemma gets_loop_shorter k s : let '(l, s') := gets_loop (read1 taken) k s in
  (length s'.1 <= length s.1)%nat /\ (l <> [] -> (length s'.1 < length s.1)%nat).
Proof using.
  revert s. induction k as [|k IH]; intros s; cbn [gets_loop]; [done|]. destruct (read1 taken s) as [[c|] s1] eqn:E.
  - apply read1_shorter in E. destruct ((c =? 10) || (c =? 13)); [split; [lia|done]|].
    specialize (IH s1). destruct (gets_loop (read1 taken) k s1) as [l s']. destruct IH. split; [lia|intros; lia].
  - unfold read1 in E. destruct (drop _ _); [|done]. injection E as <-. cbn. split; [lia|done].
Qed.
Lemma getcmd_shorter nbuf s line s' : getcmd taken nbuf s = (Some line, s') -> (length s'.1 < length s.1)%nat.
Proof using.
  unfold getcmd, Ulib.gets. pose proof (gets_loop_shorter (Z.to_nat (nbuf - 1)) s) as Hs. destruct (gets_loop _ _ s) as [l i].
  destruct l as [|c l]; cbn in *; [done|]. destruct (c =? 0); intros [= _ <-]. by apply Hs.
Qed.
Lemma run_line_ends line t n : (run_line line t n).1 <> Stuck.
Proof.
  unfold run_line. pose proof (parsecmd_terminates line []) as Ht. destruct (parsecmd line []) as [[c buf] s| | | |]; try done. by destruct (runcmd ok c t n).
Qed.
Lemma main_loop_ends fuel inp t n : (length inp.1 < fuel)%nat -> exists ps, main_loop fuel inp t n = Some ps /\ Stuck ∉ ps.
Proof.
  revert inp n. induction fuel as [|fuel IH]; intros inp n Hf; [lia|]. cbn [main_loop].
  destruct (getcmd taken 100 inp) as [[line|] inp'] eqn:E; [|exists []; by split; [|apply not_elem_of_nil]]. apply getcmd_shorter in E.
  assert (forall p m, p <> Stuck -> exists ps, cons p <$> main_loop fuel inp' t m = Some ps /\ Stuck ∉ ps) as Hc.
  { intros p m Hp. destruct (IH inp' m) as (ps & -> & Hs); [lia|]. exists (p :: ps). split; [done|]. apply not_elem_of_cons. by split. }
  destruct (is_cd line); [by apply Hc|]. destruct (ok n); [|exists [ForkFailed]; split; [done|]; set_solver].
  pose proof (run_line_ends line t (S n)) as Hr. destruct (run_line line t (S n)) as [p m]. by apply Hc.
Qed.
Lemma lowest_lt t fd : lowest t = Some fd -> t !! fd = Some None.
Proof using.
  revert fd. induction t as [|[o|] t IH]; intros fd; cbn; [done| |by intros [= <-]].
  destruct (lowest t) as [k|]; [|done]. intros [= <-]. cbn. by apply IH.
Qed.
(** Each console that is opened takes a descriptor that was free. *)
Definition nfree (t : list (option obj)) : nat := length (filter (fun o => o = None) t).
Lemma nfree_insert (t : list (option obj)) fd o : t !! fd = Some None -> (nfree (<[fd := Some o]> t) < nfree t)%nat.
Proof using.
  intros E. unfold nfree. rewrite <- (take_drop_middle t fd None E) at 2. rewrite insert_take_drop by (by eapply lookup_lt_Some).
  rewrite !filter_app, filter_cons_False, filter_cons_True, !length_app by done. cbn [length]. lia.
Qed.
Lemma open_console_ends fuel t n : (nfree t < fuel)%nat -> is_Some (open_console fuel t n).
Proof using.
  revert t n. induction fuel as [|fuel IH]; intros t n Hf; [lia|]. cbn [open_console]. destruct (ok n); [|done]. unfold u_alloc.
  destruct (lowest t) as [fd|] eqn:E; [|done]. cbn [mbind option_bind]. destruct (3 <=? fd)%nat; [done|]. apply IH.
  eapply Nat.lt_le_trans; [exact (nfree_insert t fd Console (lowest_lt _ _ E))|lia].
Qed.

(** ** A session *)

(** What a line, without its newline, asks for. *)
Inductive request := RunIt (c : cmd) | GoTo (dir : text).
Inductive asks : text -> request -> Prop :=
  | asks_run l c : is_cd (l ++ [10]) = false -> gline (tokens (length (l ++ [10])) (l ++ [10])) c -> asks l (RunIt c)
  | asks_cd dir : asks ([99; 100; 32] ++ dir) (GoTo dir).
Fixpoint session (rs : list request) (i o e : obj) (n : nat) : list prompt :=
  match rs with
  | [] => []
  | GoTo dir :: rs => Chdir dir (ok n) :: session rs i o e (S n)
  | RunIt c :: rs =>
      if ok n then let '(es, n) := wiring ok c i o e (S n) in Child es :: session rs i o e n else [ForkFailed]
  end.

Lemma session_runs ls rs i o e fuel inp n : Forall2 asks ls rs -> Forall plain ls -> (length ls < fuel)%nat ->
  seen taken inp = concat ((fun l => l ++ [10]) <$> ls) -> main_loop fuel inp (std i o e) n = Some (session rs i o e n).
Proof.
  intros Ha. revert fuel inp n. induction Ha as [|l r ls rs Hl _ IH]; intros [|fuel] inp n Hp Hf Hs; cbn [length] in Hf; try lia.
  { cbn [main_loop]. by destruct (getcmd_end taken inp Hs) as [s' ->]. }
  apply Forall_cons in Hp as [Hpl Hp]. cbn [fmap list_fmap concat main_loop] in *. rewrite <- app_assoc in Hs. cbn [app] in Hs.
  destruct (getcmd_line taken l _ inp Hpl Hs) as (inp' & -> & Hs').
  destruct Hl as [l c Hcd Hg|dir].
  - rewrite Hcd. cbn [session]. destruct (ok n); [|done]. unfold run_line.
    rewrite (parsecmd_parses _ c []); [|destruct Hpl as (_ & H0 & _); rewrite elem_of_app, list_elem_of_singleton; naive_solver|done].
    rewrite runcmd_wiring by apply (proj1 grammar_fds _ _ Hg). destruct (wiring ok c i o e (S n)) as [es m]. rewrite IH by (done || lia). done.
  - change (is_cd ((_ ++ dir) ++ [10])) with true. cbv iota. rewrite length_app. cbn [length]. rewrite Nat.add_sub, take_app_length.
    change (drop 3 ([99; 100; 32] ++ dir)) with dir. destruct Hpl as (_ & H0 & _). rewrite c_string_plain by set_solver.
    rewrite IH by (done || lia). done.
Qed.

(** The console takes the place of the descriptors that are missing. *)
Lemma console_opened a b c : (forall k, (k < 4)%nat -> ok k = true) ->
  exists n, open_console (S FDS) ([a; b; c] ++ replicate 13 None) 0 = Some (std (default Console a) (default Console b) (default Console c), n).
Proof.
  intros Hok. cbn [open_console FDS]. destruct a, b, c; cbn; rewrite ?Hok by lia; cbn; eexists; reflexivity.
Qed.

Lemma lines_length (ls : list text) : Nat.le (length ls) (length (concat ((fun l => l ++ [10]) <$> ls))).
Proof using. induction ls as [|l ls IH]; cbn; [lia|]. rewrite !length_app. cbn. lia. Qed.

(** C38: Whatever its input is, and whatever other processes take of it, the shell comes to the end of it: no line is left
    half read and no parser or loop runs on; and the descriptors it starts with do
    not matter. *)
Theorem shell_ends t inp : length t = FDS -> exists ps, main t inp = Some ps /\ Stuck ∉ ps.
Proof.
  intros Ht. unfold main. destruct (open_console_ends (S FDS) t 0) as [[t' n] ->].
  { unfold nfree. pose proof (length_filter (fun o : option obj => o = None) t). lia. }
  apply main_loop_ends. cbn. lia.
Qed.

(** C17: A shell that starts with any of its three descriptors missing, and that can
    open the console in their place, runs a session of lines, each a command of the
    grammar or [cd] and of at most 98 bytes, one after the other: each command in a
    child, with exactly the wiring that its pipes and redirections give it and the
    console in place of what was missing, [cd] in the shell itself; until the input
    ends or [fork] fails.  The lines are those that the shell itself gets to read:
    its children share the standard input and may read any part of it before the
    shell goes on. *)
Theorem shell_session a b c inp ls rs : (forall k, (k < 4)%nat -> ok k = true) -> Forall2 asks ls rs -> Forall plain ls ->
  seen taken (inp, 0%nat) = concat ((fun l => l ++ [10]) <$> ls) ->
  exists n, main ([a; b; c] ++ replicate 13 None) inp =
    Some (session rs (default Console a) (default Console b) (default Console c) n).
Proof.
  intros Hok Ha Hp Hs. destruct (console_opened a b c Hok) as [n Hc]. exists n. unfold main. rewrite Hc. cbn [mbind option_bind].
  apply (session_runs ls); [done|done| |done]. pose proof (seen_length taken (inp, 0%nat)) as Hl. rewrite Hs in Hl. cbn [fst] in Hl.
  pose proof (lines_length ls). lia.
Qed.
End Main.

(** No other process reads the standard input. *)
Definition alone : nat -> nat := fun _ => 0%nat.
Lemma seen_alone inp m : seen alone (inp, m) = inp.
Proof. revert m. induction inp as [|c inp IH]; intros m; rewrite seen_eq; unfold read1, alone; cbn [fst snd drop]; [done|]. f_equal. apply IH. Qed.

(** "cd foo" without a newline, at the end of the input, changes to "fo". *)
Example cd_chops_without_newline : main (fun _ => true) alone (std (Inherited 0) (Inherited 1) (Inherited 2)) [99; 100; 32; 102; 111; 111] = Some [Chdir [102; 111] true].
Proof. vm_compute. reflexivity. Qed.

Lemma shell_ends_witness : exists ps, main (fun _ => true) alone (std (Inherited 0) (Inherited 1) (Inherited 2)) [124; 10; 97] = Some ps /\ Stuck ∉ ps.
Proof. apply shell_ends. reflexivity. Defined.
(** "a>f|b", which reads the line "xyz" from the standard input before the shell's
    seventh read, then "cd x", in a shell without standard error. *)
Definition takes_line (m : nat) : nat := if decide (m = 6%nat) then 4 else 0.
Lemma shell_session_witness : exists n, main (fun _ => true) takes_line
  [Some (Inherited 0); Some (Inherited 1); None; None; None; None; None; None; None; None; None; None; None; None; None; None]
  [97; 62; 102; 124; 98; 10; 120; 121; 122; 10; 99; 100; 32; 120; 10] =
  Some [Child [Execs [(0, 1)%nat] (std (Inherited 0) (Opened (2, 3)%nat 513) Console); Execs [(4, 5)%nat] (std (PipeR (S n)) (Inherited 1) Console);
    Waits (std (Inherited 0) (Inherited 1) Console); Waits (std (Inherited 0) (Inherited 1) Console)]; Chdir [120] true].
Proof.
  destruct (shell_session (fun _ => true) takes_line (Some (Inherited 0)) (Some (Inherited 1)) None
    [97; 62; 102; 124; 98; 10; 120; 121; 122; 10; 99; 100; 32; 120; 10] [pipe_line; [99; 100; 32; 120]]
    [RunIt (backs 0 (PIPE (wrap (EXEC [(0, 1)%nat]) [redir_of GT (2, 3)%nat]) (wrap (EXEC [(4, 5)%nat]) []))); GoTo [120]]) as [n Hn].
  - done.
  - constructor; [|constructor; [apply asks_cd|constructor]]. apply asks_run; [reflexivity|].
    change (tokens (length (pipe_line ++ [10])) (pipe_line ++ [10])) with (([TWord (0, 1)%nat; TSym GT; TWord (2, 3)%nat] ++ TSym BAR :: [TWord (4, 5)%nat]) ++ []).
    apply (gl_last _ _ 0), gp_more; [|apply gp_last]; (apply ge_simple; [|unfold MAXARGS; cbn; lia]).
    + apply (ga_word [] []); [constructor|]. apply ga_none. apply gr_one; [by right; left|constructor].
    + apply (ga_word [] []); [constructor|]. apply ga_none. constructor.
  - repeat constructor; try (cbn; lia); intros Hin; apply among_in in Hin; discriminate Hin.
  - reflexivity.
  - exists n. exact Hn.
Defined.
