(* ===== verification/Console.v ===== *)
(** * The console

    console.c: the input buffer with its line editing, the screen, and formatted
    output.  The input buffer is shown to refine a queue of finished lines
    followed by the line being edited, for every order of keys and reads, with
    indices that wrap around. *)

From S2P Require Import Prelude Ulib.
From stdpp Require Import base gmap list strings.
From Stdlib Require Import ZArith Lia.
#[local] Open Scope Z_scope.

(** ** The input buffer *)

Definition INPUT_BUF : Z := 128.
Definition BACKSPACE : Z := 256.
Definition C (x : Z) : Z := x - 64.
Definition CTRL_P : Z := C 80.
Definition CTRL_U : Z := C 85.
Definition CTRL_H : Z := C 72.
Definition CTRL_D : Z := C 68.

(** The indices for reading, of the finished lines, and for editing. *)
Record input := mkInput { i_buf : list Z; i_r : Z; i_w : Z; i_e : Z }.
Definition at_ (s : input) (k : Z) : Z := nth (Z.to_nat (u32 k mod INPUT_BUF)) (i_buf s) 0.
Definition put_at (s : input) (k c : Z) : list Z := <[Z.to_nat (u32 k mod INPUT_BUF) := c mod 256]> (i_buf s).
Definition set_e (e : Z) (s : input) : input := mkInput (i_buf s) (i_r s) (i_w s) (u32 e).

(** What a key does besides: the characters echoed, a wakeup of readers, and a
    request for the process listing. *)
Record effect := mkEffect { f_echo : list Z; f_wake : bool; f_dump : bool }.

(** Control-U: the loop over the characters of the line. *)
Fixpoint kill_line (fuel : nat) (s : input) : option (input * list Z) :=
  match fuel with
  | O => None
  | S fuel =>
      if negb (i_e s =? i_w s) && negb (at_ s (i_e s - 1) =? 10) then
        '(s, echo) ← kill_line fuel (set_e (i_e s - 1) s);
        Some (s, BACKSPACE :: echo)
      else Some (s, [])
  end.
(** One character from [getc]. *)
Definition key (c : Z) (s : input) : option (input * effect) :=
  if c =? CTRL_P then Some (s, mkEffect [] false true)
  else if c =? CTRL_U then
    '(s, echo) ← kill_line (S (Z.to_nat INPUT_BUF)) s;
    Some (s, mkEffect echo false false)
  else if (c =? CTRL_H) || (c =? 127) then
    if i_e s =? i_w s then Some (s, mkEffect [] false false)
    else Some (set_e (i_e s - 1) s, mkEffect [BACKSPACE] false false)
  else if c_true c && (u32 (i_e s - i_r s) <? INPUT_BUF) then
    let c := if c =? 13 then 10 else c in
    let s := mkInput (put_at s (i_e s) c) (i_r s) (i_w s) (u32 (i_e s + 1)) in
    if (c =? 10) || (c =? CTRL_D) || (i_e s =? u32 (i_r s + INPUT_BUF)) then
      Some (mkInput (i_buf s) (i_r s) (i_e s) (i_e s), mkEffect [c] true false)
    else Some (s, mkEffect [c] false false)
  else Some (s, mkEffect [] false false).
(** [consoleintr] on the characters that [getc] has. *)
Fixpoint consoleintr (cs : list Z) (s : input) : option (input * list effect) :=
  match cs with
  | [] => Some (s, [])
  | c :: cs =>
      '(s, f) ← key c s;
      '(s, fs) ← consoleintr cs s;
      Some (s, f :: fs)
  end.

(** The loop of [consoleread] until it is done, or until there is nothing to read
    and it goes to sleep with [n] bytes left.  [fresh]: nothing copied yet. *)
Inductive read_end := Finished | Starved (n : nat) (fresh : bool).
Fixpoint consoleread (n : nat) (fresh : bool) (s : input) : list Z * read_end * input :=
  match n with
  | O => ([], Finished, s)
  | S m =>
      if i_r s =? i_w s then ([], Starved n fresh, s)
      else
        let c := at_ s (i_r s) in
        let s1 := mkInput (i_buf s) (u32 (i_r s + 1)) (i_w s) (i_e s) in
        if c =? CTRL_D then ([], Finished, if fresh then s1 else s)
        else if c =? 10 then ([c], Finished, s1)
        else let '(l, r, s) := consoleread m false s1 in (c :: l, r, s)
  end.

(** ** Lines *)

(** Finished lines and the line being edited. *)
Record lines := mkLines { l_done : list Z; l_edit : list Z }.
Definition edit_key (c : Z) (l : lines) : lines * effect :=
  if c =? CTRL_P then (l, mkEffect [] false true)
  else if c =? CTRL_U then (mkLines (l_done l) [], mkEffect (replicate (length (l_edit l)) BACKSPACE) false false)
  else if (c =? CTRL_H) || (c =? 127) then
    (mkLines (l_done l) (removelast (l_edit l)), mkEffect (if decide (l_edit l = []) then [] else [BACKSPACE]) false false)
  else if c_true c && (Z.of_nat (length (l_done l) + length (l_edit l)) <? 128) then
    let c := if c =? 13 then 10 else c in
    let line := l_edit l ++ [c mod 256] in
    if (c =? 10) || (c =? CTRL_D) || (Z.of_nat (length (l_done l) + length line) =? 128) then
      (mkLines (l_done l ++ line) [], mkEffect [c] true false)
    else (mkLines (l_done l) line, mkEffect [c] false false)
  else (l, mkEffect [] false false).
(** A read takes from the front, up to a newline or an end-of-file mark. *)
Fixpoint take_line (n : nat) (fresh : bool) (q : list Z) : list Z * read_end * list Z :=
  match n, q with
  | O, q => ([], Finished, q)
  | n, [] => ([], Starved n fresh, [])
  | S m, c :: q' =>
      if c =? CTRL_D then ([], Finished, if fresh then q' else q)
      else if c =? 10 then ([c], Finished, q')
      else let '(l, r, q) := take_line m false q' in (c :: l, r, q)
  end.

Inductive event := Key (c : Z) | Read (n : nat) (fresh : bool).
Definition seen : Type := effect + (list Z * read_end).
Fixpoint run (es : list event) (s : input) : option (list seen) :=
  match es with
  | [] => Some []
  | Key c :: es => '(s, f) ← key c s; cons (inl f) <$> run es s
  | Read n fresh :: es => let '(l, r, s) := consoleread n fresh s in cons (inr (l, r)) <$> run es s
  end.
Fixpoint run_lines (es : list event) (l : lines) : list seen :=
  match es with
  | [] => []
  | Key c :: es => let '(l, f) := edit_key c l in inl f :: run_lines es l
  | Read n fresh :: es => let '(o, r, q) := take_line n fresh (l_done l) in inr (o, r) :: run_lines es (mkLines q (l_edit l))
  end.

(** ** The buffer holds the lines *)

Record holds_lines (s : input) (l : lines) : Prop := {
  hl_buf : length (i_buf s) = 128%nat;
  hl_r : is_u32 (i_r s);
  hl_w : i_w s = u32 (i_r s + Z.of_nat (length (l_done l)));
  hl_e : i_e s = u32 (i_r s + Z.of_nat (length (l_done l) + length (l_edit l)));
  hl_size : (length (l_done l) + length (l_edit l) <= 128)%nat;
  hl_byte k : (k < length (l_done l) + length (l_edit l))%nat -> at_ s (i_r s + Z.of_nat k) = nth k (l_done l ++ l_edit l) 0;
  hl_edit : 10 ∉ l_edit l }.

Lemma at_cong s k k' : k mod 128 = k' mod 128 -> at_ s k = at_ s k'.
Proof. intros H. unfold at_, INPUT_BUF. do 2 f_equal. mlia. Qed.
Lemma at_put s k c r w e j : length (i_buf s) = 128%nat ->
  at_ (mkInput (put_at s k c) r w e) j = if decide (j mod 128 = k mod 128) then c mod 256 else at_ s j.
Proof.
  intros Hl. unfold at_, put_at, INPUT_BUF. cbn. assert (u32 j mod 128 = j mod 128) as -> by mlia. assert (u32 k mod 128 = k mod 128) as -> by mlia.
  rewrite !nth_lookup. case_decide as E.
  - rewrite E, list_lookup_insert_eq by (rewrite Hl; dlia). done.
  - rewrite list_lookup_insert_ne by dlia. done.
Qed.

(** The last character of the line goes. *)
Lemma holds_pop s d ed c :
  holds_lines s (mkLines d (ed ++ [c])) -> holds_lines (set_e (i_e s - 1) s) (mkLines d ed) /\ at_ s (i_e s - 1) = c.
Proof.
  intros [H1 H2 H3 H4 H5 H6 H7]. cbn in *. rewrite length_app in *. cbn in *. split.
  - split; cbn; try done; [rewrite H4; mlia|lia| |set_solver].
    intros k Hk. transitivity (at_ s (i_r s + Z.of_nat k)); [done|]. rewrite H6 by lia. rewrite app_assoc, app_nth1; [done|].
    rewrite length_app. lia.
  - rewrite H4. rewrite (at_cong s _ (i_r s + Z.of_nat (length d + length ed))) by mlia. rewrite H6 by lia.
    rewrite app_assoc, <-length_app. by rewrite nth_middle.
Qed.
Lemma edit_empty s l : holds_lines s l -> (i_e s =? i_w s) = bool_decide (l_edit l = []).
Proof.
  intros [H1 H2 H3 H4 H5 H6 H7]. case_bool_decide as E.
  - apply Z.eqb_eq. rewrite H4, H3, E. cbn. f_equal. lia.
  - apply Z.eqb_neq. rewrite H4, H3. destruct (l_edit l); [done|]. cbn in *. mlia.
Qed.

Lemma kill_line_ok fuel s d ed :
  holds_lines s (mkLines d ed) -> (length ed < fuel)%nat ->
  exists s', kill_line fuel s = Some (s', replicate (length ed) BACKSPACE) /\ holds_lines s' (mkLines d []).
Proof.
  revert s ed. induction fuel as [|fuel IH]; intros s ed Hh Hf; [lia|]. cbn [kill_line]. rewrite (edit_empty s _ Hh). cbn [l_edit].
  destruct ed as [|c ed' _] using rev_ind.
  - rewrite bool_decide_true by done. cbn. by exists s.
  - rewrite bool_decide_false by (by destruct ed'). destruct (holds_pop s d ed' c Hh) as [Hh' ->].
    rewrite (proj2 (Z.eqb_neq c 10)) by (pose proof (hl_edit _ _ Hh); cbn in *; set_solver). cbn [negb andb].
    rewrite length_app in *. cbn in Hf. destruct (IH _ ed' Hh') as (s' & -> & Hs'); [lia|]. cbn. exists s'.
    split; [|done]. do 2 f_equal. by rewrite Nat.add_comm.
Qed.

(** A character is added to the line. *)
Lemma holds_push s d ed c :
  holds_lines s (mkLines d ed) -> (length d + length ed < 128)%nat -> c mod 256 <> 10 ->
  holds_lines (mkInput (put_at s (i_e s) c) (i_r s) (i_w s) (u32 (i_e s + 1))) (mkLines d (ed ++ [c mod 256])).
Proof.
  intros [H1 H2 H3 H4 H5 H6 H7] Hlt Hc. cbn in *. split; cbn [l_done l_edit i_r i_w i_e i_buf length]; try done; rewrite ?length_app; cbn [length].
  - unfold put_at. by rewrite length_insert.
  - rewrite H4. mlia.
  - lia.
  - intros k Hk. rewrite at_put by done. rewrite app_assoc. destruct (decide (k = length d + length ed)%nat) as [->|Hne].
    + rewrite decide_True by (rewrite H4; mlia). rewrite <-length_app, nth_middle. done.
    + rewrite decide_False by (rewrite H4; mlia). rewrite H6 by lia. rewrite (app_nth1 (d ++ ed)); [done|]. rewrite length_app. lia.
  - set_solver.
Qed.
(** The line is finished. *)
Lemma holds_commit s d ed c :
  holds_lines s (mkLines d ed) -> (length d + length ed < 128)%nat ->
  holds_lines (mkInput (put_at s (i_e s) c) (i_r s) (u32 (i_e s + 1)) (u32 (i_e s + 1))) (mkLines (d ++ ed ++ [c mod 256]) []).
Proof.
  intros [H1 H2 H3 H4 H5 H6 H7] Hlt. cbn in *. split; cbn [l_done l_edit i_r i_w i_e i_buf length]; try done; rewrite ?length_app; cbn [length].
  - unfold put_at. by rewrite length_insert.
  - rewrite H4. mlia.
  - rewrite H4. mlia.
  - lia.
  - intros k Hk. rewrite at_put by done. rewrite app_nil_r, app_assoc. destruct (decide (k = length d + length ed)%nat) as [->|Hne].
    + rewrite decide_True by (rewrite H4; mlia). rewrite <-length_app, nth_middle. done.
    + rewrite decide_False by (rewrite H4; mlia). rewrite H6 by lia. rewrite (app_nth1 (d ++ ed)); [done|]. rewrite length_app. lia.
  - apply not_elem_of_nil.
Qed.

Lemma key_ok c s l :
  holds_lines s l -> 0 <= c < 256 ->
  exists s', key c s = Some (s', (edit_key c l).2) /\ holds_lines s' (edit_key c l).1.
Proof.
  intros Hh Hc. unfold key, edit_key. destruct l as [d ed]. cbn [l_done l_edit].
  destruct (Z.eqb_spec c CTRL_P) as [_|_]; [by exists s|]. destruct (Z.eqb_spec c CTRL_U) as [_|_].
  { destruct (kill_line_ok (S (Z.to_nat INPUT_BUF)) s d ed Hh) as (s' & -> & Hs'); [|by exists s'].
    pose proof (hl_size _ _ Hh). change (Z.to_nat INPUT_BUF) with 128%nat. cbn [l_done l_edit] in *. lia. }
  destruct ((c =? CTRL_H) || (c =? 127)).
  { rewrite (edit_empty s _ Hh). cbn [l_edit]. destruct ed as [|x ed _] using rev_ind; [by exists s|].
    rewrite bool_decide_false by (by destruct ed). rewrite decide_False by (by destruct ed). eexists. split; [done|].
    rewrite removelast_last. by apply (holds_pop s d ed x). }
  destruct (c_true c) eqn:Ez; [|by exists s]. cbn [andb].
  assert (u32 (i_e s - i_r s) = Z.of_nat (length d + length ed)) as ->.
  { rewrite (hl_e _ _ Hh). pose proof (hl_size _ _ Hh). pose proof (hl_r _ _ Hh). cbn in *. mlia. }
  unfold INPUT_BUF at 1. destruct (Z.ltb_spec (Z.of_nat (length d + length ed)) 128) as [Hlt|_]; [|by exists s].
  set (c' := if c =? 13 then 10 else c). cbn [i_e i_r i_w i_buf].
  assert ((u32 (i_e s + 1) =? u32 (i_r s + INPUT_BUF)) = (Z.of_nat (length d + length (ed ++ [c' mod 256])) =? 128)) as ->.
  { rewrite (hl_e _ _ Hh). pose proof (hl_r _ _ Hh). cbn [l_done l_edit] in *. rewrite length_app. cbn [length]. unfold INPUT_BUF.
    apply eq_bool_prop_intro. rewrite !Is_true_true, !Z.eqb_eq. mlia. }
  destruct ((c' =? 10) || (c' =? CTRL_D) || _) eqn:E.
  - eexists. split; [done|]. cbn [fst]. by apply holds_commit; [|lia].
  - eexists. split; [done|]. cbn [fst]. apply orb_false_iff in E as [[E1%Z.eqb_neq _]%orb_false_iff _].
    apply holds_push; [done|lia|]. assert (0 <= c' < 256) by (subst c'; destruct (c =? 13); lia). by rewrite Z.mod_small.
Qed.

Lemma consoleread_ok n fresh s q ed :
  holds_lines s (mkLines q ed) ->
  exists l r s' q', consoleread n fresh s = (l, r, s') /\ take_line n fresh q = (l, r, q') /\ holds_lines s' (mkLines q' ed).
Proof.
  revert fresh s q. induction n as [|n IH]; intros fresh s q Hh; [by exists [], Finished, s, q|]. cbn [consoleread take_line].
  destruct (Hh) as [H1 H2 H3 H4 H5 H6 H7]. cbn [l_done l_edit] in *. destruct q as [|c q].
  { rewrite (proj2 (Z.eqb_eq _ _)) by (rewrite H3; cbn [length]; mlia). by exists [], (Starved (S n) fresh), s, []. }
  rewrite (proj2 (Z.eqb_neq _ _)) by (rewrite H3; cbn [length] in *; mlia).
  assert (at_ s (i_r s) = c) as ->.
  { rewrite <-(Z.add_0_r (i_r s)). change 0 with (Z.of_nat 0). rewrite H6 by (cbn; lia). done. }
  assert (holds_lines (mkInput (i_buf s) (u32 (i_r s + 1)) (i_w s) (i_e s)) (mkLines q ed)) as Hs1.
  { split; cbn [l_done l_edit i_r i_w i_e i_buf]; cbn [length] in *; try done; [apply u32_range|rewrite H3; mlia|rewrite H4; mlia|lia|].
    intros k Hk. specialize (H6 (S k) ltac:(lia)). cbn [app nth] in H6. rewrite <-H6.
    transitivity (at_ s (u32 (i_r s + 1) + Z.of_nat k)); [done|]. apply at_cong. mlia. }
  destruct (c =? CTRL_D); [destruct fresh; by eexists _, _, _, _|]. destruct (c =? 10); [by eexists _, _, _, _|].
  destruct (IH false _ q Hs1) as (l & r & s' & q' & -> & -> & Hs'). by eexists _, _, _, _.
Qed.

Definition typed (e : event) : Prop := match e with Key c => 0 <= c < 256 | Read _ _ => True end.
Lemma run_ok es s l : holds_lines s l -> Forall typed es -> run es s = Some (run_lines es l).
Proof.
  intros Hh Hes. revert s l Hh. induction Hes as [|[c|n fresh] es He Hes IH]; intros s l Hh; cbn [run run_lines]; [done|..].
  - destruct (key_ok c s l Hh He) as (s' & -> & Hs'). destruct (edit_key c l) as [l' f]. cbn. by rewrite (IH s' l').
  - destruct l as [q ed]. destruct (consoleread_ok n fresh s q ed Hh) as (o & r & s' & q' & -> & Hq & Hs'). cbn [l_done l_edit]. rewrite Hq.
    by rewrite (IH s' (mkLines q' ed)).
Qed.
Definition empty_input : input := mkInput (replicate 128 0) 0 0 0.

(** C13: whatever is typed and read, in any order, the console behaves as a queue of
    finished lines with one line being edited, up to 128 characters together. *)
Theorem console_refines es : Forall typed es -> run es empty_input = Some (run_lines es (mkLines [] [])).
Proof.
  apply run_ok. split; cbn; try done; [lia|intros k Hk; lia|apply not_elem_of_nil].
Qed.
(** "ab", backspace, "c", return, and a read of ten bytes gives "ac\n". *)
Lemma console_refines_witness :
  run [Key 97; Key 98; Key 8; Key 99; Key 13; Read 10 true] empty_input =
  Some [inl (mkEffect [97] false false); inl (mkEffect [98] false false); inl (mkEffect [256] false false);
        inl (mkEffect [99] false false); inl (mkEffect [10] true false); inr ([97; 99; 10], Finished)].
Proof.
  rewrite (console_refines [Key 97; Key 98; Key 8; Key 99; Key 13; Read 10 true]); [reflexivity|].
  repeat constructor; lia.
Defined.

(** ** The screen

    The text memory of the display, a character cell per index, and the cursor
    register; what the serial port has been sent is kept as well. *)
Record screen := mkScreen { crt : Z -> Z; cursor : Z; uart_out : list Z }.
Definition set_cell (m : Z -> Z) (k v : Z) : Z -> Z := fun j => if decide (j = k) then v else m j.

(** The cells after a move up by one line, and cleared from [pos] on. *)
Definition scroll (m : Z -> Z) (pos : Z) : Z -> Z := fun k =>
  if decide (pos <= k < 24 * 80) then 0
  else if decide (0 <= k < 23 * 80) then m (k + 80) else m k.
Definition cgaputc (c : Z) (s : screen) : string + screen :=
  let pos := cursor s in
  let '(m, pos) :=
    if c =? 10 then (crt s, pos + (80 - pos mod 80))
    else if c =? BACKSPACE then (crt s, if pos >? 0 then pos - 1 else pos)
    else (set_cell (crt s) pos (Z.lor (Z.land c 255) 1792), pos + 1) in
  if (pos <? 0) || (pos >? 25 * 80) then inl "pos under/overflow"%string
  else
    let '(m, pos) := if pos / 80 >=? 24 then (scroll m (pos - 80), pos - 80) else (m, pos) in
    inr (mkScreen (set_cell m pos (Z.lor 32 1792)) (pos mod 65536) (uart_out s)).
Definition consputc (c : Z) (s : screen) : string + screen :=
  let out := if c =? BACKSPACE then [8; 32; 8] else [c mod 256] in
  cgaputc c (mkScreen (crt s) (cursor s) (uart_out s ++ out)).
Fixpoint put_chars (cs : list Z) (s : screen) : string + screen :=
  match cs with
  | [] => inr s
  | c :: cs => match consputc c s with inl msg => inl msg | inr s => put_chars cs s end
  end.
Definition consolewrite (buf : list Z) (s : screen) : string + screen := put_chars ((fun c => Z.land c 255) <$> buf) s.

(** ** Formatted output *)

Definition console_printint (xx base : Z) (sign : bool) : option (list Z) := print_number digits xx base sign.
Section Cprintf.
  (** The strings in memory, and the words above the format on the stack. *)
  Context (str : Z -> list Z) (argp : nat -> Z).

Definition cconversion (c : Z) (k : nat) : option (list Z * nat) :=
  if c =? 100 then out ← console_printint (i32 (argp k)) 10 true; Some (out, S k)
  else if (c =? 120) || (c =? 112) then out ← console_printint (i32 (argp k)) 16 false; Some (out, S k)
  else if c =? 115 then Some (if argp k =? 0 then null_string else str (argp k), S k)
  else if c =? 37 then Some ([37], k)
  else Some ([37; c], k).
Fixpoint cprintf_chars (fmt : list Z) (percent : bool) (k : nat) : option (list Z) :=
  match fmt with
  | [] => Some []
  | x :: fmt =>
      let c := Z.land x 255 in
      if percent then
        '(out, k) ← cconversion c k;
        rest ← cprintf_chars fmt false k;
        Some (out ++ rest)
      else if c =? 37 then cprintf_chars fmt true k
      else cons c <$> cprintf_chars fmt false k
  end.
Definition cprintf (fmt : list Z) (s : screen) : option (string + screen) :=
  cs ← cprintf_chars fmt false 0; Some (put_chars cs s).
End Cprintf.

(** The cursor is in the first 24 lines, and what is not in them is not touched. *)
Record on_screen (s0 s : screen) : Prop := {
  os_cursor : 0 <= cursor s < 24 * 80;
  os_cells k : ~ (0 <= k < 24 * 80) -> crt s k = crt s0 k }.
Lemma cgaputc_ok s0 c s : on_screen s0 s -> exists s', cgaputc c s = inr s' /\ on_screen s0 s'.
Proof.
  intros [H1 H2]. unfold cgaputc.
  assert (exists m pos, (if c =? 10 then (crt s, cursor s + (80 - cursor s mod 80))
    else if c =? BACKSPACE then (crt s, if cursor s >? 0 then cursor s - 1 else cursor s)
    else (set_cell (crt s) (cursor s) (Z.lor (Z.land c 255) 1792), cursor s + 1)) = (m, pos) /\
    0 <= pos <= 24 * 80 /\ forall k, ~ (0 <= k < 24 * 80) -> m k = crt s0 k) as (m & pos & -> & Hpos & Hm).
  { destruct (c =? 10); [eexists _, _; split; [done|]; split; [dlia|done]|].
    destruct (c =? BACKSPACE).
    - eexists _, _; split; [done|]. split; [|done]. rewrite Z.gtb_ltb. destruct (Z.ltb_spec 0 (cursor s)); lia.
    - eexists _, _; split; [done|]. split; [lia|]. intros k Hk. unfold set_cell. rewrite decide_False by lia. by apply H2. }
  rewrite (proj2 (Z.ltb_ge pos 0)), Z.gtb_ltb, (proj2 (Z.ltb_ge (25 * 80) pos)) by lia. cbn [orb].
  rewrite Z.geb_leb. destruct (Z.leb_spec 24 (pos / 80)) as [Hs|Hs]; (eexists; split; [done|]); split; cbn.
  - assert (pos = 1920) as -> by dlia. done.
  - intros k Hk. unfold set_cell, scroll. rewrite !decide_False by dlia. by apply Hm.
  - rewrite Z.mod_small by lia. dlia.
  - intros k Hk. unfold set_cell. rewrite decide_False by dlia. by apply Hm.
Qed.

Lemma put_chars_ok s0 cs s : on_screen s0 s -> exists s', put_chars cs s = inr s' /\ on_screen s0 s'.
Proof.
  revert s. induction cs as [|c cs IH]; intros s Hs; cbn; [by exists s|]. unfold consputc.
  destruct (cgaputc_ok s0 c (mkScreen (crt s) (cursor s) (uart_out s ++ if c =? BACKSPACE then [8; 32; 8] else [c mod 256])))
    as (s' & -> & Hs'); [by destruct Hs|]. by apply IH.
Qed.

(** writing to the console never runs off the screen: it returns, the cursor
    stays in the first 24 lines and no cell outside of them changes. *)
Theorem consolewrite_on_screen buf s :
  0 <= cursor s < 24 * 80 -> exists s', consolewrite buf s = inr s' /\ on_screen s s'.
Proof. intros Hs. by apply put_chars_ok. Qed.
Lemma consolewrite_on_screen_witness : exists s',
  consolewrite [104; 105; 10] (mkScreen (fun _ => 0) 1919 []) = inr s' /\ on_screen (mkScreen (fun _ => 0) 1919 []) s'.
Proof. apply (consolewrite_on_screen [104; 105; 10] (mkScreen (fun _ => 0) 1919 [])). cbn. lia. Defined.
