(* ===== verification/Kbd.v ===== *)
(** * The keyboard

    kbd.c and the tables of kbd.h: scan codes become characters, which go to the
    console's line editing. *)

From S2P Require Import Prelude Console.
From stdpp Require Import base gmap list strings.
From Stdlib Require Import ZArith Lia.
#[local] Open Scope Z_scope.

Definition SHIFT : Z := 1.
Definition CTL : Z := 2.
Definition CAPSLOCK : Z := 8.
Definition E0ESC : Z := 64.

(** A table of 256 entries: the first ones in order, then some by their index. *)
Definition table (l : list Z) (more : list (Z * Z)) : list Z :=
  foldl (fun t '(k, v) => <[Z.to_nat k := v]> t) (l ++ replicate (256 - length l) 0) more.
Definition shiftcode : list Z := table
  []
  [(29, 2); (42, 1); (54, 1); (56, 4); (157, 2); (184, 4)].
Definition togglecode : list Z := table
  []
  [(58, 8); (69, 16); (70, 32)].
Definition normalmap : list Z := table
  [0; 27; 49; 50; 51; 52; 53; 54; 55; 56; 57; 48; 45; 61; 8; 9;
   113; 119; 101; 114; 116; 121; 117; 105; 111; 112; 91; 93; 10; 0; 97; 115;
   100; 102; 103; 104; 106; 107; 108; 59; 39; 96; 0; 92; 122; 120; 99; 118;
   98; 110; 109; 44; 46; 47; 0; 42; 0; 32; 0; 0; 0; 0; 0; 0;
   0; 0; 0; 0; 0; 0; 0; 55; 56; 57; 45; 52; 53; 54; 43; 49;
   50; 51; 48; 46; 0; 0; 0; 0]
  [(156, 10); (181, 47); (200, 226); (208, 227); (201, 230); (209, 231); (203, 228); (205, 229); (151, 224); (207, 225); (210, 232); (211, 233)].
Definition shiftmap : list Z := table
  [0; 27; 33; 64; 35; 36; 37; 94; 38; 42; 40; 41; 95; 43; 8; 9;
   81; 87; 69; 82; 84; 89; 85; 73; 79; 80; 123; 125; 10; 0; 65; 83;
   68; 70; 71; 72; 74; 75; 76; 58; 34; 126; 0; 124; 90; 88; 67; 86;
   66; 78; 77; 60; 62; 63; 0; 42; 0; 32; 0; 0; 0; 0; 0; 0;
   0; 0; 0; 0; 0; 0; 0; 55; 56; 57; 45; 52; 53; 54; 43; 49;
   50; 51; 48; 46; 0; 0; 0; 0]
  [(156, 10); (181, 47); (200, 226); (208, 227); (201, 230); (209, 231); (203, 228); (205, 229); (151, 224); (207, 225); (210, 232); (211, 233)].
Definition ctlmap : list Z := table
  [0; 0; 0; 0; 0; 0; 0; 0; 0; 0; 0; 0; 0; 0; 0; 0;
   17; 23; 5; 18; 20; 25; 21; 9; 15; 16; 0; 0; 13; 0; 1; 19;
   4; 6; 7; 8; 10; 11; 12; 0; 0; 0; 0; 28; 26; 24; 3; 22;
   2; 14; 13; 0; 0; 239; 0; 0]
  [(156, 13); (181, 239); (200, 226); (208, 227); (201, 230); (209, 231); (203, 228); (205, 229); (151, 224); (207, 225); (210, 232); (211, 233)].
Definition charcode : list (list Z) := [normalmap; shiftmap; ctlmap; ctlmap].
Definition entry (t : list Z) (k : Z) : Z := nth (Z.to_nat k) t 0.

(** ** kbdgetc

    The data port has a byte or not; [shift] is the static variable. *)
Definition fold_case (shift c : Z) : Z :=
  if c_true (Z.land shift CAPSLOCK) then
    if (97 <=? c) && (c <=? 122) then u32 (c + (65 - 97))
    else if (65 <=? c) && (c <=? 90) then u32 (c + (97 - 65))
    else c
  else c.
Definition kbdgetc (port : option Z) (shift : Z) : Z * Z :=
  match port with
  | None => (-1, shift)
  | Some data =>
      if data =? 224 then (0, Z.lor shift E0ESC)
      else if c_true (Z.land data 128) then
        let data := if c_true (Z.land shift E0ESC) then data else Z.land data 127 in
        (0, Z.ldiff shift (Z.lor (entry shiftcode data) E0ESC))
      else
        let '(data, shift) :=
          if c_true (Z.land shift E0ESC) then (Z.lor data 128, Z.ldiff shift E0ESC) else (data, shift) in
        let shift := Z.lor shift (entry shiftcode data) in
        let shift := Z.lxor shift (entry togglecode data) in
        let c := entry (nth (Z.to_nat (Z.land shift (Z.lor CTL SHIFT))) charcode []) data in
        (fold_case shift c, shift)
  end.

(** [kbdintr]: the bytes waiting at the port become the characters that
    [consoleintr] gets. *)
Fixpoint kbd_chars (scans : list Z) (shift : Z) : list Z * Z :=
  match scans with
  | [] => ([], shift)
  | d :: scans =>
      let '(c, shift) := kbdgetc (Some d) shift in
      let '(cs, shift) := kbd_chars scans shift in (c :: cs, shift)
  end.
Definition kbdintr (scans : list Z) (shift : Z) (s : input) : option (input * list effect * Z) :=
  let '(cs, shift) := kbd_chars scans shift in
  '(s, fs) ← consoleintr cs s;
  Some (s, fs, shift).

(** ** What the keys mean

    An American keyboard, described by what is printed on its keys.  A key has a
    number, 128 more for a key whose scan codes have the prefix [0xE0]; a character
    alone and one with shift; or it is a modifier or a lock. *)
Inductive modifier := Shift | Ctl | Alt.
Inductive lock := Caps | Num | Scroll.
Inductive kbkey := CharKey (n c d : Z) | ModKey (n : Z) (x : modifier) | LockKey (n : Z) (x : lock).
Definition number (k : kbkey) : Z := match k with CharKey n _ _ | ModKey n _ | LockKey n _ => n end.
Definition same (nc : Z * Z) : kbkey := CharKey nc.1 nc.2 nc.2.
(** Neighbouring keys, the first of which has number [n]. *)
Fixpoint row (n : Z) (l : list (Z * Z)) : list kbkey :=
  match l with [] => [] | (c, d) :: l => CharKey n c d :: row (n + 1) l end.
Definition codes (s : string) : list Z := (fun c => Z.of_N (Ascii.N_of_ascii c)) <$> String.list_ascii_of_string s.
Definition letters (n : Z) (s : string) : list kbkey := row n ((fun c => (c, c - 32)) <$> codes s).
Definition keys : list kbkey :=
  row 2 (zip (codes "1234567890-=") (codes "!@#$%^&*()_+")) ++
  letters 16 "qwertyuiop" ++ row 26 (zip (codes "[]") (codes "{}")) ++
  letters 30 "asdfghjkl" ++ row 39 (zip (codes ";'`") [58; 34; 126]) ++
  row 43 (zip (codes "\") (codes "|")) ++ letters 44 "zxcvbnm" ++ row 51 (zip (codes ",./") (codes "<>?")) ++
  row 71 ((fun c => (c, c)) <$> codes "789-456+1230.") ++
  (* escape, backspace, tab, enter, space, and on the pad star, enter and slash *)
  (same <$> [(1, 27); (14, 8); (15, 9); (28, 10); (57, 32); (55, 42); (156, 10); (181, 47)]) ++
  (* up, down, left, right, page up, page down, end, insert, delete *)
  (same <$> [(200, 226); (208, 227); (203, 228); (205, 229); (201, 230); (209, 231); (207, 225); (210, 232); (211, 233)]) ++
  [ModKey 42 Shift; ModKey 54 Shift; ModKey 29 Ctl; ModKey 157 Ctl; ModKey 56 Alt; ModKey 184 Alt] ++
  [LockKey 58 Caps; LockKey 69 Num; LockKey 70 Scroll].

(** The scan codes of a key that is pressed and released. *)
Inductive kevent := Press (k : kbkey) | Release (k : kbkey).
Definition event_key (e : kevent) : kbkey := match e with Press k | Release k => k end.
Definition scan_codes (e : kevent) : list Z :=
  let n := number (event_key e) in
  let code := match e with Press _ => n mod 128 | Release _ => n mod 128 + 128 end in
  if n <? 128 then [code] else [224; code].

(** Which modifiers are down and which locks are on. *)
Record mods := mkMods { m_shift : bool; m_ctl : bool; m_alt : bool; m_caps : bool; m_num : bool; m_scroll : bool }.
Definition hold (x : modifier) (b : bool) (m : mods) : mods :=
  match x with
  | Shift => mkMods b (m_ctl m) (m_alt m) (m_caps m) (m_num m) (m_scroll m)
  | Ctl => mkMods (m_shift m) b (m_alt m) (m_caps m) (m_num m) (m_scroll m)
  | Alt => mkMods (m_shift m) (m_ctl m) b (m_caps m) (m_num m) (m_scroll m)
  end.
Definition toggle (x : lock) (m : mods) : mods :=
  match x with
  | Caps => mkMods (m_shift m) (m_ctl m) (m_alt m) (negb (m_caps m)) (m_num m) (m_scroll m)
  | Num => mkMods (m_shift m) (m_ctl m) (m_alt m) (m_caps m) (negb (m_num m)) (m_scroll m)
  | Scroll => mkMods (m_shift m) (m_ctl m) (m_alt m) (m_caps m) (m_num m) (negb (m_scroll m))
  end.
Definition is_letter (c : Z) : bool := (97 <=? c) && (c <=? 122).
(** The character of a key: a letter is large with either shift or the lock, and
    becomes a control character with ctl; of the other keys only enter, slash,
    backslash and the ones without a printable character have one with ctl. *)
Definition meaning (m : mods) (c d : Z) : Z :=
  if is_letter c then if m_ctl m then c - 96 else if xorb (m_shift m) (m_caps m) then c - 32 else c
  else if m_ctl m then
    if c =? 10 then 13 else if c =? 47 then 239 else if c =? 92 then 28 else if 224 <=? c then c else 0
  else if m_shift m then d else c.
Definition types1 (e : kevent) (m : mods) : list Z * mods :=
  match e with
  | Press (CharKey _ c d) => ((if meaning m c d =? 0 then [] else [meaning m c d]), m)
  | Press (ModKey _ x) => ([], hold x true m)
  | Press (LockKey _ x) => ([], toggle x m)
  | Release (ModKey _ x) => ([], hold x false m)
  | Release _ => ([], m)
  end.
Fixpoint types (es : list kevent) (m : mods) : list Z * mods :=
  match es with
  | [] => ([], m)
  | e :: es => let '(cs, m) := types1 e m in let '(ds, m) := types es m in (cs ++ ds, m)
  end.

(** ** The tables have the keys *)

Definition mod_flag (x : modifier) : Z := match x with Shift => 1 | Ctl => 2 | Alt => 4 end.
Definition lock_flag (x : lock) : Z := match x with Caps => 8 | Num => 16 | Scroll => 32 end.
Definition flags (m : mods) : Z :=
  Z.b2z (m_shift m) + 2 * Z.b2z (m_ctl m) + 4 * Z.b2z (m_alt m) + 8 * Z.b2z (m_caps m) + 16 * Z.b2z (m_num m) + 32 * Z.b2z (m_scroll m).
(** The entries of a key: flags to set, flags to toggle, characters. *)
Definition entries (n : Z) : Z * Z * (Z * Z * Z) :=
  (entry shiftcode n, entry togglecode n, (entry normalmap n, entry shiftmap n, entry ctlmap n)).
Definition ctl_meaning (c : Z) : Z := meaning (mkMods false true false false false false) c c.
Definition key_entries (k : kbkey) : Z * Z * (Z * Z * Z) :=
  match k with
  | CharKey _ c d => (0, 0, (c, d, ctl_meaning c))
  | ModKey _ x => (mod_flag x, 0, (0, 0, 0))
  | LockKey _ x => (0, lock_flag x, (0, 0, 0))
  end.
(** Characters are small, and only a letter has a letter with shift. *)
Definition key_chars (k : kbkey) : bool :=
  match k with
  | CharKey _ c d => if is_letter c then d =? c - 32 else (fold_case CAPSLOCK c =? c) && (fold_case CAPSLOCK d =? d)
  | _ => true
  end.
Definition key_ok (k : kbkey) : bool :=
  bool_decide (entries (number k) = key_entries k) && key_chars k &&
  ((0 <=? number k) && (number k <? 256) && negb (number k mod 128 =? 96)).
Lemma keys_ok : forallb key_ok keys = true.
Proof. vm_compute. reflexivity. Qed.
Lemma key_facts k : k ∈ keys ->
  entries (number k) = key_entries k /\ key_chars k = true /\ 0 <= number k < 256 /\ number k mod 128 <> 96.
Proof.
  intros Hk. pose proof keys_ok as Hok. rewrite List.forallb_forall in Hok. specialize (Hok k ltac:(by apply list_elem_of_In)).
  unfold key_ok in Hok. rewrite !andb_true_iff, bool_decide_eq_true, negb_true_iff, Z.leb_le, Z.ltb_lt, Z.eqb_neq in Hok. naive_solver.
Qed.

(** ** Flags and scan codes *)

Lemma low_code n : 0 <= n < 128 ->
  Z.land n 128 = 0 /\ Z.lor n 128 = n + 128 /\ Z.land (n + 128) 128 = 128 /\ Z.land (n + 128) 127 = n.
Proof.
  intros Hn. assert (forallb (fun n => (Z.land n 128 =? 0) && (Z.lor n 128 =? n + 128) && (Z.land (n + 128) 128 =? 128) &&
    (Z.land (n + 128) 127 =? n)) (Z.of_nat <$> seq 0 128) = true) as Hall by reflexivity.
  rewrite List.forallb_forall in Hall. specialize (Hall n). rewrite !andb_true_iff, !Z.eqb_eq in Hall.
  destruct Hall as [[[? ?] ?] ?]; [|done]. apply list_elem_of_In, list_elem_of_fmap. exists (Z.to_nat n).
  split; [lia|]. apply elem_of_seq. lia.
Qed.
Lemma flags_escape m :
  c_true (Z.land (flags m) E0ESC) = false /\ c_true (Z.land (Z.lor (flags m) E0ESC) E0ESC) = true /\
  Z.ldiff (Z.lor (flags m) E0ESC) E0ESC = flags m /\ Z.ldiff (flags m) E0ESC = flags m.
Proof. by destruct m as [[] [] [] [] [] []]. Qed.
Lemma flags_map m : nth (Z.to_nat (Z.land (flags m) (Z.lor CTL SHIFT))) charcode [] =
  if m_ctl m then ctlmap else if m_shift m then shiftmap else normalmap.
Proof. by destruct m as [[] [] [] [] [] []]. Qed.
Lemma flags_fold m c : fold_case (flags m) c = if m_caps m then fold_case CAPSLOCK c else c.
Proof. by destruct m as [[] [] [] [] [] []]. Qed.
Lemma flags_hold m x : Z.lor (flags m) (mod_flag x) = flags (hold x true m) /\
  Z.ldiff (flags m) (Z.lor (mod_flag x) E0ESC) = flags (hold x false m) /\
  Z.ldiff (Z.lor (flags m) E0ESC) (Z.lor (mod_flag x) E0ESC) = flags (hold x false m).
Proof. by destruct m as [[] [] [] [] [] []], x. Qed.
Lemma flags_toggle m x : Z.lxor (flags m) (lock_flag x) = flags (toggle x m).
Proof. by destruct m as [[] [] [] [] [] []], x. Qed.
Lemma fold_case_zero f : fold_case f 0 = 0.
Proof. unfold fold_case. by destruct (c_true _). Qed.

(** What [kbdgetc] does once it has the number of the key that was pressed. *)
Definition pressed (n shift : Z) : Z * Z :=
  let shift := Z.lxor (Z.lor shift (entry shiftcode n)) (entry togglecode n) in
  (fold_case shift (entry (nth (Z.to_nat (Z.land shift (Z.lor CTL SHIFT))) charcode []) n), shift).
Lemma press_scan k m : k ∈ keys -> exists zs, zs ⊆ [0] /\
  kbd_chars (scan_codes (Press k)) (flags m) = (zs ++ [(pressed (number k) (flags m)).1], (pressed (number k) (flags m)).2).
Proof.
  intros (_ & _ & Hr & _)%key_facts. destruct (flags_escape m) as (E1 & E2 & E3 & _). unfold scan_codes, event_key.
  set (n := number k) in *. destruct (Z.ltb_spec n 128) as [Hn|Hn]; cbn [kbd_chars kbdgetc].
  - destruct (low_code n) as (L1 & _); [lia|]. rewrite Z.mod_small, (proj2 (Z.eqb_neq n 224)), L1, E1 by lia. exists []. split; [set_solver|done].
  - assert (n mod 128 = n - 128) as -> by (symmetry; apply (Z.mod_unique _ _ 1); lia).
    destruct (low_code (n - 128)) as (L1 & L2 & _); [lia|]. change (224 =? 224) with true. cbv iota beta zeta.
    rewrite (proj2 (Z.eqb_neq (n - 128) 224)), L1, E2, L2, E3 by lia. change (c_true 0) with false. cbv iota.
    replace (n - 128 + 128) with n by lia. exists [0]. split; [done|done].
Qed.
Lemma release_scan k m : k ∈ keys -> exists zs, zs ⊆ [0] /\
  kbd_chars (scan_codes (Release k)) (flags m) = (zs, Z.ldiff (if number k <? 128 then flags m else Z.lor (flags m) E0ESC)
    (Z.lor (entry shiftcode (number k)) E0ESC)).
Proof.
  intros (_ & _ & Hr & H96)%key_facts. destruct (flags_escape m) as (E1 & E2 & _). unfold scan_codes, event_key.
  set (n := number k) in *. destruct (Z.ltb_spec n 128) as [Hn|Hn]; cbn [kbd_chars kbdgetc].
  - rewrite Z.mod_small in * by lia. destruct (low_code n) as (_ & _ & L3 & L4); [lia|].
    rewrite (proj2 (Z.eqb_neq (n + 128) 224)), L3, E1, L4 by lia. exists [0]. split; [done|done].
  - assert (n mod 128 = n - 128) as Hm by (symmetry; apply (Z.mod_unique _ _ 1); lia). rewrite Hm in *.
    destruct (low_code (n - 128)) as (_ & _ & L3 & _); [lia|]. change (224 =? 224) with true. cbv iota beta zeta.
    rewrite (proj2 (Z.eqb_neq (n - 128 + 128) 224)), L3, E2 by lia. change (c_true 128) with true. cbv iota.
    replace (n - 128 + 128) with n by lia. exists [0; 0]. split; [set_solver|done].
Qed.

(** The character that the tables and the lock give is the one that is meant. *)
Lemma fold_caps c : fold_case CAPSLOCK c = if is_letter c then u32 (c - 32) else if (65 <=? c) && (c <=? 90) then u32 (c + 32) else c.
Proof. unfold fold_case. change (c_true (Z.land CAPSLOCK CAPSLOCK)) with true. cbv iota. by replace (c + (65 - 97)) with (c - 32) by lia. Qed.
Lemma fold_small c : 97 <= c <= 122 -> fold_case CAPSLOCK c = c - 32.
Proof.
  intros Hc. rewrite fold_caps. unfold is_letter. rewrite (proj2 (Z.leb_le 97 c)), (proj2 (Z.leb_le c 122)) by lia.
  apply u32_small. unfold is_u32. lia.
Qed.
Lemma fold_large c : 65 <= c <= 90 -> fold_case CAPSLOCK c = c + 32.
Proof.
  intros Hc. rewrite fold_caps. unfold is_letter.
  rewrite (proj2 (Z.leb_gt 97 c)), (proj2 (Z.leb_le 65 c)), (proj2 (Z.leb_le c 90)) by lia. apply u32_small. unfold is_u32. lia.
Qed.
Lemma fold_other c : c < 65 \/ 122 < c -> fold_case CAPSLOCK c = c.
Proof.
  intros Hc. rewrite fold_caps. unfold is_letter.
  destruct (Z.leb_spec 97 c), (Z.leb_spec c 122), (Z.leb_spec 65 c), (Z.leb_spec c 90); cbn [andb]; done || lia.
Qed.
Lemma char_meant m n c d : key_chars (CharKey n c d) = true ->
  fold_case (flags m) (if m_ctl m then ctl_meaning c else if m_shift m then d else c) = meaning m c d.
Proof.
  unfold key_chars, ctl_meaning, meaning. cbn [m_ctl]. rewrite flags_fold. destruct (is_letter c) eqn:El.
  - unfold is_letter in El. apply andb_prop in El as [H1%Z.leb_le H2%Z.leb_le]. intros ->%Z.eqb_eq.
    destruct (m_ctl m), (m_shift m), (m_caps m); cbn [xorb]; rewrite ?fold_other, ?fold_small, ?fold_large by lia; lia.
  - rewrite andb_true_iff, !Z.eqb_eq. intros [Hc Hd]. destruct (m_ctl m); [|destruct (m_shift m), (m_caps m); done].
    destruct (m_caps m); [|done].
    destruct (c =? 10), (c =? 47), (c =? 92); try reflexivity. by destruct (Z.leb_spec 224 c); [|reflexivity].
Qed.

(** One key after the other. *)
Lemma zeros_filter zs : zs ⊆ [0] -> filter (fun c => c <> 0) zs = [].
Proof.
  induction zs as [|z zs IH]; intros Hz; [done|]. assert (z = 0) as -> by (specialize (Hz z); set_solver).
  rewrite filter_cons_False by lia. apply IH. set_solver.
Qed.
Lemma types1_ok e m : event_key e ∈ keys -> exists cs,
  kbd_chars (scan_codes e) (flags m) = (cs, flags (types1 e m).2) /\ filter (fun c => c <> 0) cs = (types1 e m).1.
Proof.
  intros Hk. destruct e as [k|k]; cbn [event_key] in Hk; pose proof (key_facts k Hk) as (He & Hc & _ & _);
    unfold entries in He; destruct (flags_escape m) as (_ & _ & E3 & E4).
  - destruct (press_scan k m Hk) as (zs & Hz & ->). exists (zs ++ [(pressed (number k) (flags m)).1]).
    rewrite filter_app, (zeros_filter zs Hz). cbn [app]. unfold pressed. cbn [fst snd].
    destruct k as [n c d|n x|n x]; cbn [number key_entries types1 fst snd] in *; injection He as Hs Ht Hn Hsh Hct; rewrite Hs, Ht.
    + rewrite Z.lor_0_r, Z.lxor_0_r, flags_map. split; [done|].
      assert (entry (if m_ctl m then ctlmap else if m_shift m then shiftmap else normalmap) n =
        if m_ctl m then ctl_meaning c else if m_shift m then d else c) as -> by (by destruct (m_ctl m), (m_shift m)).
      rewrite (char_meant m n c d Hc). destruct (Z.eqb_spec (meaning m c d) 0) as [->|Hne]; [done|]. by rewrite filter_cons_True.
    + rewrite Z.lxor_0_r, (proj1 (flags_hold m x)), flags_map. split; [done|].
      assert (entry (if m_ctl (hold x true m) then ctlmap else if m_shift (hold x true m) then shiftmap else normalmap) n = 0) as ->
        by (by destruct (m_ctl (hold x true m)), (m_shift (hold x true m))). by rewrite fold_case_zero.
    + rewrite Z.lor_0_r, flags_toggle, flags_map. split; [done|].
      assert (entry (if m_ctl (toggle x m) then ctlmap else if m_shift (toggle x m) then shiftmap else normalmap) n = 0) as ->
        by (by destruct (m_ctl (toggle x m)), (m_shift (toggle x m))). by rewrite fold_case_zero.
  - destruct (release_scan k m Hk) as (zs & Hz & ->). exists zs. rewrite (zeros_filter zs Hz).
    destruct k as [n c d|n x|n x]; cbn [number key_entries types1 fst snd] in *; injection He as Hs _ _ _ _; rewrite Hs; (split; [|done]); f_equal.
    1, 3: rewrite Z.lor_0_l; by destruct (n <? 128).
    destruct (flags_hold m x) as (_ & H1 & H2). by destruct (n <? 128).
Qed.
Lemma kbd_chars_app a b sh : kbd_chars (a ++ b) sh =
  let '(cs, sh) := kbd_chars a sh in let '(ds, sh) := kbd_chars b sh in (cs ++ ds, sh).
Proof.
  revert sh. induction a as [|x a IH]; intros sh; cbn [kbd_chars app]; [by destruct (kbd_chars b sh)|].
  destruct (kbdgetc (Some x) sh) as [c sh1]. rewrite IH. destruct (kbd_chars a sh1) as [cs sh2]. by destruct (kbd_chars b sh2).
Qed.


(** Shift down, "a", shift up, caps lock, "a", ctl with "c", arrow up. *)
Definition typing : list kevent :=
  let a := CharKey 30 97 65 in
  [Press (ModKey 42 Shift); Press a; Release a; Release (ModKey 42 Shift); Press (LockKey 58 Caps); Press a;
   Press (ModKey 157 Ctl); Press (CharKey 46 99 67); Release (ModKey 157 Ctl); Press (CharKey 200 226 226)].
Definition no_mods : mods := mkMods false false false false false false.

(** The Home key, 71 with the prefix, has number 199; the tables have its
    character at 151, and the key types nothing. *)
Example home_key_types_nothing : (kbd_chars [224; 71] 0).1 = [0; 0] /\ entry normalmap 151 = 224.
Proof. split; reflexivity. Qed.
