(* ===== verification/Devices.v ===== *)
(** * Serial port and interrupt controllers (uart.c, ioapic.c, picirq.c)

    The registers that the kernel programs, with the devices behind them modelled
    by their documented behaviour: a serial line that sends one character at a time
    and has a queue of received ones, and the redirection table of the I/O
    controller.  The local controllers are in [Start]. *)

From S2P Require Import Prelude Mmu Mem PageAlloc Fs Kernel Proc Syscall Console.
From stdpp Require Import base gmap list strings.
From Stdlib Require Import ZArith Lia.
#[local] Open Scope Z_scope.

(** ** The serial port *)

Definition COM1 : Z := 1016.

(** [sent] has the characters given to the line; one that is written while the
    holding register is full replaces the one in it.  [busy] is the number of times
    that the status will still be read as "full"; a character takes [u_delay]. *)
Record serial := mkSerial { sent : list Z; busy : nat; received : list Z; there : bool; uart : bool; u_trace : list (Z * Z) }.
Definition set_busy (n : nat) (s : serial) : serial := mkSerial (sent s) n (received s) (there s) (uart s) (u_trace s).
Definition set_uart (b : bool) (s : serial) : serial := mkSerial (sent s) (busy s) (received s) (there s) b (u_trace s).
Definition set_received (l : list Z) (s : serial) : serial := mkSerial (sent s) (busy s) l (there s) (uart s) (u_trace s).

Section Serial.
  Variable u_delay : nat.

Definition inb (port : Z) : M serial Z := fun s =>
  if port =? COM1 + 5 then
    if there s then
      Ret ((if decide (busy s = O) then 32 else 0) + (match received s with [] => 0 | _ => 1 end)) (set_busy (pred (busy s)) s)
    else Ret 255 s
  else if port =? COM1 then
    match received s with [] => Ret 0 s | c :: l => Ret c (set_received l s) end
  else Ret 0 s.
Definition transmit (c : Z) (s : serial) : serial :=
  mkSerial ((if decide (busy s = O) then sent s else removelast (sent s)) ++ [c]) u_delay (received s) (there s) (uart s) (u_trace s).
(** Writes to the other registers set the line up; they are recorded. *)
Definition outb (port v : Z) : M serial unit :=
  if port =? COM1 then modify (transmit (v mod 256))
  else modify (fun s => mkSerial (sent s) (busy s) (received s) (there s) (uart s) (u_trace s ++ [(port, v)])).

Fixpoint wait_empty (n : nat) : M serial unit :=
  match n with
  | O => mret tt
  | S n => st ← inb (COM1 + 5); if c_true (Z.land st 32) then mret tt else wait_empty n
  end.
Definition uartputc (c : Z) : M serial unit :=
  u ← gets uart;
  if negb u then mret tt
  else _ ← wait_empty 128; outb COM1 c.
Definition uartgetc : M serial Z :=
  u ← gets uart;
  if negb u then mret (-1)
  else
    st ← inb (COM1 + 5);
    if negb (c_true (Z.land st 1)) then mret (-1) else inb COM1.
(** The characters that [consoleintr] gets from [uartgetc]. *)
Fixpoint uart_chars (fuel : nat) : M serial (list Z) :=
  match fuel with
  | O => nofuel
  | S fuel => c ← uartgetc; if c <? 0 then mret [] else cs ← uart_chars fuel; mret (c :: cs)
  end.
Definition uartintr (s : serial) (i : input) : option (serial * input * list effect) :=
  match uart_chars (S (length (received s))) s with
  | Ret cs s' => '(i, fs) ← consoleintr cs i; Some (s', i, fs)
  | _ => None
  end.
Fixpoint uart_puts (l : list Z) : M serial unit :=
  match l with [] => mret tt | c :: l => _ ← uartputc c; uart_puts l end.
Definition xv6_banner : list Z := [120; 118; 54; 46; 46; 46; 10].
(** The divisor register is reached through [COM1] while the line is unlocked; it
    is recorded like the other registers. *)
Definition set_divisor (v : Z) : M serial unit :=
  modify (fun s => mkSerial (sent s) (busy s) (received s) (there s) (uart s) (u_trace s ++ [(COM1, v)])).
Definition uartinit : M serial bool :=
  _ ← outb (COM1 + 2) 0;
  _ ← outb (COM1 + 3) 128;
  _ ← set_divisor (115200 / 9600);
  _ ← outb (COM1 + 1) 0;
  _ ← outb (COM1 + 3) 3;
  _ ← outb (COM1 + 4) 0;
  _ ← outb (COM1 + 1) 1;
  st ← inb (COM1 + 5);
  if st =? 255 then mret false
  else
    _ ← modify (set_uart true);
    _ ← inb (COM1 + 2);
    _ ← inb COM1;
    _ ← uart_puts xv6_banner;
    mret true.

Lemma status_empty b (r : list Z) : c_true (Z.land ((if decide (b = 0%nat) then 32 else 0) + (match r with [] => 0 | _ => 1 end)) 32) = bool_decide (b = 0%nat).
Proof using. by destruct r; destruct b. Qed.
Lemma wait_empty_ok n s :
  there s = true -> (busy s < n)%nat -> wp (wait_empty n) (fun _ s' => s' = set_busy 0 s) s.
Proof using.
  revert s. induction n as [|n IH]; intros s Ht Hb; [lia|]. cbn [wait_empty]. wp_step. unfold wp at 1, inb. rewrite Z.eqb_refl, Ht, status_empty.
  case_bool_decide as E.
  - wp_step. rewrite E. done.
  - wp_use (IH (set_busy (pred (busy s)) s)); [done|cbn; lia|]. done.
Qed.
Lemma uartputc_ok c s :
  there s = true -> uart s = true -> (busy s < 128)%nat -> 0 <= c < 256 ->
  wp (uartputc c) (fun _ s' => s' = mkSerial (sent s ++ [c]) u_delay (received s) true true (u_trace s)) s.
Proof.
  intros Ht Hu Hb Hc. unfold uartputc. do 2 wp_step. rewrite Hu. cbn [negb]. wp_step. wp_use (wait_empty_ok 128 s Ht Hb). intros _ s1 ->.
  unfold outb. rewrite Z.eqb_refl. wp_step. unfold transmit. cbn [busy set_busy sent received there uart u_trace]. rewrite decide_True by done.
  by rewrite Ht, Hu, Z.mod_small.
Qed.

(** What is printed is sent, in order, if the line takes less than 128 looks at the
    status for a character. *)
Lemma uart_puts_ok l s :
  (u_delay < 128)%nat -> there s = true -> uart s = true -> (busy s < 128)%nat -> Forall (fun c => 0 <= c < 256) l ->
  exists n, wp (uart_puts l) (fun _ s' => s' = mkSerial (sent s ++ l) n (received s) true true (u_trace s)) s /\ (n < 128)%nat.
Proof.
  intros Hd. revert s. induction l as [|c l IH]; intros s Ht Hu Hb Hl.
  - exists (busy s). split; [|done]. cbn [uart_puts]. wp_step. rewrite app_nil_r. destruct s; cbn in *; by subst.
  - apply Forall_cons in Hl as [Hc Hl]. destruct (IH (mkSerial (sent s ++ [c]) u_delay (received s) true true (u_trace s))) as (n & Hw & Hn); [done|done|done|done|].
    exists n. split; [|done]. cbn [uart_puts]. wp_step. wp_use (uartputc_ok c s); [done..|]. intros _ s1 ->. wp_use Hw. intros _ s2 ->. cbn. by rewrite <-app_assoc.
Qed.
(** Setting up the line sends nothing. *)
Definition same_line (s s' : serial) : Prop := sent s' = sent s /\ busy s' = busy s /\ received s' = received s /\ there s' = there s.
Lemma same_line_trans s1 s2 s3 : same_line s1 s2 -> same_line s2 s3 -> same_line s1 s3.
Proof using. intros (? & ? & ? & ?) (? & ? & ? & ?). split_and!; congruence. Qed.
Lemma outb_same port v s : port =? COM1 = false -> wp (outb port v) (fun _ s' => same_line s s') s.
Proof. intros Hp. unfold outb. rewrite Hp. by wp_step. Qed.
Lemma divisor_same v s : wp (set_divisor v) (fun _ s' => same_line s s') s.
Proof using. done. Qed.
Lemma line_reads s : there s = true -> wp (inb (COM1 + 5)) (fun st s' => st <> 255 /\ sent s' = sent s /\ there s' = true /\ (busy s' <= busy s)%nat) s.
Proof using.
  intros Ht. unfold wp, inb. rewrite Z.eqb_refl, Ht. split; [by destruct (decide (busy s = O)), (received s)|]. cbn. split; [done|]. split; [done|lia].
Qed.
Lemma line_drains port s : port =? COM1 + 5 = false -> wp (inb port) (fun _ s' => sent s' = sent s /\ there s' = there s /\ busy s' = busy s /\ uart s' = uart s) s.
Proof using. intros Hp. unfold wp, inb. rewrite Hp. destruct (port =? COM1); [by destruct (received s)|done]. Qed.
(** A serial port that is there is found, and greets. *)
Lemma uartinit_ok s : (u_delay < 128)%nat -> there s = true -> (busy s < 128)%nat ->
  wp uartinit (fun r s' => r = true /\ uart s' = true /\ sent s' = sent s ++ xv6_banner) s.
Proof.
  intros Hd Ht Hb.
  assert (forall s0, same_line s s0 -> wp (st ← inb (COM1 + 5); if st =? 255 then mret false else
    _ ← modify (set_uart true); _ ← inb (COM1 + 2); _ ← inb COM1; _ ← uart_puts xv6_banner; mret true)
    (fun r s' => r = true /\ uart s' = true /\ sent s' = sent s ++ xv6_banner) s0) as Hgo.
  { intros s0 (H1 & H2 & _ & H4). wp_step. wp_use line_reads; [congruence|]. intros st s1 (Hst & Hs1 & Ht1 & Hb1). rewrite (proj2 (Z.eqb_neq _ _) Hst).
    do 3 wp_step. wp_use line_drains; [done|]. intros _ s2 (Hs2 & Ht2 & Hb2 & Hu2). wp_step. wp_use line_drains; [done|]. intros _ s3 (Hs3 & Ht3 & Hb3 & Hu3). cbn in Hs2, Ht2, Hb2, Hu2.
    destruct (uart_puts_ok xv6_banner s3) as (n & Hw & _); [done|congruence|congruence|lia|repeat constructor; lia|].
    wp_step. eapply wp_mono; [exact Hw|]. intros _ s4 ->. wp_step. cbn. by rewrite Hs3, Hs2, Hs1, H1. }
  unfold uartinit. wp_step. wp_use outb_same; [done|]. intros _ s1 H1. wp_step. wp_use outb_same; [done|]. intros _ s2 H2.
  wp_step. wp_use divisor_same. intros _ s3 H3. wp_step. wp_use outb_same; [done|]. intros _ s4 H4. wp_step. wp_use outb_same; [done|]. intros _ s5 H5.
  wp_step. wp_use outb_same; [done|]. intros _ s6 H6. wp_step. wp_use outb_same; [done|]. intros _ s7 H7.
  apply Hgo. repeat (eapply same_line_trans; [eassumption|]). done.
Qed.
Lemma uart_chars_ok l fuel s :
  there s = true -> uart s = true -> received s = l -> (length l < fuel)%nat -> Forall (fun c => 0 <= c) l ->
  wp (uart_chars fuel) (fun cs s' => cs = l /\ received s' = [] /\ sent s' = sent s) s.
Proof using.
  revert fuel s. induction l as [|c l IH]; intros fuel s Ht Hu Hr Hf Hl; (destruct fuel as [|fuel]; [cbn in Hf; lia|]); cbn [uart_chars].
  - wp_step. unfold uartgetc. do 2 wp_step. rewrite Hu. cbn [negb]. wp_step. unfold wp at 1, inb. rewrite Z.eqb_refl, Ht, Hr.
    assert (c_true (Z.land ((if decide (busy s = O) then 32 else 0) + 0) 1) = false) as -> by (by case_decide). cbn [negb]. wp_step. change (-1 <? 0) with true. cbv iota. by wp_step.
  - apply Forall_cons in Hl as [Hc Hl]. wp_step. unfold uartgetc. do 2 wp_step. rewrite Hu. cbn [negb]. wp_step. unfold wp at 1, inb. rewrite Z.eqb_refl, Ht, Hr.
    assert (c_true (Z.land ((if decide (busy s = O) then 32 else 0) + 1) 1) = true) as -> by (by case_decide). cbn [negb]. unfold wp at 1.
    change (COM1 =? COM1 + 5) with false. rewrite Z.eqb_refl. cbn [received set_busy]. rewrite Hr, (proj2 (Z.ltb_ge c 0)) by done. wp_step.
    wp_use (IH fuel (set_received l (set_busy (pred (busy s)) s))); [done|done|done|cbn in Hf; lia|done|]. intros cs s' (-> & H1 & H2). wp_step. done.
Qed.
End Serial.

(** ** The I/O interrupt controller *)

Definition IOAPIC : Z := 4273995776.
Definition REG_ID : Z := 0.
Definition REG_VER : Z := 1.
Definition REG_TABLE : Z := 16.
Definition INT_DISABLED : Z := 65536.

Record ioapic := mkIo { io_reg : Z; io_data : Z -> Z; io_warned : bool }.
Definition ioapicread (reg : Z) : M ioapic Z :=
  _ ← modify (fun s => mkIo reg (io_data s) (io_warned s)); gets (fun s => io_data s (io_reg s)).
Definition ioapicwrite (reg data : Z) : M ioapic unit :=
  _ ← modify (fun s => mkIo reg (io_data s) (io_warned s));
  modify (fun s => mkIo (io_reg s) (fun r => if decide (r = io_reg s) then u32 data else io_data s r) (io_warned s)).
Fixpoint disable_all (k : nat) (i : Z) : M ioapic unit :=
  match k with
  | O => mret tt
  | S k =>
      _ ← ioapicwrite (REG_TABLE + 2 * i) (Z.lor INT_DISABLED (T_IRQ0 + i));
      _ ← ioapicwrite (REG_TABLE + 2 * i + 1) 0;
      disable_all k (i + 1)
  end.
Definition ioapicinit (ioapicid : Z) : M ioapic unit :=
  v ← ioapicread REG_VER;
  let maxintr := Z.land (Z.shiftr v 16) 255 in
  v ← ioapicread REG_ID;
  let id := Z.shiftr v 24 in
  _ ← when (negb (id =? ioapicid)) (modify (fun s => mkIo (io_reg s) (io_data s) true));
  disable_all (Z.to_nat (maxintr + 1)) 0.
Definition ioapicenable (irq cpunum : Z) : M ioapic unit :=
  _ ← ioapicwrite (REG_TABLE + 2 * irq) (T_IRQ0 + irq);
  ioapicwrite (REG_TABLE + 2 * irq + 1) (Z.shiftl cpunum 24).

(** What the controller does with interrupt [irq]: nothing if the entry is masked;
    otherwise it sends the vector to a local controller. *)
Definition delivers (s : ioapic) (irq : Z) : option (Z * Z) :=
  let low := io_data s (REG_TABLE + 2 * irq) in
  if Z.testbit low 16 then None else Some (low mod 256, Z.shiftr (io_data s (REG_TABLE + 2 * irq + 1)) 24).
Definition intr_lines (s : ioapic) : Z := Z.land (Z.shiftr (io_data s REG_VER) 16) 255 + 1.

Definition wrote_io (reg data : Z) (s s' : ioapic) : Prop := forall r, io_data s' r = if decide (r = reg) then u32 data else io_data s r.
Lemma ioapicwrite_ok reg data s : wp (ioapicwrite reg data) (fun _ s' => wrote_io reg data s s') s.
Proof. unfold ioapicwrite. wp_steps. intros r. done. Qed.
Lemma masked_vector i : 0 <= i < 256 -> Z.testbit (u32 (Z.lor INT_DISABLED (T_IRQ0 + i))) 16 = true.
Proof.
  intros Hi. unfold INT_DISABLED, T_IRQ0. rewrite (lor_high_low _ _ 16) by (done || lia). rewrite u32_small by lia.
  replace (65536 + (32 + i)) with ((32 + i) + 1 * 2 ^ 16) by lia. rewrite Z.testbit_true by lia. rewrite Z.div_add by lia. rewrite Z.div_small by lia. done.
Qed.
Lemma disable_all_ok k i s :
  0 <= i -> i + Z.of_nat k <= 256 ->
  wp (disable_all k i) (fun _ s' => (forall irq, i <= irq < i + Z.of_nat k -> delivers s' irq = None) /\
    forall r, r < REG_TABLE + 2 * i \/ REG_TABLE + 2 * (i + Z.of_nat k) <= r -> io_data s' r = io_data s r) s.
Proof.
  revert i s. induction k as [|k IH]; intros i s Hi Hk; cbn [disable_all].
  - wp_step. split; [intros; lia|done].
  - wp_step. wp_use (ioapicwrite_ok (REG_TABLE + 2 * i) (Z.lor INT_DISABLED (T_IRQ0 + i)) s). intros _ s1 H1. wp_step.
    wp_use (ioapicwrite_ok (REG_TABLE + 2 * i + 1) 0 s1). intros _ s2 H2. wp_use (IH (i + 1) s2); [lia|lia|]. intros _ s3 [Ha Hb]. split.
    + intros irq Hirq. destruct (decide (irq = i)) as [->|Hne]; [|apply Ha; lia]. unfold delivers.
      rewrite Hb by lia. rewrite H2, decide_False, H1, decide_True by lia. by rewrite masked_vector by lia.
    + intros r Hr. rewrite Hb by lia. rewrite H2, H1, !decide_False by lia. done.
Qed.
Lemma ioapicenable_ok irq cpu s :
  0 <= irq < 224 -> 0 <= cpu < 256 ->
  wp (ioapicenable irq cpu) (fun _ s' => delivers s' irq = Some (T_IRQ0 + irq, cpu) /\
    (forall j, j <> irq -> delivers s' j = delivers s j)) s.
Proof.
  intros Hi Hc. unfold ioapicenable. wp_step. wp_use (ioapicwrite_ok (REG_TABLE + 2 * irq) (T_IRQ0 + irq) s). intros _ s1 H1.
  wp_use (ioapicwrite_ok (REG_TABLE + 2 * irq + 1) (Z.shiftl cpu 24) s1). intros _ s2 H2. unfold delivers, T_IRQ0 in *. split.
  - rewrite !H2, decide_False, H1, !decide_True by lia. rewrite u32_small by lia.
    assert (Z.testbit (32 + irq) 16 = false) as -> by (apply Z.testbit_false; [lia|]; by rewrite Z.div_small by lia).
    rewrite Z.shiftl_mul_pow2 by lia. change (2 ^ 24) with 16777216. rewrite u32_small by lia. rewrite Z.shiftr_div_pow2 by lia. change (2 ^ 24) with 16777216.
    rewrite Z.div_mul, Z.mod_small by lia. done.
  - intros j Hj. rewrite !H2, !H1, !decide_False by lia. done.
Qed.

(** The calls of [main] that set interrupts up: [ioapicinit], and [ioapicenable] in
    [consoleinit], in [uartinit] when it finds a serial port, and in [ideinit]. *)
Definition irq_setup (ioapicid ncpu : Z) (com1 : bool) : M ioapic unit :=
  _ ← ioapicinit ioapicid;
  _ ← ioapicenable IRQ_KBD 0;
  _ ← when com1 (ioapicenable IRQ_COM1 0);
  ioapicenable IRQ_IDE (ncpu - 1).
Lemma ioapicinit_ok id s :
  intr_lines s <= 224 -> wp (ioapicinit id) (fun _ s' => forall irq, 0 <= irq < intr_lines s -> delivers s' irq = None) s.
Proof.
  intros Hl. unfold intr_lines in *. assert (0 <= Z.land (Z.shiftr (io_data s REG_VER) 16) 255) as H0 by (apply Z.land_nonneg; by right).
  unfold ioapicinit, ioapicread. wp_steps. cbn [io_reg io_data]. set (lines := Z.land _ _) in *.
  assert (forall s0, wp (disable_all (Z.to_nat (lines + 1)) 0) (fun _ s' => forall irq, 0 <= irq < lines + 1 -> delivers s' irq = None) s0) as Hd.
  { intros s0. wp_use (disable_all_ok (Z.to_nat (lines + 1)) 0 s0); [done|lia|]. intros _ s' [Ha _] irq Hirq. apply Ha. lia. }
  apply wp_when; intros _; [wp_step|]; apply Hd.
Qed.

Lemma irq_setup_ok id ncpu com1 s :
  16 <= intr_lines s <= 224 -> 1 <= ncpu <= 8 ->
  wp (irq_setup id ncpu com1) (fun _ s' => forall irq, 0 <= irq < intr_lines s -> delivers s' irq =
      if (irq =? IRQ_KBD) || com1 && (irq =? IRQ_COM1) then Some (T_IRQ0 + irq, 0)
      else if irq =? IRQ_IDE then Some (T_IRQ0 + irq, ncpu - 1) else None) s.
Proof.
  intros Hl Hn. unfold irq_setup, IRQ_KBD, IRQ_COM1, IRQ_IDE. wp_step. wp_use (ioapicinit_ok id s); [lia|]. intros _ s1 H1. wp_step.
  wp_use (ioapicenable_ok 1 0 s1); [lia|lia|]. intros _ s2 [E2 H2]. wp_step. apply wp_when; intros ->; [wp_use (ioapicenable_ok 4 0 s2); [lia|lia|]; intros _ s3 [E3 H3]|].
  - wp_use (ioapicenable_ok 14 (ncpu - 1) s3); [lia|lia|]. intros _ s4 [E4 H4] irq Hirq.
    destruct (Z.eqb_spec irq 1) as [->|]; [by rewrite H4, H3|]. destruct (Z.eqb_spec irq 4) as [->|]; [by rewrite H4|].
    destruct (Z.eqb_spec irq 14) as [->|]; [done|]. cbn [orb andb]. rewrite H4, H3, H2 by done. by apply H1.
  - wp_use (ioapicenable_ok 14 (ncpu - 1) s2); [lia|lia|]. intros _ s4 [E4 H4] irq Hirq.
    destruct (Z.eqb_spec irq 1) as [->|]; [by rewrite H4|]. cbn [orb andb].
    destruct (Z.eqb_spec irq 14) as [->|]; [done|]. rewrite H4, H2 by done. by apply H1.
Qed.

Section Routed.
  Context `{LinkerSymbols}.
(** C35: After start-up exactly the interrupts of the keyboard, of the serial port if
    there is one, and of the disk are let through, the last one to the last processor, and each arrives with the
    vector for which [trap] calls the handler of its device. *)
Theorem interrupts_routed devsw id ncpu com1 s :
  16 <= intr_lines s <= 224 -> 1 <= ncpu <= 8 ->
  exists s', irq_setup id ncpu com1 s = Ret tt s' /\
    (forall irq, 0 <= irq < intr_lines s -> delivers s' irq =
      if (irq =? IRQ_KBD) || com1 && (irq =? IRQ_COM1) then Some (T_IRQ0 + irq, 0)
      else if irq =? IRQ_IDE then Some (T_IRQ0 + irq, ncpu - 1) else None) /\
    forall h cpu0 cr2 tf irq dest, delivers s' irq = Some (tf_trapno tf, dest) -> 0 <= irq < intr_lines s ->
      trap_cause devsw h cpu0 cr2 tf = if irq =? IRQ_KBD then kbdintr h else if irq =? IRQ_COM1 then Syscall.uartintr h else ideintr h.
Proof.
  intros Hl Hn. pose proof (irq_setup_ok id ncpu com1 s Hl Hn) as Hw.
  apply wp_Ret in Hw as ([] & s' & Hrun & Hd). exists s'. split; [done|]. split; [done|]. intros h cpu0 cr2 tf irq dest He Hirq. rewrite Hd in He by done.
  unfold IRQ_KBD, IRQ_COM1, IRQ_IDE, T_IRQ0 in *. destruct (Z.eqb_spec irq 1) as [->|]; [injection He as E _; unfold trap_cause; by rewrite <-E|].
  destruct (Z.eqb_spec irq 4) as [->|]; [destruct com1; [injection He as E _; unfold trap_cause; by rewrite <-E|done]|]. rewrite andb_false_r in He.
  destruct (Z.eqb_spec irq 14) as [->|]; [injection He as E _; unfold trap_cause; by rewrite <-E|done].
Qed.
End Routed.
Definition demo_ioapic : ioapic := mkIo 0 (fun r => if decide (r = REG_VER) then 1507345 else 0) false.
Lemma interrupts_routed_witness : exists s',
  irq_setup 0 2 true demo_ioapic = Ret tt s' /\ delivers s' 14 = Some (46, 1) /\ delivers s' 0 = None.
Proof.
  destruct (@interrupts_routed {| sym_data := 0; sym_end := 0 |}
    (fun _ => mkDev None None) 0 2 true demo_ioapic) as (s' & Hrun & Hd & _).
  - change (intr_lines demo_ioapic) with 24. lia.
  - lia.
  - exists s'. change (intr_lines demo_ioapic) with 24 in Hd. split; [exact Hrun|]. split; rewrite Hd by lia; done.
Defined.
(** The destination is the index of the processor, and not its controller's number:
    with processors 0 and 2 the disk's interrupts go to number 1, which is nobody. *)
Example interrupt_to_nobody : exists s', irq_setup 0 (Z.of_nat (length [0; 2])) true demo_ioapic = Ret tt s' /\
  exists d, delivers s' IRQ_IDE = Some (T_IRQ0 + IRQ_IDE, d) /\ d ∉ [0; 2].
Proof.
  pose proof (irq_setup_ok 0 2 true demo_ioapic) as Hw. change (intr_lines demo_ioapic) with 24 in Hw.
  specialize (Hw ltac:(lia) ltac:(lia)). destruct (proj1 (wp_Ret _ _ _) Hw) as ([] & s' & Hrun & Hd). exists s'. split; [exact Hrun|]. exists 1. split; [by rewrite Hd by (unfold IRQ_IDE; lia)|].
  rewrite !elem_of_cons, elem_of_nil. lia.
Qed.

(** ** The old interrupt controllers *)

Definition IO_PIC1 : Z := 32.
Definition IO_PIC2 : Z := 160.
(** The masks of the two controllers, from their ports. *)
Definition pic_outb (port v : Z) (masks : Z * Z) : Z * Z :=
  if port =? IO_PIC1 + 1 then (v, masks.2) else if port =? IO_PIC2 + 1 then (masks.1, v) else masks.
Definition picinit (masks : Z * Z) : Z * Z := pic_outb (IO_PIC2 + 1) 255 (pic_outb (IO_PIC1 + 1) 255 masks).
Lemma picinit_masks masks irq : 0 <= irq < 16 ->
  Z.testbit (if decide (irq < 8) then (picinit masks).1 else (picinit masks).2) (irq mod 8) = true.
Proof.
  intros Hi. unfold picinit, pic_outb. cbn. assert (0 <= irq mod 8 < 8) as Hm by dlia. case_decide; change 255 with (Z.ones 8); apply Z.ones_spec_low; lia.
Qed.
