(* ===== verification/Start.v ===== *)
(** * Starting the other processors (main.c, lapic.c, proc.c: mycpu, entryother.S)

    The boot processor gives each other one a stack, the address to continue at and
    a page table, all in fixed words below the code it copies to 0x7000, and starts
    it with messages of the local interrupt controllers; it waits for one before it
    goes on to the next, since they read the same words. *)

From S2P Require Import Prelude Mmu Mem PageAlloc Kalloc Kernel Proc Syscall.
From stdpp Require Import base gmap list strings.
From Stdlib Require Import ZArith Lia.
#[local] Open Scope Z_scope.

(** ** The local interrupt controller *)

Definition ID : Z := 32 / 4.
Definition VER : Z := 48 / 4.
Definition TPR : Z := 128 / 4.
Definition EOI : Z := 176 / 4.
Definition SVR : Z := 240 / 4.
Definition ENABLE : Z := 256.
Definition ESR : Z := 640 / 4.
Definition ICRLO : Z := 768 / 4.
Definition INIT : Z := 1280.
Definition STARTUP : Z := 1536.
Definition DELIVS : Z := 4096.
Definition ASSERT : Z := 16384.
Definition LEVEL : Z := 32768.
Definition BCAST : Z := 524288.
Definition ICRHI : Z := 784 / 4.
Definition TIMER : Z := 800 / 4.
Definition X1 : Z := 11.
Definition PERIODIC : Z := 131072.
Definition PCINT : Z := 832 / 4.
Definition LINT0 : Z := 848 / 4.
Definition LINT1 : Z := 864 / 4.
Definition ERROR : Z := 880 / 4.
Definition MASKED : Z := 65536.
Definition TICR : Z := 896 / 4.
Definition TDCR : Z := 992 / 4.
Definition IRQ_ERROR : Z := 19.

(** The registers; how often the delivery status will be read as busy; and the
    messages sent: destination and command. *)
Record lapicst := mkLa { la_on : bool; la_reg : Z -> Z; la_busy : nat; la_sent : list (Z * Z) }.

Section Lapic.
  Variable send_delay : nat.

Definition la_read (index : Z) : M lapicst Z := fun s =>
  if index =? ICRLO then
    Ret (if decide (la_busy s = O) then la_reg s ICRLO else Z.lor (la_reg s ICRLO) DELIVS)
      (mkLa (la_on s) (la_reg s) (pred (la_busy s)) (la_sent s))
  else Ret (la_reg s index) s.
Definition la_write (index value : Z) (s : lapicst) : lapicst :=
  let reg := fun i => if decide (i = index) then u32 value else la_reg s i in
  if index =? ICRLO then mkLa (la_on s) reg send_delay (la_sent s ++ [(Z.shiftr (la_reg s ICRHI) 24, u32 value)])
  else mkLa (la_on s) reg (la_busy s) (la_sent s).
Definition lapicw (index value : Z) : M lapicst unit := _ ← modify (la_write index value); _ ← la_read ID; mret tt.
Fixpoint wait_sent (fuel : nat) : M lapicst unit :=
  match fuel with
  | O => nofuel
  | S fuel => v ← la_read ICRLO; if c_true (Z.land v DELIVS) then wait_sent fuel else mret tt
  end.
Definition lapicinit : M lapicst unit :=
  on ← gets la_on;
  if negb on then mret tt
  else
    _ ← lapicw SVR (Z.lor ENABLE (T_IRQ0 + IRQ_SPURIOUS));
    _ ← lapicw TDCR X1;
    _ ← lapicw TIMER (Z.lor PERIODIC (T_IRQ0 + IRQ_TIMER));
    _ ← lapicw TICR 10000000;
    _ ← lapicw LINT0 MASKED;
    _ ← lapicw LINT1 MASKED;
    v ← la_read VER;
    _ ← when (Z.land (Z.shiftr v 16) 255 >=? 4) (lapicw PCINT MASKED);
    _ ← lapicw ERROR (T_IRQ0 + IRQ_ERROR);
    _ ← lapicw ESR 0;
    _ ← lapicw ESR 0;
    _ ← lapicw EOI 0;
    _ ← lapicw ICRHI 0;
    _ ← lapicw ICRLO (Z.lor (Z.lor BCAST INIT) LEVEL);
    _ ← wait_sent (S send_delay);
    lapicw TPR 0.
Definition lapicid : M lapicst Z :=
  on ← gets la_on;
  if negb on then mret 0 else v ← la_read ID; mret (Z.shiftr v 24).
Definition lapiceoi : M lapicst unit := on ← gets la_on; when on (lapicw EOI 0).

Lemma wait_sent_ok n s : (la_busy s <= n)%nat -> Z.land (la_reg s ICRLO) DELIVS = 0 ->
  wp (wait_sent (S n)) (fun _ s' => s' = mkLa (la_on s) (la_reg s) 0 (la_sent s)) s.
Proof using.
  revert s. induction n as [|n IH]; intros s Hb Hz; cbn [wait_sent]; wp_step; unfold wp at 1, la_read; rewrite Z.eqb_refl.
  - rewrite decide_True by lia. rewrite Hz. change (c_true 0) with false. cbv iota. wp_step. replace (pred (la_busy s)) with 0%nat by lia. done.
  - case_decide as E; [rewrite Hz, E; change (c_true 0) with false; cbv iota; by wp_step|]. rewrite Z.land_lor_distr_l, Hz. cbn [Z.lor]. change (c_true (Z.land DELIVS DELIVS)) with true. cbv iota.
    wp_use (IH (mkLa (la_on s) (la_reg s) (pred (la_busy s)) (la_sent s))); [cbn; lia|done|]. done.
Qed.
Lemma lapicw_ok index value s : wp (lapicw index value) (fun _ s' => s' = la_write index value s) s.
Proof.
  unfold lapicw. do 3 wp_step. unfold wp at 1, la_read. change (ID =? ICRLO) with false. cbv iota. by wp_step.
Qed.
(** After [lapicinit] the timer ticks, the two lines are masked and the processor
    takes interrupts. *)
Lemma lapicinit_ok s : la_on s = true ->
  wp lapicinit (fun _ s' => la_reg s' TIMER = Z.lor PERIODIC (T_IRQ0 + IRQ_TIMER) /\ la_reg s' TICR = 10000000 /\
    la_reg s' LINT0 = MASKED /\ la_reg s' LINT1 = MASKED /\ la_reg s' TPR = 0 /\
    Z.testbit (la_reg s' SVR) 8 = true /\ la_sent s' = la_sent s ++ [(0, Z.lor (Z.lor BCAST INIT) LEVEL)] /\
    la_on s' = la_on s /\ la_reg s' ID = la_reg s ID) s.
Proof.
  intros Hon. unfold lapicinit. do 2 wp_step. rewrite Hon. cbn [negb].
  do 6 (wp_step; wp_use lapicw_ok; intros _ ? ->). wp_step. unfold wp at 1, la_read. change (VER =? ICRLO) with false. cbv iota. wp_step.
  apply wp_when; intros _; [wp_use lapicw_ok; intros _ ? ->|].
  all: do 6 (wp_step; wp_use lapicw_ok; intros _ ? ->); wp_step; wp_use (wait_sent_ok send_delay); [reflexivity|reflexivity|].
  all: intros _ ? ->; wp_use lapicw_ok; intros _ ? ->; done.
Qed.
End Lapic.

(** ** The processor that runs *)

(** [mycpu]: the index in [cpus] of the running processor. *)
Fixpoint find_cpu (apicids : list Z) (apicid : Z) (i : nat) : option nat :=
  match apicids with [] => None | a :: l => if a =? apicid then Some i else find_cpu l apicid (S i) end.
Definition mycpu (interrupts : bool) (apicids : list Z) : M lapicst nat :=
  if interrupts then panic "mycpu called with interrupts enabled"
  else
    apicid ← lapicid;
    match find_cpu apicids apicid 0 with Some i => mret i | None => panic "unknown apicid" end.
Lemma find_cpu_ok l a i k : NoDup l -> l !! k = Some a -> find_cpu l a i = Some (i + k)%nat.
Proof.
  revert i k. induction l as [|x l IH]; intros i k Hnd Hk; [done|]. apply NoDup_cons in Hnd as [Hx Hnd]. cbn [find_cpu]. destruct k as [|k].
  - injection Hk as ->. rewrite Z.eqb_refl. f_equal. lia.
  - cbn in Hk. destruct (Z.eqb_spec x a) as [->|]; [by apply list_elem_of_lookup_2 in Hk|]. rewrite (IH _ k) by done. f_equal. lia.
Qed.
Lemma mycpu_ok apicids k s : la_on s = true -> NoDup apicids -> apicids !! k = Some (Z.shiftr (la_reg s ID) 24) ->
  wp (mycpu false apicids) (fun i s' => i = k /\ s' = s) s.
Proof.
  intros Hon Hnd Hk. unfold mycpu, lapicid. do 3 wp_step. rewrite Hon. cbn [negb]. wp_step. unfold wp at 1, la_read. change (ID =? ICRLO) with false. cbv iota.
  wp_step. rewrite (find_cpu_ok apicids _ 0 k) by done. by wp_step.
Qed.

(** ** The page table of the start *)

Definition PTE_PS : Z := 128.
Definition entrypgdir (i : Z) : Z :=
  if (i =? 0) || (i =? Z.shiftr KERNBASE PDXSHIFT) then Z.lor (Z.lor (Z.lor 0 PTE_P) PTE_W) PTE_PS else 0.
(** The processor with 4 MB pages: a directory entry maps all of its region. *)
Definition big_page (pgdir : Z -> Z) (va : Z) : option Z :=
  let pde := pgdir (PDX va) in
  if c_true (Z.land pde PTE_P) && c_true (Z.land pde PTE_PS) then Some (pde / 4194304 * 4194304 + va mod 4194304) else None.
Lemma entrypgdir_maps va : 0 <= va < 4194304 -> big_page entrypgdir va = Some va /\ big_page entrypgdir (KERNBASE + va) = Some va.
Proof.
  intros Hva. unfold big_page, PDX, PDXSHIFT, KERNBASE. rewrite !u32_small, !Z.shiftr_div_pow2 by lia. change (2 ^ 22) with 4194304.
  assert (va / 4194304 = 0) as -> by dlia. assert ((2147483648 + va) / 4194304 = 512) as -> by dlia. change (Z.land 0 1023) with 0. change (Z.land 512 1023) with 512.
  change (entrypgdir 0) with 131. change (entrypgdir 512) with 131. cbn [c_true]. change (c_true (Z.land 131 PTE_P) && c_true (Z.land 131 PTE_PS)) with true. cbv iota.
  change (131 / 4194304 * 4194304) with 0. split; f_equal; dlia.
Qed.

(** ** startothers *)

(** Where the linker put the code of entryother.S, its size, [mpenter] and
    [entrypgdir]. *)
Class EntrySymbols := { sym_entryother : Z; sym_entryother_size : Z; sym_mpenter : Z; sym_entrypgdir : Z }.

(** A processor that has come up: with which stack, entry point and page table. *)
Record cpu_start := mkStart { cs_apic : Z; cs_esp : Z; cs_eip : Z; cs_cr3 : Z }.
Record startst (S : Type) := mkSt { st_s : S; st_la : lapicst; st_cmos : list (Z * Z); st_up : list cpu_start }.
Arguments mkSt {S}. Arguments st_s {S}. Arguments st_la {S}. Arguments st_cmos {S}. Arguments st_up {S}.

Section Others.
  Context {S : Type} `{LinkerSymbols, PageAlloc S, EntrySymbols}.
  Variable send_delay : nat.
  Implicit Type s : startst S.

Definition st_set_s (x : S) s : startst S := mkSt x (st_la s) (st_cmos s) (st_up s).
Definition st_set_la (x : lapicst) s : startst S := mkSt (st_s s) x (st_cmos s) (st_up s).
Definition on_s {A} (m : M S A) : M (startst S) A := zoom st_s st_set_s m.
Definition on_la {A} (m : M lapicst A) : M (startst S) A := zoom st_la st_set_la m.
Definition cmos_outb (port v : Z) : M (startst S) unit := modify (fun s => mkSt (st_s s) (st_la s) (st_cmos s ++ [(port, v)]) (st_up s)).

Definition st16 (m : mem) (a v : Z) : mem := st8 (st8 m a v) (a + 1) (v / 256).
(** [microdelay] does nothing. *)
Definition microdelay (us : Z) : M (startst S) unit := mret tt.
Fixpoint startup_ipis (k : nat) (apicid addr : Z) : M (startst S) unit :=
  match k with
  | O => mret tt
  | Datatypes.S k =>
      _ ← on_la (lapicw send_delay ICRHI (Z.shiftl apicid 24));
      _ ← on_la (lapicw send_delay ICRLO (Z.lor STARTUP (Z.shiftr addr 12)));
      _ ← microdelay 200;
      startup_ipis k apicid addr
  end.
Definition lapicstartap (apicid addr : Z) : M (startst S) unit :=
  _ ← cmos_outb 112 15;
  _ ← cmos_outb 113 10;
  let wrv := P2V (Z.lor (Z.shiftl 64 4) 103) in
  _ ← on_s (upd_mem (fun m => st16 m wrv 0));
  _ ← on_s (upd_mem (fun m => st16 m (wrv + 2) (Z.shiftr addr 4)));
  _ ← on_la (lapicw send_delay ICRHI (Z.shiftl apicid 24));
  _ ← on_la (lapicw send_delay ICRLO (Z.lor (Z.lor INIT LEVEL) ASSERT));
  _ ← microdelay 200;
  _ ← on_la (lapicw send_delay ICRLO (Z.lor INIT LEVEL));
  _ ← microdelay 100;
  startup_ipis 2 apicid addr.

(** The started processor, up to the [started = 1] of [mpmain].  An INIT message
    halts it and the next STARTUP message makes it run the page that the message
    names; a second STARTUP is ignored. *)
Inductive ap_state := ApIdle | ApHalted | ApRuns (vec : Z).
Definition ap_takes (apicid : Z) (st : ap_state) (msg : Z * Z) : ap_state :=
  let (dest, cmd) := msg in
  if negb (dest =? apicid) then st
  else if (Z.land cmd 1792 =? INIT) && c_true (Z.land cmd ASSERT) then ApHalted
  else if Z.land cmd 1792 =? STARTUP then match st with ApHalted => ApRuns (Z.land cmd 255) | _ => st end
  else st.
(** The code in that page has to be entryother.S, which reads the words below it. *)
Definition is_entryother (m : mem) (code : Z) : bool :=
  forallb (fun i => ld8 m (code + i) =? ld8 m (sym_entryother + i)) (seqZ 0 sym_entryother_size).
Definition ap_runs (apicid : Z) : M (startst S) unit := fun s =>
  match fold_left (ap_takes apicid) (la_sent (st_la s)) ApIdle with
  | ApRuns vec =>
      let start := P2V (4096 * vec) in
      let m := pa_mem (st_s s) in
      if is_entryother m start then
        Ret tt (mkSt (st_s s) (st_la s) (st_cmos s)
          (st_up s ++ [mkStart apicid (ld32 m (start - 4)) (ld32 m (start - 8)) (ld32 m (start - 12))]))
      else Undef "a processor runs other bytes than entryother.S"
  | _ => Blocked "started"
  end.

(** The body and the loop of [startothers]; it runs with interrupts off. *)
Definition start_one (code apicid : Z) : M (startst S) unit :=
  stack ← on_s pa_kalloc;
  _ ← on_s (wr32 (code - 4) (stack + KSTACKSIZE));
  _ ← on_s (wr32 (code - 8) sym_mpenter);
  _ ← on_s (wr32 (code - 12) (V2P sym_entrypgdir));
  _ ← lapicstartap apicid (V2P code);
  ap_runs apicid.
Fixpoint start_loop (apicids : list Z) (code : Z) (c : list Z) (i : nat) : M (startst S) unit :=
  match c with
  | [] => mret tt
  | apicid :: c =>
      me ← on_la (mycpu false apicids);
      _ ← when (negb (Nat.eqb i me)) (start_one code apicid);
      start_loop apicids code c (Datatypes.S i)
  end.
Definition startothers (apicids : list Z) : M (startst S) unit :=
  let code := P2V 28672 in
  _ ← on_s (upd_mem (fun m => memmove m code sym_entryother sym_entryother_size));
  start_loop apicids code apicids 0.

(** ** What startothers does *)

Context `{!LinkerLayout, !PageAllocLaws S}.

(** Where the linker puts things, above the first megabyte. *)
Class EntryLayout : Prop := {
  entryother_fits : 0 <= sym_entryother_size <= 4096;
  entryother_high : KERNLINK <= sym_entryother;
  mpenter_addr : is_u32 sym_mpenter
}.
Context `{!EntryLayout}.

Lemma P2V_code : P2V 28672 = 2147512320.
Proof using. reflexivity. Qed.
(** A step of [startothers]: the pages [l] have become [l'], and memory differs only
    below the first megabyte, outside of the copied code. *)
Definition low_area (a : Z) : Prop := a < KERNLINK /\ ~ (P2V 28672 <= a < P2V 28672 + 4096).
Record on_step (s : startst S) (l : list Z) (s' : startst S) (l' : list Z) : Prop := {
  os_free : free_pages (st_s s') l';
  os_rest : same_rest (st_s s) (st_s s');
  os_mem : agree_on (fun a => ~ low_area a) (pa_mem (st_s s)) (pa_mem (st_s s'));
  os_on : la_on (st_la s') = la_on (st_la s);
  os_id : la_reg (st_la s') ID = la_reg (st_la s) ID
}.
Lemma on_step_refl s l : free_pages (st_s s) l -> on_step s l s l.
Proof. intros Hf. by split. Qed.
Lemma on_step_trans s l s1 l1 s2 l2 : on_step s l s1 l1 -> on_step s1 l1 s2 l2 -> on_step s l s2 l2.
Proof.
  intros [] []. split; [done|by etrans| |congruence|congruence]. intros a Ha. unfold agree_on in *. rewrite os_mem1 by done. auto.
Qed.
Lemma low_not_free l a : Forall page_ok l -> low_area a -> ~ (exists p, p ∈ l /\ in_page p a).
Proof.
  intros Hl [Ha _] (p & Hp & Hpa). rewrite Forall_forall in Hl. destruct (Hl p Hp) as (_ & Hp1 & _).
  pose proof data_low. pose proof end_after_data. unfold in_page in Hpa. lia.
Qed.
(** A write below the first megabyte. *)
Lemma low_write f s l : free_pages (st_s s) l -> (forall m a, ~ low_area a -> ld8 (f m) a = ld8 m a) ->
  wp (on_s (upd_mem f)) (fun _ s' => on_step s l s' l /\ pa_mem (st_s s') = f (pa_mem (st_s s)) /\ st_la s' = st_la s /\ st_up s' = st_up s) s.
Proof.
  intros Hl Hf. apply wp_zoom. apply wp_modify. destruct (free_pages_wf _ _ Hl) as [_ Hok].
  split; [|split; [apply mem_set_mem|done]]. split; cbn; [|apply same_rest_set_mem|intros a Ha; rewrite mem_set_mem; by apply Hf|done|done].
  apply free_pages_set_mem; [done|]. intros a Ha. apply Hf. intros Hlow. by apply (low_not_free l a).
Qed.
Lemma low_wr32 a v s l : free_pages (st_s s) l -> P2V 24576 <= a -> a + 4 <= P2V 28672 ->
  wp (on_s (wr32 a v)) (fun _ s' => on_step s l s' l /\ pa_mem (st_s s') = st32 (pa_mem (st_s s)) a v /\ st_la s' = st_la s /\ st_up s' = st_up s) s.
Proof.
  intros Hl Ha Ha'. apply low_write; [done|]. intros m b Hb. rewrite ld8_st32. unfold low_area in Hb. rewrite ?P2V_code in *. change (P2V 24576) with 2147508224 in *. change KERNLINK with 2148532224 in *.
  repeat case_decide; done || lia.
Qed.
(** A message: the registers other than the two of the command stay. *)
Lemma on_la_lapicw index value s l : free_pages (st_s s) l -> index <> ID ->
  wp (on_la (lapicw send_delay index value)) (fun _ s' => on_step s l s' l /\ st_s s' = st_s s /\ st_up s' = st_up s /\
    st_la s' = la_write send_delay index value (st_la s)) s.
Proof.
  intros Hl Hi. apply wp_zoom. wp_use lapicw_ok. intros _ ? ->. split; [|done].
  split; cbn; [done|done|done| |]; unfold la_write; destruct (index =? ICRLO); cbn; try done; by rewrite decide_False.
Qed.
(** Choosing the destination, and sending to it. *)
Definition sends_to (a : Z) (s : startst S) : Prop := Z.shiftr (la_reg (st_la s) ICRHI) 24 = a.
Lemma choose_dest a s l : free_pages (st_s s) l -> 0 <= a < 256 ->
  wp (on_la (lapicw send_delay ICRHI (Z.shiftl a 24))) (fun _ s' => on_step s l s' l /\ st_s s' = st_s s /\ st_up s' = st_up s /\
    la_sent (st_la s') = la_sent (st_la s) /\ sends_to a s') s.
Proof.
  intros Hl Ha. wp_use on_la_lapicw; [done|done|]. intros _ s' (Hs & Hm & Hu & Hla). repeat (split; [done|]). unfold sends_to. rewrite Hla. split; [done|].
  change (Z.shiftr (u32 (Z.shiftl a 24)) 24 = a). rewrite Z.shiftl_mul_pow2, Z.shiftr_div_pow2, u32_small by lia. dlia.
Qed.
Lemma send_ok a v s l : free_pages (st_s s) l -> sends_to a s ->
  wp (on_la (lapicw send_delay ICRLO v)) (fun _ s' => on_step s l s' l /\ st_s s' = st_s s /\ st_up s' = st_up s /\
    la_sent (st_la s') = la_sent (st_la s) ++ [(a, u32 v)] /\ sends_to a s') s.
Proof.
  intros Hl Ha. wp_use on_la_lapicw; [done|done|]. intros _ s' (Hs & Hm & Hu & Hla). repeat (split; [done|]). unfold sends_to in *. rewrite Hla, <- Ha. done.
Qed.
Lemma ap_started a sent v : v = 1543 ->
  fold_left (ap_takes a) (sent ++ [(a, u32 (Z.lor (Z.lor INIT LEVEL) ASSERT)); (a, u32 (Z.lor INIT LEVEL)); (a, u32 v); (a, u32 v)]) ApIdle = ApRuns 7.
Proof using.
  clear. intros ->. rewrite fold_left_app. generalize (fold_left (ap_takes a) sent ApIdle) as st. intros st. cbn [fold_left].
  unfold ap_takes. rewrite Z.eqb_refl. reflexivity.
Qed.
Lemma st16_frame a v b (m : mem) : ~ (a <= b < a + 2) -> ld8 (st16 m a v) b = ld8 m b.
Proof using. clear. intros Hb. unfold st16. rewrite !ld8_st8_ne by lia. done. Qed.
(** What [lapicstartap] has sent makes the processor run the page of the code. *)
Lemma lapicstartap_ok a s l : free_pages (st_s s) l -> 0 <= a < 256 ->
  wp (lapicstartap a (V2P (P2V 28672))) (fun _ s' => on_step s l s' l /\ st_up s' = st_up s /\
    agree_on (fun b => P2V 28672 - 12 <= b < P2V 28672) (pa_mem (st_s s)) (pa_mem (st_s s')) /\
    fold_left (ap_takes a) (la_sent (st_la s')) ApIdle = ApRuns 7) s.
Proof.
  intros Hl Ha. unfold lapicstartap, cmos_outb, microdelay. do 4 wp_step.
  set (s0 := mkSt _ _ _ _). assert (on_step s l s0 l) as Hs0 by (split; done).
  assert (forall o v (m : mem) b, 0 <= o <= 2 -> ~ low_area b \/ P2V 28672 - 12 <= b < P2V 28672 -> ld8 (st16 m (P2V 1127 + o) v) b = ld8 m b) as Hfr.
  { intros o v m b Ho Hb. apply st16_frame. unfold low_area in Hb. rewrite ?P2V_code in *. change (P2V 1127) with 2147484775. change KERNLINK with 2148532224 in *. lia. }
  replace (P2V (Z.lor (Z.shiftl 64 4) 103)) with (P2V 1127 + 0) by reflexivity. wp_step. wp_use (low_write _ s0 l); [done|intros; apply Hfr; [lia|by left]|]. intros _ s1 (Hs1 & Hm1 & Hla1 & Hu1).
  rewrite <- Z.add_assoc. wp_step. wp_use (low_write _ s1 l); [apply Hs1|intros; apply Hfr; [lia|by left]|]. intros _ s2 (Hs2 & Hm2 & Hla2 & Hu2).
  wp_step. wp_use (choose_dest a s2 l); [apply Hs2|done|]. intros _ s3 (Hs3 & Hm3 & Hu3 & Hm3' & Hd3).
  wp_step. wp_use (send_ok a _ s3 l); [apply Hs3|done|]. intros _ s4 (Hs4 & Hm4 & Hu4 & Hm4' & Hd4). do 2 wp_step.
  wp_step. wp_use (send_ok a _ s4 l); [apply Hs4|done|]. intros _ s5 (Hs5 & Hm5 & Hu5 & Hm5' & Hd5). do 2 wp_step.
  cbn [startup_ipis]. unfold microdelay.
  wp_step. wp_use (choose_dest a s5 l); [apply Hs5|done|]. intros _ s6 (Hs6 & Hm6 & Hu6 & Hm6' & Hd6).
  wp_step. wp_use (send_ok a _ s6 l); [apply Hs6|done|]. intros _ s7 (Hs7 & Hm7 & Hu7 & Hm7' & Hd7). do 2 wp_step.
  wp_step. wp_use (choose_dest a s7 l); [apply Hs7|done|]. intros _ s8 (Hs8 & Hm8 & Hu8 & Hm8' & Hd8).
  wp_step. wp_use (send_ok a _ s8 l); [apply Hs8|done|]. intros _ s9 (Hs9 & Hm9 & Hu9 & Hm9' & Hd9). do 3 wp_step.
  split; [repeat (eapply on_step_trans; [eassumption|]); by apply on_step_refl, Hs9|].
  split; [rewrite Hu9, Hu8, Hu7, Hu6, Hu5, Hu4, Hu3, Hu2, Hu1; done|]. split.
  - intros b Hb. rewrite Hm9, Hm8, Hm7, Hm6, Hm5, Hm4, Hm3, Hm2, Hm1, !Hfr by (lia || by right). done.
  - rewrite Hm9', Hm8', Hm7', Hm6', Hm5', Hm4', <- !app_assoc. by apply ap_started.
Qed.

Lemma is_entryother_step s l s' l' : on_step s l s' l' ->
  is_entryother (pa_mem (st_s s)) (P2V 28672) = true -> is_entryother (pa_mem (st_s s')) (P2V 28672) = true.
Proof.
  intros Hs. pose proof entryother_fits. pose proof entryother_high. unfold is_entryother. rewrite !forallb_forall. intros Hi x Hx.
  specialize (Hi x Hx). apply list_elem_of_In, elem_of_seqZ in Hx.
  rewrite !(os_mem _ _ _ _ Hs); [done| |]; unfold low_area; lia.
Qed.
Lemma three_words (m m' : mem) c v1 v2 v3 :
  agree_on (fun b => c - 12 <= b < c) (st32 (st32 (st32 m (c - 4) v1) (c - 8) v2) (c - 12) v3) m' ->
  ld32 m' (c - 4) = u32 v1 /\ ld32 m' (c - 8) = u32 v2 /\ ld32 m' (c - 12) = u32 v3.
Proof using.
  clear. intros Hag. split_and!; (erewrite (ld32_ext m'); [|intros b Hb; apply Hag; lia]).
  - rewrite !ld32_st32_ne by lia. apply ld32_st32_eq.
  - rewrite ld32_st32_ne by lia. apply ld32_st32_eq.
  - apply ld32_st32_eq.
Qed.
Lemma stack_addr (s : S) l : free_pages s l -> is_u32 (hd 0 l + KSTACKSIZE).
Proof.
  intros [_ Hok]%free_pages_wf. change KSTACKSIZE with 4096. destruct l as [|p l]; [done|]. apply Forall_cons in Hok as [(_ & Hp1 & Hp2) _]. pose proof data_low. pose proof end_after_data.
  change KERNLINK with 2148532224 in *. change (KERNBASE + PHYSTOP) with 2382364672 in Hp2. cbn [hd]. unfold is_u32. lia.
Qed.
(** How a processor comes up with the stack [p]. *)
Definition start_with (apicid p : Z) : cpu_start := mkStart apicid (p + KSTACKSIZE) sym_mpenter (V2P sym_entrypgdir).
Lemma start_one_ok a l s : free_pages (st_s s) l -> 0 <= a < 256 -> is_entryother (pa_mem (st_s s)) (P2V 28672) = true ->
  wp (start_one (P2V 28672) a) (fun _ s' => on_step s l s' (tl l) /\ st_up s' = st_up s ++ [start_with a (hd 0 l)]) s.
Proof.
  intros Hl Ha He. unfold start_one. wp_step. apply wp_zoom. wp_use kalloc_ok; [done|]. intros ? k (-> & Hk & Hl1 & Hr1).
  set (s1 := st_set_s k s). assert (on_step s l s1 (tl l)) as Hs1 by (split; [done|done|intros b _; cbn; by rewrite Hk|done|done]).
  wp_step. wp_use (low_wr32 _ _ s1 (tl l)); [done|rewrite P2V_code; done|rewrite P2V_code; done|]. intros _ s2 (Hs2 & Hm2 & _ & Hu2).
  wp_step. wp_use (low_wr32 _ _ s2 (tl l)); [apply Hs2|rewrite P2V_code; done|rewrite P2V_code; done|]. intros _ s3 (Hs3 & Hm3 & _ & Hu3).
  wp_step. wp_use (low_wr32 _ _ s3 (tl l)); [apply Hs3|rewrite P2V_code; done|rewrite P2V_code; done|]. intros _ s4 (Hs4 & Hm4 & _ & Hu4).
  wp_step. wp_use (lapicstartap_ok a s4 (tl l)); [apply Hs4|done|]. intros _ s5 (Hs5 & Hu5 & Hm5 & Hf5).
  assert (on_step s l s5 (tl l)) as Hs by (repeat (eapply on_step_trans; [eassumption|]); by apply on_step_refl, Hs5).
  rewrite Hm4, Hm3, Hm2 in Hm5. destruct (three_words _ _ _ _ _ _ Hm5) as (H4 & H8 & H12).
  unfold wp, ap_runs. rewrite Hf5. change (P2V (4096 * 7)) with (P2V 28672). rewrite (is_entryother_step _ _ _ _ Hs He). cbn [st_up]. split; [by destruct Hs; split|].
  rewrite Hu5, Hu4, Hu3, Hu2. cbn [s1 st_set_s st_up]. do 2 f_equal. unfold start_with.
  rewrite H4, H8, H12, u32_small, (u32_small sym_mpenter) by (apply mpenter_addr || by eapply stack_addr). f_equal. apply u32_small, u32_range.
Qed.
(** The loop from the [i]th processor on, when [me] is the running one. *)
Lemma start_loop_ok apicids me c i l s :
  free_pages (st_s s) l -> la_on (st_la s) = true -> NoDup apicids -> apicids !! me = Some (Z.shiftr (la_reg (st_la s) ID) 24) ->
  Forall (fun a => 0 <= a < 256) c -> is_entryother (pa_mem (st_s s)) (P2V 28672) = true ->
  let rest := if decide (i <= me)%nat then delete (me - i)%nat c else c in
  (length rest <= length l)%nat ->
  wp (start_loop apicids (P2V 28672) c i) (fun _ s' => on_step s l s' (drop (length rest) l) /\ st_up s' = st_up s ++ zip_with start_with rest l) s.
Proof.
  revert i l s. induction c as [|a c IH]; intros i l s Hl Hon Hnd Hme Hc He rest Hlen; cbn [start_loop].
  { wp_step. replace rest with (@nil Z) by (subst rest; by case_decide; destruct (me - i)%nat). cbn. rewrite app_nil_r. split; [by apply on_step_refl|done]. }
  apply Forall_cons in Hc as [Ha Hc]. wp_step. apply wp_zoom. wp_use (mycpu_ok apicids me); [done|done|done|]. intros ? ? [-> ->].
  replace (st_set_la (st_la s) s) with s by (by destruct s). wp_step.
  destruct (Nat.eqb_spec i me) as [->|Hne]; cbn [negb when].
  - wp_step. wp_use (IH (Datatypes.S me) l s); [done..| |].
    all: rewrite decide_False by lia; subst rest; rewrite decide_True, Nat.sub_diag in * by lia; cbn in *; done.
  - assert (rest = a :: if decide (Datatypes.S i <= me)%nat then delete (me - Datatypes.S i)%nat c else c) as Hr.
    { subst rest. case_decide; case_decide; try lia; [|done]. replace (me - i)%nat with (Datatypes.S (me - Datatypes.S i)) by lia. done. }
    rewrite Hr in Hlen |- *. destruct l as [|p l]; [cbn in Hlen; lia|]. wp_use (start_one_ok a (p :: l) s); [done..|].
    intros ? s1 [Hs1 Hu1]. cbn [hd tl] in Hs1, Hu1. destruct Hs1 as [Hf1 Hr1 Hm1 Hon1 Hid1] eqn:E1.
    wp_use (IH (Datatypes.S i) l s1); [done|congruence|done|congruence|done|by apply (is_entryother_step s (p :: l) s1 l)|cbn in Hlen; lia|].
    intros ? s2 [Hs2 Hu2]. split; [by eapply on_step_trans|]. rewrite Hu2, Hu1, <- app_assoc. done.
Qed.
(** Without memory a processor is started all the same, with its stack in the first
    page, where the vectors of the firmware are. *)
Lemma start_without_memory a s : free_pages (st_s s) [] -> 0 <= a < 256 -> is_entryother (pa_mem (st_s s)) (P2V 28672) = true ->
  exists s', start_one (P2V 28672) a s = Ret tt s' /\ st_up s' = st_up s ++ [mkStart a KSTACKSIZE sym_mpenter (V2P sym_entrypgdir)].
Proof.
  intros Hl Ha He. destruct (proj1 (wp_Ret _ _ _) (start_one_ok a [] s Hl Ha He)) as ([] & s' & Hr & _ & Hu). by exists s'.
Qed.
Lemma is_entryother_copied (m : mem) :
  is_entryother (memmove m (P2V 28672) sym_entryother sym_entryother_size) (P2V 28672) = true.
Proof.
  pose proof entryother_fits. pose proof entryother_high. unfold is_entryother. apply forallb_forall. intros x Hx%list_elem_of_In%elem_of_seqZ.
  rewrite !ld8_memmove, decide_True, decide_False by (rewrite ?P2V_code in *; change KERNLINK with 2148532224 in *; lia). apply Z.eqb_eq. f_equal. lia.
Qed.
Lemma stack_mapped p o : page_ok p -> p + 4096 <= KERNBASE + 4194304 -> 0 <= o < 4096 -> big_page entrypgdir (p + o) = Some (V2P (p + o)).
Proof.
  intros (_ & Hp & _) Hp' Ho. pose proof data_low. pose proof end_after_data. change KERNLINK with 2148532224 in *. change KERNBASE with 2147483648 in *.
  destruct (entrypgdir_maps (p + o - 2147483648)) as [_ Hm]; [lia|]. change KERNBASE with 2147483648 in Hm. replace (2147483648 + (p + o - 2147483648)) with (p + o) in Hm by lia.
  rewrite Hm. f_equal. unfold V2P. change KERNBASE with 2147483648. by rewrite !u32_small by (rewrite ?u32_small; lia).
Qed.
Lemma NoDup_stacks a l : NoDup l -> NoDup (cs_esp <$> zip_with start_with a l).
Proof using.
  clear. revert l. induction a as [|x a IH]; intros [|p l] Hl; cbn; try constructor; apply NoDup_cons in Hl as [Hp Hl]; [|by apply IH].
  rewrite list_elem_of_fmap. intros (c & Hc & Hin). apply elem_of_lookup_zip_with in Hin as (k & y & q & -> & _ & Hq). cbn in Hc.
  apply Hp. replace p with q by lia. by eapply list_elem_of_lookup_2.
Qed.

(** [startothers] starts every processor of [cpus] but the running one, in order
    and each exactly once: it enters [mpenter] with [entrypgdir] as its page table
    and with a stack of its own, a fresh page of [kalloc] that no other started
    processor has and that [entrypgdir] maps; the code they run is entryother.S, and
    outside of the first megabyte memory is as before. *)
Lemma startothers_ok apicids me l s :
  free_pages (st_s s) l -> la_on (st_la s) = true -> NoDup apicids -> Forall (fun a => 0 <= a < 256) apicids ->
  apicids !! me = Some (Z.shiftr (la_reg (st_la s) ID) 24) -> (length apicids <= 1 + length l)%nat ->
  (forall p, p ∈ l -> p + 4096 <= KERNBASE + 4194304) ->
  exists s', startothers apicids s = Ret tt s' /\
    st_up s' = st_up s ++ zip_with start_with (delete me apicids) l /\
    NoDup (cs_esp <$> zip_with start_with (delete me apicids) l) /\
    (forall p o, p ∈ l -> 0 <= o < 4096 -> big_page entrypgdir (p + o) = Some (V2P (p + o))) /\
    free_pages (st_s s') (drop (length apicids - 1) l) /\ same_rest (st_s s) (st_s s') /\
    agree_on (fun a => KERNLINK <= a) (pa_mem (st_s s)) (pa_mem (st_s s')).
Proof.
  intros Hl Hon Hnd Hb Hme Hlen Hp. destruct (free_pages_wf _ _ Hl) as [Hndl Hok].
  assert (length (delete me apicids) = length apicids - 1)%nat as Hdel by (apply length_delete; by eexists).
  set (k := pa_set_mem (memmove (pa_mem (st_s s)) (P2V 28672) sym_entryother sym_entryother_size) (st_s s)).
  pose proof entryother_fits as Hfit.
  assert (forall a, KERNLINK <= a -> ld8 (pa_mem k) a = ld8 (pa_mem (st_s s)) a) as Hcp.
  { intros a Ha. subst k. rewrite mem_set_mem, ld8_memmove, decide_False by (rewrite ?P2V_code; change KERNLINK with 2148532224 in *; lia). done. }
  assert (free_pages k l) as Hk.
  { apply free_pages_set_mem; [done|]. intros a (q & Hq & Hqa). rewrite Forall_forall in Hok. destruct (Hok q Hq) as (_ & Hq1 & _).
    pose proof data_low. pose proof end_after_data. unfold in_page in Hqa. specialize (Hcp a). subst k. rewrite mem_set_mem in Hcp. apply Hcp. lia. }
  assert (wp (start_loop apicids (P2V 28672) apicids 0) (fun _ s' => on_step (st_set_s k s) l s' (drop (length apicids - 1) l) /\
    st_up s' = st_up s ++ zip_with start_with (delete me apicids) l) (st_set_s k s)) as Hw.
  { rewrite <- Hdel. pose proof (start_loop_ok apicids me apicids 0 l (st_set_s k s)) as HL. rewrite decide_True, Nat.sub_0_r in HL by lia. apply HL; try done; [|lia].
    cbn [st_s st_set_s]. subst k. rewrite mem_set_mem. apply is_entryother_copied. }
  destruct (proj1 (wp_Ret _ _ _) Hw) as ([] & s' & Hr & [Hf Hsr Hm _ _] & Hu). exists s'.
  split; [exact Hr|]. split; [done|]. split; [by apply NoDup_stacks|]. split; [|split; [done|split]].
  - intros q o Hq Ho. rewrite Forall_forall in Hok. apply stack_mapped; auto.
  - etrans; [apply (same_rest_set_mem (memmove (pa_mem (st_s s)) (P2V 28672) sym_entryother sym_entryother_size))|exact Hsr].
  - intros a Ha. rewrite Hm by (unfold low_area; lia). cbn [st_s st_set_s]. by apply Hcp.
Qed.
End Others.
