(* ===== verification/Main.v ===== *)
(** * How the kernel starts (main.c, vm.c: kvmalloc and switchkvm)

    [main] on the boot processor, with the initialisers of all the parts: the first
    pages, the kernel's page table, the processors of the BIOS's table, the
    devices, the other processors, then all the other pages. *)

From S2P Require Import Prelude Mmu Mem PageAlloc Kalloc Vm VmSpace Bio Ide Kernel Proc Syscall Segments Mp Devices Start.
From stdpp Require Import base gmap list strings.
From Stdlib Require Import ZArith Lia.
#[local] Open Scope Z_scope.

(** The state: memory and processors, [kpgdir], the page table of the processor, and
    the tables and devices. *)
Record devst := mkDev {
  d_mp : mpst; d_gdt : list segdesc; d_pic : Z * Z; d_io : ioapic; d_serial : serial; d_idt : list gatedesc; d_ide : ide }.
Record mainst := mkMain { ma_st : startst kmem; ma_kpgdir : Z; ma_cr3 : Z; ma_dev : devst }.

Definition ma_set_st (x : startst kmem) (s : mainst) : mainst := mkMain x (ma_kpgdir s) (ma_cr3 s) (ma_dev s).
Definition ma_set_dev (x : devst) (s : mainst) : mainst := mkMain (ma_st s) (ma_kpgdir s) (ma_cr3 s) x.
Definition d_set_mp (x : mpst) (d : devst) : devst := mkDev x (d_gdt d) (d_pic d) (d_io d) (d_serial d) (d_idt d) (d_ide d).
Definition d_set_io (x : ioapic) (d : devst) : devst := mkDev (d_mp d) (d_gdt d) (d_pic d) x (d_serial d) (d_idt d) (d_ide d).
Definition d_set_serial (x : serial) (d : devst) : devst := mkDev (d_mp d) (d_gdt d) (d_pic d) (d_io d) x (d_idt d) (d_ide d).
Definition d_set_ide (x : ide) (d : devst) : devst := mkDev (d_mp d) (d_gdt d) (d_pic d) (d_io d) (d_serial d) (d_idt d) x.
Definition on_st {A} (m : M (startst kmem) A) : M mainst A := zoom ma_st ma_set_st m.
Definition on_dev {A} (m : M devst A) : M mainst A := zoom ma_dev ma_set_dev m.
Definition on_io {A} (m : M ioapic A) : M devst A := zoom d_io d_set_io m.

Section Main.
  Context `{LinkerLayout, EntryLayout}.
  (** How long a message and a character take; the vectors of vectors.S; what port
      0x23 reads; and whether there is a second disk. *)
  Variables (send_delay u_delay : nat) (vectors : Z -> Z) (in23 : Z) (disk1 : bool).

Definition on_kmem {A} (m : M kmem A) : M mainst A := on_st (on_s m).

Definition switchkvm : M mainst unit := modify (fun s => mkMain (ma_st s) (ma_kpgdir s) (V2P (ma_kpgdir s)) (ma_dev s)).
Definition kvmalloc : M mainst unit :=
  pgdir ← on_kmem setupkvm;
  _ ← modify (fun s => mkMain (ma_st s) pgdir (ma_cr3 s) (ma_dev s));
  switchkvm.

(** The devices; a lock that [initlock] sets up is free from the start here. *)
Definition seginit_dev : M devst unit :=
  modify (fun d => mkDev (d_mp d) (seginit (d_gdt d)) (d_pic d) (d_io d) (d_serial d) (d_idt d) (d_ide d)).
Definition picinit_dev : M devst unit :=
  modify (fun d => mkDev (d_mp d) (d_gdt d) (picinit (d_pic d)) (d_io d) (d_serial d) (d_idt d) (d_ide d)).
Definition ioapicinit_dev : M devst unit := id ← gets (fun d => ioapicid (d_mp d)); on_io (ioapicinit id).
Definition consoleinit : M devst unit := on_io (ioapicenable IRQ_KBD 0).
Definition uartinit_dev : M devst unit :=
  found ← zoom d_serial d_set_serial (uartinit u_delay);
  when found (on_io (ioapicenable IRQ_COM1 0)).
Definition pinit : M devst unit := mret tt.
Definition tvinit_dev : M devst unit :=
  modify (fun d => mkDev (d_mp d) (d_gdt d) (d_pic d) (d_io d) (d_serial d) (tvinit vectors) (d_ide d)).
Definition binit_dev : M devst unit := modify (fun d => d_set_ide (set_bc (binit FSSIZE (disk (i_bc (d_ide d)))) (d_ide d)) d).
Definition fileinit : M devst unit := mret tt.
Definition ideinit_dev : M devst unit :=
  n ← gets (fun d => ncpu (d_mp d));
  _ ← on_io (ioapicenable IRQ_IDE (n - 1));
  modify (fun d => d_set_ide (ideinit (i_bc (d_ide d)) (i_disk0 (d_ide d)) disk1) d).
(** [mpinit] reads memory, and finds the address of the local controllers. *)
Definition mpinit_main : M mainst unit :=
  m ← gets (fun s => kmem_mem (st_s (ma_st s)));
  _ ← on_dev (zoom d_mp d_set_mp (mpinit m in23));
  on ← gets (fun s => c_true (lapic (d_mp (ma_dev s))));
  on_st (on_la (modify (fun la => mkLa on (la_reg la) (la_busy la) (la_sent la)))).

(** The calls from [seginit] to [ideinit]. *)
Definition devinit : M devst unit :=
  _ ← seginit_dev;
  _ ← picinit_dev;
  _ ← ioapicinit_dev;
  _ ← consoleinit;
  _ ← uartinit_dev;
  _ ← pinit;
  _ ← tvinit_dev;
  _ ← binit_dev;
  _ ← fileinit;
  ideinit_dev.
(** [main] up to the first process. *)
Definition main : M mainst unit :=
  _ ← on_kmem (kinit1 sym_end (P2V (4 * 1024 * 1024)));
  _ ← kvmalloc;
  _ ← mpinit_main;
  _ ← on_st (on_la (lapicinit send_delay));
  _ ← on_dev devinit;
  cpus ← gets (fun s => apicids (d_mp (ma_dev s)));
  _ ← on_st (startothers send_delay cpus);
  on_kmem (kinit2 (P2V (4 * 1024 * 1024)) (P2V PHYSTOP)).

(** ** The kernel's page table and that of the start *)

(** What the processor makes of an address with a page table of 4 KB pages. *)
Definition translate (m : mem) (pgdir va : Z) : option Z :=
  let e := pt_lookup m pgdir va in if present e then Some (PTE_ADDR e + va mod 4096) else None.
Definition kernel_table (m : mem) (pgdir : Z) : Prop :=
  forall va, is_u32 va -> pt_lookup m pgdir va = kmap_lookup (fun _ => 0) Vm.kmap va.

Lemma kernel_entry_addr pa flags va : pa mod 4096 = 0 -> 0 <= pa < 4294967296 -> 0 <= flags < 4096 -> pa + va mod 4096 = va - KERNBASE ->
  (if present (Z.lor (Z.lor pa flags) PTE_P) then Some (PTE_ADDR (Z.lor (Z.lor pa flags) PTE_P) + va mod 4096) else None) = Some (va - KERNBASE).
Proof using.
  clear. intros Hal Hpa Hfl Hva. rewrite <- Z.lor_assoc, PTE_ADDR_lor, Hva by (done || by apply lor_flag_range).
  replace (present _) with true; [done|]. symmetry. apply c_true_ne. intros Hz. apply (f_equal (fun x => Z.testbit x 0)) in Hz.
  rewrite Z.land_spec, !Z.lor_spec, !orb_true_r in Hz. done.
Qed.
(** Both tables agree where the kernel is, so that it goes on after [switchkvm]. *)
Lemma tables_agree m pgdir va : kernel_table m pgdir -> KERNBASE <= va < KERNBASE + 4194304 ->
  big_page entrypgdir va = Some (va - KERNBASE) /\ translate m pgdir va = Some (va - KERNBASE).
Proof.
  intros Hk Hva. pose proof data_aligned. pose proof data_low. pose proof end_after_data. pose proof end_high.
  split.
  { replace va with (KERNBASE + (va - KERNBASE)) at 1 by lia. apply entrypgdir_maps. lia. }
  unfold translate. cbv zeta. rewrite !Hk by (unfold is_u32, KERNBASE in *; lia).
  unfold Vm.kmap. cbn [kmap_lookup virt phys_start phys_end perm]. unfold kmap_size. cbn [virt phys_start phys_end perm].
  change (V2P KERNLINK) with 1048576. change KERNLINK with 2148532224 in *. change EXTMEM with 1048576. change PHYSTOP with 234881024 in *. unfold V2P. change KERNBASE with 2147483648 in *.
  change (u32 (1048576 - 0)) with 1048576. rewrite !(u32_small sym_data), !(u32_small (sym_data - 2147483648)), !(u32_small (234881024 - _)), !(u32_small (_ - 1048576)) by lia.
  change DEVSPACE with 4261412864. repeat case_decide; try lia; apply kernel_entry_addr; change KERNBASE with 2147483648; first [done|dlia].
Qed.

(** ** The steps of main *)

(** The first pages: those between the kernel and 4 MB. *)
Definition first_pages : list Z := page_run (PGROUNDUP sym_end) (Z.to_nat ((KERNBASE + 4194304 - PGROUNDUP sym_end) / 4096)).
Definition later_pages : list Z := page_run (KERNBASE + 4194304) (Z.to_nat ((PHYSTOP - 4194304) / 4096)).
Lemma end_rounded : PGROUNDUP sym_end mod 4096 = 0 /\ sym_end <= PGROUNDUP sym_end < sym_end + 4096.
Proof.
  pose proof data_low. pose proof end_after_data. pose proof end_high. rewrite PGROUNDUP_eq. change (KERNBASE + PHYSTOP) with 2382364672 in *. change KERNLINK with 2148532224 in *.
  rewrite u32_small by lia. dlia.
Qed.
Lemma first_page p : sym_end <= KERNBASE + 4194304 -> p ∈ first_pages -> KERNLINK <= p /\ p + 4096 <= KERNBASE + 4194304.
Proof.
  intros He. pose proof data_low. pose proof end_after_data. destruct end_rounded as [Ha Hp]. unfold first_pages. rewrite elem_of_page_run. intros (i & Hi & ->).
  change KERNBASE with 2147483648 in *. split; [lia|]. dlia.
Qed.
Lemma kinit1_first k : freelist k = 0 -> sym_end <= KERNBASE + 4194304 ->
  wp (kinit1 sym_end (P2V (4 * 1024 * 1024))) (fun _ k' => use_lock k' = false /\ kmem_free k' (rev first_pages) /\
    agree_on (fun a => a < KERNLINK) (kmem_mem k) (kmem_mem k')) k.
Proof.
  intros Hk He. change (P2V (4 * 1024 * 1024)) with (KERNBASE + 4194304). wp_use kinit1_collects; [done|lia|done|]. intros _ k' (Hu & Hf & Hag).
  split; [done|]. split; [done|]. intros a Ha. apply Hag. pose proof data_low. pose proof end_after_data. destruct end_rounded. lia.
Qed.
Lemma kinit2_later k l : kmem_free k l -> sym_end <= KERNBASE + 4194304 -> (forall p, p ∈ l -> p + 4096 <= KERNBASE + 4194304) ->
  wp (kinit2 (P2V (4 * 1024 * 1024)) (P2V PHYSTOP)) (fun _ k' => use_lock k' = true /\ kmem_free k' (rev later_pages ++ l) /\
    agree_on (fun a => a < KERNBASE + 4194304) (kmem_mem k) (kmem_mem k')) k.
Proof.
  intros Hk He Hl. unfold kinit2, freerange. change (PGROUNDUP (P2V (4 * 1024 * 1024))) with (KERNBASE + 4194304). change (P2V PHYSTOP) with (KERNBASE + PHYSTOP).
  replace ((KERNBASE + PHYSTOP - (KERNBASE + 4194304)) / PGSIZE) with ((PHYSTOP - 4194304) / 4096) by reflexivity. wp_step.
  wp_use (freerange_loop_free k l); [done|rewrite Z2Nat.id; done| |].
  - intros q Hq. apply elem_of_page_run in Hq as (i & Hi & ->). rewrite Z2Nat.id in Hi by done. change ((PHYSTOP - 4194304) / 4096) with 56320 in Hi.
    unfold page_ok. change PHYSTOP with 234881024. change KERNBASE with 2147483648 in *. split; [split; [dlia|lia]|]. intros Hq%Hl. lia.
  - intros _ k' (Hk' & Hu & Hag). wp_step. done.
Qed.
Lemma all_pages : sym_end <= KERNBASE + 4194304 ->
  first_pages ++ later_pages = page_run (PGROUNDUP sym_end) (Z.to_nat ((KERNBASE + PHYSTOP - PGROUNDUP sym_end) / 4096)).
Proof.
  intros He. destruct end_rounded as [Ha Hp]. unfold first_pages, later_pages.
  assert (0 <= KERNBASE + 4194304 - PGROUNDUP sym_end /\ (KERNBASE + 4194304 - PGROUNDUP sym_end) mod 4096 = 0) as [Hd Hm].
  { change KERNBASE with 2147483648 in *. dlia. }
  set (d := KERNBASE + 4194304 - PGROUNDUP sym_end) in *. replace (KERNBASE + PHYSTOP - PGROUNDUP sym_end) with (d + (PHYSTOP - 4194304)) by lia.
  replace ((d + (PHYSTOP - 4194304)) / 4096) with (d / 4096 + (PHYSTOP - 4194304) / 4096) by (change PHYSTOP with 234881024; dlia).
  rewrite Z2Nat.inj_add, page_run_app by (change PHYSTOP with 234881024; dlia). rewrite Z2Nat.id by dlia.
  assert (PGROUNDUP sym_end + 4096 * (d / 4096) = KERNBASE + 4194304) as -> by (subst d; dlia). reflexivity.
Qed.

(** ** The devices *)

Definition kept (d d' : devst) : Prop := d_mp d' = d_mp d /\ d_serial d' = d_serial d /\ d_io d' = d_io d.
Definition simple (m : M devst unit) : Prop := forall d, wp m (fun _ d' => kept d d') d.
Lemma table_inits : simple seginit_dev /\ simple picinit_dev /\ simple pinit /\ simple tvinit_dev /\ simple binit_dev /\ simple fileinit.
Proof. done. Qed.
(** Which interrupts are let through, with which vector, and to which processor. *)
Definition routed (lines n : Z) (io : ioapic) : Prop := forall irq, 0 <= irq < lines -> delivers io irq =
  if (irq =? IRQ_KBD) || (irq =? IRQ_COM1) then Some (T_IRQ0 + irq, 0) else if irq =? IRQ_IDE then Some (T_IRQ0 + irq, n - 1) else None.
Lemma enable_dev irq cpu d : 0 <= irq < 224 -> 0 <= cpu < 256 ->
  wp (on_io (ioapicenable irq cpu)) (fun _ d' => d_mp d' = d_mp d /\ d_serial d' = d_serial d /\
    forall j, delivers (d_io d') j = if decide (j = irq) then Some (T_IRQ0 + irq, cpu) else delivers (d_io d) j) d.
Proof.
  intros Hi Hc. apply wp_zoom. wp_use ioapicenable_ok; [done|done|]. intros _ io [H3 H4]. split; [done|]. split; [done|]. intros j. cbn. case_decide; [by subst|auto].
Qed.
Lemma devinit_ok d : (u_delay < 128)%nat -> 16 <= intr_lines (d_io d) <= 224 -> 1 <= ncpu (d_mp d) <= 8 -> there (d_serial d) = true -> (busy (d_serial d) < 128)%nat ->
  wp devinit (fun _ d' => d_mp d' = d_mp d /\ routed (intr_lines (d_io d)) (ncpu (d_mp d)) (d_io d') /\ sent (d_serial d') = sent (d_serial d) ++ xv6_banner) d.
Proof.
  intros Hu Hl Hn Ht Hb. destruct table_inits as (Hseg & Hpic & Hp & Htv & Hbi & Hfi). unfold devinit.
  wp_step. wp_use Hseg. intros _ d1 (E1 & F1 & G1). wp_step. wp_use Hpic. intros _ d2 (E2 & F2 & G2).
  wp_step. unfold ioapicinit_dev. do 2 wp_step. apply wp_zoom. wp_use ioapicinit_ok; [rewrite G2, G1; lia|]. intros _ io Hio. rewrite G2, G1 in Hio.
  set (d3 := d_set_io io d2). assert (d_mp d3 = d_mp d /\ d_serial d3 = d_serial d /\ d_io d3 = io) as (E3 & F3 & G3) by (split; [cbn; congruence|split; [cbn; congruence|done]]).
  clearbody d3. wp_step. wp_use (enable_dev IRQ_KBD 0); [done|done|]. intros _ d4 (E4 & F4 & G4).
  wp_step. unfold uartinit_dev. wp_step. apply wp_zoom. wp_use uartinit_ok; [done|congruence|congruence|]. intros ? ser (-> & _ & Hsent). cbn [when].
  set (d5 := d_set_serial ser d4). assert (d_mp d5 = d_mp d4 /\ d_serial d5 = ser /\ d_io d5 = d_io d4) as (E5 & F5 & G5) by done. clearbody d5.
  wp_use (enable_dev IRQ_COM1 0); [done|done|]. intros _ d6 (E6 & F6 & G6).
  wp_step. wp_use Hp. intros _ d7 (E7 & F7 & G7). wp_step. wp_use Htv. intros _ d8 (E8 & F8 & G8). wp_step. wp_use Hbi. intros _ d9 (E9 & F9 & G9).
  wp_step. wp_use Hfi. intros _ d10 (E10 & F10 & G10). unfold ideinit_dev. do 3 wp_step.
  replace (ncpu (d_mp d10)) with (ncpu (d_mp d)) by congruence. wp_use (enable_dev IRQ_IDE (ncpu (d_mp d) - 1)); [done|lia|]. intros _ d11 (E11 & F11 & G11).
  wp_step. cbn [d_set_ide d_mp d_io d_serial]. split; [congruence|]. split; [|rewrite F11, F10, F9, F8, F7, F6, F5, Hsent; congruence].
  intros irq Hirq. rewrite G11, G10, G9, G8, G7, G6, G5, G4, G3, Hio by done. clear. unfold IRQ_IDE, IRQ_COM1, IRQ_KBD.
  repeat case_decide; subst; try done. rewrite !(proj2 (Z.eqb_neq irq _)) by done. done.
Qed.

(** ** Memory *)

(** [kvmalloc] with more than 513 free pages. *)
Lemma kvmalloc_ok s l : kmem_free (st_s (ma_st s)) l -> (513 < length l)%nat ->
  wp kvmalloc (fun _ s' => exists pgdir k l', s' = mkMain (st_set_s k (ma_st s)) pgdir (V2P pgdir) (ma_dev s) /\
    kvm_inv pgdir l k l' /\ l' `suffix_of` l /\ kernel_table (kmem_mem k) pgdir /\
    agree_on (fun a => a < KERNLINK) (kmem_mem (st_s (ma_st s))) (kmem_mem k)) s.
Proof.
  intros Hl Hlen. unfold kvmalloc, switchkvm. wp_step. apply wp_zoom, wp_zoom. wp_use (setupkvm_ok (st_s (ma_st s)) l); [done|].
  intros pgdir k (l' & _ & Hag & [(_ & _ & _ & Hbad)|(_ & _ & Hi & Hsf & Hk)]); [lia|]. do 3 wp_step. exists pgdir, k, l'.
  split; [done|]. split; [done|]. split; [done|]. split; [done|]. intros a Ha. apply Hag. intros (q & Hq & Hqa).
  destruct Hl as (_ & _ & _ & Hok). rewrite Forall_forall in Hok. destruct (Hok q Hq) as (_ & Hq1 & _).
  pose proof data_low. pose proof end_after_data. unfold in_page in Hqa. lia.
Qed.

(** Memory that agrees on the first pages holds the same page table. *)
Lemma kvm_keeps pgdir k l m' : kvm_inv pgdir (rev first_pages) k l -> sym_end <= KERNBASE + 4194304 ->
  agree_on (fun a => KERNLINK <= a < KERNBASE + 4194304) (kmem_mem k) m' ->
  all_tables m' pgdir = all_tables (kmem_mem k) pgdir /\ forall va, pt_lookup m' pgdir va = pt_lookup (kmem_mem k) pgdir va.
Proof.
  intros Hi He Hag.
  assert (agree_on (pt_byte (kmem_mem k) pgdir) (kmem_mem k) m') as Hpt.
  { intros a Ha. apply Hag. assert (exists q, q ∈ first_pages /\ in_page q a) as (q & Hq & Hqa).
    { assert (forall q, q ∈ pgdir :: all_tables (kmem_mem k) pgdir ++ l -> q ∈ first_pages) as Hin.
      { intros q Hq. rewrite (ki_pages _ _ _ _ Hi) in Hq. by rewrite list_elem_of_In, <- in_rev, <- list_elem_of_In in Hq. }
      apply pt_byte_tables in Ha as [Ha|(q & Hq & Ha)]; [exists pgdir|exists q]; (split; [apply Hin|done]); set_solver. }
    apply first_page in Hq; [|done]. unfold in_page in Hqa. lia. }
  split; [|intros va; by apply (pt_lookup_agree _ _ _ l); [apply Hi|]].
  rewrite <- !all_tables_eq. apply tables_ext. intros j Hj. apply (pt_at_agree _ _ _ l); [apply Hi| |rewrite Z2Nat.id in Hj by done; unfold NPDENTRIES in Hj; lia].
  intros a Ha. apply Hpt. by left.
Qed.
Lemma first_pages_many : sym_end <= KERNBASE + 2056192 -> (522 <= length (rev first_pages))%nat.
Proof.
  intros He. destruct end_rounded as [Ha Hp]. rewrite length_rev. unfold first_pages. rewrite length_page_run. change KERNBASE with 2147483648 in *. dlia.
Qed.

(** ** The whole of main *)

(** The machine: what the BIOS says, and the state of the devices, at the start. *)
Record machine_on (k : kmem) (la : lapicst) (d : devst) (mp conf : Z) (l : list entry) (me : nat) : Prop := {
  mo_fresh : freelist k = 0;
  mo_table : machine (kmem_mem k) mp conf l;
  mo_low : table_below (kmem_mem k) KERNLINK mp conf;
  mo_lapic : conf_lapicaddr (kmem_mem k) conf <> 0;
  mo_distinct : NoDup (take 8 (processors l));
  mo_me : take 8 (processors l) !! me = Some (Z.shiftr (la_reg la ID) 24);
  mo_mp : exists a, d_mp d = mkMp 0 [] a [];
  mo_lines : 16 <= intr_lines (d_io d) <= 224;
  mo_serial : there (d_serial d) = true /\ (busy (d_serial d) < 128)%nat /\ (u_delay < 128)%nat
}.
(** The state that [main] leaves. *)
Record started (cpus : list Z) (me : nat) (lines : Z) (s : mainst) (stacks free : list Z) : Prop := {
  sd_table : kernel_table (kmem_mem (st_s (ma_st s))) (ma_kpgdir s);
  sd_cr3 : ma_cr3 s = V2P (ma_kpgdir s);
  sd_up : st_up (ma_st s) = zip_with start_with (delete me cpus) stacks;
  sd_len : length stacks = (length cpus - 1)%nat;
  sd_low p : p ∈ stacks -> p + 4096 <= KERNBASE + 4194304;
  sd_free : kmem_free (st_s (ma_st s)) free;
  sd_lock : use_lock (st_s (ma_st s)) = true;
  sd_routed : routed lines (Z.of_nat (length cpus)) (d_io (ma_dev s));
  sd_pages : ma_kpgdir s :: all_tables (kmem_mem (st_s (ma_st s))) (ma_kpgdir s) ++ stacks ++ free ≡ₚ first_pages ++ later_pages
}.
Lemma mpinit_main_ok s k la d mp conf l me : machine_on k la d mp conf l me -> ma_dev s = d -> st_la (ma_st s) = la ->
  agree_on (fun a => a < KERNLINK) (kmem_mem k) (kmem_mem (st_s (ma_st s))) ->
  wp mpinit_main (fun _ s' => exists mp', s' = mkMain (st_set_la (mkLa true (la_reg la) (la_busy la) (la_sent la)) (ma_st s)) (ma_kpgdir s) (ma_cr3 s) (d_set_mp mp' d) /\
    apicids mp' = take 8 (processors l)) s.
Proof.
  intros Hmo <- <- Hag. destruct (mo_mp _ _ _ _ _ _ _ Hmo) as [a Ha].
  destruct (machine_agree _ _ KERNLINK Hag mp conf l (mo_low _ _ _ _ _ _ _ Hmo) (mo_table _ _ _ _ _ _ _ Hmo)) as [Hm Hla].
  unfold mpinit_main. do 2 wp_step. wp_step. apply wp_zoom, wp_zoom. apply wp_Ret. rewrite Ha.
  eexists tt, _. split; [exact (mpinit_ok _ in23 mp conf l a Hm)|]. do 2 wp_step. cbn [ma_dev ma_set_dev d_set_mp d_mp lapic].
  rewrite c_true_ne by (rewrite Hla; apply Hmo). apply wp_zoom, wp_zoom. wp_step. eexists. split; [done|]. done.
Qed.
Lemma pages_perm (p : Z) T l f g n : p :: T ++ l ≡ₚ rev f -> p :: T ++ take n l ++ rev g ++ drop n l ≡ₚ f ++ g.
Proof using.
  clear. intros Hp. transitivity (rev f ++ g); [|by rewrite <- Permutation_rev]. rewrite <- Hp, <- (take_drop n l) at 1.
  rewrite <- Permutation_rev, take_drop. rewrite <- (take_drop n l) at 3. solve_Permutation.
Qed.
(** The last part: the other processors and the other pages. *)
Lemma main_rest_ok s pgdir k l2 la cpus me lines :
  s = mkMain (mkSt k la [] []) pgdir (V2P pgdir) (ma_dev s) -> kvm_inv pgdir (rev first_pages) k l2 -> l2 `suffix_of` rev first_pages -> kernel_table (kmem_mem k) pgdir ->
  sym_end <= KERNBASE + 2056192 -> la_on la = true -> NoDup cpus -> Forall (fun a => 0 <= a < 256) cpus -> cpus !! me = Some (Z.shiftr (la_reg la ID) 24) -> (length cpus <= 8)%nat ->
  routed lines (Z.of_nat (length cpus)) (d_io (ma_dev s)) ->
  wp (_ ← on_st (startothers send_delay cpus); on_kmem (kinit2 (P2V (4 * 1024 * 1024)) (P2V PHYSTOP)))
    (fun _ s' => exists stacks free, started cpus me lines s' stacks free) s.
Proof.
  intros Es Hi Hsf Hkt He Hon Hnd Hb Hme Hn Hro. rewrite Es. assert (sym_end <= KERNBASE + 4194304) as He' by lia. pose proof (first_pages_many He) as Hmany. pose proof (kvm_pages _ _ _ _ Hi) as Hl2.
  assert (forall p, p ∈ l2 -> p + 4096 <= KERNBASE + 4194304) as Hlow.
  { intros p Hp. apply first_page; [done|]. destruct Hsf as [l3 Hl3]. rewrite list_elem_of_In, in_rev, <- list_elem_of_In, Hl3, elem_of_app. right. exact Hp. }
  wp_step. apply wp_zoom. apply wp_Ret.
  destruct (startothers_ok send_delay cpus me l2 (mkSt k la [] [])) as (st4 & Hrun & Hup & _ & _ & Hf4 & _ & Hag4); [apply Hi|done|done|done|done|lia|done|].
  exists tt, st4. split; [exact Hrun|]. apply wp_zoom, wp_zoom. set (n := (length cpus - 1)%nat) in *.
  wp_use (kinit2_later _ (drop n l2)); [exact Hf4|done|intros p Hp; apply Hlow; rewrite <- (take_drop n l2), elem_of_app; right; exact Hp|]. intros _ k5 (Hul & Hf5 & Hag5).
  assert (agree_on (fun a => KERNLINK <= a < KERNBASE + 4194304) (kmem_mem k) (kmem_mem k5)) as Hag.
  { intros a Ha. rewrite Hag5 by lia. apply Hag4. lia. }
  destruct (kvm_keeps pgdir k l2 (kmem_mem k5) Hi He' Hag) as [Htab Hpt].
  exists (take n l2), (rev later_pages ++ drop n l2). split; cbn.
  - intros va Hva. rewrite Hpt. by apply Hkt.
  - done.
  - rewrite Hup. cbn. symmetry. apply zip_with_take_r'. rewrite length_delete by (by eexists). lia.
  - rewrite length_take. lia.
  - intros p Hp. apply Hlow. rewrite <- (take_drop n l2), elem_of_app. left. exact Hp.
  - done.
  - done.
  - exact Hro.
  - rewrite Htab. apply pages_perm, Hi.
Qed.
Lemma main_ok k la cr3 d mp conf l me :
  machine_on k la d mp conf l me -> sym_end <= KERNBASE + 2056192 ->
  wp main (fun _ s' => exists stacks free, started (take 8 (processors l)) me (intr_lines (d_io d)) s' stacks free) (mkMain (mkSt k la [] []) 0 cr3 d).
Proof.
  intros Hmo He. assert (sym_end <= KERNBASE + 4194304) as He' by lia. pose proof (first_pages_many He) as Hmany.
  set (cpus := take 8 (processors l)). assert (length cpus <= 8)%nat as Hn by (subst cpus; rewrite length_take; lia).
  assert (Forall (fun a => 0 <= a < 256) cpus) as Hb by (apply Forall_take; eapply processors_range, Hmo).
  assert (1 <= length cpus)%nat as Hn1 by (pose proof (lookup_lt_Some _ _ _ (mo_me _ _ _ _ _ _ _ Hmo)); subst cpus; lia).
  unfold main. wp_step. apply wp_zoom, wp_zoom. wp_use kinit1_first; [apply Hmo|done|]. intros _ k1 (_ & Hk1 & Hag1).
  wp_step. wp_use (kvmalloc_ok _ (rev first_pages)); [exact Hk1|lia|]. intros _ ? (pgdir & k2 & l2 & -> & Hi & Hsf & Hkt & Hag2).
  wp_step. wp_use (mpinit_main_ok _ k la d mp conf l me Hmo); [done|done|intros a Ha; cbn; rewrite Hag2 by done; by apply Hag1|]. intros _ ? (mp' & -> & Hcpus).
  wp_step. apply wp_zoom, wp_zoom. wp_use lapicinit_ok; [done|]. intros _ la3 (_ & _ & _ & _ & _ & _ & _ & Hon3 & Hid3).
  destruct (mo_serial _ _ _ _ _ _ _ Hmo) as (Ht & Hbz & Hu). wp_step. apply wp_zoom.
  wp_use devinit_ok; [done|apply Hmo|cbn; unfold ncpu; rewrite Hcpus; fold cpus; lia|done|done|]. intros _ d' (Hmp & Hro & _). do 2 wp_step. cbn [ma_dev ma_set_dev].
  rewrite Hmp. cbn [d_mp d_set_mp ma_dev ma_set_st] in *. rewrite Hcpus. fold cpus.
  eapply main_rest_ok; [reflexivity|exact Hi|done|done|done|exact Hon3|apply Hmo|done|cbn in Hid3; rewrite Hid3; apply Hmo|done|].
  cbn. unfold ncpu in Hro. cbn in Hro. by rewrite Hcpus in Hro.
Qed.

(** C7: The kernel starts.  On a machine that the BIOS describes in a valid table in
    low memory, and with a kernel that ends below 0x801f6000, [main] gets to its
    first process.  The page table in use then maps the kernel's half of the address
    space and nothing else, and it agrees with the page table of the start where the
    kernel runs.  Every other processor of the table, up to the eighth, has been
    started once, with a page below 4 MB as its stack, which the page table of the
    start maps.  Exactly the interrupts of keyboard, serial port and disk are let
    through.  And every page between the kernel and the end of memory is in exactly
    one place: page table, stacks, or free list. *)
Theorem main_starts k la cr3 d mp conf l me :
  machine_on k la d mp conf l me -> sym_end <= KERNBASE + 2056192 ->
  let cpus := take 8 (processors l) in
  exists s kpgdir stacks free, main (mkMain (mkSt k la [] []) 0 cr3 d) = Ret tt s /\
    ma_kpgdir s = kpgdir /\ ma_cr3 s = V2P kpgdir /\ let m := kmem_mem (st_s (ma_st s)) in
    kernel_table m kpgdir /\
    (forall va, KERNBASE <= va < KERNBASE + 4194304 -> translate m kpgdir va = big_page entrypgdir va /\ big_page entrypgdir va = Some (va - KERNBASE)) /\
    st_up (ma_st s) = zip_with start_with (delete me cpus) stacks /\ length stacks = (length cpus - 1)%nat /\
    (forall p, p ∈ stacks -> p + 4096 <= KERNBASE + 4194304) /\
    routed (intr_lines (d_io d)) (Z.of_nat (length cpus)) (d_io (ma_dev s)) /\
    kmem_free (st_s (ma_st s)) free /\ use_lock (st_s (ma_st s)) = true /\
    kpgdir :: all_tables m kpgdir ++ stacks ++ free ≡ₚ page_run (PGROUNDUP sym_end) (Z.to_nat ((KERNBASE + PHYSTOP - PGROUNDUP sym_end) / 4096)).
Proof.
  intros Hmo He cpus. destruct (proj1 (wp_Ret _ _ _) (main_ok k la cr3 d mp conf l me Hmo He)) as ([] & s & Hrun & stacks & free & [Ht Hcr Hup Hlen Hlow Hf Hlk Hro Hpg]).
  rewrite all_pages in Hpg by lia. exists s, (ma_kpgdir s), stacks, free. split; [exact Hrun|]. split; [done|]. split; [exact Hcr|]. split; [exact Ht|]. split.
  - intros va Hva. destruct (tables_agree _ _ va Ht Hva) as [-> ->]. done.
  - split; [exact Hup|]. split; [exact Hlen|]. split; [exact Hlow|]. split; [exact Hro|]. split; [exact Hf|]. split; [exact Hlk|exact Hpg].
Qed.
End Main.

#[local] Instance demo_entry : EntrySymbols := {| sym_entryother := 0x8010a48c; sym_entryother_size := 138; sym_mpenter := 0x80102e70; sym_entrypgdir := 0x80109000 |}.
#[local] Instance demo_entry_layout : EntryLayout.
Proof. split; done. Qed.
Definition demo_kmem : kmem := mkKmem false false 0 bios.
Definition demo_lapic : lapicst := mkLa false (fun _ => 0) 0 [].
Definition demo_dev : devst :=
  mkDev (mkMp 0 [] 0 []) blank_gdt (0, 0) demo_ioapic (mkSerial [] 0 [] true false []) [] (ideinit (mkCache [] [] false 0 ∅ []) ∅ false).
Lemma bios_below : table_below bios KERNLINK (P2V 983040) (P2V 987136).
Proof.
  split; [done| |vm_compute; done|vm_compute; done]. intros p Hp. unfold all_places in Hp.
  change (16 * (256 * ld8 bios (P2V 1024 + 15) + ld8 bios (P2V 1024 + 14)) =? 0) with true in Hp.
  change (u32 (1024 * (256 * ld8 bios (P2V 1024 + 20) + ld8 bios (P2V 1024 + 19)) - 1024)) with 4294966272 in Hp.
  cbv iota in Hp. change KERNLINK with 2148532224. unfold places in Hp. rewrite elem_of_app, !list_elem_of_fmap in Hp.
  destruct Hp as [(j & -> & Hj)|(j & -> & Hj)]; apply elem_of_seqZ in Hj.
  - change (P2V 4294966272) with 2147482624. change (1024 / 16) with 64 in Hj. lia.
  - change (P2V 983040) with 2148466688. change (65536 / 16) with 4096 in Hj. lia.
Qed.
Lemma demo_machine : machine_on 3 demo_kmem demo_lapic demo_dev (P2V 983040) (P2V 987136) [Processor 0; Processor 1; IoApic 2] 0.
Proof.
  split; [done|exact bios_machine|exact bios_below|vm_compute; done| |done|by exists 0|vm_compute; done|].
  - apply (bool_decide_unpack _). vm_compute. exact I.
  - split; [done|]. cbn. lia.
Qed.
(** Two processors: the first starts the second. *)
Lemma main_starts_witness : exists s p, main 3 3 (fun n => 2148532224 + n) 0 true (mkMain (mkSt demo_kmem demo_lapic [] []) 0 0 demo_dev) = Ret tt s /\
  st_up (ma_st s) = [start_with 1 p] /\ delivers (d_io (ma_dev s)) 14 = Some (46, 1).
Proof.
  destruct (main_starts 3 3 (fun n => 2148532224 + n) 0 true demo_kmem demo_lapic 0 demo_dev (P2V 983040) (P2V 987136) [Processor 0; Processor 1; IoApic 2] 0 demo_machine)
    as (s & kpgdir & stacks & free & Hr & _ & _ & _ & _ & Hu & Hlen & _ & Hro & _).
  - change (KERNBASE + 2056192) with 2149539840. cbn. lia.
  - destruct stacks as [|p [|q stacks]]; try discriminate Hlen. exists s, p. split; [exact Hr|]. split; [exact Hu|].
    change (intr_lines (d_io demo_dev)) with 24 in Hro. apply (Hro 14). lia.
Defined.
